(* ===== verification/_CoqProject ===== *)
-Q . S2P
Prelude.v
GoStrings.v
GoRegex.v
GoJSON.v
Types.v
GoJSONText.v
GoJSONStruct.v
GoFloat.v
Normalize.v
Think.v
Breaker.v
Health.v
Retry.v
Vendor.v
RateLimit.v
Telemetry.v
Stats.v
Usage.v
Hooks.v
Content.v
Redact.v
EventBus.v
OpenAI.v
Schema.v
Stream.v
Client.v
StallGuard.v
Chat.v
Bridge.v
ChatModel.v
Wire.v
EnvConfig.v
Tools.v
Session.v
History.v
Agent.v
React.v
FileOps.v
Logs.v
HttpTools.v
Filter.v
Terminal.v
Server.v
System.v
ToolLoop.v
Endpoints.v
Lifecycle.v
Markup.v
Frontend.v
Site.v
