(* ===== verification/Prelude.v ===== *)
(** * MiniGoAgent: a verification development

    ** The program

    MiniGoAgent is a chat server in Go with an agent that calls tools. A
    request goes through these parts.

    - [main.go] and [internal/server]: HTTP handlers. They read the
      conversation from the session manager ([internal/session]), run the
      agent, and append the turn.
    - [internal/adk]: the runner around the agent framework: guardrails, the
      tool registry and the tool executor ([internal/adk/tool]), the middleware
      chain, events, and the bridge that makes the protocol client a chat model
      of the framework ([internal/adk/llm], [internal/adk/convert]).
    - [protocol]: the client of OpenAI-compatible vendors. A request is
      normalized, long messages are compressed, the body is built with the
      vendor's reasoning fields, the rate limiter is asked, and the request is
      sent with retries behind a circuit breaker. A streamed answer is read
      event by event, inline reasoning is split off, tool calls are
      reassembled, and chunks are delivered on a channel and published on an
      event bus. When a connection is lost before anything was delivered, the
      client reconnects, rotates keys or fails over.
    - [tools]: the tools themselves.

    ** Files

    - [Prelude]: scope and notations, 64-bit integers, tactics, hint
      databases, lemmas on lists, options and integers. [GoStrings],
      [GoRegex], [GoJSON], [GoJSONText], [GoJSONStruct]: what the sources use of
      Go's [strings], [strconv], [regexp] and [encoding/json] (validity, the
      text of a value and its parsing, and decoding into structs). [GoFloat]:
      rounding to 64-bit floats and the verbs that print them.
    - [Types]: the data of [protocol/types.go], errors with [errors.Is] and
      [errors.As].
    - [Normalize]: [protocol/normalize.go]. [Think]: [protocol/think.go].
    - [Breaker]: the circuit breaker of [protocol/types.go] and the state of
      [protocol/health_check.go]. [Health]: the goroutines of
      [protocol/health_check.go] and [protocol/health_manager.go]. [Retry]:
      [protocol/retry.go]. [RateLimit]: [protocol/ratelimit.go]. [Vendor]:
      [protocol/host.go], [vendor_policy.go], [failover.go],
      [url_validator.go]. [Telemetry]: [protocol/telemetry.go], and [Stats] its
      two formatting functions. [Usage]: the
      usage store, its queries and the MCP server over it. [Hooks]:
      [protocol/hooks.go]. [Redact]: [protocol/redact.go].
    - [Content]: [protocol/content_detector.go], [content_predict.go],
      [content_compress.go].
    - [EventBus]: [protocol/stream.go] (the chunk bus and its goroutines) and
      [internal/adk/event/bus.go].
    - [OpenAI], [Stream], [Client], [Chat]: [protocol/openai.go], split into
      the client's state and request bodies, the stream reader, the streaming
      calls and the plain calls. [Schema]: the canonical text of tool schemas.
      [Wire]: the structs of the API's answers, decoded from their bytes.
      [StallGuard]: the goroutine that cuts off a silent stream.
    - [Bridge]: [internal/adk/llm/bridge.go], [internal/adk/convert/convert.go].
      [ChatModel]: [internal/server/chatmodel.go], with its own aggregation loop.
    - [EnvConfig]: [internal/config], the [.env] file and the checks at start-up.
    - [Tools]: [internal/adk/tool], Modules [Registry], [Guard], [Executor].
    - [Session]: [internal/session/manager.go] and
      [internal/adk/session]; class [Store] is the interface the runner uses,
      whose operations may fail.
      [History]: the bytes of the history file.
    - [Agent]: [internal/adk/middleware], [internal/adk/runner.go] and the
      guarded tool of [internal/adk/react.go]. [React]: the rest of
      [internal/adk/react.go] and the runner's constructors.
    - [FileOps]: [tools/fileops.go]; class [FileSystem] is what the tools need
      of files. [Filter]: [tools/filter]. [Terminal]: [tools/terminal.go],
      [tools/cache.go], [tools/interceptor.go]. [HttpTools]: the vision,
      web-search and compression tools. [Logs]: the raw logs of [protocol], their
      queries, and the session logs.
    - [Server]: [internal/server/server.go] and the agent adapter of [main.go].
      [Site]: what is left of both, the tools that are registered, the
      observers, the routes, the download of an image, the calls that log.
    - [System]: agent, runner, adapter and handler composed as [main] composes
      them. [ToolLoop]: turns with tools, around a framework that follows its
      documentation. [Endpoints]: the plain and the streamed endpoint compared.
      [Lifecycle]: the process, from the history file it starts on to the
      one it leaves. [Frontend]: the bytes of the events and the readers of
      [frontend/index.html]. [Markup]: the rendering of answers as HTML.

    ** How the code is represented

    A Go string is a sequence of bytes. [int] and [time.Duration] are integers
    with 64-bit wrap-around where a computation can leave the range. A struct
    is a record, a nil pointer is [None], objects shared by pointer (breakers,
    tools, channels) live in a heap. A method is a function from the state to
    the new state and the result; an error is a value of [gerror] or of the
    component's own type, and a panic is a value too where the code can panic.
    Guardrails and tools are functions of a world they may change.
    Code under a mutex is one step. Where goroutines interleave ([Tools.Executor],
    [EventBus], [Health], [StallGuard], [Lifecycle]) the code is a step relation or
    a step function on labels, and the theorems are about every reachable
    state. A goroutine that only copies from one channel to the next
    ([React.react_events], [Agent.runner_feed], [Server.adapter_Stream]) is a
    function of the list it receives and of the choices of its selects. In
    [StallGuard] no time passes while the guard's goroutine can run. The HTTP
    client of the tools follows redirects as [net/http] documents
    ([HttpTools.client_Do]); what the network answers to a request may depend on
    the requests before it.

    What is not in the repository is an argument: the network's answer to each
    attempt, the clock, the context, the random source, the consumer of a
    channel, SHA-256, [url.Parse], [net.ParseIP], SQLite, the parsing of floating
    point numbers, processes, the agent framework. Where a theorem needs
    something of them it is a hypothesis with a witness.

    Loops that are not structural run on fuel which is a function of the input
    and provably enough: [Normalize.slow_loop] gets the number of messages
    (each round consumes one), the replacement loops of [GoStrings] and
    [GoRegex] the length of the text, [Retry.send_loop] and
    [Client.stream_loop] the number of attempts that the code's own bound
    leaves. No theorem is about a run cut short by fuel.

    ** What the theorems show

    - Conversation repair: after normalization every tool call has exactly one
      matching result, user and assistant text is untouched, the function is
      idempotent, its fast path is equivalent to the slow one, and truncated
      JSON arguments are completed to valid JSON.
    - Streaming: text, reasoning and tool calls are reassembled exactly, the
      splitter keeps an invariant and loses nothing, no request is sent after
      output was delivered, keys rotate, and the agent receives one complete
      message. The last holds from the bytes a server sends. The stall guard
      closes the body exactly when the timeout has passed without a line.
    - End to end: with a framework that passes an answer without tool calls on,
      the text in the browser is the joined text of the vendor's deltas,
      whatever the sizes of the reads ([Frontend.vendor_to_browser]); whoever is
      interrupted, the client has a beginning of the answer
      ([System.stream_answer]); no tool of a guarded agent runs past its
      guardrails ([React.agent_guarded]), also in a whole turn with tools, whose
      last answer alone reaches the client and the session
      ([ToolLoop.tool_answer_delivered]); no answer brings markup of its own into
      the page ([Markup.marked_safe]); the plain and the streamed endpoint agree
      on an answer of one message ([Endpoints.endpoints_agree]).
    - What leaves the process: the tools of a request are sent in an order and
      a form that do not depend on the order of maps; no value of a sensitive
      field survives the redaction of a body, and the redaction of a text
      removes exactly what its patterns match one after the other
      ([Redact.RedactString_exact], with the match that is left in part).
    - Start-up and storage: what the configuration accepts and when the process
      refuses to start; queries of the usage store are parameterized, and the
      MCP server answers every request; the raw log refines a map from dates to
      lines and its lines parse back.
    - Retry: which outcomes are retried, how many requests and how long the
      sleeps are; the breaker opens at its threshold and recovers.
    - Tools: every interleaving of the concurrent executor respects the bound
      and returns the results in order; guardrails refuse what was denied;
      availability answers are fresh.
    - Event bus: no interleaving of publishers, subscribers and [Stop] sends
      on or closes a closed channel, and the only panic is that of a
      subscription that meets a [Stop] in [wg.Wait]; every accepted chunk is
      offered to every subscriber once and in order, and none is lost while no
      more are offered than a channel holds; [Stop] ends.
    - Health checks: no vendor is probed by two goroutines, and after [Stop]
      the goroutines end ([Health.health_stop]).
    - Sessions and turns: on every exit of a run, what it leaves in the sessions
      of any store ([Agent.Run_records]); an HTTP handler adds the question and
      the answer the client got to its own session, or nothing
      ([Server.handlers_turns]); a streamed answer is recorded as the text that
      was sent; the history file round-trips down
      to its bytes; clean-up removes what expired; under every interleaving of
      handlers, clean-up and shutdown a successful save is what the next process
      starts with, and where nothing could be saved it starts with the old file
      ([Lifecycle.recorded_turn_survives]); each session's conversation is the
      one of a machine for that session alone
      ([Lifecycle.conversations_of_turns]).
    - Statistics: abbreviated counts are right to the digit shown, and the page
      gets the fields that were printed.
    - Tools on the machine: how far [ValidatePath] keeps paths within the
      workspace, the requests the vision tool makes, the window of lines
      [ReadFile] returns, what [EditFile] leaves, what an answer from the
      command cache is worth, and how a diff is summarized.
    - Defects: some theorems state what the code does where this differs from
      what it means to do (a stream failover that never sends a request, a
      truncated answer passed on as complete, a closing tag split over two
      chunks, an allow list that opens when its last name is denied, a
      window of messages that loses the question after three turns with tools,
      and others); the manifest lists them as findings.

    ** Not modelled

    The loop of the agent framework, which is not in the repository: it is a
    function of the configuration that [React.agent_config] builds, and the two
    hypotheses on it ([System.answers_directly] and [ToolLoop.runs_loop]) are
    satisfied by instances. Of the page, the
    listeners of the input field and the updates of the document. The connection
    pool and timeouts of the HTTP client, writes to a log that fail half-way, command-line processes, SQLite and
    WebSocket frames, which are library code behind arguments. The directory
    [reference] holds other projects that the program does not use. *)
From stdpp Require Import base tactics list gmap strings pretty.
From Stdlib Require Import ZArith Lia.
From Stdlib Require Export Ascii.

(** ** Scope and notations *)

Declare Scope go_scope.
Delimit Scope go_scope with go.

(** Go's [==] and [!=] on strings, as booleans. *)
Notation "a =s b" := (String.eqb a b) (at level 70) : go_scope.
Notation "a <>s b" := (negb (String.eqb a b)) (at level 70) : go_scope.
Open Scope go_scope.

(** String concatenation computes on constructors (stdpp makes it opaque to
    [simpl]). *)
#[global] Arguments String.append !s1 s2 : simpl nomatch.

(** ** Machine integers

    Go's [int] and [time.Duration] are 64-bit two's complement integers; the
    value of an arithmetic expression that leaves the range wraps around. *)

Definition wrap64 (z : Z) : Z := ((z + 2 ^ 63) mod 2 ^ 64 - 2 ^ 63)%Z.

Definition int64_range (z : Z) : Prop := (- 2 ^ 63 <= z < 2 ^ 63)%Z.

(** [x << n] on [int]: bits shifted out are lost; a shift by 64 or more is 0. *)
Definition shl64 (x : Z) (n : nat) : Z := wrap64 (Z.shiftl x (Z.of_nat n)).

(** Durations, in nanoseconds. *)
Definition Millisecond : Z := 1000000%Z.
Definition Second : Z := (1000 * Millisecond)%Z.
Definition Minute : Z := (60 * Second)%Z.

(** ** Tactics *)

(** Case analysis on every boolean test or match of the goal or hypotheses. *)
Ltac split_match :=
  match goal with
  | |- context [match ?x with _ => _ end] => destruct x eqn:?
  | H : context [match ?x with _ => _ end] |- _ => destruct x eqn:?
  end.

(** Boolean facts as propositions. *)
Ltac bool_prop :=
  repeat match goal with
  | H : (_ && _)%bool = true |- _ => apply andb_prop in H as [? ?]
  | H : (_ || _)%bool = false |- _ => apply orb_false_elim in H as [? ?]
  | H : negb _ = true |- _ => apply negb_true_iff in H
  | H : negb _ = false |- _ => apply negb_false_iff in H
  | H : String.eqb _ _ = true |- _ => apply String.eqb_eq in H
  | H : String.eqb _ _ = false |- _ => apply String.eqb_neq in H
  | H : Ascii.eqb _ _ = true |- _ => apply Ascii.eqb_eq in H
  | H : Ascii.eqb _ _ = false |- _ => apply Ascii.eqb_neq in H
  | H : Nat.eqb _ _ = true |- _ => apply Nat.eqb_eq in H
  | H : Nat.eqb _ _ = false |- _ => apply Nat.eqb_neq in H
  | H : Nat.leb _ _ = true |- _ => apply Nat.leb_le in H
  | H : Nat.leb _ _ = false |- _ => apply Nat.leb_gt in H
  | H : Nat.ltb _ _ = true |- _ => apply Nat.ltb_lt in H
  | H : Nat.ltb _ _ = false |- _ => apply Nat.ltb_ge in H
  | H : Z.eqb _ _ = true |- _ => apply Z.eqb_eq in H
  | H : Z.eqb _ _ = false |- _ => apply Z.eqb_neq in H
  | H : Z.leb _ _ = true |- _ => apply Z.leb_le in H
  | H : Z.leb _ _ = false |- _ => apply Z.leb_gt in H
  | H : Z.ltb _ _ = true |- _ => apply Z.ltb_lt in H
  | H : Z.ltb _ _ = false |- _ => apply Z.ltb_ge in H
  | H : Z.geb _ _ = true |- _ => rewrite Z.geb_leb in H
  | H : Z.geb _ _ = false |- _ => rewrite Z.geb_leb in H
  | H : Z.gtb _ _ = true |- _ => rewrite Z.gtb_ltb in H
  | H : Z.gtb _ _ = false |- _ => rewrite Z.gtb_ltb in H
  end.

(** Split every match, turn the tests into propositions, and close what is
    left by congruence or arithmetic. *)
Ltac go_cases := repeat (split_match; simplify_eq/=); bool_prop; simplify_eq/=.
Ltac go_solve := go_cases; try first [done | lia | congruence | eauto].

(** ** Hint database *)

Create HintDb go discriminated.
Create Rewrite HintDb go_rw.

(** ** Lemmas on machine integers *)

Lemma wrap64_id z : int64_range z -> wrap64 z = z.
Proof.
  unfold int64_range, wrap64. intros H. rewrite Z.mod_small by lia. lia.
Qed.

Lemma wrap64_range z : int64_range (wrap64 z).
Proof.
  unfold int64_range, wrap64.
  pose proof (Z.mod_pos_bound (z + 2 ^ 63) (2 ^ 64) ltac:(lia)). lia.
Qed.

#[export] Hint Resolve wrap64_range : go.

(** ** Lemmas on lists *)

Lemma Forall_app_1 {A} (P : A -> Prop) l k : Forall P (l ++ k) -> Forall P l.
Proof. rewrite Forall_app. tauto. Qed.

Lemma existsb_false_forallb {A} (f : A -> bool) l :
  existsb f l = false <-> forallb (fun x => negb (f x)) l = true.
Proof.
  induction l as [|x l IH]; simpl; [done|].
  destruct (f x); simpl; [done|exact IH].
Qed.

Lemma forallb_Forall {A} (f : A -> bool) l :
  forallb f l = true <-> Forall (fun x => f x = true) l.
Proof.
  induction l as [|x l IH]; simpl.
  - split; auto.
  - rewrite andb_true_iff, IH, Forall_cons. done.
Qed.

Lemma existsb_Exists {A} (f : A -> bool) l :
  existsb f l = true <-> Exists (fun x => f x = true) l.
Proof.
  induction l as [|x l IH]; simpl.
  - split; [done|]. inversion 1.
  - rewrite orb_true_iff, IH, Exists_cons. done.
Qed.

(** [span p l]: the longest prefix of [l] that satisfies [p], and the rest;
    Go's [for j < len(l) && p(l[j]) { j++ }] with [l[:j]] and [l[j:]]. *)
Fixpoint span {A} (p : A -> bool) (l : list A) : list A * list A :=
  match l with
  | [] => ([], [])
  | x :: l' => if p x then let '(a, b) := span p l' in (x :: a, b) else ([], l)
  end.

Lemma span_app {A} (p : A -> bool) l : l = (span p l).1 ++ (span p l).2.
Proof.
  induction l as [|x l IH]; simpl; [done|].
  destruct (p x); [|done]. destruct (span p l) as [a b]. simpl in *. by rewrite IH.
Qed.

Lemma span_Forall {A} (p : A -> bool) l : Forall (fun x => p x = true) (span p l).1.
Proof.
  induction l as [|x l IH]; simpl; [constructor|].
  destruct (p x) eqn:E; [|constructor]. destruct (span p l) as [a b].
  by constructor.
Qed.

Lemma span_head {A} (p : A -> bool) l x r : (span p l).2 = x :: r -> p x = false.
Proof.
  induction l as [|y l IH]; simpl; [done|].
  destruct (p y) eqn:E.
  - destruct (span p l) as [a b]. exact IH.
  - simpl. intros [= -> ->]. done.
Qed.

Lemma span_length {A} (p : A -> bool) l : length (span p l).2 <= length l.
Proof.
  rewrite (span_app p l) at 2. rewrite length_app. lia.
Qed.

(** A list whose first element fails [p] after a prefix that satisfies it is
    split there. *)
Lemma span_exact {A} (p : A -> bool) a b :
  Forall (fun x => p x = true) a ->
  (forall x r, b = x :: r -> p x = false) ->
  span p (a ++ b) = (a, b).
Proof.
  intros Ha Hb. induction Ha as [|x a Hx Ha IH]; simpl.
  - destruct b as [|y b]; [done|]. simpl. by rewrite (Hb y b eq_refl).
  - by rewrite Hx, IH.
Qed.

(** ** Maps built from lists

    Go's [m := map[..]..{}; for _, x := range l { m[key(x)] = x }]: the last
    element with a key wins. *)
Definition map_of {A} (key : A -> string) (l : list A) : gmap string A :=
  foldl (fun m x => <[key x := x]> m) ∅ l.

Lemma map_of_fold_lookup {A} (key : A -> string) (l : list A) (m : gmap string A) k :
  foldl (fun m x => <[key x := x]> m) m l !! k =
  match map_of key l !! k with Some x => Some x | None => m !! k end.
Proof.
  unfold map_of. revert m. induction l as [|x l IH]; intros m; simpl.
  - by rewrite lookup_empty.
  - rewrite (IH (<[key x:=x]> m)), (IH (<[key x:=x]> ∅)).
    destruct (foldl _ ∅ l !! k); [done|].
    destruct (decide (key x = k)) as [<-|Hne].
    + by rewrite !lookup_insert_eq.
    + by rewrite !lookup_insert_ne, lookup_empty.
Qed.

Lemma map_of_cons {A} (key : A -> string) x (l : list A) k :
  map_of key (x :: l) !! k =
  match map_of key l !! k with
  | Some y => Some y
  | None => if decide (key x = k) then Some x else None
  end.
Proof.
  unfold map_of at 1. simpl. rewrite map_of_fold_lookup.
  destruct (map_of key l !! k); [done|]. rewrite lookup_insert, lookup_empty. done.
Qed.

Lemma map_of_Some {A} (key : A -> string) (l : list A) k x :
  map_of key l !! k = Some x -> x ∈ l /\ key x = k.
Proof.
  induction l as [|y l IH].
  - unfold map_of. simpl. by rewrite lookup_empty.
  - rewrite map_of_cons. destruct (map_of key l !! k) as [z|] eqn:E.
    + intros [= ->]. destruct (IH eq_refl). split; [by constructor|done].
    + case_decide; [|done]. intros [= ->]. split; [by constructor|done].
Qed.

Lemma map_of_None {A} (key : A -> string) (l : list A) k :
  map_of key l !! k = None <-> k ∉ key <$> l.
Proof.
  induction l as [|y l IH].
  - unfold map_of. simpl. rewrite lookup_empty. set_solver.
  - rewrite map_of_cons, fmap_cons, not_elem_of_cons.
    destruct (map_of key l !! k) as [z|] eqn:E.
    + split; [done|]. intros [_ H]. by apply IH in H.
    + case_decide; naive_solver.
Qed.

(** With distinct keys every element is found under its key. *)
Lemma map_of_lookup_NoDup {A} (key : A -> string) (l : list A) x :
  NoDup (key <$> l) -> x ∈ l -> map_of key l !! key x = Some x.
Proof.
  induction l as [|y l IH]; [set_solver|].
  rewrite fmap_cons, NoDup_cons, map_of_cons, elem_of_cons. intros [Hy Hl] [->|Hx].
  - apply map_of_None in Hy. rewrite Hy. by rewrite decide_True.
  - by rewrite IH.
Qed.
