(* ===== verification/GoStrings.v ===== *)
(** * Go byte strings

    Executable definitions of the functions of Go's [strings] and [strconv]
    packages that the program uses, on [string] read as a sequence of bytes
    (Go strings are byte sequences; UTF-8 literals denote their encoding), and
    the lemmas on them the components share. *)
From stdpp Require Import base tactics list strings pretty.
From Stdlib Require Import ZArith Lia.
From S2P Require Import Prelude.

(** ** Slices: [s[:n]], [s[n:]] *)

Fixpoint str_take (n : nat) (s : string) : string :=
  match n, s with
  | S n', String c s' => String c (str_take n' s')
  | _, _ => ""
  end.

Fixpoint str_drop (n : nat) (s : string) : string :=
  match n, s with
  | 0, _ => s
  | S n', String _ s' => str_drop n' s'
  | _, EmptyString => ""
  end.

(** ** Prefixes, suffixes, search *)

Fixpoint HasPrefix (s p : string) : bool :=
  match p, s with
  | EmptyString, _ => true
  | String a p', String b s' => Ascii.eqb a b && HasPrefix s' p'
  | String _ _, EmptyString => false
  end.

Definition HasSuffix (s p : string) : bool :=
  (String.length p <=? String.length s)%nat
  && (str_drop (String.length s - String.length p) s =s p).

(** [strings.Index]: [None] is Go's -1. *)
Fixpoint Index (s sub : string) : option nat :=
  if HasPrefix s sub then Some 0
  else match s with
       | EmptyString => None
       | String _ s' => match Index s' sub with Some i => Some (S i) | None => None end
       end.

Definition Contains (s sub : string) : bool :=
  match Index s sub with Some _ => true | None => false end.

(** [strings.Cut]: text before and after the first [sep]. *)
Definition Cut (s sep : string) : string * string * bool :=
  match Index s sep with
  | Some i => (str_take i s, str_drop (i + String.length sep) s, true)
  | None => (s, "", false)
  end.

(** [strings.LastIndex] *)
Fixpoint LastIndex (s sub : string) : option nat :=
  match s with
  | EmptyString => if HasPrefix "" sub then Some 0 else None
  | String _ s' =>
      match LastIndex s' sub with
      | Some i => Some (S i)
      | None => if HasPrefix s sub then Some 0 else None
      end
  end.

Definition TrimPrefix (s p : string) : string :=
  if HasPrefix s p then str_drop (String.length p) s else s.

(** ** Trimming *)

Definition byte_in (cutset : string) (c : ascii) : bool :=
  existsb (Ascii.eqb c) (String.list_ascii_of_string cutset).

Fixpoint trim_left_by (p : ascii -> bool) (s : string) : string :=
  match s with
  | EmptyString => ""
  | String c s' => if p c then trim_left_by p s' else s
  end.

Fixpoint trim_right_by (p : ascii -> bool) (s : string) : string :=
  match s with
  | EmptyString => ""
  | String c s' =>
      match trim_right_by p s' with
      | EmptyString => if p c then "" else String c ""
      | t => String c t
      end
  end.

(** [strings.TrimRight], [TrimLeft], [Trim] with an ASCII cutset. *)
Definition TrimRight (s cutset : string) : string := trim_right_by (byte_in cutset) s.
Definition TrimLeft (s cutset : string) : string := trim_left_by (byte_in cutset) s.
Definition Trim (s cutset : string) : string := TrimLeft (TrimRight s cutset) cutset.

Definition byte (n : nat) : ascii := ascii_of_nat n.
Definition bytes (l : list nat) : string := String.string_of_list_ascii (byte <$> l).

(** The UTF-8 encodings of the runes [unicode.IsSpace] accepts. A string that
    starts (ends) with one of these byte sequences is one whose first (last)
    decoded rune is that rune. *)
Definition space_runes : list string :=
  [ bytes [9]; bytes [10]; bytes [11]; bytes [12]; bytes [13]; bytes [32];
    bytes [194; 133]; bytes [194; 160]; bytes [225; 154; 128];
    bytes [226; 128; 128]; bytes [226; 128; 129]; bytes [226; 128; 130];
    bytes [226; 128; 131]; bytes [226; 128; 132]; bytes [226; 128; 133];
    bytes [226; 128; 134]; bytes [226; 128; 135]; bytes [226; 128; 136];
    bytes [226; 128; 137]; bytes [226; 128; 138]; bytes [226; 128; 168];
    bytes [226; 128; 169]; bytes [226; 128; 175]; bytes [226; 129; 159];
    bytes [227; 128; 128] ].

Definition space_prefix (s : string) : option nat :=
  String.length <$> List.find (HasPrefix s) space_runes.
Definition space_suffix (s : string) : option nat :=
  String.length <$> List.find (HasSuffix s) space_runes.

Fixpoint trim_space_left (fuel : nat) (s : string) : string :=
  match fuel with
  | 0 => s
  | S fuel' =>
      match space_prefix s with
      | Some n => trim_space_left fuel' (str_drop n s)
      | None => s
      end
  end.

Fixpoint trim_space_right (fuel : nat) (s : string) : string :=
  match fuel with
  | 0 => s
  | S fuel' =>
      match space_suffix s with
      | Some n => trim_space_right fuel' (str_take (String.length s - n) s)
      | None => s
      end
  end.

(** [strings.TrimSpace]; each round removes at least one byte, so the length
    of the string is enough fuel. *)
Definition TrimSpace (s : string) : string :=
  let t := trim_space_left (String.length s) s in
  trim_space_right (String.length t) t.

(** ** Splitting and joining *)

(** [strings.Split] with a one-byte separator. *)
Fixpoint split_byte (sep : ascii) (s : string) : list string :=
  match s with
  | EmptyString => [""]
  | String c s' =>
      if Ascii.eqb c sep then "" :: split_byte sep s'
      else match split_byte sep s' with
           | [] => [String c ""]
           | w :: ws => String c w :: ws
           end
  end.

Definition LF : ascii := ascii_of_nat 10.
Definition CR : ascii := ascii_of_nat 13.
Definition TAB : ascii := ascii_of_nat 9.
Definition nl : string := String LF "".
Definition SplitLines (s : string) : list string := split_byte LF s.

(** [strings.Join] *)
Definition Join (l : list string) (sep : string) : string := String.concat sep l.

(** ** Case and repetition *)

(** [strings.ToLower] on ASCII letters. Two runes outside ASCII lower to an
    ASCII letter (U+212A KELVIN SIGN to k, U+0130 to i) and are handled; every
    other one lowers to a rune outside ASCII and is kept, which no comparison
    of the program with an ASCII literal can see. *)
Definition lower_byte (c : ascii) : ascii :=
  let n := nat_of_ascii c in
  if (65 <=? n)%nat && (n <=? 90)%nat then ascii_of_nat (n + 32) else c.

Fixpoint lower_go (fuel : nat) (s : string) : string :=
  match fuel, s with
  | S fuel', String c s' =>
      if HasPrefix s (bytes [226; 132; 170]) then String "k" (lower_go fuel' (str_drop 3 s))
      else if HasPrefix s (bytes [196; 176]) then String "i" (lower_go fuel' (str_drop 2 s))
      else String (lower_byte c) (lower_go fuel' s')
  | _, _ => ""
  end.

Definition ToLower (s : string) : string := lower_go (String.length s) s.

(** [strings.Repeat] *)
Fixpoint Repeat (s : string) (n : nat) : string :=
  match n with 0 => "" | S n' => s +:+ Repeat s n' end.

(** ** Lemmas *)

Lemma str_app_nil_r s : s +:+ "" = s.
Proof. induction s as [|c s IH]; [done|]. cbn. by rewrite IH. Qed.

Lemma str_app_assoc a b c : (a +:+ b) +:+ c = a +:+ (b +:+ c).
Proof. induction a as [|x a IH]; [done|]. cbn. by rewrite IH. Qed.

Lemma str_length_app a b : String.length (a +:+ b) = String.length a + String.length b.
Proof. induction a as [|x a IH]; [done|]. cbn. by rewrite IH. Qed.

#[export] Hint Rewrite str_app_nil_r str_app_assoc str_length_app : go_rw.

Lemma str_take_drop n s : str_take n s +:+ str_drop n s = s.
Proof.
  revert s. induction n as [|n IH]; intros [|c s]; cbn; [done..|]. by rewrite IH.
Qed.

Lemma str_drop_length n s : String.length (str_drop n s) = String.length s - n.
Proof. revert s. induction n as [|n IH]; intros [|c s]; cbn; auto. Qed.

Lemma str_take_length n s : String.length (str_take n s) = Nat.min n (String.length s).
Proof. revert s. induction n as [|n IH]; intros [|c s]; cbn; auto. Qed.

Lemma HasPrefix_app p s : HasPrefix (p +:+ s) p = true.
Proof. induction p as [|c p IH]; cbn; [by destruct s|]. by rewrite Ascii.eqb_refl. Qed.

Lemma HasPrefix_spec s p : HasPrefix s p = true -> s = p +:+ str_drop (String.length p) s.
Proof.
  revert s. induction p as [|c p IH]; intros [|d s]; cbn; try done.
  intros H. bool_prop. subst. f_equal. by apply IH.
Qed.

Lemma Index_spec s sub i :
  Index s sub = Some i ->
  s = str_take i s +:+ sub +:+ str_drop (i + String.length sub) s.
Proof.
  revert i. induction s as [|c s IH]; intros i.
  - cbn. destruct sub; cbn; [|done]. intros [= <-]. done.
  - cbn [Index]. destruct (HasPrefix (String c s) sub) eqn:E.
    + intros [= <-]. by apply HasPrefix_spec.
    + destruct (Index s sub) as [j|] eqn:Ej; [|done]. intros [= <-].
      cbn. f_equal. by apply IH.
Qed.

(** [Cut] loses only the separator. *)
Lemma Cut_spec s sep a b :
  Cut s sep = (a, b, true) -> s = a +:+ sep +:+ b.
Proof.
  unfold Cut. destruct (Index s sep) as [i|] eqn:E; [|done].
  intros [= <- <-]. by apply Index_spec.
Qed.

Lemma Cut_none s sep a b : Cut s sep = (a, b, false) -> a = s /\ b = "".
Proof. unfold Cut. destruct (Index s sep); [done|]. by intros [= <- <-]. Qed.

Lemma str_eqb_refl s : (s =s s) = true.
Proof. apply String.eqb_refl. Qed.

#[export] Hint Rewrite str_eqb_refl : go_rw.

Lemma trim_right_by_length p s : String.length (trim_right_by p s) <= String.length s.
Proof.
  induction s as [|c s IH]; cbn; [done|].
  destruct (trim_right_by p s) eqn:E.
  - destruct (p c); cbn; lia.
  - cbn in *. lia.
Qed.

(** The trimmed string is a prefix and what was cut satisfies the predicate. *)
Lemma trim_right_by_spec p s :
  exists t, s = trim_right_by p s +:+ t
         /\ Forall (fun c => p c = true) (String.list_ascii_of_string t).
Proof.
  induction s as [|c s (t & Hs & Ht)]; [by exists ""|]. cbn [trim_right_by].
  destruct (trim_right_by p s) as [|d u] eqn:E.
  - cbn in Hs. destruct (p c) eqn:Ec.
    + exists (String c s). split; [done|]. cbn. constructor; [done|]. by rewrite Hs.
    + exists s. split; [done|]. by rewrite Hs.
  - exists t. split; [|done]. cbn. f_equal. exact Hs.
Qed.

(** A split line holds no separator, and joining the lines gives the text. *)
Lemma split_byte_join sep s : Join (split_byte sep s) (String sep "") = s.
Proof.
  unfold Join. induction s as [|c s IH]; [done|]. cbn [split_byte].
  destruct (Ascii.eqb c sep) eqn:E.
  - apply Ascii.eqb_eq in E as ->.
    destruct (split_byte sep s) as [|w ws] eqn:Es; [by destruct s; cbn in Es; go_cases|].
    cbn in *. by rewrite IH.
  - destruct (split_byte sep s) as [|w ws] eqn:Es; [by destruct s; cbn in Es; go_cases|].
    destruct ws; cbn in *; by rewrite <- IH.
Qed.

Lemma Repeat_length s n : String.length (Repeat s n) = n * String.length s.
Proof. induction n as [|n IH]; cbn; [done|]. by rewrite str_length_app, IH. Qed.

Lemma HasSuffix_app s p : HasSuffix (s +:+ p) p = true.
Proof.
  unfold HasSuffix. rewrite str_length_app. apply andb_true_intro. split.
  - apply Nat.leb_le. lia.
  - replace (_ + _ - _) with (String.length s) by lia.
    apply String.eqb_eq. by induction s as [|c s IH]; [destruct p|].
Qed.

(** ** The last byte *)

Lemma str_snoc_ind (P : string -> Prop) :
  P "" -> (forall s c, P s -> P (s +:+ String c "")) -> forall s, P s.
Proof.
  intros H0 Hs. assert (forall a b, P a -> P (a +:+ b)) as H.
  { intros a b. revert a. induction b as [|c b IH]; intros a Ha.
    - by rewrite str_app_nil_r.
    - replace (a +:+ String c b) with ((a +:+ String c "") +:+ b).
      + apply IH. by apply Hs.
      + by rewrite str_app_assoc. }
  intros s. by apply (H "" s).
Qed.

Lemma trim_right_by_snoc p s c :
  trim_right_by p (s +:+ String c "") = if p c then trim_right_by p s else s +:+ String c "".
Proof.
  induction s as [|d s IH]; simpl; [by destruct (p c)|].
  rewrite IH. destruct (p c); [done|]. by destruct s.
Qed.

Lemma str_drop_app a b : str_drop (String.length a) (a +:+ b) = b.
Proof. by induction a as [|c a IH]; [destruct b|]. Qed.

Lemma HasSuffix_snoc s c d : HasSuffix (s +:+ String c "") (String d "") = Ascii.eqb c d.
Proof.
  unfold HasSuffix. rewrite str_length_app.
  change (String.length (String c "")) with 1. change (String.length (String d "")) with 1.
  replace (String.length s + 1 - 1) with (String.length s) by lia.
  rewrite str_drop_app. rewrite (proj2 (Nat.leb_le _ _)) by lia. rewrite andb_true_l.
  destruct (Ascii.eqb_spec c d) as [->|Hne].
  - apply String.eqb_refl.
  - apply String.eqb_neq. congruence.
Qed.

Lemma str_take_app a b : str_take (String.length a) (a +:+ b) = a.
Proof. induction a as [|c a IH]; simpl; [by destruct b|]. by rewrite IH. Qed.

Lemma Index_prefix s p : HasPrefix s p = true -> Index s p = Some 0.
Proof. intros H. destruct s; cbn [Index]; by rewrite H. Qed.

Lemma Contains_prefix s p : Contains s p = false -> HasPrefix s p = false.
Proof.
  unfold Contains. intros H. apply not_true_is_false. intros E.
  by rewrite (Index_prefix _ _ E) in H.
Qed.

(** ** [strconv.Atoi] *)

Definition digit_val (c : ascii) : option Z :=
  let n := nat_of_ascii c in
  if (48 <=? n)%nat && (n <=? 57)%nat then Some (Z.of_nat (n - 48)) else None.

Fixpoint parse_digits (acc : Z) (s : string) : option Z :=
  match s with
  | EmptyString => Some acc
  | String c s' =>
      match digit_val c with
      | Some d => parse_digits (acc * 10 + d) s'
      | None => None
      end
  end.

(** [None] is a non-nil error: a syntax error or a value out of range. *)
Definition Atoi (s : string) : option Z :=
  let '(neg, body) :=
    match s with
    | String c s' => if Ascii.eqb c "-" then (true, s') else if Ascii.eqb c "+" then (false, s') else (false, s)
    | EmptyString => (false, "")
    end in
  if body =s "" then None
  else match parse_digits 0 body with
       | Some n =>
           let v := if neg then (- n)%Z else n in
           if ((- 2 ^ 63 <=? v) && (v <? 2 ^ 63))%Z then Some v else None
       | None => None
       end.

Example Atoi_ex : (Atoi "120", Atoi "-7", Atoi "1.5", Atoi "99999999999999999999") =
                  (Some 120%Z, Some (-7)%Z, None, None).
Proof. reflexivity. Qed.

(** ** UTF-8 decoding, as [for _, r := range s] does it

    [decode_rune s] is the first rune and the rest; an invalid encoding gives
    U+FFFD and consumes one byte. *)
Definition rune_error : Z := 65533%Z.

Definition cont (lo hi : nat) (c : ascii) : option Z :=
  let n := nat_of_ascii c in
  if (lo <=? n)%nat && (n <=? hi)%nat then Some (Z.of_nat n - 128)%Z else None.

(** Range of the first continuation byte after lead byte [n]. *)
Definition cont_range (n : nat) : nat * nat :=
  if (n =? 224)%nat then (160, 191) else if (n =? 237)%nat then (128, 159)
  else if (n =? 240)%nat then (144, 191) else if (n =? 244)%nat then (128, 143) else (128, 191).

Definition decode_rune (s : string) : option (Z * string) :=
  match s with
  | EmptyString => None
  | String c0 s0 =>
      let n := nat_of_ascii c0 in
      let bad := Some (rune_error, s0) in
      if (n <? 128)%nat then Some (Z.of_nat n, s0)
      else if (194 <=? n)%nat && (n <=? 244)%nat then
        let '(lo, hi) := cont_range n in
        match s0 with
        | String c1 s1 =>
            match cont lo hi c1 with
            | None => bad
            | Some x1 =>
                if (n <? 224)%nat then Some (Z.of_nat (n - 192) * 64 + x1, s1)%Z
                else match s1 with
                     | String c2 s2 =>
                         match cont 128 191 c2 with
                         | None => bad
                         | Some x2 =>
                             if (n <? 240)%nat then Some (Z.of_nat (n - 224) * 4096 + x1 * 64 + x2, s2)%Z
                             else match s2 with
                                  | String c3 s3 =>
                                      match cont 128 191 c3 with
                                      | None => bad
                                      | Some x3 => Some (Z.of_nat (n - 240) * 262144 + x1 * 4096 + x2 * 64 + x3, s3)%Z
                                      end
                                  | EmptyString => bad
                                  end
                         end
                     | EmptyString => bad
                     end
            end
        | EmptyString => bad
        end
      else bad
  end.

(** The runes of a string; [fuel] is its length, an upper bound on the runes. *)
Fixpoint runes_go (fuel : nat) (s : string) : list Z :=
  match fuel with
  | 0 => []
  | S f => match decode_rune s with None => [] | Some (r, s') => r :: runes_go f s' end
  end.
Definition runes (s : string) : list Z := runes_go (String.length s) s.

Lemma decode_rune_shorter s r s' : decode_rune s = Some (r, s') -> String.length s' < String.length s.
Proof.
  destruct s as [|c0 s0]; [done|]. unfold decode_rune. cbn [String.length].
  repeat case_match; intros [= <- <-]; simplify_eq; simpl; lia.
Qed.

(** [runes_go] with more fuel than bytes changes nothing. *)
Lemma runes_go_fuel f g s :
  String.length s <= f -> String.length s <= g -> runes_go f s = runes_go g s.
Proof.
  revert g s. induction f as [|f IH]; intros g s Hf Hg.
  - destruct s; [by destruct g|simpl in Hf; lia].
  - destruct g as [|g]; [destruct s; [done|simpl in Hg; lia]|]. cbn [runes_go].
    destruct (decode_rune s) as [[r s']|] eqn:E; [|done].
    apply decode_rune_shorter in E. f_equal. apply IH; lia.
Qed.

Lemma runes_unfold s :
  runes s = match decode_rune s with None => [] | Some (r, s') => r :: runes s' end.
Proof.
  unfold runes. destruct s as [|c s]; [done|]. cbn [String.length runes_go].
  destruct (decode_rune (String c s)) as [[r s']|] eqn:E; [|done].
  apply decode_rune_shorter in E. cbn [String.length] in E. f_equal. apply runes_go_fuel; lia.
Qed.

Lemma runes_length s : length (runes s) <= String.length s.
Proof.
  unfold runes. generalize (String.length s) as f. intros f. revert s.
  induction f as [|f IH]; intros s; simpl; [lia|]. destruct (decode_rune s) as [[r s']|]; simpl; [|lia].
  specialize (IH s'). lia.
Qed.

(** The bytes of a rune. *)
Definition encode_rune (r : Z) : string :=
  let b (z : Z) := ascii_of_nat (Z.to_nat z) in
  let low (k : Z) := b (128 + (r / k) mod 64)%Z in
  if (r <? 128)%Z then String (b r) ""
  else if (r <? 2048)%Z then String (b (192 + r / 64)%Z) (String (low 1%Z) "")
  else if (r <? 65536)%Z then String (b (224 + r / 4096)%Z) (String (low 64%Z) (String (low 1%Z) ""))
  else String (b (240 + r / 262144)%Z) (String (low 4096%Z) (String (low 64%Z) (String (low 1%Z) ""))).

Example runes_ex : runes (bytes [97; 228; 184; 173; 255; 98]) = [97; 20013; 65533; 98]%Z.
Proof. reflexivity. Qed.

(** ** Counting and replacing *)

(** Non-overlapping occurrences; [fuel] is the length of the text, and each
    occurrence of a non-empty [sub] consumes at least one byte. *)
Fixpoint count_go (fuel : nat) (s sub : string) : nat :=
  match fuel with
  | 0 => 0
  | S f => match Index s sub with
           | None => 0
           | Some i => S (count_go f (str_drop (i + String.length sub) s) sub)
           end
  end.

(** [strings.Count]: the empty string occurs around every rune. *)
Definition Count (s sub : string) : nat :=
  if sub =s "" then S (length (runes s)) else count_go (String.length s) s sub.

Fixpoint replace_go (fuel : nat) (s old new : string) : string :=
  match fuel with
  | 0 => s
  | S f => match Index s old with
           | None => s
           | Some i => str_take i s +:+ new +:+ replace_go f (str_drop (i + String.length old) s) old new
           end
  end.

(** [new] before every rune and at the end. *)
Fixpoint replace_empty (fuel : nat) (s new : string) : string :=
  match fuel with
  | 0 => new
  | S f => match decode_rune s with
           | None => new
           | Some (_, s') => new +:+ str_take (String.length s - String.length s') s +:+ replace_empty f s' new
           end
  end.

(** [strings.ReplaceAll] *)
Definition ReplaceAll (s old new : string) : string :=
  if old =s "" then replace_empty (String.length s) s new else replace_go (String.length s) s old new.

Lemma Index_bound s sub i : Index s sub = Some i -> i + String.length sub <= String.length s.
Proof.
  revert i. induction s as [|c s IH]; intros i; cbn [Index].
  - destruct sub; [intros [= <-]; simpl; lia|done].
  - destruct (HasPrefix (String c s) sub) eqn:Hp.
    + intros [= <-]. apply HasPrefix_spec in Hp. apply (f_equal String.length) in Hp. rewrite str_length_app in Hp. lia.
    + destruct (Index s sub) as [j|] eqn:E; intros [= <-]. specialize (IH j eq_refl). cbn [String.length]. lia.
Qed.

(** Each replacement adds the difference of the lengths. *)
Lemma replace_go_length f s old new :
  old <> "" -> String.length s <= f ->
  String.length (replace_go f s old new) + count_go f s old * String.length old
  = String.length s + count_go f s old * String.length new.
Proof.
  intros Hne. assert (1 <= String.length old) by (destruct old; [done|simpl; lia]).
  revert s. induction f as [|f IH]; intros s Hf; cbn [replace_go count_go]; [lia|].
  destruct (Index s old) as [i|] eqn:E; [|lia]. apply Index_bound in E.
  specialize (IH (str_drop (i + String.length old) s)). rewrite str_drop_length in IH.
  rewrite !str_length_app, str_take_length, Nat.min_l by lia. specialize (IH ltac:(lia)). lia.
Qed.

Lemma ReplaceAll_length s old new :
  old <> "" ->
  String.length (ReplaceAll s old new) + Count s old * String.length old
  = String.length s + Count s old * String.length new.
Proof.
  intros Hne. unfold ReplaceAll, Count. rewrite (proj2 (String.eqb_neq old "") Hne). by apply replace_go_length.
Qed.

Lemma Count_0 s old : old <> "" -> Count s old = 0 -> Index s old = None.
Proof.
  intros Hne. unfold Count. rewrite (proj2 (String.eqb_neq old "") Hne). destruct s as [|c s].
  - intros _. destruct old; done.
  - cbn [String.length count_go]. by destruct (Index _ _).
Qed.

Example ReplaceAll_ex : ReplaceAll "abcabd" "ab" "x" = "xcxd" /\ ReplaceAll "ab" "" "-" = "-a-b-" /\ Count "aaaa" "aa" = 2.
Proof. repeat split; reflexivity. Qed.

(** ** Trimmed values *)

Lemma find_None_forall {A} (f : A -> bool) l : List.find f l = None <-> Forall (fun x => f x = false) l.
Proof.
  induction l as [|x l IH]; cbn [List.find]; [done|]. rewrite Forall_cons. destruct (f x); [split; [done|by intros [? _]]|].
  rewrite IH. naive_solver.
Qed.

Lemma space_rune_length p : p ∈ space_runes -> 1 <= String.length p.
Proof. rewrite list_elem_of_In. unfold space_runes. cbn. intuition (subst; vm_compute; lia). Qed.

Lemma space_prefix_pos s n : space_prefix s = Some n -> 1 <= n.
Proof.
  unfold space_prefix. destruct (List.find _ _) as [p|] eqn:E; [|done]. cbn. intros [= <-].
  apply List.find_some in E as [E _]. apply space_rune_length. by apply list_elem_of_In.
Qed.
Lemma space_suffix_pos s n : space_suffix s = Some n -> 1 <= n.
Proof.
  unfold space_suffix. destruct (List.find _ _) as [p|] eqn:E; [|done]. cbn. intros [= <-].
  apply List.find_some in E as [E _]. apply space_rune_length. by apply list_elem_of_In.
Qed.

Lemma trim_left_done f s : String.length s <= f -> space_prefix (trim_space_left f s) = None.
Proof.
  revert s. induction f as [|f IH]; intros s Hf; cbn [trim_space_left]; [destruct s; [done|simpl in Hf; lia]|].
  destruct (space_prefix s) as [n|] eqn:E; [|done]. apply space_prefix_pos in E. apply IH. rewrite str_drop_length.
  destruct s; cbn [String.length] in *; lia.
Qed.

Lemma trim_right_done f s : String.length s <= f -> space_suffix (trim_space_right f s) = None.
Proof.
  revert s. induction f as [|f IH]; intros s Hf; cbn [trim_space_right]; [destruct s; [done|simpl in Hf; lia]|].
  destruct (space_suffix s) as [n|] eqn:E; [|done]. apply space_suffix_pos in E. apply IH. rewrite str_take_length.
  destruct s; cbn [String.length] in *; lia.
Qed.

Lemma HasPrefix_take s p n : HasPrefix (str_take n s) p = true -> HasPrefix s p = true.
Proof.
  intros H%HasPrefix_spec. rewrite <- (str_take_drop n s), H, str_app_assoc. apply HasPrefix_app.
Qed.

Lemma space_prefix_take s n : space_prefix s = None -> space_prefix (str_take n s) = None.
Proof.
  unfold space_prefix. destruct (List.find (HasPrefix s) space_runes) eqn:E; [done|]. intros _.
  apply find_None_forall in E. rewrite (proj2 (find_None_forall _ _)); [done|]. eapply Forall_impl; [exact E|].
  intros p Hp. apply not_true_is_false. intros H%HasPrefix_take. congruence.
Qed.

Lemma trim_right_prefix f s : space_prefix s = None -> space_prefix (trim_space_right f s) = None.
Proof.
  revert s. induction f as [|f IH]; intros s H; cbn [trim_space_right]; [done|]. destruct (space_suffix s); [|done].
  by apply IH, space_prefix_take.
Qed.

Lemma trim_fixed s : space_prefix s = None -> space_suffix s = None -> TrimSpace s = s.
Proof.
  intros H1 H2. unfold TrimSpace. assert (trim_space_left (String.length s) s = s) as ->
    by (destruct (String.length s); cbn [trim_space_left]; by rewrite ?H1).
  destruct (String.length s); cbn [trim_space_right]; by rewrite ?H2.
Qed.

Lemma TrimSpace_idem s : TrimSpace (TrimSpace s) = TrimSpace s.
Proof. apply trim_fixed; unfold TrimSpace; [by apply trim_right_prefix, trim_left_done|by apply trim_right_done]. Qed.

(** ** Bytes that do not occur *)

Lemma Join_step x y l sep : Join (x :: y :: l) sep = x +:+ sep +:+ Join (y :: l) sep.
Proof. done. Qed.

(** The byte [c] does not occur. *)
Fixpoint absent (c : ascii) (s : string) : bool :=
  match s with EmptyString => true | String d s' => negb (Ascii.eqb c d) && absent c s' end.

Lemma Contains_absent c s : Contains s (String c "") = false -> absent c s = true.
Proof.
  unfold Contains. induction s as [|d s IH]; [done|]. cbn [Index HasPrefix absent].
  destruct (Ascii.eqb c d); cbn [andb negb]; [by destruct s|]. destruct (Index s (String c "")); [done|auto].
Qed.

Lemma Index_absent c s k : absent c s = true -> Index (s +:+ String c k) (String c "") = Some (String.length s).
Proof.
  induction s as [|d s IH]; cbn [String.append Index HasPrefix absent String.length].
  - intros _. rewrite Ascii.eqb_refl. by destruct k.
  - intros [H1 H2]%andb_prop. apply negb_true_iff in H1. rewrite H1. cbn [andb]. by rewrite IH.
Qed.

Lemma Cut_at_absent k v : absent "=" k = true -> Cut (k +:+ "=" +:+ v) "=" = (k, v, true).
Proof.
  intros H. unfold Cut. change ("=" +:+ v) with (String "=" v). rewrite (Index_absent "=" k v H).
  rewrite str_take_app. cbn [String.length]. do 2 f_equal. replace (String.length k + 1) with (String.length (k +:+ "="))
    by (rewrite str_length_app; done). change (String "=" v) with ("=" +:+ v). by rewrite <- str_app_assoc, str_drop_app.
Qed.

Lemma split_absent c s : absent c s = true -> split_byte c s = [s].
Proof.
  induction s as [|d s IH]; [done|]. cbn [absent split_byte]. intros [H1 H2]%andb_prop. apply negb_true_iff in H1.
  rewrite Ascii.eqb_sym, H1. by rewrite IH.
Qed.

Lemma split_absent_app c s k : absent c s = true -> split_byte c (s +:+ String c k) = s :: split_byte c k.
Proof.
  induction s as [|d s IH]; cbn [String.append split_byte absent]; [by rewrite Ascii.eqb_refl|].
  intros [H1 H2]%andb_prop. apply negb_true_iff in H1. rewrite Ascii.eqb_sym, H1. by rewrite IH.
Qed.

Lemma split_Join c l : l <> [] -> Forall (fun s => absent c s = true) l -> split_byte c (Join l (String c "")) = l.
Proof.
  induction l as [|x [|y l] IH]; [done| |]; intros _ [Hx Hl]%Forall_cons.
  - by apply split_absent.
  - change (Join (x :: y :: l) (String c "")) with (x +:+ String c (Join (y :: l) (String c ""))).
    rewrite split_absent_app by done. by rewrite IH.
Qed.

Lemma absent_app c a b : absent c (a +:+ b) = absent c a && absent c b.
Proof. induction a as [|d a IH]; [done|]. cbn [String.append absent]. by rewrite IH, andb_assoc. Qed.

Lemma absent_Join c l sep : absent c sep = true -> Forall (fun s => absent c s = true) l -> absent c (Join l sep) = true.
Proof.
  intros Hs. induction l as [|x [|y l] IH]; intros H; [done|by apply Forall_cons in H as [? _]|].
  apply Forall_cons in H as [Hx Hl]. change (Join (x :: y :: l) sep) with (x +:+ sep +:+ Join (y :: l) sep).
  by rewrite !absent_app, Hx, Hs, IH.
Qed.

(** ** Texts without white space at their ends *)

Lemma str_snoc_inj a b c d : a +:+ String c "" = b +:+ String d "" -> a = b /\ c = d.
Proof.
  revert b. induction a as [|x a IH]; intros [|y b]; cbn [String.append]; intros E.
  - by injection E as ->.
  - injection E as _ E. by destruct b.
  - injection E as _ E. by destruct a.
  - injection E as -> E. by destruct (IH b E) as [-> ->].
Qed.

Lemma HasSuffix_last s c p d : HasSuffix (s +:+ String c "") (p +:+ String d "") = true -> c = d.
Proof.
  unfold HasSuffix. intros [_ H%String.eqb_eq]%andb_prop. set (n := _ - _) in H.
  pose proof (str_take_drop n (s +:+ String c "")) as E. rewrite H, <- str_app_assoc in E. symmetry in E. by apply str_snoc_inj in E as [_ ->].
Qed.

Lemma str_last p : p = "" \/ exists q d, p = q +:+ String d "" /\ last (String.list_ascii_of_string p) = Some d.
Proof.
  destruct p as [|c p]; [by left|right]. revert c. induction p as [|d p IH]; intros c; [by exists "", c|].
  destruct (IH d) as (q & e & E & Hl). exists (String c q), e. rewrite E. split; [done|]. rewrite E in Hl.
  cbn [String.append String.list_ascii_of_string] in *. rewrite last_cons, Hl. done.
Qed.

(** The last bytes of white space. *)
Definition space_ends : list ascii := (fun p => default (byte 0) (last (String.list_ascii_of_string p))) <$> space_runes.

Lemma space_suffix_none s c : bool_decide (c ∈ space_ends) = false -> space_suffix (s +:+ String c "") = None.
Proof.
  intros Hc%bool_decide_eq_false_1. unfold space_suffix. rewrite (proj2 (find_None_forall _ _)); [done|]. apply Forall_forall. intros p Hp.
  apply not_true_is_false. intros H. apply Hc. clear Hc.
  assert (exists q d, p = q +:+ String d "" /\ d ∈ space_ends) as (q & d & -> & Hd).
  { destruct (str_last p) as [->|(q & d & -> & Hl)]; [apply space_rune_length in Hp; cbn in Hp; lia|]. exists q, d. split; [done|].
    unfold space_ends. apply list_elem_of_fmap. eexists. split; [|exact Hp]. by rewrite Hl. }
  apply HasSuffix_last in H. by subst.
Qed.
