(* ===== verification/GoRegex.v ===== *)
(** * Regular expressions

    The part of Go's [regexp] the sources use: patterns anchored at the start,
    matched with leftmost-first (Perl) preference, and replacement of every
    match. Classes are byte classes: none of the modelled patterns tells apart
    the bytes of one multi-byte rune. *)
From stdpp Require Import base tactics list strings.
From Stdlib Require Import Lia.
From S2P Require Import Prelude GoStrings.

Inductive re :=
| REps
| RChr (p : ascii -> bool)
| RSeq (a b : re)
| RAlt (a b : re)
| RStar (a : re)
| RWordEnd  (* [\b] after a word character *)
| REnd      (* [$] without (?m) *).

Definition is_word (c : ascii) : bool :=
  let n := nat_of_ascii c in
  (48 <=? n)%nat && (n <=? 57)%nat || (65 <=? n)%nat && (n <=? 90)%nat
  || (97 <=? n)%nat && (n <=? 122)%nat || (n =? 95)%nat.

(** [rmatch r s k]: match [r] at the start of [s], then continue with [k] on
    the rest; alternatives are tried in order and a star is greedy. *)
Fixpoint rmatch (r : re) (s : string) (k : string -> option string) : option string :=
  match r with
  | REps => k s
  | RChr p => match s with String c s' => if p c then k s' else None | EmptyString => None end
  | RSeq a b => rmatch a s (fun s' => rmatch b s' k)
  | RAlt a b => match rmatch a s k with Some x => Some x | None => rmatch b s k end
  | RStar a =>
      (fix star (n : nat) (s : string) : option string :=
         match n with
         | 0 => k s
         | S n' =>
             match rmatch a s (fun s' => if (String.length s' <? String.length s)%nat then star n' s' else None) with
             | Some x => Some x
             | None => k s
             end
         end) (String.length s) s
  | RWordEnd => match s with String c _ => if is_word c then None else k s | EmptyString => k s end
  | REnd => match s with EmptyString => k s | _ => None end
  end.

(** The rest of [s] after the match of [r] at its start. *)
Definition re_prefix (r : re) (s : string) : option string := rmatch r s Some.

(** [MatchString] of a pattern that begins with [^]. *)
Definition MatchStart (r : re) (s : string) : bool :=
  match re_prefix r s with Some _ => true | None => false end.

(** [ReplaceAllString(s, "")] of a pattern that begins with [^]. *)
Definition DeleteStart (r : re) (s : string) : string :=
  match re_prefix r s with Some s' => s' | None => s end.

(** [ReplaceAllString(s, "")] of an unanchored pattern without empty matches. *)
Fixpoint delete_all (fuel : nat) (r : re) (s : string) : string :=
  match fuel with
  | 0 => s
  | S f =>
      match re_prefix r s with
      | Some s' => delete_all f r s'
      | None => match s with EmptyString => "" | String c s' => String c (delete_all f r s') end
      end
  end.
Definition DeleteAll (r : re) (s : string) : string := delete_all (String.length s) r s.

(** ** Pattern notation *)

Definition RByte (c : ascii) : re := RChr (Ascii.eqb c).
Definition RDigit : re := RChr (fun c => (48 <=? nat_of_ascii c)%nat && (nat_of_ascii c <=? 57)%nat).
Definition RSpace : re := RChr (byte_in (bytes [9; 10; 12; 13; 32])).
Definition RIn (set : string) : re := RChr (byte_in set).
Definition RDot : re := RChr (fun c => negb (Ascii.eqb c LF)).
Definition ROpt (a : re) : re := RAlt a REps.
Definition RPlus (a : re) : re := RSeq a (RStar a).
Fixpoint RTimes (n : nat) (a : re) : re := match n with 0 => REps | S n' => RSeq a (RTimes n' a) end.
Fixpoint RLit (s : string) : re := match s with EmptyString => REps | String c s' => RSeq (RByte c) (RLit s') end.
(** [(?i)] on ASCII letters. *)
Fixpoint RLitI (s : string) : re :=
  match s with
  | EmptyString => REps
  | String c s' => RSeq (RChr (fun d => Ascii.eqb (lower_byte c) (lower_byte d))) (RLitI s')
  end.
Fixpoint RSeqs (l : list re) : re := match l with [] => REps | r :: l' => RSeq r (RSeqs l') end.
Fixpoint RAlts (l : list re) : re := match l with [] => REnd | [r] => r | r :: l' => RAlt r (RAlts l') end.

(** ** Lemmas *)

(** What a match leaves is a suffix, so never longer. *)
Definition suffix_of (a b : string) : Prop := exists p, b = p +:+ a.

Lemma suffix_refl a : suffix_of a a.
Proof. by exists "". Qed.
Lemma suffix_cons c a b : suffix_of a b -> suffix_of a (String c b).
Proof. intros [p ->]. by exists (String c p). Qed.
Lemma suffix_trans a b c : suffix_of a b -> suffix_of b c -> suffix_of a c.
Proof. intros [p ->] [q ->]. exists (q +:+ p). by rewrite str_app_assoc. Qed.
Lemma suffix_length a b : suffix_of a b -> String.length a <= String.length b.
Proof. intros [p ->]. rewrite str_length_app. lia. Qed.

#[export] Hint Resolve suffix_refl suffix_cons : go.

(** The result of a match is the continuation's on some suffix. *)
Lemma rmatch_suffix r s k x : rmatch r s k = Some x -> exists s', suffix_of s' s /\ k s' = Some x.
Proof.
  revert s k. induction r as [|p|a IHa b IHb|a IHa b IHb|a IH| |]; intros s k; simpl.
  - intros H. by exists s; auto with go.
  - destruct s as [|c s]; [done|]. destruct (p c); [|done]. intros H. exists s; auto with go.
  - intros (s1 & H1 & H)%IHa. apply IHb in H as (s2 & H2 & H). exists s2.
    split; [by eapply suffix_trans|done].
  - destruct (rmatch a s k) eqn:E; [|auto]. intros [= ->]. auto.
  - generalize (String.length s) as n. intros n. revert s. induction n as [|n IHn]; intros s.
    + intros H. exists s; auto with go.
    + destruct (rmatch a s _) as [y|] eqn:E.
      * intros [= ->]. apply IH in E as (s1 & H1 & H). destruct (_ <? _)%nat; [|done].
        apply IHn in H as (s2 & H2 & H). exists s2. split; [by eapply suffix_trans|done].
      * intros H. exists s; auto with go.
  - destruct s as [|c s]; [|destruct (is_word c); [done|]]; intros H; eexists; split; eauto with go.
  - destruct s; [|done]. intros H. eexists; split; eauto with go.
Qed.

Lemma DeleteStart_length r s : String.length (DeleteStart r s) <= String.length s.
Proof.
  unfold DeleteStart, re_prefix. destruct (rmatch r s Some) as [x|] eqn:E; [|lia].
  apply rmatch_suffix in E as (s' & H & [= <-]). by apply suffix_length.
Qed.

Lemma delete_all_length f r s : String.length (delete_all f r s) <= String.length s.
Proof.
  revert s. induction f as [|f IH]; intros s; simpl; [lia|].
  unfold re_prefix. destruct (rmatch r s Some) as [x|] eqn:E.
  - apply rmatch_suffix in E as (s' & H & [= <-]). apply suffix_length in H. specialize (IH s'). lia.
  - destruct s as [|c s]; simpl; [lia|]. specialize (IH s). lia.
Qed.

Lemma DeleteAll_length r s : String.length (DeleteAll r s) <= String.length s.
Proof. apply delete_all_length. Qed.

(** ** Completeness *)

(** A match of [r] at the start of the text leaves the rest. *)
Inductive rmatches : re -> string -> string -> Prop :=
| m_eps s : rmatches REps s s
| m_chr p c s : p c = true -> rmatches (RChr p) (String c s) s
| m_seq a b s t u : rmatches a s t -> rmatches b t u -> rmatches (RSeq a b) s u
| m_left a b s t : rmatches a s t -> rmatches (RAlt a b) s t
| m_right a b s t : rmatches b s t -> rmatches (RAlt a b) s t
| m_stop a s : rmatches (RStar a) s s
| m_more a s t u : rmatches a s t -> String.length t < String.length s -> rmatches (RStar a) t u -> rmatches (RStar a) s u
| m_end : rmatches REnd "" "".

(** The loop of a star. *)
Definition star_search (a : re) (k : string -> option string) : nat -> string -> option string :=
  fix star n s :=
    match n with
    | 0 => k s
    | S n' => match rmatch a s (fun s' => if (String.length s' <? String.length s)%nat then star n' s' else None) with
              | Some x => Some x
              | None => k s
              end
    end.

(** The backtracking search finds a match whose rest the continuation accepts. *)
Lemma rmatch_complete r s t : rmatches r s t -> forall k, is_Some (k t) -> is_Some (rmatch r s k).
Proof.
  intros H. enough (forall k, is_Some (k t) -> is_Some (rmatch r s k)
    /\ match r with RStar a => forall n, String.length s <= n -> is_Some (star_search a k n s) | _ => True end) as E
    by (intros k Hk; by apply E).
  induction H as [s|p c s Hc|a b s t u _ IH1 _ IH2|a b s t _ IH|a b s t _ IH|a s|a s t u _ IH1 Hl _ IH2|]; intros k Hk; cbn [rmatch];
    try (split; [|done]).
  - done.
  - by rewrite Hc.
  - apply IH1. by apply IH2.
  - destruct (proj1 (IH k Hk)) as [x ->]. by eexists.
  - destruct (rmatch a s k); [by eexists|]. by apply IH.
  - assert (forall n, is_Some (star_search a k n s)) as E by (intros [|n]; [done|]; cbn [star_search]; case_match; [by eexists|done]).
    split; [apply E|intros n _; apply E].
  - assert (forall n, String.length s <= n -> is_Some (star_search a k n s)) as E.
    { intros n Hn. destruct n as [|n]; [lia|]. cbn [star_search]. fold (star_search a k).
      destruct (proj1 (IH1 (fun s' => if (String.length s' <? String.length s)%nat then star_search a k n s' else None)
        ltac:(cbv beta; rewrite (proj2 (Nat.ltb_lt _ _) Hl); apply (IH2 k Hk); lia))) as [x ->].
      by eexists. }
    split; [by apply E|exact E].
  - done.
Qed.

Lemma MatchStart_complete r s t : rmatches r s t -> MatchStart r s = true.
Proof. intros H. unfold MatchStart, re_prefix. by destruct (rmatch_complete r s t H Some) as [x ->]. Qed.

(** A run of bytes of a class. *)
Lemma rmatches_run p s t : forallb p (String.list_ascii_of_string s) = true -> rmatches (RStar (RChr p)) (s +:+ t) t.
Proof.
  induction s as [|c s IH]; [intros _; apply m_stop|]. cbn [String.list_ascii_of_string forallb]. intros [Hc Hs]%andb_prop.
  apply (m_more _ _ (s +:+ t)); [by apply (m_chr p c (s +:+ t))|cbn; lia|by apply IH].
Qed.
