(* ===== verification/GoJSON.v ===== *)
(** * JSON validity

    [json.Valid] of Go's [encoding/json]: the byte-at-a-time scanner with its
    stack of parse states and its nesting limit. The program only asks whether
    a text is valid, so the scanner is modelled with the states of the library
    and without the opcodes it returns to the decoder. *)
From stdpp Require Import base tactics list strings.
From Stdlib Require Import ZArith Lia.
From S2P Require Import Prelude GoStrings.

(** Parse states: in an object before the colon, in an object after it, in an
    array. The head of a stack is its top. *)
Inductive pstate := parseObjectKey | parseObjectValue | parseArrayValue.

(** Scanner states. [stateInStringEscU n] has read [n] hex digits; the states
    [stateT] to [stateNul] are inside [true], [false] and [null]. *)
Inductive sstate :=
| stateBeginValueOrEmpty | stateBeginValue | stateBeginStringOrEmpty
| stateBeginString | stateEndValue | stateEndTop | stateInString
| stateInStringEsc | stateInStringEscU (n : nat) | stateNeg | state1 | state0
| stateDot | stateDot0 | stateE | stateESign | stateE0
| stateT | stateTr | stateTru | stateF | stateFa | stateFal | stateFals
| stateN | stateNu | stateNul.

#[export] Instance sstate_eq_dec : EqDecision sstate.
Proof. solve_decision. Defined.
#[export] Instance pstate_eq_dec : EqDecision pstate.
Proof. solve_decision. Defined.

Abbreviation scanres := (option (sstate * list pstate)).

Definition maxNestingDepth : Z := 10000%Z.

Definition isSpace (c : ascii) : bool :=
  Ascii.eqb c " " || Ascii.eqb c TAB || Ascii.eqb c CR || Ascii.eqb c LF.

Definition in_range (lo hi : nat) (c : ascii) : bool :=
  (lo <=? nat_of_ascii c)%nat && (nat_of_ascii c <=? hi)%nat.
Definition isDigit (c : ascii) : bool := in_range 48 57 c.
Definition isDigit19 (c : ascii) : bool := in_range 49 57 c.
Definition isHex (c : ascii) : bool :=
  in_range 48 57 c || in_range 97 102 c || in_range 65 70 c.

(** [pushParseState] *)
Definition push (st : sstate) (p : pstate) (stk : list pstate) : scanres :=
  if (Z.of_nat (length (p :: stk)) <=? maxNestingDepth)%Z then Some (st, p :: stk) else None.

(** [popParseState] *)
Definition pop (stk : list pstate) : scanres :=
  match stk with
  | [] | [_] => Some (stateEndTop, [])
  | _ :: stk' => Some (stateEndValue, stk')
  end.

Definition step_EndTop (stk : list pstate) (c : ascii) : scanres :=
  if isSpace c then Some (stateEndTop, stk) else None.

Definition step_EndValue (stk : list pstate) (c : ascii) : scanres :=
  match stk with
  | [] => step_EndTop [] c
  | p :: stk' =>
      if isSpace c then Some (stateEndValue, stk)
      else match p with
           | parseObjectKey =>
               if Ascii.eqb c ":" then Some (stateBeginValue, parseObjectValue :: stk') else None
           | parseObjectValue =>
               if Ascii.eqb c "," then Some (stateBeginString, parseObjectKey :: stk')
               else if Ascii.eqb c "}" then pop stk else None
           | parseArrayValue =>
               if Ascii.eqb c "," then Some (stateBeginValue, stk)
               else if Ascii.eqb c "]" then pop stk else None
           end
  end.

Definition dquote : ascii := ascii_of_nat 34.
Definition backslash : ascii := ascii_of_nat 92.

Definition step_BeginValue (stk : list pstate) (c : ascii) : scanres :=
  if isSpace c then Some (stateBeginValue, stk)
  else if Ascii.eqb c "{" then push stateBeginStringOrEmpty parseObjectKey stk
  else if Ascii.eqb c "[" then push stateBeginValueOrEmpty parseArrayValue stk
  else if Ascii.eqb c dquote then Some (stateInString, stk)
  else if Ascii.eqb c "-" then Some (stateNeg, stk)
  else if Ascii.eqb c "0" then Some (state0, stk)
  else if Ascii.eqb c "t" then Some (stateT, stk)
  else if Ascii.eqb c "f" then Some (stateF, stk)
  else if Ascii.eqb c "n" then Some (stateN, stk)
  else if isDigit19 c then Some (state1, stk)
  else None.

Definition step_BeginString (stk : list pstate) (c : ascii) : scanres :=
  if isSpace c then Some (stateBeginString, stk)
  else if Ascii.eqb c dquote then Some (stateInString, stk) else None.

Definition step_0 (stk : list pstate) (c : ascii) : scanres :=
  if Ascii.eqb c "." then Some (stateDot, stk)
  else if Ascii.eqb c "e" || Ascii.eqb c "E" then Some (stateE, stk)
  else step_EndValue stk c.

Definition step_ESign (stk : list pstate) (c : ascii) : scanres :=
  if isDigit c then Some (stateE0, stk) else None.

(** Inside a literal: the next letter must be [a]. *)
Definition expect (a : ascii) (st : sstate) (stk : list pstate) (c : ascii) : scanres :=
  if Ascii.eqb c a then Some (st, stk) else None.

(** One byte: the state function [s.step(s, c)]; [None] is [scanError]. *)
Definition scan_step (st : sstate) (stk : list pstate) (c : ascii) : scanres :=
  match st with
  | stateBeginValueOrEmpty =>
      if isSpace c then Some (stateBeginValueOrEmpty, stk)
      else if Ascii.eqb c "]" then step_EndValue stk c
      else step_BeginValue stk c
  | stateBeginValue => step_BeginValue stk c
  | stateBeginStringOrEmpty =>
      if isSpace c then Some (stateBeginStringOrEmpty, stk)
      else if Ascii.eqb c "}" then
        match stk with
        | _ :: stk' => step_EndValue (parseObjectValue :: stk') c
        | [] => None
        end
      else step_BeginString stk c
  | stateBeginString => step_BeginString stk c
  | stateEndValue => step_EndValue stk c
  | stateEndTop => step_EndTop stk c
  | stateInString =>
      if Ascii.eqb c dquote then Some (stateEndValue, stk)
      else if Ascii.eqb c backslash then Some (stateInStringEsc, stk)
      else if (nat_of_ascii c <? 32)%nat then None
      else Some (stateInString, stk)
  | stateInStringEsc =>
      if byte_in (String dquote (String backslash "bfnrt/")) c then Some (stateInString, stk)
      else if Ascii.eqb c "u" then Some (stateInStringEscU 0, stk) else None
  | stateInStringEscU n =>
      if isHex c then
        if (n =? 3)%nat then Some (stateInString, stk) else Some (stateInStringEscU (S n), stk)
      else None
  | stateNeg =>
      if Ascii.eqb c "0" then Some (state0, stk)
      else if isDigit19 c then Some (state1, stk) else None
  | state1 => if isDigit c then Some (state1, stk) else step_0 stk c
  | state0 => step_0 stk c
  | stateDot => if isDigit c then Some (stateDot0, stk) else None
  | stateDot0 =>
      if isDigit c then Some (stateDot0, stk)
      else if Ascii.eqb c "e" || Ascii.eqb c "E" then Some (stateE, stk)
      else step_EndValue stk c
  | stateE =>
      if Ascii.eqb c "+" || Ascii.eqb c "-" then Some (stateESign, stk) else step_ESign stk c
  | stateESign => step_ESign stk c
  | stateE0 => if isDigit c then Some (stateE0, stk) else step_EndValue stk c
  | stateT => expect "r" stateTr stk c
  | stateTr => expect "u" stateTru stk c
  | stateTru => expect "e" stateEndValue stk c
  | stateF => expect "a" stateFa stk c
  | stateFa => expect "l" stateFal stk c
  | stateFal => expect "s" stateFals stk c
  | stateFals => expect "e" stateEndValue stk c
  | stateN => expect "u" stateNu stk c
  | stateNu => expect "l" stateNul stk c
  | stateNul => expect "l" stateEndValue stk c
  end.

Fixpoint scan (st : sstate) (stk : list pstate) (s : string) : scanres :=
  match s with
  | EmptyString => Some (st, stk)
  | String c s' =>
      match scan_step st stk c with
      | Some (st', stk') => scan st' stk' s'
      | None => None
      end
  end.

(** [s.eof()]: the value has ended, or one space ends it. *)
Definition scan_eof (st : sstate) (stk : list pstate) : bool :=
  match st with
  | stateEndTop => true
  | _ => match scan_step st stk " " with Some (stateEndTop, _) => true | _ => false end
  end.

Definition json_valid (s : string) : bool :=
  match scan stateBeginValue [] s with
  | Some (st, stk) => scan_eof st stk
  | None => false
  end.

(** ** Lemmas *)

Lemma scan_app st stk a b :
  scan st stk (a +:+ b) =
  match scan st stk a with Some (st', stk') => scan st' stk' b | None => None end.
Proof.
  revert st stk. induction a as [|c a IH]; intros st stk; simpl; [done|].
  destruct (scan_step st stk c) as [[st' stk']|]; [|done]. apply IH.
Qed.

Definition in_string (st : sstate) : bool :=
  match st with
  | stateInString | stateInStringEsc | stateInStringEscU _ => true
  | _ => false
  end.

(** States in which a separator has been read and the value that must follow
    it has not started. *)
Definition pending (st : sstate) : bool :=
  match st with stateBeginValue | stateBeginString => true | _ => false end.

Lemma scan_step_sep st stk c st' stk' :
  (c = "," \/ c = ":")%char ->
  scan_step st stk c = Some (st', stk') -> pending st' = true \/ in_string st' = true.
Proof.
  intros [-> | ->]; destruct st; simpl;
    unfold step_0, step_ESign, step_EndValue, step_EndTop; simpl;
    intros; go_cases; auto.
Qed.

Lemma scan_step_space st stk c st' stk' :
  isSpace c = true ->
  pending st = true \/ in_string st = true ->
  scan_step st stk c = Some (st', stk') -> pending st' = true \/ in_string st' = true.
Proof.
  unfold isSpace. intros Hc.
  assert (c = " " \/ c = TAB \/ c = CR \/ c = LF)%char as Hc'.
  { repeat (apply orb_prop in Hc as [Hc|Hc]); apply Ascii.eqb_eq in Hc; auto. }
  destruct Hc' as [->|[->|[->| ->]]]; destruct st; simpl; intros [?|?]; try done;
    unfold step_BeginValue, step_BeginString; simpl; intros; go_cases; auto.
Qed.

Lemma scan_eof_pending st stk :
  pending st = true \/ in_string st = true -> scan_eof st stk = false.
Proof. destruct st; simpl; intros [?|?]; done. Qed.

(** ** Examples *)

Example json_valid_ex1 : json_valid "{'a': [1, 2.5e-3, null], 'b': true}" = false.
Proof. reflexivity. Qed.

Definition q : string := String dquote "".
Example json_valid_ex2 :
  json_valid ("{" +:+ q +:+ "a" +:+ q +:+ ": [1, -2.5e-3, null], " +:+ q +:+ "b" +:+ q +:+ ":true}") = true.
Proof. reflexivity. Qed.

Example json_valid_ex3 : json_valid "[1,2" = false.
Proof. reflexivity. Qed.

(** ** Separators at the end of a scanned text *)

Definition ws : string := String " " (String TAB (String CR (String LF ""))).

Lemma byte_in_ws c : byte_in ws c = isSpace c.
Proof. unfold byte_in, isSpace. simpl. by rewrite orb_false_r, !orb_assoc. Qed.

Lemma scan_trailing_sep s d st stk :
  (d = "," \/ d = ":")%char ->
  scan stateBeginValue [] s = Some (st, stk) ->
  HasSuffix (TrimRight s ws) (String d "") = true ->
  pending st = true \/ in_string st = true.
Proof.
  intros Hd. revert st stk. induction s as [|s c IH] using str_snoc_ind; intros st stk.
  - by destruct Hd as [-> | ->].
  - rewrite scan_app. destruct (scan stateBeginValue [] s) as [[st0 stk0]|]; [|done].
    simpl. destruct (scan_step st0 stk0 c) as [[st1 stk1]|] eqn:E; [|done].
    intros [= <- <-]. unfold TrimRight in *. rewrite trim_right_by_snoc, byte_in_ws.
    destruct (isSpace c) eqn:Hc.
    + intros H. eapply scan_step_space; [exact Hc| |exact E]. by apply (IH st0 stk0).
    + rewrite HasSuffix_snoc. intros ->%Ascii.eqb_eq. by eapply scan_step_sep.
Qed.

(** ** The stack at the end of a scanned text *)

(** Inside a number, and at the end of a complete value. *)
Definition ends_value (st : sstate) : bool :=
  match st with stateEndValue | state0 | state1 | stateDot0 | stateE0 => true | _ => false end.

(** States that can only be reached in value position. *)
Definition value_pos (st : sstate) : bool :=
  match st with
  | stateBeginStringOrEmpty | stateBeginString | stateEndValue | stateInString
  | stateInStringEsc | stateInStringEscU _ => false
  | _ => true
  end.

Definition not_key (p : pstate) : Prop := p <> parseObjectKey.

(** The object being keyed is always the innermost container. *)
Definition scan_inv (st : sstate) (stk : list pstate) : Prop :=
  Forall not_key (tail stk)
  /\ (value_pos st = true -> Forall not_key stk)
  /\ (st = stateEndTop -> stk = [])
  /\ (st = stateBeginValueOrEmpty -> head stk = Some parseArrayValue)
  /\ (st = stateBeginStringOrEmpty -> head stk = Some parseObjectKey).

Lemma not_key_tail stk : Forall not_key stk -> Forall not_key (tail stk).
Proof. intros []; simpl; auto. Qed.

Ltac scan_inv_solve :=
  unfold scan_inv in *; simpl in *;
  repeat match goal with
         | H : true = true -> _ |- _ => specialize (H eq_refl)
         | H : Forall _ (_ :: _) |- _ => apply Forall_cons in H as [? ?]
         | H : _ /\ _ |- _ => destruct H
         end;
  repeat split; intros; try done; simplify_eq/=;
  try (repeat constructor; by unfold not_key); auto using not_key_tail.

Lemma step_EndValue_inv stk c st' stk' :
  Forall not_key (tail stk) ->
  step_EndValue stk c = Some (st', stk') -> scan_inv st' stk'.
Proof.
  unfold step_EndValue, step_EndTop, pop. intros Ht H.
  destruct stk as [|p stk]; simpl in *; [go_cases; scan_inv_solve|].
  destruct stk as [|q stk]; go_cases; scan_inv_solve.
Qed.

Lemma step_BeginValue_inv stk c st' stk' :
  Forall not_key stk ->
  step_BeginValue stk c = Some (st', stk') -> scan_inv st' stk'.
Proof.
  unfold step_BeginValue, push. intros Ht H.
  repeat case_match; simplify_eq/=; scan_inv_solve.
Qed.

Lemma scan_step_inv st stk c st' stk' :
  scan_inv st stk -> scan_step st stk c = Some (st', stk') -> scan_inv st' stk'.
Proof.
  intros (Ht & Hv & He & Ha & Ho) H.
  destruct st; simpl in H;
    unfold step_0, step_ESign, step_BeginString, step_EndTop, expect in H;
    repeat case_match; simplify_eq;
    eauto using step_EndValue_inv, step_BeginValue_inv, not_key_tail;
    scan_inv_solve.
Qed.

Lemma scan_keeps_inv s st stk st' stk' :
  scan_inv st stk -> scan st stk s = Some (st', stk') -> scan_inv st' stk'.
Proof.
  revert st stk. induction s as [|c s IH]; intros st stk Hi; simpl; [by intros [= <- <-]|].
  destruct (scan_step st stk c) as [[st1 stk1]|] eqn:E; [|done].
  intros H. eapply IH; [|exact H]. by eapply scan_step_inv.
Qed.

Lemma scan_init_inv : scan_inv stateBeginValue [].
Proof. scan_inv_solve. Qed.

Lemma scan_eof_nil st stk : scan_inv st stk -> scan_eof st stk = true -> stk = [].
Proof.
  intros (_ & _ & He & _). unfold scan_eof.
  destruct st; auto; simpl; unfold step_0, step_EndValue, step_EndTop; simpl;
    intros; go_cases; auto.
Qed.
