(* ===== verification/Types.v ===== *)
(** * The protocol layer's data

    [protocol/types.go]: roles, messages, tool calls, requests, responses,
    stream chunks, the error values of the layer with Go's [errors.Is] and
    [errors.As] on them, and the vendor enumeration of [protocol/host.go]. *)
From stdpp Require Import base tactics list gmap strings pretty.
From Stdlib Require Import ZArith Lia.
From S2P Require Import Prelude GoStrings.

(** ** Roles: [type Role string] *)

Definition Role : Type := string.
Definition RoleSystem : Role := "system".
Definition RoleUser : Role := "user".
Definition RoleAssistant : Role := "assistant".
Definition RoleTool : Role := "tool".

(** ** Go values of type [any] as JSON produces them. Maps are association
    lists without duplicate keys; the program never depends on their order. *)
Set Warnings "-register-all".
Inductive any :=
| ANull | ABool (b : bool) | ANum (lit : string) | AStr (s : string)
| AArr (l : list any) | AObj (l : list (string * any)).

(** ** Messages *)

Record ToolCall := mkToolCall {
  ID : string; Type_ : string; Name : string; Arguments : string }.

Record Message := mkMessage {
  mRole : Role;
  Content : string;
  ReasoningContent : string;
  ToolCalls : list ToolCall;
  ToolCallID : string;
  mName : string;
  MultiContent : list (list (string * any)) }.

Record ToolSchema := mkToolSchema {
  tsName : string; tsDescription : string; tsParameters : string }.

#[export] Instance ToolCall_eq_dec : EqDecision ToolCall.
Proof. solve_decision. Defined.

(** Field updates. *)
Definition set_tc_Name (n : string) (t : ToolCall) : ToolCall :=
  mkToolCall (ID t) (Type_ t) n (Arguments t).
Definition set_tc_Arguments (a : string) (t : ToolCall) : ToolCall :=
  mkToolCall (ID t) (Type_ t) (Name t) a.
Definition set_tc_ID (i : string) (t : ToolCall) : ToolCall :=
  mkToolCall i (Type_ t) (Name t) (Arguments t).
Definition set_ToolCalls (l : list ToolCall) (m : Message) : Message :=
  mkMessage (mRole m) (Content m) (ReasoningContent m) l (ToolCallID m) (mName m) (MultiContent m).
Definition set_mName (n : string) (m : Message) : Message :=
  mkMessage (mRole m) (Content m) (ReasoningContent m) (ToolCalls m) (ToolCallID m) n (MultiContent m).
Definition set_ToolCallID (i : string) (m : Message) : Message :=
  mkMessage (mRole m) (Content m) (ReasoningContent m) (ToolCalls m) i (mName m) (MultiContent m).

(** ** Usage, responses, requests *)

Record Usage := mkUsage { PromptTokens : Z; CompletionTokens : Z; TotalTokens : Z }.

Record Response := mkResponse {
  rContent : string; rReasoning : string; rToolCalls : list ToolCall;
  rUsage : option Usage; rWarning : string }.

(** The two [*float64] fields are only forwarded to the JSON body, so a float
    is carried as its JSON literal. *)
Record Request := mkRequest {
  reqModel : string; reqMessages : list Message; reqTools : list ToolSchema;
  reqTemperature : option string; reqTopP : option string; reqMaxTokens : option Z;
  reqStop : list string }.

(** ** Vendors: [type Vendor int] *)

Inductive Vendor :=
| VendorUnspecified | VendorDeepSeek | VendorMiniMax | VendorMiMo | VendorZhipu
| VendorLongCat | VendorOllamaCloud | VendorStepFun | VendorQwen.

#[export] Instance Vendor_eq_dec : EqDecision Vendor.
Proof. solve_decision. Defined.

Definition Vendor_num (v : Vendor) : nat :=
  match v with
  | VendorUnspecified => 0 | VendorDeepSeek => 1 | VendorMiniMax => 2 | VendorMiMo => 3
  | VendorZhipu => 4 | VendorLongCat => 5 | VendorOllamaCloud => 6 | VendorStepFun => 7
  | VendorQwen => 8
  end.

Definition Vendor_of_num (n : nat) : Vendor :=
  match n with
  | 1 => VendorDeepSeek | 2 => VendorMiniMax | 3 => VendorMiMo | 4 => VendorZhipu
  | 5 => VendorLongCat | 6 => VendorOllamaCloud | 7 => VendorStepFun | 8 => VendorQwen
  | _ => VendorUnspecified
  end.

(** [Vendor.String()] *)
Definition Vendor_String (v : Vendor) : string :=
  match v with
  | VendorDeepSeek => "deepseek" | VendorMiniMax => "minimax" | VendorMiMo => "mimo"
  | VendorZhipu => "zhipu" | VendorLongCat => "longcat" | VendorOllamaCloud => "ollama"
  | VendorStepFun => "stepfun" | VendorQwen => "qwen" | VendorUnspecified => "openai"
  end.

#[export] Instance Vendor_countable : Countable Vendor.
Proof. apply (inj_countable' Vendor_num Vendor_of_num). by intros []. Defined.

(** ** Errors

    The error values the layer creates or inspects. [EWrap p e] is
    [fmt.Errorf(p + ": %w", e)]; [EMsg] is an error without identity; the
    leaves before it are the sentinels and kinds [errors.Is]/[errors.As] look
    for. [ENet] is any other error that implements [net.Error]. *)
Inductive gerror :=
| ECanceled | EDeadlineExceeded
| EUnexpectedEOF | EEOF | ENetClosed | EConnReset | EConnAborted
| ENet (msg : string)
| EAuth (v : Vendor) (status : Z) (hasKey : bool)
| EAPI (v : Vendor) (status : Z) (body : string)
| EStreamInterrupted (emitted : bool) (e : gerror)
| EWrap (prefix : string) (e : gerror)
| EMsg (msg : string).

#[export] Instance gerror_eq_dec : EqDecision gerror.
Proof. solve_decision. Defined.

(** The chain [errors.Is] and [errors.As] walk: the error and what it wraps. *)
Fixpoint unwrap_any (p : gerror -> bool) (e : gerror) : bool :=
  p e || match e with
         | EStreamInterrupted _ e' | EWrap _ e' => unwrap_any p e'
         | _ => false
         end.

Definition errors_Is (e target : gerror) : bool :=
  unwrap_any (fun x => bool_decide (x = target)) e.

Definition is_net_error (e : gerror) : bool :=
  match e with ENet _ | EConnReset | EConnAborted | EDeadlineExceeded => true | _ => false end.

(** [errors.As(err, &AuthError)]: the status of the first one in the chain. *)
Fixpoint as_AuthError (e : gerror) : option Z :=
  match e with
  | EAuth _ s _ => Some s
  | EStreamInterrupted _ e' | EWrap _ e' => as_AuthError e'
  | _ => None
  end.

Fixpoint as_StreamInterrupted (e : gerror) : bool :=
  match e with
  | EStreamInterrupted _ _ => true
  | EWrap _ e' => as_StreamInterrupted e'
  | _ => false
  end.

Definition bool_str (b : bool) : string := if b then "true" else "false".

(** [Error()] *)
Fixpoint Error (e : gerror) : string :=
  match e with
  | ECanceled => "context canceled"
  | EDeadlineExceeded => "context deadline exceeded"
  | EUnexpectedEOF => "unexpected EOF"
  | EEOF => "EOF"
  | ENetClosed => "use of closed network connection"
  | EConnReset => "connection reset by peer"
  | EConnAborted => "software caused connection abort"
  | ENet m => m
  | EAuth v s k =>
      "auth error (vendor=" +:+ pretty (Vendor_num v) +:+ ", status=" +:+ pretty s
      +:+ ", has_key=" +:+ bool_str k +:+ ")"
  | EAPI v s b =>
      let h := "api error (vendor=" +:+ pretty (Vendor_num v) +:+ ", status=" +:+ pretty s +:+ ")" in
      if b =s "" then h else h +:+ ": " +:+ b
  | EStreamInterrupted em e' =>
      "stream interrupted (emitted=" +:+ bool_str em +:+ "): " +:+ Error e'
  | EWrap p e' => p +:+ ": " +:+ Error e'
  | EMsg m => m
  end.

(** ** Chunks *)

Inductive ChunkType :=
| ChunkText | ChunkReasoning | ChunkToolCallStart | ChunkToolCall | ChunkUsage
| ChunkWarn | ChunkDone | ChunkError | ChunkRawRequest | ChunkRawResponse | ChunkRawError.

#[export] Instance ChunkType_eq_dec : EqDecision ChunkType.
Proof. solve_decision. Defined.

Record Chunk := mkChunk {
  cType : ChunkType; cText : string; cToolCall : option ToolCall;
  cUsage : option Usage; cWarning : string; cError : option gerror }.

Definition text_chunk (s : string) : Chunk := mkChunk ChunkText s None None "" None.
Definition reasoning_chunk (s : string) : Chunk := mkChunk ChunkReasoning s None None "" None.
Definition tool_start_chunk (t : ToolCall) : Chunk := mkChunk ChunkToolCallStart "" (Some t) None "" None.
Definition tool_call_chunk (t : ToolCall) : Chunk := mkChunk ChunkToolCall "" (Some t) None "" None.
Definition usage_chunk (u : Usage) : Chunk := mkChunk ChunkUsage "" None (Some u) "" None.
Definition warn_chunk (w : string) : Chunk := mkChunk ChunkWarn "" None None w None.
Definition done_chunk : Chunk := mkChunk ChunkDone "" None None "" None.
Definition error_chunk (e : gerror) : Chunk := mkChunk ChunkError "" None None "" (Some e).

(** ** Lemmas *)

Lemma set_mName_id m : set_mName (mName m) m = m.
Proof. by destruct m. Qed.

Lemma set_ToolCallID_id m : set_ToolCallID (ToolCallID m) m = m.
Proof. by destruct m. Qed.

Lemma set_ToolCalls_id m : set_ToolCalls (ToolCalls m) m = m.
Proof. by destruct m. Qed.

Lemma set_tc_Name_id t : set_tc_Name (Name t) t = t.
Proof. by destruct t. Qed.

#[export] Hint Rewrite set_mName_id set_ToolCallID_id set_ToolCalls_id set_tc_Name_id : go_rw.
