(* ===== verification/GoJSONText.v ===== *)
(** * JSON text

    [json.Marshal] and [json.Unmarshal] of Go's [encoding/json] on values of
    type [any]: the encoder sorts the keys of a map and escapes strings, the
    decoder is a recursive descent with the library's nesting limit. How a
    number literal becomes a [float64] and is printed again is an argument. *)
From stdpp Require Import base tactics list gmap strings sorting.
From Stdlib Require Import ZArith NArith Lia.
From S2P Require Import Prelude GoStrings GoRegex Types.

(** ** Strings *)

Definition dq : string := String (byte 34) "".
Definition bsl : string := String (byte 92) "".

Definition hex_digit (n : nat) : ascii := if n <? 10 then byte (48 + n) else byte (87 + n).

(** An escaped byte below 128, or the byte itself. *)
Definition quote_byte (c : ascii) : string :=
  let n := nat_of_ascii c in
  if n =? 34 then bsl +:+ dq else if n =? 92 then bsl +:+ bsl
  else if n =? 8 then bsl +:+ "b" else if n =? 12 then bsl +:+ "f" else if n =? 10 then bsl +:+ "n"
  else if n =? 13 then bsl +:+ "r" else if n =? 9 then bsl +:+ "t"
  else if (n <? 32) || (n =? 60) || (n =? 62) || (n =? 38)
  then bsl +:+ "u00" +:+ String (hex_digit (n / 16)) (String (hex_digit (n mod 16)) "")
  else String c "".

(** [decode_rune] met a byte that starts no rune. *)
Definition bad_rune (s : string) (r : Z) (rest : string) : bool :=
  (r =? rune_error)%Z && (String.length s - String.length rest =? 1).

(** The escaped text; [fuel] is the length, and each round consumes a rune. *)
Fixpoint quote_go (fuel : nat) (s : string) : string :=
  match fuel, s with
  | S f, String c s' =>
      if nat_of_ascii c <? 128 then quote_byte c +:+ quote_go f s'
      else match decode_rune s with
           | Some (r, rest) =>
               (if bad_rune s r rest then bsl +:+ "ufffd"
                else if (r =? 8232)%Z then bsl +:+ "u2028" else if (r =? 8233)%Z then bsl +:+ "u2029"
                else str_take (String.length s - String.length rest) s) +:+ quote_go f rest
           | None => ""
           end
  | _, _ => ""
  end.

Definition MarshalString (s : string) : string := dq +:+ quote_go (String.length s) s +:+ dq.

Definition hex_val (c : ascii) : option Z :=
  let n := nat_of_ascii c in
  if (48 <=? n) && (n <=? 57) then Some (Z.of_nat (n - 48))
  else if (97 <=? n) && (n <=? 102) then Some (Z.of_nat (n - 87))
  else if (65 <=? n) && (n <=? 70) then Some (Z.of_nat (n - 55)) else None.

(** Four hexadecimal digits. *)
Definition hex4 (s : string) : option (Z * string) :=
  match s with
  | String a (String b (String c (String d rest))) =>
      match hex_val a, hex_val b, hex_val c, hex_val d with
      | Some a, Some b, Some c, Some d => Some (((a * 16 + b) * 16 + c) * 16 + d, rest)%Z
      | _, _, _, _ => None
      end
  | _ => None
  end.

Definition replacement : string := bytes [239; 191; 189].

(** The text after [\u]: a rune, or two halves of a surrogate pair. *)
Definition unicode_escape (s : string) : option (string * string) :=
  match hex4 s with
  | None => None
  | Some (r, rest) =>
      if (55296 <=? r)%Z && (r <? 57344)%Z then
        match rest with
        | String b (String u rest') =>
            if (nat_of_ascii b =? 92) && (nat_of_ascii u =? 117) then
              match hex4 rest' with
              | Some (r2, rest2) =>
                  if (r <? 56320)%Z && (56320 <=? r2)%Z && (r2 <? 57344)%Z
                  then Some (encode_rune (65536 + (r - 55296) * 1024 + (r2 - 56320))%Z, rest2)
                  else Some (replacement, rest)
              | None => Some (replacement, rest)
              end
            else Some (replacement, rest)
        | _ => Some (replacement, rest)
        end
      else Some (encode_rune r, rest)
  end.

(** The character after a backslash. *)
Definition simple_escape (c : ascii) : option ascii :=
  let n := nat_of_ascii c in
  if (n =? 34) || (n =? 92) || (n =? 47) then Some c
  else if n =? 98 then Some (byte 8) else if n =? 102 then Some (byte 12) else if n =? 110 then Some (byte 10)
  else if n =? 114 then Some (byte 13) else if n =? 116 then Some (byte 9) else None.

(** One character of a string literal: what it stands for and what follows;
    [None] for the closing quote is told apart by the caller. *)
Definition unquote_char (s : string) : option (string * string) :=
  match s with
  | EmptyString => None
  | String c s' =>
      let n := nat_of_ascii c in
      if n =? 92 then
        match s' with
        | String e s'' =>
            if nat_of_ascii e =? 117 then unicode_escape s''
            else (fun d => (String d "", s'')) <$> simple_escape e
        | EmptyString => None
        end
      else if n <? 32 then None
      else if n <? 128 then Some (String c "", s')
      else match decode_rune s with
           | Some (r, rest) =>
               Some (if bad_rune s r rest then replacement else str_take (String.length s - String.length rest) s, rest)
           | None => None
           end
  end.

(** The contents of a literal whose opening quote has been read. *)
Fixpoint unquote_go (fuel : nat) (s : string) : option (string * string) :=
  match fuel with
  | 0 => None
  | S f =>
      match s with
      | EmptyString => None
      | String c s' =>
          if nat_of_ascii c =? 34 then Some ("", s')
          else match unquote_char s with
               | None => None
               | Some (x, rest) =>
                   match unquote_go f rest with
                   | Some (y, rest') => Some (x +:+ y, rest')
                   | None => None
                   end
               end
      end
  end.

(** ** The round trip of strings *)

(** Valid UTF-8. *)
Inductive utf8 : string -> Prop :=
| utf8_nil : utf8 ""
| utf8_rune s r rest : decode_rune s = Some (r, rest) -> bad_rune s r rest = false -> utf8 rest -> utf8 s.

(** [utf8] is decidable: the runes are read one by one. *)
Fixpoint utf8b_go (fuel : nat) (s : string) : bool :=
  match fuel with
  | 0 => (s =s "")
  | S f => match decode_rune s with
           | None => (s =s "")
           | Some (r, rest) => negb (bad_rune s r rest) && utf8b_go f rest
           end
  end.
Definition utf8b (s : string) : bool := utf8b_go (String.length s) s.

Lemma utf8b_sound s : utf8b s = true -> utf8 s.
Proof.
  unfold utf8b. generalize (String.length s) as f. intros f. revert s.
  induction f as [|f IH]; intros s; cbn [utf8b_go]; [intros H; bool_prop; subst; constructor|].
  destruct (decode_rune s) as [[r rest]|] eqn:E; intros H; bool_prop; [|subst; constructor].
  econstructor; eauto.
Qed.

(** An escaped byte is read back. *)
Lemma unquote_quote_byte c k : nat_of_ascii c < 128 -> unquote_char (quote_byte c +:+ k) = Some (String c "", k).
Proof.
  intros H. destruct c as [[] [] [] [] [] [] [] []]; vm_compute in H; try lia; reflexivity.
Qed.

Lemma quote_byte_head c k : nat_of_ascii c < 128 ->
  exists d t, quote_byte c +:+ k = String d t /\ nat_of_ascii d <> 34.
Proof.
  intros H. destruct c as [[] [] [] [] [] [] [] []]; vm_compute in H; try lia;
    (eexists _, _; split; [reflexivity|vm_compute; discriminate]).
Qed.

Lemma ascii_byte c : ascii_of_nat (nat_of_ascii c) = c.
Proof. apply ascii_nat_embedding. Qed.

Lemma cont_Some lo hi c x : cont lo hi c = Some x ->
  lo <= nat_of_ascii c <= hi /\ x = (Z.of_nat (nat_of_ascii c) - 128)%Z.
Proof.
  unfold cont. destruct (Nat.leb_spec lo (nat_of_ascii c)), (Nat.leb_spec (nat_of_ascii c) hi); intros [= <-]; lia.
Qed.

(** The byte of a rune's encoding is the byte that was read. *)
Lemma enc_byte c z : z = Z.of_nat (nat_of_ascii c) -> ascii_of_nat (Z.to_nat z) = c.
Proof. intros ->. rewrite Nat2Z.id. apply ascii_byte. Qed.

(** The four forms of an encoded rune. *)
Inductive rune_form : string -> Z -> Prop :=
| form1 c0 : nat_of_ascii c0 < 128 -> rune_form (String c0 "") (Z.of_nat (nat_of_ascii c0))
| form2 c0 c1 : 194 <= nat_of_ascii c0 < 224 -> 128 <= nat_of_ascii c1 <= 191 ->
    rune_form (String c0 (String c1 "")) (Z.of_nat (nat_of_ascii c0 - 192) * 64 + (Z.of_nat (nat_of_ascii c1) - 128))
| form3 c0 c1 c2 : 224 <= nat_of_ascii c0 < 240 ->
    (cont_range (nat_of_ascii c0)).1 <= nat_of_ascii c1 <= (cont_range (nat_of_ascii c0)).2 ->
    128 <= nat_of_ascii c2 <= 191 ->
    rune_form (String c0 (String c1 (String c2 "")))
      (Z.of_nat (nat_of_ascii c0 - 224) * 4096 + (Z.of_nat (nat_of_ascii c1) - 128) * 64 + (Z.of_nat (nat_of_ascii c2) - 128))
| form4 c0 c1 c2 c3 : 240 <= nat_of_ascii c0 <= 244 ->
    (cont_range (nat_of_ascii c0)).1 <= nat_of_ascii c1 <= (cont_range (nat_of_ascii c0)).2 ->
    128 <= nat_of_ascii c2 <= 191 -> 128 <= nat_of_ascii c3 <= 191 ->
    rune_form (String c0 (String c1 (String c2 (String c3 ""))))
      (Z.of_nat (nat_of_ascii c0 - 240) * 262144 + (Z.of_nat (nat_of_ascii c1) - 128) * 4096
       + (Z.of_nat (nat_of_ascii c2) - 128) * 64 + (Z.of_nat (nat_of_ascii c3) - 128)).

Lemma bad_rune_1 c s : bad_rune (String c s) rune_error s = true.
Proof.
  unfold bad_rune. rewrite Z.eqb_refl. cbn [String.length andb]. apply Nat.eqb_eq. lia.
Qed.

Lemma decode_form s r rest : decode_rune s = Some (r, rest) -> bad_rune s r rest = false ->
  exists p, s = p +:+ rest /\ rune_form p r.
Proof.
  destruct s as [|c0 s0]; [done|]. unfold decode_rune. pose proof (bad_rune_1 c0 s0) as Hbad.
  destruct (Nat.ltb_spec (nat_of_ascii c0) 128) as [H0|H0]; [intros [= <- <-] _; eexists; by split; [|constructor]|].
  destruct (Nat.leb_spec 194 (nat_of_ascii c0)); [|intros [= <- <-]; congruence].
  destruct (Nat.leb_spec (nat_of_ascii c0) 244); [|intros [= <- <-]; congruence].
  cbn [andb]. destruct (cont_range (nat_of_ascii c0)) as [lo hi] eqn:Hr.
  destruct s0 as [|c1 s1]; [intros [= <- <-]; congruence|].
  destruct (cont lo hi c1) as [x1|] eqn:E1; [|intros [= <- <-]; congruence]. apply cont_Some in E1 as [E1 ->].
  destruct (Nat.ltb_spec (nat_of_ascii c0) 224).
  { intros [= <- <-] _. eexists. split; [|apply form2]; [done|lia|].
    unfold cont_range in Hr. repeat case_match; bool_prop; simplify_eq; lia. }
  destruct s1 as [|c2 s2]; [intros [= <- <-]; congruence|].
  destruct (cont 128 191 c2) as [x2|] eqn:E2; [|intros [= <- <-]; congruence]. apply cont_Some in E2 as [E2 ->].
  destruct (Nat.ltb_spec (nat_of_ascii c0) 240).
  { intros [= <- <-] _. eexists. split; [|apply form3]; [done|lia|by rewrite Hr|done]. }
  destruct s2 as [|c3 s3]; [intros [= <- <-]; congruence|].
  destruct (cont 128 191 c3) as [x3|] eqn:E3; [|intros [= <- <-]; congruence]. apply cont_Some in E3 as [E3 ->].
  intros [= <- <-] _. eexists. split; [|apply form4]; [done|lia|by rewrite Hr|done|done].
Qed.

Lemma cont_ok lo hi c : lo <= nat_of_ascii c <= hi -> cont lo hi c = Some (Z.of_nat (nat_of_ascii c) - 128)%Z.
Proof. intros [H1 H2]. unfold cont. by rewrite (proj2 (Nat.leb_le _ _) H1), (proj2 (Nat.leb_le _ _) H2). Qed.

Lemma cont_range_mid n : 128 <= (cont_range n).1 /\ (cont_range n).2 <= 191.
Proof. unfold cont_range. repeat case_match; simpl; lia. Qed.

(** A form is decoded whatever follows, and is not an error. *)
Lemma form_decode p r k : rune_form p r -> decode_rune (p +:+ k) = Some (r, k).
Proof.
  destruct 1 as [c0 H0|c0 c1 H0 H1|c0 c1 c2 H0 H1 H2|c0 c1 c2 c3 H0 H1 H2 H3]; cbn [String.append decode_rune];
    rewrite ?(proj2 (Nat.ltb_lt (nat_of_ascii c0) 128)) by lia; try done;
    rewrite (proj2 (Nat.ltb_ge (nat_of_ascii c0) 128)), (proj2 (Nat.leb_le 194 (nat_of_ascii c0))),
      (proj2 (Nat.leb_le (nat_of_ascii c0) 244)) by lia; cbn [andb];
    destruct (cont_range (nat_of_ascii c0)) as [lo hi] eqn:Hr; cbn [fst snd] in *.
  - assert (lo = 128 /\ hi = 191) as [-> ->].
    { unfold cont_range in Hr. repeat case_match; bool_prop; simplify_eq; lia. }
    rewrite cont_ok by done. by rewrite (proj2 (Nat.ltb_lt (nat_of_ascii c0) 224)) by lia.
  - rewrite !cont_ok by done. rewrite (proj2 (Nat.ltb_ge (nat_of_ascii c0) 224)) by lia.
    by rewrite (proj2 (Nat.ltb_lt (nat_of_ascii c0) 240)) by lia.
  - rewrite !cont_ok by done. rewrite (proj2 (Nat.ltb_ge (nat_of_ascii c0) 224)) by lia.
    by rewrite (proj2 (Nat.ltb_ge (nat_of_ascii c0) 240)) by lia.
Qed.

Lemma form_not_bad p r k : rune_form p r -> bad_rune (p +:+ k) r k = false.
Proof.
  intros H. unfold bad_rune. rewrite str_length_app. destruct H; cbn [String.length];
    try (rewrite (proj2 (Nat.eqb_neq _ _)) by lia; apply andb_false_r).
  rewrite (proj2 (Z.eqb_neq _ _)); [done|]. unfold rune_error. lia.
Qed.

Lemma form_take p r k : rune_form p r -> str_take (String.length (p +:+ k) - String.length k) (p +:+ k) = p.
Proof. intros _. rewrite str_length_app, Nat.add_sub. apply str_take_app. Qed.

Ltac small := first [rewrite (proj2 (Z.ltb_lt _ _)) by lia | rewrite (proj2 (Z.ltb_ge _ _)) by lia].

Lemma cont_range_low n : (n = 224 -> (cont_range n).1 = 160) /\ (n = 240 -> (cont_range n).1 = 144).
Proof. split; intros ->; reflexivity. Qed.

Lemma form_encode p r : rune_form p r -> encode_rune r = p.
Proof.
  destruct 1 as [c0 H0|c0 c1 H0 H1|c0 c1 c2 H0 H1 H2|c0 c1 c2 c3 H0 H1 H2 H3]; unfold encode_rune;
    try (pose proof (cont_range_mid (nat_of_ascii c0)); pose proof (cont_range_low (nat_of_ascii c0)));
    try (generalize dependent (cont_range (nat_of_ascii c0)); intros [lo hi]; cbn [fst snd]; intros).
  - small. by rewrite (enc_byte c0).
  - small. small. rewrite (enc_byte c0), (enc_byte c1); [done|Z.to_euclidean_division_equations; lia..].
  - small. small. small. rewrite (enc_byte c0), (enc_byte c1), (enc_byte c2); [done|Z.to_euclidean_division_equations; lia..].
  - small. small. small. rewrite (enc_byte c0), (enc_byte c1), (enc_byte c2), (enc_byte c3); [done|Z.to_euclidean_division_equations; lia..].
Qed.

Lemma utf8_form s : utf8 s -> s = "" \/ exists p r rest, s = p +:+ rest /\ rune_form p r /\ utf8 rest.
Proof.
  destruct 1 as [|s r rest Hd Hb Hr]; [by left|]. right. destruct (decode_form s r rest Hd Hb) as (p & -> & Hp).
  by exists p, r, rest.
Qed.

Lemma form_length p r : rune_form p r -> 1 <= String.length p.
Proof. destruct 1; simpl; lia. Qed.

(** What the encoder writes for one rune, and the decoder reads back. *)
Definition quote_rune (p : string) (r : Z) : string :=
  match p with
  | String c "" => quote_byte c
  | _ => if (r =? 8232)%Z then bsl +:+ "u2028" else if (r =? 8233)%Z then bsl +:+ "u2029" else p
  end.

Lemma quote_go_rune f p r rest : rune_form p r -> quote_go (S f) (p +:+ rest) = quote_rune p r +:+ quote_go f rest.
Proof.
  intros H. pose proof (form_decode p r rest H) as Hd. pose proof (form_not_bad p r rest H) as Hb.
  pose proof (form_take p r rest H) as Ht. destruct H as [c0 H0|c0 c1 H0 H1|c0 c1 c2 H0 H1 H2|c0 c1 c2 c3 H0 H1 H2 H3];
    cbn [String.append] in *; unfold quote_go; fold quote_go; cbn [quote_rune].
  - by rewrite (proj2 (Nat.ltb_lt _ _) H0).
  - rewrite (proj2 (Nat.ltb_ge (nat_of_ascii c0) 128)), Hd, Hb, Ht by lia. done.
  - rewrite (proj2 (Nat.ltb_ge (nat_of_ascii c0) 128)), Hd, Hb, Ht by lia. done.
  - rewrite (proj2 (Nat.ltb_ge (nat_of_ascii c0) 128)), Hd, Hb, Ht by lia. done.
Qed.

Lemma unquote_char_raw p r k : rune_form p r -> 2 <= String.length p -> unquote_char (p +:+ k) = Some (p, k).
Proof.
  intros H Hl. pose proof (form_decode p r k H) as Hd. pose proof (form_not_bad p r k H) as Hb.
  pose proof (form_take p r k H) as Ht.
  assert (exists c t, p = String c t /\ 128 <= nat_of_ascii c) as (c & t & -> & Hc)
    by (destruct H; simpl in Hl; try lia; (eexists _, _; split; [reflexivity|lia])).
  cbn [String.append] in *. unfold unquote_char.
  rewrite (proj2 (Nat.eqb_neq _ 92)), (proj2 (Nat.ltb_ge _ 32)), (proj2 (Nat.ltb_ge _ 128)) by lia.
  by rewrite Hd, Hb, Ht.
Qed.

Lemma unquote_quote_rune p r k : rune_form p r -> unquote_char (quote_rune p r +:+ k) = Some (p, k).
Proof.
  intros H. destruct (decide (String.length p = 1)) as [E|E].
  - destruct H; try discriminate E. by apply unquote_quote_byte.
  - pose proof (form_length p r H). pose proof (form_encode p r H) as He.
    assert (quote_rune p r = if (r =? 8232)%Z then bsl +:+ "u2028" else if (r =? 8233)%Z then bsl +:+ "u2029" else p) as ->
      by (destruct p as [|a [|b p]]; try done; simpl in *; lia).
    destruct (Z.eqb_spec r 8232) as [->|]; [subst p; reflexivity|].
    destruct (Z.eqb_spec r 8233) as [->|]; [subst p; reflexivity|]. apply (unquote_char_raw p r); [done|lia].
Qed.

Lemma quote_rune_head p r k : rune_form p r -> exists d t, quote_rune p r +:+ k = String d t /\ nat_of_ascii d <> 34.
Proof.
  intros H. assert (forall c t, 34 < nat_of_ascii c -> exists d t', String c t +:+ k = String d t' /\ nat_of_ascii d <> 34) as Hc
    by (intros c t Hlt; exists c, (t +:+ k); split; [done|lia]).
  destruct H as [c0 H0|c0 c1 H0 H1|c0 c1 c2 H0 H1 H2|c0 c1 c2 c3 H0 H1 H2 H3]; cbn [quote_rune];
    try (by apply quote_byte_head);
    repeat match goal with |- context [if ?b then _ else _] => destruct b end; apply Hc; try lia; vm_compute; lia.
Qed.

Lemma quote_unquote s : utf8 s -> forall f g k, String.length s <= f -> String.length s < g ->
  unquote_go g (quote_go f s +:+ dq +:+ k) = Some (s, k).
Proof.
  remember (String.length s) as n eqn:Hn. revert s Hn. induction (lt_wf n) as [n _ IH]. intros s -> Hs f g k Hf Hg.
  destruct (utf8_form s Hs) as [->|(p & r & rest & -> & Hp & Hr)].
  - destruct g as [|g]; [lia|]. by destruct f.
  - pose proof (form_length p r Hp). rewrite str_length_app in *. destruct f as [|f], g as [|g]; try lia.
    rewrite (quote_go_rune f p r rest Hp), str_app_assoc.
    destruct (quote_rune_head p r (quote_go f rest +:+ dq +:+ k) Hp) as (d & t & E & Hd).
    pose proof (unquote_quote_rune p r (quote_go f rest +:+ dq +:+ k) Hp) as Hu. rewrite E in *.
    cbn [unquote_go]. rewrite (proj2 (Nat.eqb_neq _ 34)) by done. rewrite Hu.
    rewrite (IH (String.length rest)) by (done || lia). done.
Qed.

(** ** Names *)

(** Names are compared up to case by simple folding, under which the letters s
    and k are also U+017F and U+212A. *)
Definition long_s : string := bytes [197; 191].
Definition kelvin : string := bytes [226; 132; 170].

(** The folded form of a key, for comparison with a lower-case ASCII name. *)
Definition fold_key (k : string) : string :=
  String.string_of_list_ascii (map lower_byte (String.list_ascii_of_string (ReplaceAll (ReplaceAll k long_s "s") kelvin "k"))).

(** ** Numbers *)

Definition num_char (c : ascii) : bool := byte_in "0123456789+-.eE" c.

Fixpoint take_num (s : string) : string :=
  match s with String c s' => if num_char c then String c (take_num s') else "" | EmptyString => "" end.

Definition reNumber : re :=
  RSeqs [ROpt (RByte "-"); RAlt (RByte "0") (RSeq (RIn "123456789") (RStar RDigit));
         ROpt (RSeq (RByte ".") (RPlus RDigit));
         ROpt (RSeqs [RIn "eE"; ROpt (RIn "+-"); RPlus RDigit]); REnd].

Lemma take_num_app l k : forallb num_char (String.list_ascii_of_string l) = true ->
  match k with String c _ => num_char c = false | "" => True end -> take_num (l +:+ k) = l.
Proof.
  intros Hl Hk. induction l as [|c l IH]; [destruct k; [done|]; cbn [String.append take_num]; by rewrite Hk|].
  cbn [String.list_ascii_of_string forallb] in Hl. apply andb_prop in Hl as [H1 H2]. cbn [String.append take_num].
  by rewrite H1, IH.
Qed.

(** ** Values *)

Definition key_le {A} (p q : string * A) : Prop := String.le p.1 q.1.
#[export] Instance key_le_dec {A} (p q : string * A) : Decision (key_le p q).
Proof. unfold key_le. apply _. Defined.

(** The fields of a map in the order in which they are written. *)
Definition sort_fields {A} (l : list (string * A)) : list (string * A) := merge_sort key_le l.

Definition obj_text (fields : list (string * string)) : string :=
  "{" +:+ Join ((fun p => MarshalString p.1 +:+ ":" +:+ p.2) <$> fields) "," +:+ "}".
Definition arr_text (l : list string) : string := "[" +:+ Join l "," +:+ "]".

(** [json.Marshal] of an [any]; a number is the literal its [float64] prints as. *)
Fixpoint Marshal (v : any) : string :=
  match v with
  | ANull => "null"
  | ABool b => if b then "true" else "false"
  | ANum lit => lit
  | AStr s => MarshalString s
  | AArr l => arr_text (map Marshal l)
  | AObj l => obj_text (sort_fields (map (fun p => (p.1, Marshal p.2)) l))
  end.

(** A later field replaces an earlier one of the same name. *)
Fixpoint put_field {A} (k : string) (v : A) (l : list (string * A)) : list (string * A) :=
  match l with
  | [] => [(k, v)]
  | (k', v') :: l' => if k =s k' then (k, v) :: l' else (k', v') :: put_field k v l'
  end.

Fixpoint skip_ws (s : string) : string :=
  match s with String c s' => if byte_in (bytes [32; 9; 10; 13]) c then skip_ws s' else s | EmptyString => "" end.

Section Decode.
(** A number literal as the [float64] it denotes, printed again; [None] out of
    range. *)
Context (num : string -> option string).
(** What a field does to the fields before it. *)
Context (put : string -> any -> list (string * any) -> list (string * any)).

Definition parse_number (s : string) : option (any * string) :=
  let lit := take_num s in
  if MatchStart reNumber lit then (fun n => (ANum n, str_drop (String.length lit) s)) <$> num lit else None.

Definition parse_literal (s : string) : option (any * string) :=
  if HasPrefix s "null" then Some (ANull, str_drop 4 s)
  else if HasPrefix s "true" then Some (ABool true, str_drop 4 s)
  else if HasPrefix s "false" then Some (ABool false, str_drop 5 s)
  else parse_number s.

Definition expect (c : ascii) (s : string) : option string :=
  match skip_ws s with String d s' => if Ascii.eqb c d then Some s' else None | EmptyString => None end.

(** A value, the rest of an array after a [\[] or a comma, and the rest of an
    object; [d] is the nesting still allowed, and every call consumes a byte or
    is preceded by one, so twice the length of the text is enough fuel. *)
Fixpoint parse_value (fuel : nat) (d : N) (s0 : string) : option (any * string) :=
  match fuel with
  | 0 => None
  | S f =>
      match skip_ws s0 with
      | EmptyString => None
      | String c s' as s =>
          if Ascii.eqb c (byte 34) then
            match unquote_go (String.length s) s' with Some (x, rest) => Some (AStr x, rest) | None => None end
          else if Ascii.eqb c "[" then
            if (d =? 0)%N then None
            else match expect "]" s' with
                 | Some rest => Some (AArr [], rest)
                 | None => match parse_elems f (N.pred d) s' with
                           | Some (l, rest) => Some (AArr l, rest)
                           | None => None
                           end
                 end
          else if Ascii.eqb c "{" then
            if (d =? 0)%N then None
            else match expect "}" s' with
                 | Some rest => Some (AObj [], rest)
                 | None => match parse_fields f (N.pred d) [] s' with
                           | Some (l, rest) => Some (AObj l, rest)
                           | None => None
                           end
                 end
          else parse_literal s
      end
  end
with parse_elems (fuel : nat) (d : N) (s : string) : option (list any * string) :=
  match fuel with
  | 0 => None
  | S f =>
      match parse_value f d s with
      | None => None
      | Some (v, rest) =>
          match expect "]" rest with
          | Some rest' => Some ([v], rest')
          | None => match expect "," rest with
                    | None => None
                    | Some rest' => match parse_elems f d rest' with
                                    | Some (l, rest'') => Some (v :: l, rest'')
                                    | None => None
                                    end
                    end
          end
      end
  end
with parse_fields (fuel : nat) (d : N) (acc : list (string * any)) (s : string) : option (list (string * any) * string) :=
  match fuel with
  | 0 => None
  | S f =>
      match expect (byte 34) s with
      | None => None
      | Some s1 =>
          match unquote_go (S (String.length s1)) s1 with
          | None => None
          | Some (k, s2) =>
              match expect ":" s2 with
              | None => None
              | Some s3 =>
                  match parse_value f d s3 with
                  | None => None
                  | Some (v, rest) =>
                      let acc := put k v acc in
                      match expect "}" rest with
                      | Some rest' => Some (acc, rest')
                      | None => match expect "," rest with
                                | Some rest' => parse_fields f d acc rest'
                                | None => None
                                end
                      end
                  end
              end
          end
      end
  end.

Definition maxNestingDepth : N := 10000.

(** One value and nothing but white space after it. *)
Definition UnmarshalWith (s : string) : option any :=
  match parse_value (2 * String.length s + 2) maxNestingDepth s with
  | Some (v, rest) => if skip_ws rest =s "" then Some v else None
  | None => None
  end.
End Decode.

(** [json.Unmarshal] into an [any]. *)
Definition Unmarshal (num : string -> option string) : string -> option any := UnmarshalWith num put_field.

Example Unmarshal_ex :
  Unmarshal Some (" {" +:+ dq +:+ "b" +:+ dq +:+ ": [1, -2.5e3, null], " +:+ dq +:+ "a" +:+ dq +:+ ":" +:+ dq +:+ bsl +:+ "u4e2d" +:+ dq +:+ "}")
  = Some (AObj [("b", AArr [ANum "1"; ANum "-2.5e3"; ANull]); ("a", AStr "中")]).
Proof. vm_compute. reflexivity. Qed.

Example Marshal_ex : Marshal (AObj [("b", AArr [ANum "1"; ABool true]); ("a", AStr "<x>")])
  = "{" +:+ dq +:+ "a" +:+ dq +:+ ":" +:+ dq +:+ bsl +:+ "u003cx" +:+ bsl +:+ "u003e" +:+ dq +:+ "," +:+ dq +:+ "b" +:+ dq +:+ ":[1,true]}".
Proof. vm_compute. reflexivity. Qed.

Example Unmarshal_bad : Unmarshal Some "[1,]" = None /\ Unmarshal Some "01" = None /\ Unmarshal Some "{} x" = None
  /\ Unmarshal Some "tru" = None /\ Unmarshal Some "" = None.
Proof. vm_compute. repeat split; reflexivity. Qed.

(** ** Induction on values *)

Section AnyInd.
Context (P : any -> Prop) (Hnull : P ANull) (Hbool : forall b, P (ABool b)) (Hnum : forall l, P (ANum l))
  (Hstr : forall s, P (AStr s)) (Harr : forall l, Forall P l -> P (AArr l))
  (Hobj : forall l, Forall (fun p => P p.2) l -> P (AObj l)).

Fixpoint any_tree_ind (v : any) : P v :=
  match v with
  | ANull => Hnull | ABool b => Hbool b | ANum l => Hnum l | AStr s => Hstr s
  | AArr l => Harr l ((fix go (l : list any) : Forall P l :=
                         match l with [] => Forall_nil_2 _ | x :: l' => Forall_cons_2 _ x l' (any_tree_ind x) (go l') end) l)
  | AObj l => Hobj l ((fix go (l : list (string * any)) : Forall (fun p => P p.2) l :=
                         match l with
                         | [] => Forall_nil_2 _
                         | x :: l' => Forall_cons_2 _ x l' (any_tree_ind x.2) (go l')
                         end) l)
  end.
End AnyInd.

(** ** Sorted fields *)

#[export] Instance key_le_total {A} : Total (@key_le A).
Proof. intros p q. unfold key_le. apply (total String.le). Qed.
#[export] Instance key_le_trans {A} : Transitive (@key_le A).
Proof. intros p q r. unfold key_le. intros. by etransitivity. Qed.

Lemma sort_fields_perm {A} (l : list (string * A)) : sort_fields l ≡ₚ l.
Proof. apply merge_sort_Permutation. Qed.

Lemma sort_fields_sorted {A} (l : list (string * A)) : StronglySorted key_le (sort_fields l).
Proof. apply StronglySorted_merge_sort; apply _. Qed.

Lemma fields_functional {A} (l : list (string * A)) k v1 v2 : NoDup l.*1 -> (k, v1) ∈ l -> (k, v2) ∈ l -> v1 = v2.
Proof.
  intros Hnd H1 H2. pose proof (elem_of_list_to_map_1 (M := gmap string) l k v1 Hnd H1).
  pose proof (elem_of_list_to_map_1 (M := gmap string) l k v2 Hnd H2). congruence.
Qed.

(** With distinct keys there is one sorted arrangement. *)
Lemma sorted_fields_unique {A} (l1 l2 : list (string * A)) :
  NoDup l1.*1 -> StronglySorted key_le l1 -> StronglySorted key_le l2 -> l1 ≡ₚ l2 -> l1 = l2.
Proof.
  intros Hnd H1 H2 Hp. apply (StronglySorted_unique_strong key_le); [|done..].
  intros [k1 v1] [k2 v2] Hx Hy Hle1 Hle2. unfold key_le in *. cbn [fst] in *.
  assert (k1 = k2) as -> by by apply (anti_symm String.le). f_equal. rewrite <- Hp in Hy.
  by apply (fields_functional l1 k2).
Qed.

Lemma sort_fields_unique {A} (l1 l2 : list (string * A)) : NoDup l1.*1 -> l1 ≡ₚ l2 -> sort_fields l1 = sort_fields l2.
Proof.
  intros Hnd Hp. apply sorted_fields_unique; try apply sort_fields_sorted.
  - by rewrite sort_fields_perm.
  - by rewrite !sort_fields_perm.
Qed.

Definition map_vals {A B} (f : A -> B) (l : list (string * A)) : list (string * B) := (fun p => (p.1, f p.2)) <$> l.

Lemma map_vals_keys {A B} (f : A -> B) l : (map_vals f l).*1 = l.*1.
Proof. unfold map_vals. by rewrite <- list_fmap_compose. Qed.

Lemma map_vals_sorted {A B} (f : A -> B) l : StronglySorted key_le l -> StronglySorted key_le (map_vals f l).
Proof.
  induction 1 as [|p l Hl IH Hf]; [constructor|]. cbn. constructor; [done|]. apply Forall_fmap. by eapply Forall_impl.
Qed.

Lemma sort_fields_map {A B} (f : A -> B) l : NoDup l.*1 -> sort_fields (map_vals f l) = map_vals f (sort_fields l).
Proof.
  intros Hnd. apply sorted_fields_unique.
  - by rewrite sort_fields_perm, map_vals_keys.
  - apply sort_fields_sorted.
  - apply map_vals_sorted, sort_fields_sorted.
  - unfold map_vals. by rewrite !sort_fields_perm.
Qed.

(** ** The round trip of values *)

(** The text of a value with its fields in the order in which they are listed. *)
Fixpoint text (v : any) : string :=
  match v with
  | AArr l => arr_text (map text l)
  | AObj l => obj_text (map (fun p => (p.1, text p.2)) l)
  | _ => Marshal v
  end.

(** The value with the fields of every object sorted. *)
Fixpoint canon (v : any) : any :=
  match v with
  | AArr l => AArr (map canon l)
  | AObj l => AObj (sort_fields (map (fun p => (p.1, canon p.2)) l))
  | _ => v
  end.

Fixpoint depth (v : any) : nat :=
  match v with
  | AArr l => S (list_max (map depth l))
  | AObj l => S (list_max (map (fun p => depth p.2) l))
  | _ => 0
  end.

(** The calls the decoder makes on the text of a value. *)
Fixpoint calls (v : any) : nat :=
  match v with
  | AArr l => S (list_sum (map (fun x => S (calls x)) l))
  | AObj l => S (list_sum (map (fun p => S (calls p.2)) l))
  | _ => 1
  end.

(** A value that [Unmarshal] can return: distinct keys in every object, valid
    UTF-8, numbers as [float64] prints them. *)
Fixpoint wf_any (num : string -> option string) (v : any) : bool :=
  match v with
  | ANull | ABool _ => true
  | ANum lit => forallb num_char (String.list_ascii_of_string lit) && MatchStart reNumber lit
                && bool_decide (num lit = Some lit)
  | AStr s => utf8b s
  | AArr l => forallb (wf_any num) l
  | AObj l => bool_decide (NoDup l.*1) && forallb (fun p => utf8b p.1 && wf_any num p.2) l
  end.

Lemma quote_byte_length c : 1 <= String.length (quote_byte c).
Proof. destruct c as [[] [] [] [] [] [] [] []]; vm_compute; lia. Qed.

Lemma quote_rune_length p r : rune_form p r -> String.length p <= String.length (quote_rune p r).
Proof.
  destruct 1; cbn [quote_rune]; [apply quote_byte_length|..];
    repeat match goal with |- context [if ?b then _ else _] => destruct b end; cbn; lia.
Qed.

Lemma quote_length s : utf8 s -> forall f, String.length s <= f -> String.length s <= String.length (quote_go f s).
Proof.
  remember (String.length s) as n eqn:Hn. revert s Hn. induction (lt_wf n) as [n _ IH]. intros s -> Hs f Hf.
  destruct (utf8_form s Hs) as [->|(p & r & rest & -> & Hp & Hr)]; [simpl; lia|].
  pose proof (form_length p r Hp). pose proof (quote_rune_length p r Hp). rewrite str_length_app in *.
  destruct f as [|f]; [lia|]. rewrite (quote_go_rune f p r rest Hp), str_length_app.
  pose proof (IH (String.length rest) ltac:(lia) rest eq_refl Hr f ltac:(lia)). lia.
Qed.

Lemma MarshalString_parse s k : utf8b s = true ->
  exists t, MarshalString s +:+ k = String (byte 34) t /\
    forall g, String.length t < g -> unquote_go g t = Some (s, k).
Proof.
  intros Hs%utf8b_sound. exists (quote_go (String.length s) s +:+ dq +:+ k). split.
  - unfold MarshalString. by rewrite !str_app_assoc.
  - intros g Hg. apply quote_unquote; [done..|]. pose proof (quote_length s Hs (String.length s)).
    rewrite str_length_app in Hg. lia.
Qed.

(** What may follow a value. *)
Definition ends (k : string) : bool := match k with String c _ => byte_in ",]}" c | "" => true end.

Lemma ends_num k : ends k = true -> match k with String c _ => num_char c = false | "" => True end.
Proof. destruct k as [|c k]; [done|]. cbn [ends]. destruct c as [[] [] [] [] [] [] [] []]; by vm_compute. Qed.

(** The characters a value can start with. *)
Definition starts (c : ascii) : bool := byte_in (dq +:+ "[{ntf-0123456789") c.

Lemma starts_plain c : starts c = true ->
  byte_in (bytes [32; 9; 10; 13]) c = false /\ Ascii.eqb "]" c = false /\ Ascii.eqb "}" c = false.
Proof. destruct c as [[] [] [] [] [] [] [] []]; by vm_compute. Qed.

Lemma number_starts c lit : MatchStart reNumber (String c lit) = true -> starts c = true.
Proof.
  intros H. destruct (starts c) eqn:E; [done|]. exfalso.
  destruct c as [[] [] [] [] [] [] [] []]; vm_compute in E; try discriminate E; vm_compute in H; discriminate H.
Qed.

Lemma text_head num v : wf_any num v = true -> exists c t, text v = String c t /\ starts c = true.
Proof.
  destruct v as [|[]|lit|s|l|l]; intros H; try (eexists _, _; split; [reflexivity|vm_compute; reflexivity]).
  cbn [wf_any] in H. bool_prop. destruct lit as [|c lit]; [done|]. eexists _, _. split; [reflexivity|].
  by eapply number_starts.
Qed.

Lemma skip_ws_start c t : starts c = true -> skip_ws (String c t) = String c t.
Proof. intros (H & _ & _)%starts_plain. cbn [skip_ws]. by rewrite H. Qed.

Lemma expect_start c t : starts c = true -> expect "]" (String c t) = None /\ expect "}" (String c t) = None.
Proof.
  intros H. unfold expect. rewrite (skip_ws_start c t H). apply starts_plain in H as (_ & H1 & H2). by rewrite H1, H2.
Qed.

Lemma put_field_fresh {A} k (v : A) l : k ∉ l.*1 -> put_field k v l = l ++ [(k, v)].
Proof.
  induction l as [|[k' v'] l IH]; intros H; [done|]. cbn [put_field]. cbn in H. apply not_elem_of_cons in H as [H1 H2].
  rewrite (proj2 (String.eqb_neq _ _) H1). cbn. by rewrite IH.
Qed.

Section RoundTrip.
Context (num : string -> option string) (put : string -> any -> list (string * any) -> list (string * any)).
Context (put_fresh : forall k v l, k ∉ l.*1 -> put k v l = l ++ [(k, v)]).
Abbreviation wf := (wf_any num).

(** The decoder reads back a value whatever follows it. *)
Definition reads (v : any) : Prop :=
  wf v = true -> forall f d k, calls v <= f -> (N.of_nat (depth v) <= d)%N -> ends k = true ->
  parse_value num put f d (text v +:+ k) = Some (v, k).

Lemma parse_literal_num lit k : wf (ANum lit) = true -> ends k = true ->
  parse_literal num (lit +:+ k) = Some (ANum lit, k).
Proof.
  intros H Hk. cbn [wf_any] in H. apply andb_prop in H as [[H1 H2]%andb_prop Hn%bool_decide_eq_true_1].
  destruct lit as [|c lit]; [done|].
  assert (c ≠ "n"%char /\ c ≠ "t"%char /\ c ≠ "f"%char) as (H3 & H4 & H5).
  { cbn [String.list_ascii_of_string forallb] in H1. repeat split; intros ->; done. }
  unfold parse_literal. cbn [String.append HasPrefix].
  rewrite 3!(proj2 (Ascii.eqb_neq _ _)) by congruence. cbn [andb]. unfold parse_number. change (String c (lit +:+ k)) with (String c lit +:+ k).
  rewrite take_num_app by (done || by apply ends_num).
  rewrite H2, Hn. cbn [fmap option_fmap option_map]. by rewrite str_drop_app.
Qed.

Lemma expect_here c k : starts c || byte_in ",]}:" c = true -> expect c (String c k) = Some k.
Proof. unfold expect. destruct c as [[] [] [] [] [] [] [] []]; intros H; vm_compute in H; try done; reflexivity. Qed.

Lemma str_app_1 c k : String c "" +:+ k = String c k.
Proof. done. Qed.

Lemma expect_app c k : starts c || byte_in ",]}:" c = true -> expect c (String c "" +:+ k) = Some k.
Proof. apply expect_here. Qed.

Lemma expect_comma k : expect "]" ("," +:+ k) = None /\ expect "}" ("," +:+ k) = None.
Proof. by split. Qed.

Lemma parse_elems_reads l : Forall reads l -> l <> [] -> forallb wf l = true -> forall f d k,
  list_sum (map (fun x => S (calls x)) l) <= f -> Forall (fun x => N.of_nat (depth x) <= d)%N l ->
  parse_elems num put f d (Join (map text l) "," +:+ "]" +:+ k) = Some (l, k).
Proof.
  induction l as [|x l IH]; [done|]. intros [Hx Hl]%Forall_cons _ [Hwx Hwl]%andb_prop f d k Hf [Hdx Hdl]%Forall_cons.
  cbn [map list_sum foldr] in Hf. destruct f as [|f]; [lia|]. cbn [parse_elems map]. destruct l as [|y l].
  - change (Join [text x] ",") with (text x). by rewrite (Hx Hwx) by (lia || done).
  - cbn [map]. rewrite Join_step, !str_app_assoc, (Hx Hwx) by (lia || done).
    rewrite (proj1 (expect_comma _)), expect_app by done.
    change (text y :: map text l) with (map text (y :: l)). rewrite IH by (done || (cbn [map list_sum foldr] in *; lia)). done.
Qed.

Definition field_text (p : string * any) : string := MarshalString p.1 +:+ ":" +:+ text p.2.

Lemma parse_fields_reads l : Forall (fun p => reads p.2) l -> l <> [] ->
  forallb (fun p => utf8b p.1 && wf p.2) l = true -> forall acc, NoDup (acc ++ l).*1 -> forall f d k,
  list_sum (map (fun p => S (calls p.2)) l) <= f -> Forall (fun p => N.of_nat (depth p.2) <= d)%N l ->
  parse_fields num put f d acc (Join (map field_text l) "," +:+ "}" +:+ k) = Some (acc ++ l, k).
Proof.
  induction l as [|[key x] l IH]; [done|].
  intros [Hx Hl]%Forall_cons _ [[Hk Hwx]%andb_prop Hwl]%andb_prop acc Hnd f d k Hf [Hdx Hdl]%Forall_cons.
  cbn [fst snd] in *. cbn [map list_sum foldr snd] in Hf. destruct f as [|f]; [lia|].
  assert (key ∉ acc.*1) as Hfresh.
  { rewrite fmap_app, fmap_cons in Hnd. apply NoDup_app in Hnd as (_ & Hnd & _). intros Hin. apply (Hnd _ Hin). left. }
  assert (forall rest, ends rest = true -> parse_fields num put (S f) d acc (field_text (key, x) +:+ rest)
    = match expect "}" rest with
      | Some rest' => Some (acc ++ [(key, x)], rest')
      | None => match expect "," rest with Some rest' => parse_fields num put f d (acc ++ [(key, x)]) rest' | None => None end
      end) as Hstep.
  { intros rest Hrest. unfold field_text. cbn [fst snd]. rewrite !str_app_assoc.
    destruct (MarshalString_parse key (":" +:+ text x +:+ rest) Hk) as (t & -> & Hu).
    cbn [parse_fields]. rewrite expect_here, Hu, expect_app, (Hx Hwx), put_fresh by (done || lia). done. }
  destruct l as [|q l].
  - cbn [map]. change (Join [field_text (key, x)] ",") with (field_text (key, x)). by rewrite Hstep by done.
  - cbn [map]. rewrite Join_step, !str_app_assoc, Hstep by done.
    rewrite (proj2 (expect_comma _)), expect_app by done.
    change (field_text q :: map field_text l) with (map field_text (q :: l)).
    rewrite (IH Hl) by (done || by rewrite <- app_assoc || (cbn [map list_sum foldr] in *; lia)). by rewrite <- app_assoc.
Qed.

Lemma depth_elems {A} (g : A -> nat) l d : (N.of_nat (S (list_max (map g l))) <= d)%N ->
  (d =? 0)%N = false /\ Forall (fun x => N.of_nat (g x) <= N.pred d)%N l.
Proof.
  intros H. split; [apply N.eqb_neq; lia|]. apply Forall_forall. intros x Hx.
  assert (list_max (map g l) <= N.to_nat (N.pred d)) as Hm%list_max_le by lia.
  rewrite List.Forall_map, Forall_forall in Hm. specialize (Hm x Hx). lia.
Qed.

Lemma obj_text_fields l : obj_text (map (fun p => (p.1, text p.2)) l) = "{" +:+ Join (map field_text l) "," +:+ "}".
Proof. unfold obj_text. f_equal. f_equal. f_equal. change (@fmap list list_fmap) with (@map). by rewrite map_map. Qed.

Lemma parse_value_open c t f d : starts c = true -> parse_value num put (S f) d (String c t)
  = if Ascii.eqb c (byte 34) then
      match unquote_go (String.length (String c t)) t with Some (x, rest) => Some (AStr x, rest) | None => None end
    else if Ascii.eqb c "[" then
      if (d =? 0)%N then None
      else match expect "]" t with
           | Some rest => Some (AArr [], rest)
           | None => match parse_elems num put f (N.pred d) t with Some (l, rest) => Some (AArr l, rest) | None => None end
           end
    else if Ascii.eqb c "{" then
      if (d =? 0)%N then None
      else match expect "}" t with
           | Some rest => Some (AObj [], rest)
           | None => match parse_fields num put f (N.pred d) [] t with Some (l, rest) => Some (AObj l, rest) | None => None end
           end
    else parse_literal num (String c t).
Proof. intros H. cbn [parse_value]. by rewrite skip_ws_start. Qed.

Lemma Join_head x l sep c t : x = String c t -> exists t', forall k, Join (x :: l) sep +:+ k = String c (t' k).
Proof.
  intros ->. destruct l as [|y l]; [by exists (fun k => t +:+ k)|].
  exists (fun k => (t +:+ sep +:+ Join (y :: l) sep) +:+ k). intros k. by rewrite Join_step.
Qed.

Lemma reads_arr l : Forall reads l -> reads (AArr l).
Proof.
  intros IH Hw f d k Hf Hd Hk. cbn [calls depth wf_any] in *. apply depth_elems in Hd as [Hd0 Hds].
  destruct f as [|f]; [lia|]. cbn [text]. unfold arr_text. rewrite !str_app_assoc, (str_app_1 "[").
  rewrite parse_value_open, Hd0 by done. cbn [Ascii.eqb Bool.eqb]. destruct l as [|x l]; [done|].
  pose proof Hw as [Hx _]%andb_prop. destruct (text_head num x Hx) as (c & t & Ht & Hc).
  cbn [map]. destruct (Join_head _ (map text l) "," c t Ht) as (t' & Ht').
  rewrite (Ht' ("]" +:+ k)), (proj1 (expect_start _ _ Hc)), <- (Ht' ("]" +:+ k)).
  change (text x :: map text l) with (map text (x :: l)). by rewrite parse_elems_reads by (done || lia).
Qed.

Lemma reads_obj l : Forall (fun p => reads p.2) l -> reads (AObj l).
Proof.
  intros IH Hw f d k Hf Hd Hk. cbn [calls depth wf_any] in *. apply depth_elems in Hd as [Hd0 Hds].
  apply andb_prop in Hw as [Hnd%bool_decide_eq_true_1 Hw]. destruct f as [|f]; [lia|].
  cbn [text]. rewrite obj_text_fields, !str_app_assoc, (str_app_1 "{").
  rewrite parse_value_open, Hd0 by done. cbn [Ascii.eqb Bool.eqb]. destruct l as [|p l]; [done|]. cbn [map].
  destruct (Join_head (field_text p) (map field_text l) "," (byte 34) _ eq_refl) as (t' & Ht').
  rewrite (Ht' ("}" +:+ k)), (proj2 (expect_start (byte 34) _ eq_refl)), <- (Ht' ("}" +:+ k)).
  change (field_text p :: map field_text l) with (map field_text (p :: l)). by rewrite parse_fields_reads by (done || lia).
Qed.

Lemma HasPrefix_nil s : HasPrefix s "" = true.
Proof. by destruct s. Qed.

Lemma parse_literal_word k : parse_literal num ("null" +:+ k) = Some (ANull, k)
  /\ parse_literal num ("true" +:+ k) = Some (ABool true, k) /\ parse_literal num ("false" +:+ k) = Some (ABool false, k).
Proof. unfold parse_literal. cbn [String.append HasPrefix Ascii.eqb Bool.eqb andb str_drop]. by rewrite HasPrefix_nil. Qed.

Lemma reads_all v : reads v.
Proof.
  induction v as [|b|lit|s|l IH|l IH] using any_tree_ind; try (by apply reads_arr || by apply reads_obj);
    intros Hw f d k Hf Hd Hk; (destruct f as [|f]; [cbn [calls] in Hf; lia|]).
  - exact (proj1 (parse_literal_word k)).
  - destruct b; apply (parse_literal_word k).
  - pose proof (text_head num _ Hw) as (c & t & Ht & Hc). cbn [text Marshal] in *. subst lit. cbn [String.append].
    rewrite parse_value_open by done. change (String c (t +:+ k)) with (String c t +:+ k).
    rewrite (parse_literal_num _ k Hw Hk). cbn [wf_any] in Hw. bool_prop.
    cbn [String.list_ascii_of_string forallb] in *. bool_prop.
    destruct c as [[] [] [] [] [] [] [] []]; done.
  - cbn [text Marshal]. destruct (MarshalString_parse s k Hw) as (t & -> & Hu).
    rewrite parse_value_open by done. cbn [Ascii.eqb byte]. rewrite Hu by (cbn [String.length]; lia). done.
Qed.
End RoundTrip.

(** ** Sorting and sizes *)

(** Every object has distinct keys, as a Go map has. *)
Fixpoint distinct (v : any) : bool :=
  match v with
  | AArr l => forallb distinct l
  | AObj l => bool_decide (NoDup l.*1) && forallb (fun p => distinct p.2) l
  | _ => true
  end.

Lemma Forall_both {A} (P Q : A -> Prop) l : Forall P l -> Forall Q l -> Forall (fun x => P x /\ Q x) l.
Proof. intros. by apply Forall_and. Qed.

Lemma wf_distinct num v : wf_any num v = true -> distinct v = true.
Proof.
  induction v as [| | | |l IH|l IH] using any_tree_ind; cbn [wf_any distinct]; try done.
  - rewrite !forallb_Forall. intros H. eapply Forall_impl; [apply (Forall_both _ _ _ IH H)|]. naive_solver.
  - intros [H1 H2]%andb_prop. rewrite H1. cbn [andb]. rewrite forallb_Forall in *.
    eapply Forall_impl; [apply (Forall_both _ _ _ IH H2)|]. intros p [Hp [_ Hw]%andb_prop]. auto.
Qed.

Lemma Forall_map_eq {A B} (f g : A -> B) l : Forall (fun x => f x = g x) l -> map f l = map g l.
Proof. induction 1; simpl; congruence. Qed.

(** [Marshal] writes the sorted value as it stands. *)
Lemma Marshal_text v : distinct v = true -> Marshal v = text (canon v).
Proof.
  induction v as [| | | |l IH|l IH] using any_tree_ind; cbn [distinct Marshal canon text]; try done.
  - rewrite forallb_Forall. intros H. f_equal. rewrite map_map. apply Forall_map_eq.
    eapply Forall_impl; [apply (Forall_both _ _ _ IH H)|]. naive_solver.
  - intros [Hnd%bool_decide_eq_true_1 H]%andb_prop. rewrite forallb_Forall in H. f_equal.
    change (sort_fields (map_vals Marshal l) = map_vals text (sort_fields (map_vals canon l))).
    rewrite <- sort_fields_map by by rewrite map_vals_keys. f_equal.
    change (map (fun p => (p.1, Marshal p.2)) l = map (fun p => (p.1, text p.2)) (map (fun p => (p.1, canon p.2)) l)).
    rewrite map_map. apply Forall_map_eq. eapply Forall_impl; [apply (Forall_both _ _ _ IH H)|].
    intros p [Hp Hd]. cbn [fst snd]. by rewrite Hp.
Qed.

Lemma forallb_perm {A} (g : A -> bool) l l' : l ≡ₚ l' -> forallb g l = forallb g l'.
Proof. intros H. apply eq_true_iff_eq. by rewrite !forallb_Forall, H. Qed.

Lemma list_max_perm l l' : l ≡ₚ l' -> list_max l = list_max l'.
Proof. induction 1; unfold list_max in *; cbn [fold_right foldr]; lia. Qed.

Lemma canon_wf num v : wf_any num v = true -> wf_any num (canon v) = true.
Proof.
  induction v as [| | | |l IH|l IH] using any_tree_ind; cbn [wf_any canon]; try done.
  - rewrite !forallb_Forall. intros H. rewrite List.Forall_map. eapply Forall_impl; [apply (Forall_both _ _ _ IH H)|]. naive_solver.
  - intros [Hnd%bool_decide_eq_true_1 H]%andb_prop. apply andb_true_intro. split.
    + apply bool_decide_eq_true_2. rewrite sort_fields_perm.
      change (NoDup (map_vals canon l).*1). by rewrite map_vals_keys.
    + rewrite (forallb_perm _ _ _ (sort_fields_perm _)). rewrite forallb_Forall in *. rewrite List.Forall_map.
      eapply Forall_impl; [apply (Forall_both _ _ _ IH H)|]. intros p [Hp [Hu Hw]%andb_prop]. cbn [fst snd]. by rewrite Hu, Hp.
Qed.

Lemma canon_depth v : depth (canon v) = depth v.
Proof.
  induction v as [| | | |l IH|l IH] using any_tree_ind; cbn [depth canon]; try done.
  - f_equal. f_equal. rewrite map_map. by apply Forall_map_eq.
  - f_equal. rewrite (list_max_perm _ (map (fun p => depth p.2) (map (fun p => (p.1, canon p.2)) l)))
      by (apply Permutation_map, sort_fields_perm). f_equal. rewrite map_map. by apply Forall_map_eq.
Qed.

Lemma Join_length l sep : l <> [] ->
  String.length (Join l sep) + String.length sep = list_sum (map (fun x => String.length x + String.length sep) l).
Proof.
  induction l as [|x [|y l] IH]; [done|cbn; lia|]. intros _. rewrite Join_step, !str_length_app.
  cbn [map list_sum foldr] in *. specialize (IH ltac:(done)). lia.
Qed.

Lemma list_sum_cons x l : list_sum (x :: l) = x + list_sum l.
Proof. done. Qed.

Lemma list_sum_le {A} (f g : A -> nat) l : Forall (fun x => f x <= g x) l -> list_sum (map f l) <= list_sum (map g l).
Proof. induction 1; cbn [map]; rewrite ?list_sum_cons; lia. Qed.

Lemma list_sum_double {A} (g : A -> nat) l : list_sum (map (fun x => 2 * g x) l) = 2 * list_sum (map g l).
Proof. induction l; cbn [map]; rewrite ?list_sum_cons; [done|lia]. Qed.

Lemma list_length_sum {A} (f : A -> nat) (g : A -> string) l : Forall (fun x => f x <= 2 * String.length (g x)) l ->
  S (list_sum (map (fun x => S (f x)) l)) <= 2 * S (S (String.length (Join (map g l) ","))).
Proof.
  intros H. destruct l as [|x l]; [cbn; lia|]. pose proof (Join_length (map g (x :: l)) "," ltac:(done)) as HJ.
  rewrite map_map in HJ. cbn [String.length] in HJ.
  assert (list_sum (map (fun x => S (f x)) (x :: l)) <= list_sum (map (fun x => 2 * (String.length (g x) + 1)) (x :: l))) as Hs.
  { apply list_sum_le. eapply Forall_impl; [exact H|]. cbn. intros. lia. }
  rewrite list_sum_double in Hs. lia.
Qed.

(** The fuel of [Unmarshal] is enough for its own output. *)
Lemma calls_length num v : wf_any num v = true -> calls v <= 2 * String.length (text v).
Proof.
  induction v as [|[]|lit|s|l IH|l IH] using any_tree_ind; intros Hw; try (cbn; lia).
  - destruct (text_head num _ Hw) as (c & t & -> & _). cbn. lia.
  - cbn [text calls wf_any] in *. rewrite forallb_Forall in Hw. unfold arr_text. rewrite !str_length_app.
    cbn [String.length]. rewrite (Nat.add_comm _ 1). apply list_length_sum.
    eapply Forall_impl; [apply (Forall_both _ _ _ IH Hw)|]. naive_solver.
  - cbn [text calls wf_any] in *. rewrite obj_text_fields, !str_length_app. cbn [String.length]. rewrite (Nat.add_comm _ 1).
    apply (list_length_sum (fun p => calls p.2)). apply andb_prop in Hw as [_ Hw]. rewrite forallb_Forall in Hw.
    eapply Forall_impl; [apply (Forall_both _ _ _ IH Hw)|]. intros p [Hp [_ H]%andb_prop].
    unfold field_text. rewrite !str_length_app. specialize (Hp H). lia.
Qed.

(** Decoding a text gives back the value that was written, however repeated
    fields are treated; what [Marshal] writes is the value with its fields
    sorted. *)
Lemma UnmarshalWith_text num put v : (forall k v l, k ∉ l.*1 -> put k v l = l ++ [(k, v)]) ->
  wf_any num v = true -> (N.of_nat (depth v) <= maxNestingDepth)%N -> UnmarshalWith num put (text v) = Some v.
Proof.
  intros Hput Hw Hd. unfold UnmarshalWith. pose proof (reads_all num put Hput v Hw) as Hr.
  specialize (Hr (2 * String.length (text v) + 2) maxNestingDepth ""). rewrite str_app_nil_r in Hr.
  rewrite Hr; [done| |done|done]. pose proof (calls_length num _ Hw). lia.
Qed.

Lemma Unmarshal_text num v : wf_any num v = true -> (N.of_nat (depth v) <= maxNestingDepth)%N ->
  Unmarshal num (text v) = Some v.
Proof. apply UnmarshalWith_text. apply put_field_fresh. Qed.

Lemma Unmarshal_Marshal num v : wf_any num v = true -> (N.of_nat (depth v) <= maxNestingDepth)%N ->
  Unmarshal num (Marshal v) = Some (canon v).
Proof.
  intros Hw Hd. rewrite (Marshal_text v (wf_distinct num v Hw)). apply Unmarshal_text; [by apply canon_wf|by rewrite canon_depth].
Qed.

(** ** What the decoder returns *)

Lemma utf8_cons p r k : rune_form p r -> utf8 k -> utf8 (p +:+ k).
Proof. intros Hp Hk. by apply (utf8_rune _ r k); [apply form_decode|apply form_not_bad|]. Qed.

Lemma utf8_app a b : utf8 a -> utf8 b -> utf8 (a +:+ b).
Proof.
  intros Ha Hb. induction Ha as [|s r rest Hd Hbad _ IH]; [done|].
  destruct (decode_form s r rest Hd Hbad) as (p & -> & Hp). rewrite str_app_assoc. by apply (utf8_cons p r).
Qed.

Lemma utf8_one p r : rune_form p r -> utf8 p.
Proof. intros Hp. rewrite <- (str_app_nil_r p). apply (utf8_cons p r); [done|constructor]. Qed.

Lemma utf8b_complete s : utf8 s -> utf8b s = true.
Proof.
  intros H. unfold utf8b. cut (forall f, String.length s <= f -> utf8b_go f s = true); [by intros Hf; apply Hf|].
  induction H as [|s r rest Hd Hb _ IH]; intros f Hf; [by destruct f|].
  pose proof (decode_rune_shorter s r rest Hd). destruct f as [|f]; [lia|]. cbn [utf8b_go]. rewrite Hd, Hb. apply IH. lia.
Qed.

Lemma hex_val_bound c x : hex_val c = Some x -> (0 <= x < 16)%Z.
Proof. unfold hex_val. intros H. repeat case_match; bool_prop; simplify_eq; lia. Qed.

Lemma hex4_bound s r rest : hex4 s = Some (r, rest) -> (0 <= r < 65536)%Z.
Proof.
  destruct s as [|a [|b [|c [|d s]]]]; try done. cbn [hex4]. intros H.
  destruct (hex_val a) eqn:Ea, (hex_val b) eqn:Eb, (hex_val c) eqn:Ec, (hex_val d) eqn:Ed; simplify_eq.
  repeat match goal with H : hex_val _ = _ |- _ => apply hex_val_bound in H end. lia.
Qed.

Lemma byte_of_Z z : (0 <= z < 256)%Z -> nat_of_ascii (ascii_of_nat (Z.to_nat z)) = Z.to_nat z.
Proof. intros H. apply nat_ascii_embedding. lia. Qed.

Ltac byte_bounds :=
  rewrite ?byte_of_Z; try (Z.to_euclidean_division_equations; lia).

(** Every scalar value is encoded as a rune. *)
Lemma encode_form r : (0 <= r < 1114112)%Z -> ~ (55296 <= r < 57344)%Z -> exists r', rune_form (encode_rune r) r'.
Proof.
  intros Hr Hs. unfold encode_rune.
  destruct (Z.ltb_spec r 128); [eexists; apply form1; byte_bounds|].
  destruct (Z.ltb_spec r 2048); [eexists; apply form2; byte_bounds|].
  destruct (Z.ltb_spec r 65536).
  - eexists. apply form3; byte_bounds. unfold cont_range.
    repeat case_match; bool_prop; cbn [fst snd]; byte_bounds.
  - eexists. apply form4; byte_bounds. unfold cont_range.
    repeat case_match; bool_prop; cbn [fst snd]; byte_bounds.
Qed.

Lemma encode_utf8 r : (0 <= r < 1114112)%Z -> ~ (55296 <= r < 57344)%Z -> utf8 (encode_rune r).
Proof. intros H1 H2. destruct (encode_form r H1 H2) as [r' Hf]. by apply (utf8_one _ r'). Qed.

Lemma replacement_utf8 : utf8 replacement.
Proof. apply utf8b_sound. by vm_compute. Qed.

Lemma unicode_escape_utf8 s x rest : unicode_escape s = Some (x, rest) -> utf8 x.
Proof.
  pose proof replacement_utf8 as Hrep. unfold unicode_escape.
  destruct (hex4 s) as [[r t]|] eqn:E; [|done]. apply hex4_bound in E.
  destruct ((55296 <=? r)%Z && (r <? 57344)%Z) eqn:Hs.
  - destruct t as [|b [|u t']]; [by intros [= <- <-]..|].
    destruct ((nat_of_ascii b =? 92) && (nat_of_ascii u =? 117)); [|by intros [= <- <-]].
    destruct (hex4 t') as [[r2 t2]|]; [|by intros [= <- <-]].
    destruct ((r <? 56320)%Z && (56320 <=? r2)%Z && (r2 <? 57344)%Z) eqn:E2; [|by intros [= <- <-]].
    intros [= <- <-]. bool_prop. apply encode_utf8; lia.
  - intros [= <- <-]. apply andb_false_iff in Hs. apply encode_utf8; [lia|]. destruct Hs; bool_prop; lia.
Qed.

Lemma low_byte_utf8 c : nat_of_ascii c < 128 -> utf8 (String c "").
Proof. intros H. by apply (utf8_one _ _ (form1 c H)). Qed.

Lemma simple_escape_low c d : simple_escape c = Some d -> nat_of_ascii d < 128.
Proof.
  unfold simple_escape. destruct ((_ =? 34) || _ || _) eqn:E.
  - intros [= <-]. apply orb_true_iff in E as [[E|E]%orb_true_iff|E]; bool_prop; lia.
  - repeat (case_match; [intros [= <-]; vm_compute; lia|]). done.
Qed.

Lemma unquote_char_utf8 s x rest : unquote_char s = Some (x, rest) -> utf8 x.
Proof.
  destruct s as [|c s]; [done|]. unfold unquote_char. destruct (nat_of_ascii c =? 92).
  { destruct s as [|e s]; [done|]. destruct (nat_of_ascii e =? 117); [apply unicode_escape_utf8|].
    destruct (simple_escape e) as [d|] eqn:E; [|done]. cbn. intros [= <- <-].
    by apply low_byte_utf8, (simple_escape_low e). }
  destruct (nat_of_ascii c <? 32); [done|].
  destruct (Nat.ltb_spec (nat_of_ascii c) 128); [intros [= <- <-]; by apply low_byte_utf8|].
  destruct (decode_rune (String c s)) as [[r t]|] eqn:Hd; [|done]. intros [= <- <-].
  destruct (bad_rune (String c s) r t) eqn:Hb; [apply replacement_utf8|].
  destruct (decode_form _ _ _ Hd Hb) as (p & E & Hp).
  change (utf8 (str_take (String.length (String c s) - String.length t) (String c s))). rewrite E, (form_take p r t Hp). by apply (utf8_one p r).
Qed.

Lemma unquote_go_utf8 f s x rest : unquote_go f s = Some (x, rest) -> utf8 x.
Proof.
  revert s x rest. induction f as [|f IH]; intros s x rest; [done|]. cbn [unquote_go]. destruct s as [|c s]; [done|].
  destruct (nat_of_ascii c =? 34); [intros [= <- <-]; constructor|].
  destruct (unquote_char (String c s)) as [[y t]|] eqn:E1; [|done].
  destruct (unquote_go f t) as [[z t']|] eqn:E2; [|done]. intros [= <- <-].
  apply utf8_app; [by eapply unquote_char_utf8|by eapply IH].
Qed.

(** How [float64] reads and prints numbers: what it prints is a JSON number
    that it reads as the same value. *)
Class Float64 (num : string -> option string) : Prop := {
  float_chars lit n : num lit = Some n -> forallb num_char (String.list_ascii_of_string n) = true;
  float_number lit n : num lit = Some n -> MatchStart reNumber n = true;
  float_stable lit n : num lit = Some n -> num n = Some n }.

Lemma put_field_keys {A} k (v : A) l : NoDup l.*1 -> NoDup (put_field k v l).*1 /\ forall x, x ∈ (put_field k v l).*1 <-> x = k \/ x ∈ l.*1.
Proof.
  induction l as [|[k' v'] l IH]; cbn [put_field fmap list_fmap fst].
  - intros _. split; [apply NoDup_singleton|]. intros x. set_solver.
  - intros [Hk Hl]%NoDup_cons. specialize (IH Hl) as [IH1 IH2].
    destruct (String.eqb_spec k k') as [->|Hn]; cbn [fmap list_fmap fst].
    + split; [by constructor|set_solver].
    + split; [constructor; [rewrite IH2; set_solver|done]|]. intros x. rewrite !elem_of_cons, IH2. set_solver.
Qed.

Lemma put_field_Forall {A} (P : string * A -> Prop) k v l : P (k, v) -> Forall P l -> Forall P (put_field k v l).
Proof. intros Hk. induction 1 as [|[k' v'] l ? ? IH]; cbn [put_field]; [by constructor|]. case_match; by constructor. Qed.

(** One step of the mutual loops, with the calls named again. *)
Ltac refold_parse num put := fold (parse_value num put); fold (parse_elems num put); fold (parse_fields num put).

Section Decoded.
Context (num : string -> option string) `{!Float64 num}.

(** A decoded value: well formed, and nested no deeper than was allowed. *)
Definition good (d : N) (v : any) : Prop := wf_any num v = true /\ (N.of_nat (depth v) <= d)%N.

Definition good_field (d : N) (p : string * any) : Prop := utf8 p.1 /\ good d p.2.

Lemma parse_literal_good s v rest d : parse_literal num s = Some (v, rest) -> good d v.
Proof.
  unfold parse_literal, good. repeat (case_match; [intros [= <- <-]; split; [done|cbn; lia]|]).
  unfold parse_number. case_match; [|done]. destruct (num (take_num s)) as [n|] eqn:E; [|done].
  cbn [fmap option_fmap option_map]. intros [= <- <-]. cbn [wf_any].
  rewrite (float_chars _ _ E), (float_number _ _ E), bool_decide_eq_true_2 by by eapply float_stable.
  split; [done|cbn; lia].
Qed.

Lemma good_arr d l : (d =? 0)%N = false -> Forall (good (N.pred d)) l -> good d (AArr l).
Proof.
  intros Hd%N.eqb_neq [H1 H2]%Forall_and. split; cbn [wf_any depth].
  - by apply forallb_Forall.
  - assert (list_max (map depth l) <= N.to_nat (N.pred d)); [|lia]. apply list_max_le, List.Forall_map.
    eapply Forall_impl; [exact H2|]. cbn. lia.
Qed.

Lemma good_obj d l : (d =? 0)%N = false -> NoDup l.*1 -> Forall (good_field (N.pred d)) l -> good d (AObj l).
Proof.
  intros Hd%N.eqb_neq Hnd H. split; cbn [wf_any depth].
  - rewrite bool_decide_eq_true_2 by done. cbn [andb]. apply forallb_Forall. eapply Forall_impl; [exact H|].
    intros p (Hu & Hw & _). by rewrite (utf8b_complete _ Hu), Hw.
  - assert (list_max (map (fun p => depth p.2) l) <= N.to_nat (N.pred d)); [|lia]. apply list_max_le, List.Forall_map.
    eapply Forall_impl; [exact H|]. intros p (_ & _ & Hp). cbn. lia.
Qed.

Section Loops.
Context (put : string -> any -> list (string * any) -> list (string * any)).
Context (put_keys : forall k v l, NoDup l.*1 -> NoDup (put k v l).*1).
Context (put_Forall : forall (P : string * any -> Prop) k v l, P (k, v) -> Forall P l -> Forall P (put k v l)).

(** The three loops of the decoder. *)
Lemma parse_good f :
  (forall d s v rest, parse_value num put f d s = Some (v, rest) -> good d v)
  /\ (forall d s l rest, parse_elems num put f d s = Some (l, rest) -> Forall (good d) l)
  /\ (forall d acc s l rest, parse_fields num put f d acc s = Some (l, rest) -> NoDup acc.*1 -> Forall (good_field d) acc ->
      NoDup l.*1 /\ Forall (good_field d) l).
Proof.
  induction f as [|f (IHv & IHe & IHf)]; [done|]. split_and!.
  - intros d s v rest. cbn [parse_value]. refold_parse num put. destruct (skip_ws s) as [|c t]; [done|].
    case_match; [|case_match; [|case_match; [|apply parse_literal_good]]].
    + destruct (unquote_go _ t) as [[x r]|] eqn:E; [|done]. intros [= <- <-]. split; [|cbn; lia]. cbn [wf_any].
      by eapply utf8b_complete, unquote_go_utf8.
    + destruct (d =? 0)%N eqn:Hd; [done|]. case_match; [intros [= <- <-]; by apply good_arr|].
      destruct (parse_elems num put f (N.pred d) t) as [[l r]|] eqn:E; [|done]. intros [= <- <-]. apply good_arr; eauto.
    + destruct (d =? 0)%N eqn:Hd; [done|]. case_match; [intros [= <- <-]; apply good_obj; try done; constructor|].
      destruct (parse_fields num put f (N.pred d) [] t) as [[l r]|] eqn:E; [|done]. intros [= <- <-].
      apply IHf in E as [??]; [by apply good_obj|constructor|constructor].
  - intros d s l rest. cbn [parse_elems]. refold_parse num put. destruct (parse_value num put f d s) as [[v t]|] eqn:E; [|done]. apply IHv in E.
    case_match; [intros [= <- <-]; by constructor|]. case_match; [|done].
    destruct (parse_elems num put f d _) as [[l' r]|] eqn:E2; [|done]. intros [= <- <-]. constructor; eauto.
  - intros d acc s l rest. cbn [parse_fields]. refold_parse num put. case_match; [|done].
    destruct (unquote_go _ _) as [[k t]|] eqn:Ek; [|done]. case_match; [|done].
    destruct (parse_value num put f d _) as [[v t2]|] eqn:Ev; [|done]. intros Hp Hnd Hacc.
    assert (Forall (good_field d) (put k v acc)) by
      (apply put_Forall; [split; [by eapply unquote_go_utf8|eauto]|done]).
    pose proof (put_keys k v acc Hnd).
    case_match; [by simplify_eq|]. case_match; [|done]. by eapply IHf.
Qed.

End Loops.

Lemma Unmarshal_good s v : Unmarshal num s = Some v -> good maxNestingDepth v.
Proof.
  unfold Unmarshal, UnmarshalWith. destruct (parse_value _ _ _ _ s) as [[w rest]|] eqn:E; [|done]. case_match; [|done]. intros [= <-].
  eapply (parse_good put_field); [|apply put_field_Forall|exact E]. intros k x l Hl. by apply put_field_keys.
Qed.
End Decoded.

(** ** Control characters

    They are escaped, so a text is one line. *)
Fixpoint no_control (s : string) : bool :=
  match s with EmptyString => true | String c s' => (32 <=? nat_of_ascii c) && no_control s' end.

Lemma no_control_app a b : no_control (a +:+ b) = no_control a && no_control b.
Proof. induction a as [|c a IH]; [done|]. cbn [String.append no_control]. by rewrite IH, andb_assoc. Qed.

Lemma no_control_absent c s : nat_of_ascii c < 32 -> no_control s = true -> absent c s = true.
Proof.
  intros Hc. induction s as [|d s IH]; [done|]. cbn [no_control absent]. intros [Hd%Nat.leb_le Hs]%andb_prop. rewrite (IH Hs), andb_true_r.
  apply negb_true_iff, Ascii.eqb_neq. intros ->. lia.
Qed.

Lemma quote_byte_control c : no_control (quote_byte c) = true.
Proof. destruct c as [[] [] [] [] [] [] [] []]; vm_compute; reflexivity. Qed.

Lemma form_control p r : rune_form p r -> 2 <= String.length p -> no_control p = true.
Proof.
  intros H Hl. pose proof (fun n => cont_range_mid n) as Hm.
  destruct H as [c0 H0|c0 c1 H0 H1|c0 c1 c2 H0 H1 H2|c0 c1 c2 c3 H0 H1 H2 H3]; cbn [String.length] in Hl; try lia;
    try specialize (Hm (nat_of_ascii c0)); cbn [no_control]; rewrite !(proj2 (Nat.leb_le 32 _)) by lia; done.
Qed.

Lemma quote_go_control f s : no_control (quote_go f s) = true.
Proof.
  revert s. induction f as [|f IH]; intros [|c s]; try done. cbn [quote_go].
  destruct (Nat.ltb_spec (nat_of_ascii c) 128) as [Hc|Hc]; [by rewrite no_control_app, quote_byte_control, IH|].
  destruct (decode_rune (String c s)) as [[r rest]|] eqn:Hd; [|done]. rewrite no_control_app, IH, andb_true_r.
  destruct (bad_rune (String c s) r rest) eqn:Hb; [done|]. destruct (r =? 8232)%Z; [done|]. destruct (r =? 8233)%Z; [done|].
  destruct (decode_form _ _ _ Hd Hb) as (p & E & Hp). rewrite E, (form_take p r rest Hp). apply (form_control p r Hp).
  destruct Hp; cbn [String.length]; try lia. cbn [String.append] in E. injection E as -> _. lia.
Qed.

Lemma MarshalString_control s : no_control (MarshalString s) = true.
Proof. unfold MarshalString. by rewrite !no_control_app, quote_go_control. Qed.

Lemma Join_control l sep : no_control sep = true -> Forall (fun s => no_control s = true) l -> no_control (Join l sep) = true.
Proof.
  intros Hs. induction l as [|x [|y l] IH]; intros H; [done|by apply Forall_cons in H as [? _]|].
  apply Forall_cons in H as [Hx Hl]. by rewrite Join_step, !no_control_app, Hx, Hs, IH.
Qed.

Lemma text_control num v : wf_any num v = true -> no_control (text v) = true.
Proof.
  induction v as [|b|lit|s|l IH|l IH] using any_tree_ind; cbn [wf_any text Marshal]; intros H.
  - done.
  - by destruct b.
  - bool_prop. clear - H. induction lit as [|c lit IHl]; [done|]. cbn [String.list_ascii_of_string forallb no_control] in *. bool_prop.
    rewrite IHl, andb_true_r by done. destruct c as [[] [] [] [] [] [] [] []]; done.
  - apply MarshalString_control.
  - apply forallb_Forall in H. unfold arr_text. rewrite !no_control_app, Join_control; [done|done|]. apply List.Forall_map, Forall_forall.
    intros x Hx. rewrite Forall_forall in IH, H. auto.
  - apply andb_prop in H as [_ H%forallb_Forall]. rewrite obj_text_fields, !no_control_app, Join_control; [done|done|].
    apply List.Forall_map, Forall_forall. intros p Hp. rewrite Forall_forall in IH, H. specialize (H p Hp). bool_prop.
    unfold field_text. rewrite !no_control_app, MarshalString_control, IH; done.
Qed.
