(* ===== verification/GoJSONStruct.v ===== *)
(** * Decoding JSON into declared types

    What the sources use of [json.Unmarshal] into structs, pointers, slices,
    maps and scalars. A value is decoded into the one that is there already:
    fields are found by name without regard to case, unknown fields are
    skipped, a repeated field is decoded into what the earlier one left, [null]
    leaves a scalar or a struct as it is and empties the rest, and a value of
    the wrong kind is an error. Integers are written and read in decimal. *)
From stdpp Require Import base tactics list gmap strings pretty.
From Stdlib Require Import ZArith NArith Lia.
From S2P Require Import Prelude GoStrings GoRegex Types GoJSONText.

(** ** The text as a tree

    Every field is kept, in order, and numbers as they are written. *)
Definition add_field (k : string) (v : any) (l : list (string * any)) : list (string * any) := l ++ [(k, v)].
Definition Parse : string -> option any := UnmarshalWith Some add_field.

(** The tree as an [any]: the last field of a name counts, numbers become
    [float64]. *)
Fixpoint settle (num : string -> option string) (v : any) : option any :=
  match v with
  | ANum lit => ANum <$> num lit
  | AArr l => AArr <$> mapM (settle num) l
  | AObj l =>
      AObj <$> foldl (fun acc p => match acc, settle num p.2 with
                                   | Some fs, Some x => Some (put_field p.1 x fs)
                                   | _, _ => None
                                   end) (Some []) l
  | _ => Some v
  end.

(** ** Decoding into a value *)

Definition into (A : Type) : Type := A -> any -> option A.

Definition str_into : into string := fun old v =>
  match v with AStr s => Some s | ANull => Some old | _ => None end.

Definition int_into : into Z := fun old v =>
  match v with ANum lit => Atoi lit | ANull => Some old | _ => None end.

Definition ptr_into {A} (zero : A) (d : into A) : into (option A) := fun old v =>
  match v with ANull => Some None | _ => Some <$> d (default zero old) v end.

(** The elements of an array, each decoded into the element that is there. *)
Fixpoint elems_into {A} (zero : A) (d : into A) (old : list A) (l : list any) : option (list A) :=
  match l with
  | [] => Some []
  | v :: l' => match d (default zero (head old)) v, elems_into zero d (tail old) l' with
               | Some x, Some xs => Some (x :: xs)
               | _, _ => None
               end
  end.
Definition slice_into {A} (zero : A) (d : into A) : into (list A) := fun old v =>
  match v with AArr l => elems_into zero d old l | ANull => Some [] | _ => None end.

(** A field of a struct: its name and how a value goes into the struct. *)
Definition field_into {A B} (get : A -> B) (set : B -> A -> A) (d : into B) : into A := fun a v =>
  (fun b => set b a) <$> d (get a) v.

Fixpoint find_field {A} (k : string) (fields : list (string * into A)) : option (into A) :=
  match fields with
  | [] => None
  | (n, f) :: fields' => if k =s n then Some f else find_field k fields'
  end.

Definition set_field {A} (fields : list (string * into A)) (a : option A) (p : string * any) : option A :=
  match a with
  | None => None
  | Some a => match find_field (fold_key p.1) fields with Some f => f a p.2 | None => Some a end
  end.

Definition struct_into {A} (fields : list (string * into A)) : into A := fun old v =>
  match v with AObj l => foldl (set_field fields) (Some old) l | ANull => Some old | _ => None end.

(** [map[string]any] *)
Definition anymap_into (num : string -> option string) : into (list (string * any)) := fun old v =>
  match v with
  | AObj l => foldl (fun acc p => match acc, settle num p.2 with
                                  | Some fs, Some x => Some (put_field p.1 x fs)
                                  | _, _ => None
                                  end) (Some old) l
  | ANull => Some []
  | _ => None
  end.

(** A map from strings: each value is decoded afresh. *)
Definition map_into {A} (zero : A) (d : into A) : into (gmap string A) := fun old v =>
  match v with
  | AObj l => foldl (fun acc p => match acc, d zero p.2 with Some m, Some x => Some (<[p.1 := x]> m) | _, _ => None end) (Some old) l
  | ANull => Some ∅
  | _ => None
  end.

(** [json.Unmarshal] into a variable of a declared type that is zero. *)
Definition UnmarshalInto {A} (zero : A) (d : into A) (s : string) : option A :=
  match Parse s with Some v => d zero v | None => None end.

(** ** Lemmas *)

Lemma Parse_text v : wf_any Some v = true -> (N.of_nat (depth v) <= maxNestingDepth)%N -> Parse (text v) = Some v.
Proof. by apply UnmarshalWith_text. Qed.

Lemma elems_fresh {A} (zero : A) d l : elems_into zero d [] l = mapM (d zero) l.
Proof. induction l as [|v l IH]; [done|]. cbn. rewrite IH. by destruct (d zero v), (mapM (d zero) l). Qed.

Lemma mapM_map_norm {A B C} (f : A -> B) (g : B -> option C) (h : A -> C) l :
  Forall (fun x => g (f x) = Some (h x)) l -> mapM g (map f l) = Some (map h l).
Proof. induction 1 as [|x l Hx Hl IH]; [done|]. cbn. rewrite Hx. cbn. by rewrite IH. Qed.

Lemma mapM_map_id {A B} (f : A -> B) (g : B -> option A) l :
  Forall (fun x => g (f x) = Some x) l -> mapM g (map f l) = Some l.
Proof. intros H. rewrite (mapM_map_norm f g (fun x => x)) by done. by rewrite map_id. Qed.

(** *** Trees and values *)

Definition settle_fields (num : string -> option string) (acc : option (list (string * any))) (l : list (string * any)) : option (list (string * any)) :=
  foldl (fun acc p => match acc, settle num p.2 with Some fs, Some x => Some (put_field p.1 x fs) | _, _ => None end) acc l.

Lemma settle_fields_None num l : settle_fields num None l = None.
Proof. by induction l. Qed.

Lemma settle_fields_wf num acc l : NoDup (acc ++ l).*1 -> Forall (fun p => settle num p.2 = Some p.2) l ->
  settle_fields num (Some acc) l = Some (acc ++ l).
Proof.
  revert acc. induction l as [|[k v] l IH]; intros acc Hnd Hl; [by rewrite app_nil_r|]. apply Forall_cons in Hl as [Hv Hl]. cbn in Hv.
  unfold settle_fields. cbn [foldl fst snd]. rewrite Hv. fold (settle_fields num (Some (put_field k v acc)) l).
  rewrite put_field_fresh.
  - rewrite IH; [by rewrite <- app_assoc|by rewrite <- app_assoc|done].
  - rewrite fmap_app, fmap_cons in Hnd. apply NoDup_app in Hnd as (_ & Hnd & _). intros Hin. apply (Hnd _ Hin). left.
Qed.

(** A well-formed value is its own interface value. *)
Lemma settle_wf num v : wf_any num v = true -> settle num v = Some v.
Proof.
  induction v as [|b|lit|s|l IH|l IH] using any_tree_ind; cbn [wf_any settle]; try done; intros H.
  - bool_prop. match goal with H : bool_decide _ = true |- _ => apply bool_decide_eq_true_1 in H; by rewrite H end.
  - apply forallb_Forall in H. assert (mapM (settle num) l = Some l) as ->; [|done].
    rewrite <- (map_id l) at 1. apply mapM_map_id, Forall_forall. intros x Hx. rewrite Forall_forall in IH, H. auto.
  - apply andb_prop in H as [Hnd%bool_decide_eq_true_1 H%forallb_Forall].
    change (AObj <$> settle_fields num (Some []) l = Some (AObj l)). rewrite settle_fields_wf; [done|done|].
    apply Forall_forall. intros p Hp. rewrite Forall_forall in IH, H. specialize (H p Hp). bool_prop. auto.
Qed.

Lemma wf_any_some num v : wf_any num v = true -> wf_any Some v = true.
Proof.
  induction v as [|b|lit|s|l IH|l IH] using any_tree_ind; cbn [wf_any]; try done; intros H.
  - apply andb_prop in H as [H _]. rewrite H. by rewrite bool_decide_eq_true_2.
  - apply forallb_Forall in H. apply forallb_Forall, Forall_forall. intros x Hx. rewrite Forall_forall in IH, H. auto.
  - apply andb_prop in H as [Hnd H%forallb_Forall]. rewrite Hnd. apply forallb_Forall, Forall_forall. intros p Hp.
    rewrite Forall_forall in IH, H. specialize (H p Hp). bool_prop. apply andb_true_intro. auto.
Qed.

(** Reading a text into an [any] is reading its tree and settling it. *)
Lemma parse_settle num f :
  (forall d s, parse_value num put_field f d s
    = match parse_value Some add_field f d s with Some (v, rest) => (fun x => (x, rest)) <$> settle num v | None => None end)
  /\ (forall d s, parse_elems num put_field f d s
    = match parse_elems Some add_field f d s with Some (l, rest) => (fun x => (x, rest)) <$> mapM (settle num) l | None => None end)
  /\ (forall d acc fs s, settle_fields num (Some []) acc = Some fs -> parse_fields num put_field f d fs s
    = match parse_fields Some add_field f d acc s with Some (l, rest) => (fun x => (x, rest)) <$> settle_fields num (Some []) l | None => None end)
  /\ (forall d acc s l rest, settle_fields num (Some []) acc = None -> parse_fields Some add_field f d acc s = Some (l, rest) ->
      settle_fields num (Some []) l = None).
Proof.
  induction f as [|f (IHv & IHe & IHf & IHn)]; [done|].
  assert (forall acc k v, settle_fields num (Some []) (add_field k v acc)
    = match settle_fields num (Some []) acc, settle num v with Some fs, Some x => Some (put_field k x fs) | _, _ => None end) as Hadd
    by (intros; unfold settle_fields, add_field; by rewrite foldl_app).
  split_and!.
  - intros d s. cbn [parse_value]. refold_parse num (@put_field any). refold_parse (@Some string) add_field.
    destruct (skip_ws s) as [|c t]; [done|]. case_match.
    { by destruct (unquote_go _ t) as [[x r]|]. }
    case_match; [case_match; [done|]; case_match; [done|]; rewrite IHe; destruct (parse_elems Some add_field f _ t) as [[l r]|]; [|done];
      cbn [settle]; by destruct (mapM (settle num) l)|].
    case_match; [case_match; [done|]; case_match; [done|]|].
    { rewrite (IHf _ [] []) by done. destruct (parse_fields Some add_field f _ [] t) as [[l r]|]; [|done].
      change (settle num (AObj l)) with (AObj <$> settle_fields num (Some []) l). by destruct (settle_fields num (Some []) l). }
    unfold parse_literal, parse_number. repeat (case_match; [done|]). case_match; [|done]. cbn. by destruct (num _).
  - intros d s. cbn [parse_elems]. refold_parse num (@put_field any). refold_parse (@Some string) add_field. rewrite IHv.
    destruct (parse_value Some add_field f d s) as [[v r]|]; [|done]. destruct (settle num v) as [x|] eqn:Ex; cbn [fmap option_fmap option_map].
    + case_match; [cbn; by rewrite Ex|]. case_match; [|done]. rewrite IHe.
      destruct (parse_elems Some add_field f d _) as [[l r']|]; [|done]. cbn. rewrite Ex. cbn. by destruct (mapM (settle num) l).
    + destruct (expect "]" r); [cbn; by rewrite Ex|]. destruct (expect "," r); [|done].
      destruct (parse_elems Some add_field f d _) as [[l r']|]; [|done]. cbn. by rewrite Ex.
  - intros d acc fs s Hacc. cbn [parse_fields]. refold_parse num (@put_field any). refold_parse (@Some string) add_field.
    case_match; [|done]. destruct (unquote_go _ _) as [[k t]|]; [|done]. case_match; [|done]. rewrite IHv.
    destruct (parse_value Some add_field f d _) as [[v r]|]; [|done]. specialize (Hadd acc k v). rewrite Hacc in Hadd.
    destruct (settle num v) as [x|]; cbn [fmap option_fmap option_map].
    + case_match; [by rewrite Hadd|]. case_match; [|done]. by apply IHf.
    + destruct (expect "}" r); [by rewrite Hadd|]. destruct (expect "," r); [|done].
      destruct (parse_fields Some add_field f d _ _) as [[l r']|] eqn:E; [|done]. by rewrite (IHn _ _ _ _ _ Hadd E).
  - intros d acc s l rest Hacc. cbn [parse_fields]. refold_parse (@Some string) add_field.
    case_match; [|done]. destruct (unquote_go _ _) as [[k t]|]; [|done]. case_match; [|done].
    destruct (parse_value Some add_field f d _) as [[v r]|]; [|done]. specialize (Hadd acc k v). rewrite Hacc in Hadd.
    case_match; [by intros [= <- <-]|]. case_match; [|done]. by apply IHn.
Qed.

Lemma Unmarshal_Parse num s : Unmarshal num s = match Parse s with Some v => settle num v | None => None end.
Proof.
  unfold Unmarshal, Parse, UnmarshalWith. rewrite (proj1 (parse_settle num _)).
  destruct (parse_value Some add_field _ _ s) as [[v rest]|]; [|done]. 
  destruct (settle num v) as [x|] eqn:E; cbn; destruct (skip_ws rest =s ""); by rewrite ?E.
Qed.

(** *** Integers *)

Lemma digit_char x : (x < 10)%N -> digit_val (pretty_N_char x) = Some (Z.of_N x)
  /\ num_char (pretty_N_char x) = true
  /\ ((48 <=? nat_of_ascii (pretty_N_char x)) && (nat_of_ascii (pretty_N_char x) <=? 57))%nat = true
  /\ (x <> 0%N -> byte_in "123456789" (pretty_N_char x) = true).
Proof.
  intros H. assert (x = 0 \/ x = 1 \/ x = 2 \/ x = 3 \/ x = 4 \/ x = 5 \/ x = 6 \/ x = 7 \/ x = 8 \/ x = 9)%N as Hx by lia.
  destruct Hx as [->|[->|[->|[->|[->|[->|[->|[->|[->| ->]]]]]]]]]; split_and!; done.
Qed.

(** The digits of a positive number: no zero in front, and their value. *)
Lemma pretty_digits x s : (0 < x)%N -> exists c ds, pretty_N_go x s = String c (ds +:+ s)
  /\ byte_in "123456789" c = true /\ forallb (fun c => (48 <=? nat_of_ascii c) && (nat_of_ascii c <=? 57))%nat (String.list_ascii_of_string ds) = true
  /\ forallb num_char (String.list_ascii_of_string (String c ds)) = true
  /\ exists k, forall a, parse_digits a (String c (ds +:+ s)) = parse_digits (a * k + Z.of_N x) s.
Proof.
  revert s. induction (N.lt_wf_0 x) as [x _ IH]. intros s Hx. rewrite pretty_N_go_step by done.
  destruct (digit_char (x mod 10)) as (Hd1 & Hd2 & Hd3 & Hd4); [apply N.mod_lt; lia|].
  pose proof (N.div_mod x 10 ltac:(lia)) as Hdm. destruct (decide (x / 10 = 0)%N) as [E|E].
  - rewrite E, pretty_N_go_0. exists (pretty_N_char (x mod 10)), "". split; [done|]. split; [apply Hd4; lia|]. split; [done|].
    split; [cbn [String.list_ascii_of_string forallb]; by rewrite Hd2|]. exists 10%Z. intros a. cbn [parse_digits String.append]. rewrite Hd1. f_equal. lia.
  - destruct (IH (x / 10)%N) with (s := String (pretty_N_char (x mod 10)) s) as (c & ds & -> & Hc & Hds & Hn & k & Hk);
      [apply N.div_lt; lia|by apply N.neq_0_lt_0|]. exists c, (ds +:+ String (pretty_N_char (x mod 10)) "").
    split; [by rewrite str_app_assoc|]. split; [done|].
    assert (forall p, forallb p (String.list_ascii_of_string (ds +:+ String (pretty_N_char (x mod 10)) ""))
      = forallb p (String.list_ascii_of_string ds) && p (pretty_N_char (x mod 10))) as Hf
      by (intros p; clear; induction ds as [|d ds IH]; cbn; [by rewrite andb_true_r|]; by rewrite IH, andb_assoc).
    split; [by rewrite Hf, Hds, Hd3|]. split.
    + cbn [String.list_ascii_of_string forallb] in *. apply andb_prop in Hn as [Hn1 Hn2]. by rewrite Hf, Hn1, Hn2, Hd2.
    + exists (k * 10)%Z. intros a. rewrite str_app_assoc. cbn [String.append]. rewrite Hk. cbn [parse_digits]. rewrite Hd1. f_equal. lia.
Qed.

Definition int_tree (z : Z) : any := ANum (pretty z).

Definition in_int64 (z : Z) : bool := ((- 2 ^ 63 <=? z) && (z <? 2 ^ 63))%Z.

Lemma reNumber_digits c ds : byte_in "123456789" c = true ->
  forallb (fun c => (48 <=? nat_of_ascii c) && (nat_of_ascii c <=? 57))%nat (String.list_ascii_of_string ds) = true ->
  MatchStart reNumber (String c ds) = true /\ MatchStart reNumber (String "-" (String c ds)) = true.
Proof.
  intros Hc Hds.
  assert (rmatches (RSeqs [RAlt (RByte "0") (RSeq (RIn "123456789") (RStar RDigit));
         ROpt (RSeq (RByte ".") (RPlus RDigit));
         ROpt (RSeqs [RIn "eE"; ROpt (RIn "+-"); RPlus RDigit]); REnd]) (String c ds) "") as H.
  { cbn [RSeqs]. apply (m_seq _ _ _ ""); [apply m_right, (m_seq _ _ _ ds); [by apply m_chr|]|].
    - rewrite <- (str_app_nil_r ds) at 1. by apply rmatches_run.
    - apply (m_seq _ _ _ ""); [apply m_right, m_eps|]. apply (m_seq _ _ _ ""); [apply m_right, m_eps|].
      apply (m_seq _ _ _ ""); [apply m_end|apply m_eps]. }
  split; (eapply MatchStart_complete; unfold reNumber; cbn [RSeqs] in *; eapply m_seq; [|exact H]).
  - apply m_right, m_eps.
  - apply m_left. by apply m_chr.
Qed.

(** An integer is written as a JSON number that is read back. *)
Lemma int_tree_fine z : in_int64 z = true -> wf_any Some (int_tree z) = true /\ int_into 0%Z (int_tree z) = Some z.
Proof.
  unfold in_int64. intros Hz. unfold int_tree. cbn [wf_any int_into]. rewrite bool_decide_eq_true_2, andb_true_r by done.
  assert (forall p, pretty (Zpos p) = pretty_N_go (Npos p) "" /\ pretty (Zneg p) = "-" +:+ pretty_N_go (Npos p) "") as Hp
    by (intros p; by split).
  destruct z as [|p|p]; [done| |]; rewrite ?(proj1 (Hp p)), ?(proj2 (Hp p));
    destruct (pretty_digits (Npos p) "" ltac:(lia)) as (c & ds & -> & Hc & Hds & Hn & k & Hk); rewrite str_app_nil_r in *;
    destruct (reNumber_digits c ds Hc Hds) as [H1 H2].
  - rewrite Hn, H1. split; [done|]. unfold Atoi.
    assert (Ascii.eqb c "-" = false /\ Ascii.eqb c "+" = false) as [-> ->] by (destruct c as [[] [] [] [] [] [] [] []]; done).
    cbn [String.eqb]. rewrite Hk. cbn [parse_digits]. rewrite Z.mul_0_l, Z.add_0_l. cbn [Z.of_N]. by rewrite Hz.
  - change ("-" +:+ String c ds) with (String "-" (String c ds)). rewrite H2.
    change (forallb num_char (String.list_ascii_of_string (String "-" (String c ds))))
      with (forallb num_char (String.list_ascii_of_string (String c ds))). rewrite Hn. split; [done|].
    unfold Atoi. cbn [Ascii.eqb Bool.eqb String.eqb]. rewrite Hk. cbn [parse_digits]. rewrite Z.mul_0_l, Z.add_0_l. change (- Z.of_N (N.pos p))%Z with (Z.neg p). by rewrite Hz.
Qed.

(** *** Maps *)

Lemma map_into_fold {A B} zero (d : into A) (f : B -> any) (h : B -> A) l (acc : gmap string A) :
  NoDup l.*1 -> Forall (fun p => acc !! p.1 = None /\ d zero (f p.2) = Some (h p.2)) l ->
  map_into zero d acc (AObj (map_vals f l)) = Some (list_to_map (map_vals h l) ∪ acc).
Proof.
  cbn [map_into]. revert acc. induction l as [|[k x] l IH]; intros acc Hnd Hl; [cbn; by rewrite (left_id_L ∅ (∪))|].
  apply Forall_cons in Hl as [[Hk Hx] Hl]. cbn in Hk, Hx. apply NoDup_cons in Hnd as [Hn Hnd].
  cbn. rewrite Hx, IH; [|done|].
  - f_equal. rewrite <- insert_union_r, insert_union_l; [done|]. apply not_elem_of_list_to_map_1.
    change (k ∉ (map_vals h l).*1). by rewrite map_vals_keys.
  - apply Forall_forall. intros [k' x'] Hp. rewrite Forall_forall in Hl. destruct (Hl _ Hp) as [H1 H2]. split; [|done]. cbn in *.
    rewrite lookup_insert_ne; [done|]. intros <-. apply Hn. by apply (list_elem_of_fmap_2 fst) in Hp.
Qed.

Lemma map_into_map {A B} zero (d : into A) (f : B -> any) (h : B -> A) (m : gmap string B) l :
  l ≡ₚ map_to_list m -> Forall (fun p => d zero (f p.2) = Some (h p.2)) l ->
  map_into zero d ∅ (AObj (map_vals f l)) = Some (h <$> m).
Proof.
  intros Hp Hl. assert (NoDup l.*1) as Hnd by (rewrite Hp; apply NoDup_fst_map_to_list). rewrite (map_into_fold _ _ _ h).
  - rewrite map_union_empty. f_equal. rewrite <- (list_to_map_to_list m), <- list_to_map_fmap. apply list_to_map_proper.
    + change (NoDup (map_vals h l).*1). by rewrite map_vals_keys.
    + rewrite <- Hp. apply Permutation_refl'. apply list_fmap_ext. by intros i [k v] _.
  - done.
  - eapply Forall_impl; [exact Hl|]. intros p H. split; [apply lookup_empty|done].
Qed.

(** *** Sizes of trees

    A tree that can be written, of bounded depth. *)
Definition fine (num : string -> option string) (d : nat) (v : any) : Prop := wf_any num v = true /\ depth v <= d.

Lemma fine_str num d s : utf8b s = true -> fine num d (AStr s).
Proof. intros H. split; [done|cbn; lia]. Qed.

Lemma fine_arr num d l : Forall (fine num d) l -> fine num (S d) (AArr l).
Proof.
  intros [H1 H2]%Forall_and. split; cbn [wf_any depth]; [by apply forallb_Forall|].
  apply le_n_S, list_max_le, List.Forall_map. exact H2.
Qed.

Lemma fine_obj num d l : NoDup l.*1 -> Forall (fun p => utf8b p.1 = true /\ fine num d p.2) l -> fine num (S d) (AObj l).
Proof.
  intros Hnd H. split; cbn [wf_any depth].
  - rewrite bool_decide_eq_true_2 by done. cbn [andb]. apply forallb_Forall. eapply Forall_impl; [exact H|].
    intros p (H1 & H2 & _). by rewrite H1, H2.
  - apply le_n_S, list_max_le, List.Forall_map. eapply Forall_impl; [exact H|]. by intros p (_ & _ & Hp).
Qed.

Lemma fine_more num d d' v : d <= d' -> fine num d v -> fine num d' v.
Proof. intros Hd [H1 H2]. split; [done|lia]. Qed.

Lemma fine_canon num d v : fine num d v -> fine num d (canon v).
Proof. intros [H1 H2]. split; [by apply canon_wf|by rewrite canon_depth]. Qed.

(** An object with the given fields, for known distinct names. *)
Ltac fine_fields :=
  apply fine_obj; [apply (bool_decide_unpack _); vm_compute; exact I|];
  repeat (apply Forall_cons; split; [split; [vm_compute; reflexivity|cbn [snd]]|]); try apply List.Forall_nil.

Lemma fine_int d z : in_int64 z = true -> fine Some d (int_tree z).
Proof. intros H%int_tree_fine. split; [apply H|]. cbn. lia. Qed.

Lemma fine_null num d : fine num d ANull.
Proof. split; [done|cbn; lia]. Qed.

Create HintDb fine.
#[export] Hint Resolve fine_str fine_int fine_null : fine.
