(* ===== verification/GoFloat.v ===== *)
(** * Floating point numbers

    What the sources use of Go's [float64]: conversions of integers, sums,
    products and quotients of numbers that are not negative, and the verbs
    [%.0f] and [%.1f] of [fmt]. A number is the fraction it stands for; a
    result is the fraction with a significand of 53 bits that is nearest to the
    exact one, ties to even, as IEEE 754 says. The exponents of the numbers in
    question are far from the limits of the format. *)
From stdpp Require Import base tactics numbers strings pretty.
From Stdlib Require Import ZArith Lia.
From S2P Require Import Prelude GoStrings.

Local Open Scope Z_scope.

(** ** Rounding *)

(** [a / b] to the nearest integer, ties to even. *)
Definition rne (a b : Z) : Z :=
  let q := a / b in
  let r := a mod b in
  if 2 * r <? b then q else if b <? 2 * r then q + 1 else if Z.even q then q else q + 1.

(** A fraction with a positive denominator. *)
Record float64 := mkFloat { f_num : Z; f_den : Z }.

Definition pow2 (k : Z) : Z := 2 ^ Z.max 0 k.

(** The exponent of the last bit of a significand of 53 bits for [a / b]. *)
Definition last_bit (a b : Z) : Z :=
  let k := Z.log2 a - Z.log2 b in
  if a * pow2 (- k) <? b * pow2 k then k - 53 else k - 52.

(** The number nearest to [a / b]. *)
Definition nearest (a b : Z) : float64 :=
  if a =? 0 then mkFloat 0 1
  else let e := last_bit a b in
       mkFloat (rne (a * pow2 (- e)) (b * pow2 e) * pow2 e) (pow2 (- e)).

Definition of_int (n : Z) : float64 := nearest n 1.
Definition f_add (x y : float64) : float64 := nearest (f_num x * f_den y + f_num y * f_den x) (f_den x * f_den y).
Definition f_mul (x y : float64) : float64 := nearest (f_num x * f_num y) (f_den x * f_den y).
Definition f_div (x y : float64) : float64 := nearest (f_num x * f_den y) (f_den x * f_num y).

(** [time.Duration.Seconds] of a duration in nanoseconds. *)
Definition Seconds (d : Z) : float64 :=
  f_add (of_int (Z.quot d Second)) (f_div (of_int (Z.rem d Second)) (of_int Second)).

(** ** Printing *)

(** [fmt.Sprintf("%.0f", x)] and [fmt.Sprintf("%.1f", x)]. *)
Definition fixed0 (x : float64) : string := pretty (rne (f_num x) (f_den x)).
Definition tenths (n : Z) : string := pretty (n / 10) +:+ "." +:+ pretty (n mod 10).
Definition fixed1 (x : float64) : string := tenths (rne (f_num x * 10) (f_den x)).

(** * Properties *)

Lemma rne_close a b : 0 < b -> Z.abs (2 * (rne a b * b - a)) <= b.
Proof.
  intros Hb. unfold rne. pose proof (Z.div_mod a b ltac:(lia)) as E. pose proof (Z.mod_pos_bound a b Hb) as Hr.
  destruct (Z.ltb_spec (2 * (a mod b)) b); [nia|]. destruct (Z.ltb_spec b (2 * (a mod b))); [nia|].
  destruct (Z.even (a / b)); nia.
Qed.

Lemma rne_nonneg a b : 0 <= a -> 0 < b -> 0 <= rne a b.
Proof.
  intros Ha Hb. unfold rne. pose proof (Z.div_pos a b Ha Hb). repeat case_match; lia.
Qed.

Lemma rne_exact a b : 0 < b -> rne (a * b) b = a.
Proof. intros Hb. unfold rne. rewrite Z.div_mul, Z.mod_mul by lia. by rewrite (proj2 (Z.ltb_lt (2 * 0) b)) by lia. Qed.

Lemma pow2_pos k : 0 < pow2 k.
Proof. unfold pow2. apply Z.pow_pos_nonneg; lia. Qed.

Lemma pow2_nonneg k : 0 <= k -> pow2 k = 2 ^ k.
Proof. intros H. unfold pow2. by rewrite Z.max_r. Qed.
Lemma pow2_neg k : k <= 0 -> pow2 k = 1.
Proof. intros H. unfold pow2. by rewrite Z.max_l. Qed.

(** The significand has at least 53 bits: the quotient is at least [2 ^ 52]
    times its last bit. *)
Lemma scaled_down a b k j : 0 <= j -> b * pow2 k <= a * pow2 (- k) -> 2 ^ j * (b * pow2 (k - j)) <= a * pow2 (- (k - j)).
Proof.
  intros Hj H. destruct (Z.le_gt_cases j k) as [Hk|Hk].
  - rewrite (pow2_neg (- (k - j))), (pow2_nonneg (k - j)) by lia. rewrite (pow2_neg (- k)), (pow2_nonneg k) in H by lia.
    replace (2 ^ k) with (2 ^ j * 2 ^ (k - j)) in H by (rewrite <- Z.pow_add_r by lia; f_equal; lia). lia.
  - rewrite (pow2_neg (k - j)), (pow2_nonneg (- (k - j))) by lia. destruct (Z.le_gt_cases 0 k) as [H0|H0].
    + rewrite (pow2_neg (- k)), (pow2_nonneg k) in H by lia.
      replace (2 ^ j) with (2 ^ k * 2 ^ (- (k - j))) by (rewrite <- Z.pow_add_r by lia; f_equal; lia).
      pose proof (Z.pow_pos_nonneg 2 (- (k - j)) ltac:(lia) ltac:(lia)). nia.
    + rewrite (pow2_neg k), (pow2_nonneg (- k)) in H by lia.
      replace (- (k - j)) with (- k + j) by lia. rewrite Z.pow_add_r by lia.
      pose proof (Z.pow_pos_nonneg 2 j ltac:(lia) ltac:(lia)). nia.
Qed.

Lemma log2_quotient a b : 0 < a -> 0 < b -> b * pow2 (Z.log2 a - Z.log2 b - 1) <= a * pow2 (- (Z.log2 a - Z.log2 b - 1)).
Proof.
  intros Ha Hb. destruct (Z.log2_spec a Ha) as [H1 _]. destruct (Z.log2_spec b Hb) as [_ H2].
  pose proof (Z.log2_nonneg a). pose proof (Z.log2_nonneg b). set (k := Z.log2 a - Z.log2 b - 1).
  destruct (Z.le_gt_cases 0 k) as [Hk|Hk].
  - rewrite (pow2_nonneg k), (pow2_neg (- k)) by lia.
    assert (2 ^ Z.succ (Z.log2 b) * 2 ^ k = 2 ^ Z.log2 a) as E by (rewrite <- Z.pow_add_r by lia; f_equal; lia).
    pose proof (Z.pow_pos_nonneg 2 k ltac:(lia) Hk). nia.
  - rewrite (pow2_neg k), (pow2_nonneg (- k)) by lia.
    assert (2 ^ Z.log2 a * 2 ^ (- k) = 2 ^ Z.succ (Z.log2 b)) as E by (rewrite <- Z.pow_add_r by lia; f_equal; lia).
    pose proof (Z.pow_pos_nonneg 2 (- k) ltac:(lia) ltac:(lia)). nia.
Qed.

Lemma significand a b : 0 < a -> 0 < b -> 2 ^ 52 * (b * pow2 (last_bit a b)) <= a * pow2 (- last_bit a b).
Proof.
  intros Ha Hb. unfold last_bit. destruct (Z.ltb_spec (a * pow2 (- (Z.log2 a - Z.log2 b))) (b * pow2 (Z.log2 a - Z.log2 b))) as [_|H].
  - replace (Z.log2 a - Z.log2 b - 53) with (Z.log2 a - Z.log2 b - 1 - 52) by lia. apply scaled_down; [lia|]. by apply log2_quotient.
  - by apply scaled_down.
Qed.

(** A result is off by at most one part in [2 ^ 53]. *)
Lemma nearest_close a b : 0 <= a -> 0 < b ->
  0 < f_den (nearest a b) /\ 0 <= f_num (nearest a b)
  /\ 2 ^ 53 * Z.abs (f_num (nearest a b) * b - a * f_den (nearest a b)) <= a * f_den (nearest a b).
Proof.
  intros Ha Hb. unfold nearest. destruct (Z.eqb_spec a 0) as [->|Hn]; [cbn; lia|]. cbn [f_num f_den]. cbv zeta.
  set (e := last_bit a b). pose proof (significand a b ltac:(lia) Hb) as Hs. fold e in Hs.
  pose proof (pow2_pos e) as P1. pose proof (pow2_pos (- e)) as P2.
  assert (0 < b * pow2 e) as HB by lia. pose proof (rne_close (a * pow2 (- e)) (b * pow2 e) HB) as Hc.
  pose proof (rne_nonneg (a * pow2 (- e)) (b * pow2 e) ltac:(lia) HB) as Hn'.
  set (m := rne (a * pow2 (- e)) (b * pow2 e)) in *. split; [done|]. split; [lia|].
  replace (m * pow2 e * b - a * pow2 (- e)) with (m * (b * pow2 e) - a * pow2 (- e)) by ring.
  rewrite Z.abs_mul in Hc. change (2 ^ 53) with (2 ^ 52 * 2). cbn [Z.abs] in Hc. lia.
Qed.
