(* ===== verification/Normalize.v ===== *)
(** * Tool-call normalization

    [protocol/normalize.go]: before a request is sent, every assistant message
    with tool calls is followed by exactly one tool message per call (matched
    by id, or by position when the ids are not usable), orphan tool messages
    are dropped, missing names are filled in from the results, and truncated
    JSON arguments are closed. *)
From stdpp Require Import base tactics list gmap strings.
From Stdlib Require Import ZArith Lia.
From S2P Require Import Prelude GoStrings GoJSON Types.

Definition InterruptedToolResult : string :=
  "[no result: the previous turn was interrupted before this tool call completed]".

(** ** Argument repair *)

(** The loop of [closeTruncatedJSON]: open brackets (the closer each needs,
    innermost first), inside a string, after a backslash. *)
Record ctstate := mkCt { ct_stack : list ascii; ct_inStr : bool; ct_esc : bool }.

Definition ct_init : ctstate := mkCt [] false false.

Definition ct_step (st : ctstate) (c : ascii) : ctstate :=
  if ct_inStr st then
    if ct_esc st then mkCt (ct_stack st) true false
    else if Ascii.eqb c backslash then mkCt (ct_stack st) true true
    else if Ascii.eqb c dquote then mkCt (ct_stack st) false (ct_esc st)
    else st
  else if Ascii.eqb c dquote then mkCt (ct_stack st) true (ct_esc st)
  else if Ascii.eqb c "{" then mkCt ("}"%char :: ct_stack st) false (ct_esc st)
  else if Ascii.eqb c "[" then mkCt ("]"%char :: ct_stack st) false (ct_esc st)
  else if Ascii.eqb c "}" || Ascii.eqb c "]" then mkCt (tail (ct_stack st)) false (ct_esc st)
  else st.

Fixpoint ct_run (st : ctstate) (s : string) : ctstate :=
  match s with EmptyString => st | String c s' => ct_run (ct_step st c) s' end.

Definition closeTruncatedJSON (s : string) : string :=
  let st := ct_run ct_init s in
  let out := if ct_esc st then str_take (String.length s - 1) s else s in
  let out := if ct_inStr st then out +:+ String dquote "" else out in
  let trimmed := TrimRight out ws in
  let out :=
    if HasSuffix trimmed "," then str_take (String.length trimmed - 1) trimmed
    else if HasSuffix trimmed ":" then trimmed +:+ "null"
    else out in
  let out := out +:+ String.string_of_list_ascii (ct_stack st) in
  if negb (json_valid out) then "{}" else out.

Definition arg_broken (tc : ToolCall) : bool :=
  (Arguments tc <>s "") && negb (json_valid (Arguments tc)).

Definition needsArgRepair (calls : list ToolCall) : bool := existsb arg_broken calls.

Definition repairToolCallArgs (m : Message) : Message :=
  if negb (existsb arg_broken (ToolCalls m)) then m
  else set_ToolCalls
         (map (fun tc =>
                 if (Arguments tc =s "") || json_valid (Arguments tc) then tc
                 else set_tc_Arguments (closeTruncatedJSON (Arguments tc)) tc)
              (ToolCalls m)) m.

(** ** Pairing calls with results *)

Fixpoint idDistinct_go (seen : gset string) (calls : list ToolCall) : bool :=
  match calls with
  | [] => true
  | tc :: rest =>
      if ID tc =s "" then false
      else if bool_decide (ID tc ∈ seen) then false
      else idDistinct_go ({[ID tc]} ∪ seen) rest
  end.

Definition idDistinct (calls : list ToolCall) : bool := idDistinct_go ∅ calls.

Definition interrupted (tc : ToolCall) : Message :=
  mkMessage RoleTool InterruptedToolResult "" [] (ID tc) (Name tc) [].

Fixpoint pair_by_position (calls : list ToolCall) (avail : list Message) : list Message :=
  match calls, avail with
  | [], _ => []
  | tc :: calls', r :: avail' =>
      set_mName (Name tc) (set_ToolCallID (ID tc) r) :: pair_by_position calls' avail'
  | tc :: calls', [] => interrupted tc :: pair_by_position calls' []
  end.

Definition pairToolResults (calls : list ToolCall) (avail : list Message) : list Message :=
  if idDistinct calls then
    let byID := map_of ToolCallID avail in
    map (fun tc => match byID !! ID tc with
                   | Some r => set_mName (Name tc) r
                   | None => interrupted tc
                   end) calls
  else pair_by_position calls avail.

Fixpoint backfill_by_position (calls : list ToolCall) (results : list Message) : list ToolCall :=
  match calls, results with
  | [], _ => []
  | tc :: calls', r :: results' =>
      (if Name tc =s "" then set_tc_Name (mName r) tc else tc)
      :: backfill_by_position calls' results'
  | _, [] => calls
  end.

Definition backfillToolCallNames (calls : list ToolCall) (results : list Message) : list ToolCall :=
  if negb (existsb (fun c => Name c =s "") calls) then calls
  else if idDistinct calls then
    let byID := map_of ToolCallID (List.filter (fun r => mName r <>s "") results) in
    map (fun tc => if Name tc =s "" then
                     match byID !! ID tc with
                     | Some r => set_tc_Name (mName r) tc
                     | None => tc
                     end
                   else tc) calls
  else backfill_by_position calls results.

(** ** The two paths *)

Definition isTool (m : Message) : bool := mRole m =s RoleTool.

(** An assistant message with at least one tool call opens a tool turn. *)
Definition opensTurn (m : Message) : bool :=
  (mRole m =s RoleAssistant) && (0 <? length (ToolCalls m))%nat.

Fixpoint results_match (calls : list ToolCall) (results : list Message) : bool :=
  match calls, results with
  | tc :: calls', r :: results' =>
      (ToolCallID r =s ID tc) && (mName r =s Name tc) && results_match calls' results'
  | _, _ => true
  end.

Definition toolTurnWellFormed (calls : list ToolCall) (results : list Message) : bool :=
  (length calls =? length results)%nat
  && forallb (fun tc => negb ((Name tc =s "") || (ID tc =s ""))) calls
  && results_match calls results.

(** The scans move [i] past a turn in one step; [fuel] bounds the number of
    steps and the length of the list is always enough. *)
Fixpoint fast_ok (fuel : nat) (msgs : list Message) : bool :=
  match fuel, msgs with
  | S fuel', m :: rest =>
      if opensTurn m then
        let '(results, rest') := span isTool rest in
        if negb (toolTurnWellFormed (ToolCalls m) results) || needsArgRepair (ToolCalls m)
        then false else fast_ok fuel' rest'
      else if isTool m then false
      else fast_ok fuel' rest
  | _, _ => true
  end.

Definition tryFastPath (msgs : list Message) : option (list Message) :=
  if fast_ok (length msgs) msgs then Some msgs else None.

Fixpoint slow_loop (fuel : nat) (msgs : list Message) : list Message :=
  match fuel, msgs with
  | S fuel', m :: rest =>
      if opensTurn m then
        let '(results, rest') := span isTool rest in
        let calls := backfillToolCallNames (ToolCalls m) results in
        repairToolCallArgs (set_ToolCalls calls m)
        :: pairToolResults calls results ++ slow_loop fuel' rest'
      else if isTool m then slow_loop fuel' rest
      else m :: slow_loop fuel' rest
  | _, _ => []
  end.

Definition NormalizeMessages (msgs : list Message) : list Message :=
  match tryFastPath msgs with
  | Some normalized => normalized
  | None => slow_loop (length msgs) msgs
  end.

(** * Properties of the argument repair *)

(** ** The bracket tracker simulates the JSON scanner *)

Definition closer (p : pstate) : ascii :=
  match p with parseArrayValue => "]"%char | _ => "}"%char end.

(** The tracker's state is a function of the scanner's. *)
Definition ct_of (st : sstate) (stk : list pstate) : ctstate :=
  mkCt (closer <$> stk) (in_string st) (bool_decide (st = stateInStringEsc)).

(** The bytes the tracker reacts to outside a string. *)
Definition special (c : ascii) : bool := byte_in (String dquote "{}[]") c.

Lemma special_cases c :
  special c = true -> c = dquote \/ c = "{"%char \/ c = "}"%char \/ c = "["%char \/ c = "]"%char.
Proof.
  unfold special, byte_in. simpl. rewrite !orb_true_iff, !Ascii.eqb_eq.
  intros [?|[?|[?|[?|[?|?]]]]]; auto; done.
Qed.

Ltac scan_branches H :=
  repeat match type of H with
         | (if ?b then _ else _) = _ => destruct b eqn:?
         | (match ?x with _ => _ end) = _ => destruct x eqn:?
         end; simplify_eq/=.

Lemma ct_step_special st stk c st' stk' :
  special c = true -> in_string st = false ->
  scan_step st stk c = Some (st', stk') -> ct_step (ct_of st stk) c = ct_of st' stk'.
Proof.
  intros Hc%special_cases Hs H. unfold ct_of. rewrite Hs.
  destruct Hc as [->|[->|[->|[->| ->]]]]; destruct st; simpl in Hs; try done; simpl in H;
    unfold step_0, step_ESign, step_BeginValue, step_BeginString, step_EndValue, step_EndTop,
      push, pop, expect in H; simpl in H; scan_branches H; done.
Qed.

Lemma ct_step_plain_id st stk c :
  special c = false -> in_string st = false -> ct_step (ct_of st stk) c = ct_of st stk.
Proof.
  unfold special, byte_in, ct_step, ct_of. simpl. rewrite !orb_false_iff. intros Hc ->.
  destruct Hc as (-> & -> & -> & -> & -> & _). simpl. f_equal.
Qed.

(** Other bytes keep the brackets and do not enter a string. *)
Lemma scan_step_plain st stk c st' stk' :
  special c = false -> in_string st = false ->
  scan_step st stk c = Some (st', stk') ->
  in_string st' = false /\ closer <$> stk' = closer <$> stk.
Proof.
  unfold special, byte_in. simpl. rewrite !orb_false_iff. intros Hc Hs H.
  destruct Hc as (Hq & Ho & Hc & Hb & He & _).
  destruct st; simpl in Hs; try done; simpl in H;
    unfold step_0, step_ESign, step_BeginValue, step_BeginString, step_EndValue, step_EndTop,
      expect in H; rewrite ?Hq, ?Ho, ?Hc, ?Hb, ?He in H; scan_branches H; done.
Qed.

Lemma not_in_string_not_esc st : in_string st = false -> bool_decide (st = stateInStringEsc) = false.
Proof. intros H. apply bool_decide_eq_false. by intros ->. Qed.

Lemma ct_step_plain st stk c st' stk' :
  special c = false -> in_string st = false ->
  scan_step st stk c = Some (st', stk') -> ct_step (ct_of st stk) c = ct_of st' stk'.
Proof.
  intros Hc Hs H. rewrite ct_step_plain_id by done.
  destruct (scan_step_plain _ _ _ _ _ Hc Hs H) as [Hs' Hk].
  unfold ct_of. by rewrite Hs, Hs', Hk, !not_in_string_not_esc.
Qed.

Lemma hex_not_special c : isHex c = true -> Ascii.eqb c backslash = false /\ Ascii.eqb c dquote = false.
Proof. destruct c as [[] [] [] [] [] [] [] []]; done. Qed.

Lemma ct_step_string st stk c st' stk' :
  in_string st = true ->
  scan_step st stk c = Some (st', stk') -> ct_step (ct_of st stk) c = ct_of st' stk'.
Proof.
  intros Hs H. unfold ct_step, ct_of. rewrite Hs. simpl.
  destruct st; simpl in Hs; try done; simpl in H.
  - destruct (Ascii.eqb c dquote) eqn:E.
    + apply Ascii.eqb_eq in E as ->. by simplify_eq/=.
    + scan_branches H; done.
  - rewrite bool_decide_eq_true_2 by done. scan_branches H; done.
  - destruct (isHex c) eqn:E; [|done]. destruct (hex_not_special c E) as [-> ->].
    scan_branches H; done.
Qed.

Lemma ct_step_sim st stk c st' stk' :
  scan_step st stk c = Some (st', stk') -> ct_step (ct_of st stk) c = ct_of st' stk'.
Proof.
  destruct (in_string st) eqn:Hs; [by apply ct_step_string|].
  destruct (special c) eqn:Hc; eauto using ct_step_special, ct_step_plain.
Qed.

Lemma ct_run_sim s st stk st' stk' :
  scan st stk s = Some (st', stk') -> ct_run (ct_of st stk) s = ct_of st' stk'.
Proof.
  revert st stk. induction s as [|c s IH]; intros st stk; simpl; [by intros [= -> ->]|].
  destruct (scan_step st stk c) as [[st1 stk1]|] eqn:E; [|done].
  intros H. rewrite (ct_step_sim _ _ _ _ _ E). by apply IH.
Qed.

(** ** Texts that are not truncated, and where a truncation is repaired *)

Lemma no_trailing_sep s st stk :
  scan stateBeginValue [] s = Some (st, stk) ->
  pending st = false -> in_string st = false ->
  HasSuffix (TrimRight s ws) "," = false /\ HasSuffix (TrimRight s ws) ":" = false.
Proof.
  intros Hs Hp Hi.
  split; apply not_true_is_false; intros H.
  - destruct (scan_trailing_sep _ _ _ _ (or_introl eq_refl) Hs H); congruence.
  - destruct (scan_trailing_sep _ _ _ _ (or_intror eq_refl) Hs H); congruence.
Qed.

Lemma close_unchanged s st stk :
  scan stateBeginValue [] s = Some (st, stk) ->
  pending st = false -> in_string st = false ->
  closeTruncatedJSON s =
  let out := s +:+ String.string_of_list_ascii (closer <$> stk) in
  if negb (json_valid out) then "{}" else out.
Proof.
  intros Hs Hp Hi. destruct (no_trailing_sep _ _ _ Hs Hp Hi) as [Hc Hd].
  unfold closeTruncatedJSON. change ct_init with (ct_of stateBeginValue []).
  rewrite (ct_run_sim _ _ _ _ _ Hs). unfold ct_of. simpl.
  rewrite (not_in_string_not_esc _ Hi), Hi, Hc, Hd. done.
Qed.

Lemma close_valid_id s : json_valid s = true -> closeTruncatedJSON s = s.
Proof.
  intros Hv. pose proof Hv as Hv'. unfold json_valid in Hv'.
  destruct (scan stateBeginValue [] s) as [[st stk]|] eqn:Hs; [|done].
  assert (stk = []) as ->.
  { eapply scan_eof_nil; [|exact Hv']. eapply scan_keeps_inv; [|exact Hs]. apply scan_init_inv. }
  assert (pending st = false /\ in_string st = false) as [Hp Hi].
  { split; apply not_true_is_false; intros H;
      rewrite scan_eof_pending in Hv' by auto; done. }
  rewrite (close_unchanged _ _ _ Hs Hp Hi). simpl. by rewrite str_app_nil_r, Hv.
Qed.

(** The points where cutting a JSON text leaves something [closeTruncatedJSON]
    can complete by appending: in the middle of a string value, in or after a
    number, after a complete value, right after an opening bracket. *)
Definition cut_point (st : sstate) (stk : list pstate) : bool :=
  match st with
  | stateInString | stateEndValue | state0 | state1 | stateDot0 | stateE0 =>
      negb (bool_decide (head stk = Some parseObjectKey))
  | stateBeginValueOrEmpty | stateBeginStringOrEmpty | stateEndTop => true
  | _ => false
  end.

Lemma closers_scan stk :
  Forall not_key stk ->
  exists st', scan stateEndValue stk (String.string_of_list_ascii (closer <$> stk)) = Some (st', [])
           /\ scan_eof st' [] = true.
Proof.
  induction stk as [|p stk IH]; intros H; [by exists stateEndValue|].
  apply Forall_cons in H as [Hp Hk]. destruct (IH Hk) as (st' & Hs & He).
  destruct stk as [|q stk].
  - exists stateEndTop. destruct p; [done| |]; done.
  - destruct p; [done| |]; exists st'; split; done.
Qed.

Lemma not_key_all stk :
  Forall not_key (tail stk) -> bool_decide (head stk = Some parseObjectKey) = false ->
  Forall not_key stk.
Proof.
  destruct stk as [|p stk]; [auto|]. simpl. intros H Hb%bool_decide_eq_false.
  constructor; [|done]. unfold not_key. congruence.
Qed.

(** Closing from a state outside a string is closing from [stateEndValue]. *)
Lemma closers_from_cut st stk :
  scan_inv st stk -> cut_point st stk = true -> in_string st = false ->
  exists st', scan st stk (String.string_of_list_ascii (closer <$> stk)) = Some (st', [])
           /\ scan_eof st' [] = true.
Proof.
  intros (Ht & Hv & He & Ha & Ho) Hc Hi.
  assert (st = stateBeginStringOrEmpty \/ Forall not_key stk) as [->|Hk].
  { destruct st; simpl in *; try done; try (right; by apply Hv); auto.
    right. apply negb_true_iff in Hc. by apply not_key_all. }
  - destruct stk as [|p stk]; [by specialize (Ho eq_refl)|].
    specialize (Ho eq_refl). simplify_eq/=.
    destruct (closers_scan (parseObjectValue :: stk)) as (st' & Hs & He');
      [by constructor|]. by exists st'.
  - destruct (closers_scan stk Hk) as (st' & Hs & He').
    destruct stk as [|p stk].
    + exists st. split; [done|]. destruct st; try done;
        [by specialize (Ha eq_refl)|by specialize (Ho eq_refl)].
    + exists st'. split; [|done].
      apply Forall_cons in Hk as [Hp _]. unfold not_key in Hp.
      destruct st; simpl in Hc, Hi; try done; try (by specialize (He eq_refl));
        try (specialize (Ha eq_refl)); try (specialize (Ho eq_refl));
        simplify_eq/=; try done; destruct p; done.
Qed.

Lemma close_completes s st stk :
  scan stateBeginValue [] s = Some (st, stk) -> cut_point st stk = true ->
  exists t, closeTruncatedJSON s = s +:+ t /\ json_valid (s +:+ t) = true.
Proof.
  intros Hs Hc.
  assert (scan_inv st stk) as Hinv by (eapply scan_keeps_inv; [apply scan_init_inv|exact Hs]).
  destruct (in_string st) eqn:Hi.
  - destruct st; try done. simpl in Hc. apply negb_true_iff in Hc.
    set (u := s +:+ String dquote "").
    assert (scan stateBeginValue [] u = Some (stateEndValue, stk)) as Hu
      by (unfold u; by rewrite scan_app, Hs).
    destruct (closers_scan stk) as (st' & Hst & He).
    { apply not_key_all; [apply Hinv|done]. }
    exists (String dquote "" +:+ String.string_of_list_ascii (closer <$> stk)).
    rewrite <- str_app_assoc. fold u.
    assert (json_valid (u +:+ String.string_of_list_ascii (closer <$> stk)) = true) as Hv
      by (unfold json_valid; by rewrite scan_app, Hu, Hst).
    split; [|done].
    assert (closeTruncatedJSON s = closeTruncatedJSON u) as ->.
    { unfold closeTruncatedJSON. change ct_init with (ct_of stateBeginValue []).
      rewrite (ct_run_sim _ _ _ _ _ Hs), (ct_run_sim _ _ _ _ _ Hu). done. }
    rewrite (close_unchanged _ _ _ Hu) by done. simpl. by rewrite Hv.
  - destruct (closers_from_cut st stk Hinv Hc Hi) as (st' & Hst & He).
    exists (String.string_of_list_ascii (closer <$> stk)).
    assert (json_valid (s +:+ String.string_of_list_ascii (closer <$> stk)) = true) as Hv
      by (unfold json_valid; by rewrite scan_app, Hs, Hst).
    split; [|done].
    rewrite (close_unchanged _ _ _ Hs); [|by destruct st|done]. simpl. by rewrite Hv.
Qed.

Lemma closeTruncatedJSON_valid s : json_valid (closeTruncatedJSON s) = true.
Proof.
  unfold closeTruncatedJSON.
  match goal with |- context [negb (json_valid ?o)] => destruct (json_valid o) eqn:E end; done.
Qed.

(** * Properties of the message pass *)

(** ** The loops, without their fuel *)

Lemma slow_loop_fuel n1 n2 msgs :
  length msgs <= n1 -> length msgs <= n2 -> slow_loop n1 msgs = slow_loop n2 msgs.
Proof.
  revert n2 msgs. induction n1 as [|n1 IH]; intros [|n2] [|m msgs] H1 H2; simpl in *; try lia; auto.
  pose proof (span_length isTool msgs). destruct (span isTool msgs) as [a b]. simpl in *.
  rewrite (IH n2 b), (IH n2 msgs) by lia. done.
Qed.

Lemma fast_ok_fuel n1 n2 msgs :
  length msgs <= n1 -> length msgs <= n2 -> fast_ok n1 msgs = fast_ok n2 msgs.
Proof.
  revert n2 msgs. induction n1 as [|n1 IH]; intros [|n2] [|m msgs] H1 H2; simpl in *; try lia; auto.
  pose proof (span_length isTool msgs). destruct (span isTool msgs) as [a b]. simpl in *.
  rewrite (IH n2 b), (IH n2 msgs) by lia. done.
Qed.

Definition slow (msgs : list Message) : list Message := slow_loop (length msgs) msgs.
Definition fast (msgs : list Message) : bool := fast_ok (length msgs) msgs.

(** The repaired turn of an assistant message and the results after it. *)
Definition turn_calls (m : Message) (results : list Message) : list ToolCall :=
  backfillToolCallNames (ToolCalls m) results.
Definition turn_msg (m : Message) (results : list Message) : Message :=
  repairToolCallArgs (set_ToolCalls (turn_calls m results) m).

Lemma slow_turn m rest :
  opensTurn m = true ->
  slow (m :: rest) =
  turn_msg m (span isTool rest).1
  :: pairToolResults (turn_calls m (span isTool rest).1) (span isTool rest).1
     ++ slow (span isTool rest).2.
Proof.
  intros Hm. unfold slow. simpl. rewrite Hm. pose proof (span_length isTool rest).
  destruct (span isTool rest) as [a b]. simpl in *. by rewrite (slow_loop_fuel _ (length b)).
Qed.

Lemma slow_tool m rest : opensTurn m = false -> isTool m = true -> slow (m :: rest) = slow rest.
Proof. intros H1 H2. unfold slow. simpl. by rewrite H1, H2. Qed.

Lemma slow_plain m rest :
  opensTurn m = false -> isTool m = false -> slow (m :: rest) = m :: slow rest.
Proof. intros H1 H2. unfold slow. simpl. by rewrite H1, H2. Qed.

Lemma fast_turn m rest :
  opensTurn m = true ->
  fast (m :: rest) =
  toolTurnWellFormed (ToolCalls m) (span isTool rest).1
  && negb (needsArgRepair (ToolCalls m)) && fast (span isTool rest).2.
Proof.
  intros Hm. unfold fast. simpl. rewrite Hm. pose proof (span_length isTool rest).
  destruct (span isTool rest) as [a b]. simpl in *. rewrite (fast_ok_fuel _ (length b)) by lia.
  by destruct (toolTurnWellFormed _ _), (needsArgRepair _).
Qed.

Lemma fast_other m rest :
  opensTurn m = false -> fast (m :: rest) = negb (isTool m) && fast rest.
Proof. intros H. unfold fast. simpl. rewrite H. by destruct (isTool m). Qed.

(** Induction that follows the loops: a turn with its results, or one message. *)
Lemma turns_ind (P : list Message -> Prop) :
  P [] ->
  (forall m rest, opensTurn m = true -> P (span isTool rest).2 -> P (m :: rest)) ->
  (forall m rest, opensTurn m = false -> P rest -> P (m :: rest)) ->
  forall l, P l.
Proof.
  intros H0 Ht Hp l. induction l as [[|m rest] IH] using (induction_ltof1 _ length); [done|].
  destruct (opensTurn m) eqn:E.
  - apply Ht; [done|]. apply IH. unfold ltof. pose proof (span_length isTool rest). simpl. lia.
  - apply Hp; [done|]. apply IH. unfold ltof. simpl. lia.
Qed.

(** ** Identifiers *)

Lemma idDistinct_go_spec seen calls :
  idDistinct_go seen calls = true <->
  Forall (fun tc => ID tc <> "") calls /\ NoDup (ID <$> calls) /\ Forall (fun tc => ID tc ∉ seen) calls.
Proof.
  revert seen. induction calls as [|tc calls IH]; intros seen; simpl.
  - split; [|done]. repeat constructor.
  - rewrite !Forall_cons, NoDup_cons. destruct (ID tc =s "") eqn:E; bool_prop.
    + split; [done|]. by intros [[? _] _].
    + case_bool_decide as Hs; [naive_solver|]. rewrite IH.
      assert (Forall (fun x => ID x ∉ ({[ID tc]} ∪ seen : gset string)) calls
              <-> ID tc ∉ (ID <$> calls) /\ Forall (fun x => ID x ∉ seen) calls) as ->; [|naive_solver].
      rewrite !Forall_forall, list_elem_of_fmap. set_solver.
Qed.

Lemma idDistinct_spec calls :
  idDistinct calls = true <-> Forall (fun tc => ID tc <> "") calls /\ NoDup (ID <$> calls).
Proof.
  unfold idDistinct. rewrite idDistinct_go_spec. split; [naive_solver|].
  intros [? ?]. repeat split; auto. apply Forall_forall. set_solver.
Qed.

Lemma idDistinct_ID calls calls' :
  ID <$> calls = ID <$> calls' -> idDistinct calls = idDistinct calls'.
Proof.
  unfold idDistinct. generalize (∅ : gset string). revert calls'.
  induction calls as [|c calls IH]; intros [|c' calls'] seen; simpl; try done.
  intros [= -> H]. by rewrite (IH calls' _ H).
Qed.

(** ** What a pairing is *)

(** [r] is the result of call [tc]. *)
Definition answers (tc : ToolCall) (r : Message) : Prop :=
  isTool r = true /\ ToolCallID r = ID tc /\ mName r = Name tc.

(** Every tool turn is followed by one result per call, in order, with the
    call's id and name; its arguments are empty or valid JSON; no tool message
    stands anywhere else. *)
Inductive well_paired : list Message -> Prop :=
| wp_nil : well_paired []
| wp_plain m l : opensTurn m = false -> isTool m = false -> well_paired l -> well_paired (m :: l)
| wp_turn m results l :
    opensTurn m = true -> Forall2 answers (ToolCalls m) results ->
    Forall (fun tc => arg_broken tc = false) (ToolCalls m) ->
    well_paired l -> well_paired (m :: results ++ l).

Lemma well_paired_head m l : well_paired (m :: l) -> isTool m = false.
Proof.
  inversion 1; subst; [done|]. unfold opensTurn in *. bool_prop.
  unfold isTool. match goal with E : mRole m = _ |- _ => by rewrite E end.
Qed.

Lemma well_paired_span results l :
  Forall (fun r => isTool r = true) results -> well_paired l ->
  span isTool (results ++ l) = (results, l).
Proof.
  intros Hr Hl. apply span_exact; [done|]. intros m r ->. by eapply well_paired_head.
Qed.

Lemma answers_tools calls results :
  Forall2 answers calls results -> Forall (fun r => isTool r = true) results.
Proof. induction 1 as [|tc r ? ? [? _]]; constructor; auto. Qed.

Lemma answers_IDs calls results :
  Forall2 answers calls results -> ToolCallID <$> results = ID <$> calls.
Proof. induction 1 as [|tc r ? ? (_ & Hi & _) ? IH]; [done|]. csimpl. by rewrite Hi, IH. Qed.

(** ** A settled turn is left as it is *)

Lemma pair_answers_id calls results :
  Forall2 answers calls results -> pairToolResults calls results = results.
Proof.
  intros H. unfold pairToolResults. destruct (idDistinct calls) eqn:E.
  - apply idDistinct_spec in E as [_ Hnd]. rewrite <- (answers_IDs _ _ H) in Hnd.
    assert (forall r, r ∈ results -> map_of ToolCallID results !! ToolCallID r = Some r) as Hl
      by (intros; by apply map_of_lookup_NoDup).
    generalize dependent (map_of ToolCallID results). clear Hnd. intros m Hl.
    induction H as [|tc r calls results (_ & Hi & Hn) H IH]; [done|]. simpl.
    rewrite <- Hi, (Hl r) by set_solver. rewrite <- Hn, set_mName_id.
    rewrite IH; [done|]. intros; apply Hl; set_solver.
  - clear E. induction H as [|tc r calls results (_ & Hi & Hn) H IH]; [done|]. simpl.
    rewrite IH, <- Hi, set_ToolCallID_id, <- Hn, set_mName_id. done.
Qed.

Lemma answers_unnamed calls results :
  Forall2 answers calls results -> NoDup (ID <$> calls) ->
  forall tc r, tc ∈ calls -> r ∈ results -> ToolCallID r = ID tc -> mName r = Name tc.
Proof.
  induction 1 as [|tc0 r0 calls results (_ & Hi & Hn) H IH]; [set_solver|].
  rewrite fmap_cons, NoDup_cons. intros [Hni Hnd] tc r.
  rewrite !elem_of_cons, <- (answers_IDs _ _ H) in *.
  intros [->|Htc] [->|Hr] He; auto.
  - destruct Hni. rewrite <- He. by apply list_elem_of_fmap_2.
  - destruct Hni. rewrite <- Hi, He. rewrite (answers_IDs _ _ H). by apply list_elem_of_fmap_2.
Qed.

Lemma backfill_answers_id calls results :
  Forall2 answers calls results -> backfillToolCallNames calls results = calls.
Proof.
  intros H. unfold backfillToolCallNames. destruct (existsb _ calls); [|done]. simpl.
  destruct (idDistinct calls) eqn:E.
  - apply idDistinct_spec in E as [_ Hnd].
    rewrite <- (map_id calls) at 2. apply map_ext_in. intros tc Htc%list_elem_of_In.
    destruct (Name tc =s "") eqn:En; [|done]. bool_prop.
    destruct (map_of _ _ !! ID tc) as [r|] eqn:Em; [|done].
    apply map_of_Some in Em as [Hr Hi].
    apply list_elem_of_In, filter_In in Hr as [Hr Hne]. apply list_elem_of_In in Hr. bool_prop.
    rewrite (answers_unnamed _ _ H Hnd tc r) by done. apply set_tc_Name_id.
  - clear E. induction H as [|tc r calls results (_ & Hi & Hn) H IH]; [done|]. simpl.
    rewrite IH, Hn. destruct (Name tc =s ""); [|done]. by rewrite set_tc_Name_id.
Qed.

Lemma repair_ok_id m :
  Forall (fun tc => arg_broken tc = false) (ToolCalls m) -> repairToolCallArgs m = m.
Proof.
  intros H. unfold repairToolCallArgs.
  replace (existsb arg_broken (ToolCalls m)) with false; [done|].
  symmetry. apply existsb_false_forallb, forallb_Forall.
  eapply Forall_impl; [exact H|]. by intros ? ->.
Qed.

Lemma slow_well_paired_id l : well_paired l -> slow l = l.
Proof.
  induction 1 as [|m l H1 H2 Hl IH|m results l Ht Ha Hok Hl IH]; [done| |].
  - by rewrite slow_plain, IH.
  - rewrite slow_turn by done.
    rewrite (well_paired_span results l) by eauto using answers_tools. simpl.
    unfold turn_msg, turn_calls. rewrite backfill_answers_id, set_ToolCalls_id by done.
    by rewrite repair_ok_id, pair_answers_id, IH.
Qed.

(** ** The pass produces settled turns *)

Lemma backfill_IDs calls results : ID <$> backfillToolCallNames calls results = ID <$> calls.
Proof.
  unfold backfillToolCallNames. destruct (negb _); [done|]. destruct (idDistinct calls).
  - rewrite <- list_fmap_compose. apply list_fmap_ext. intros i tc _. simpl.
    by repeat case_match.
  - revert results. induction calls as [|tc calls IH]; intros [|r results]; simpl; try done.
    csimpl. rewrite IH. by case_match.
Qed.

Lemma backfill_length calls results : length (backfillToolCallNames calls results) = length calls.
Proof.
  rewrite <- (length_fmap ID), backfill_IDs. apply length_fmap.
Qed.

Lemma repair_keeps m :
  Forall2 (fun t t' => ID t' = ID t /\ Name t' = Name t /\ arg_broken t' = false)
    (ToolCalls m) (ToolCalls (repairToolCallArgs m)).
Proof.
  unfold repairToolCallArgs. destruct (existsb arg_broken (ToolCalls m)) eqn:E; simpl.
  - clear E. induction (ToolCalls m) as [|tc l IH]; simpl; constructor; [|done].
    destruct (Arguments tc =s "") eqn:Ea; simpl.
    { unfold arg_broken. by rewrite Ea. }
    destruct (json_valid (Arguments tc)) eqn:Ev; unfold arg_broken; simpl.
    + by rewrite Ev, andb_false_r.
    + by rewrite closeTruncatedJSON_valid, andb_false_r.
  - apply existsb_false_forallb, forallb_Forall in E.
    induction E as [|tc l H]; constructor; auto. bool_prop. auto.
Qed.

Lemma repair_length m : length (ToolCalls (repairToolCallArgs m)) = length (ToolCalls m).
Proof. symmetry. eapply Forall2_length, repair_keeps. Qed.

Lemma pair_answers calls avail :
  Forall (fun r => isTool r = true) avail -> Forall2 answers calls (pairToolResults calls avail).
Proof.
  intros Ha. unfold pairToolResults. destruct (idDistinct calls).
  - induction calls as [|tc calls IH]; simpl; constructor; [|done].
    destruct (map_of _ _ !! ID tc) as [r|] eqn:E; [|done].
    apply map_of_Some in E as [Hr Hi]. unfold answers. simpl.
    rewrite Forall_forall in Ha. split; [|done]. exact (Ha r Hr).
  - revert avail Ha. induction calls as [|tc calls IH]; intros avail Ha; [constructor|].
    destruct Ha as [|r avail Hr Ha]; simpl; constructor; auto; done.
Qed.

Lemma turn_msg_opens m results : opensTurn m = true -> opensTurn (turn_msg m results) = true.
Proof.
  unfold opensTurn, turn_msg. intros H. bool_prop. rewrite repair_length. simpl.
  unfold turn_calls. rewrite backfill_length. apply andb_true_intro.
  split; [|by apply Nat.ltb_lt]. apply String.eqb_eq.
  unfold repairToolCallArgs. by case_match.
Qed.

Lemma turn_answers m results :
  Forall (fun r => isTool r = true) results ->
  Forall2 answers (ToolCalls (turn_msg m results)) (pairToolResults (turn_calls m results) results)
  /\ Forall (fun tc => arg_broken tc = false) (ToolCalls (turn_msg m results)).
Proof.
  intros Hr. pose proof (pair_answers (turn_calls m results) results Hr) as Ha.
  pose proof (repair_keeps (set_ToolCalls (turn_calls m results) m)) as Hk.
  fold (turn_msg m results) in Hk. simpl in Hk. revert Hk Ha.
  generalize (pairToolResults (turn_calls m results) results).
  generalize (ToolCalls (turn_msg m results)). generalize (turn_calls m results).
  intros calls calls' rs Hk. revert rs.
  induction Hk as [|t t' calls calls' (Hi & Hn & Hb) Hk IH]; intros rs Ha; inversion Ha; subst.
  - split; constructor.
  - destruct (IH _ ltac:(done)). split; constructor; auto.
    unfold answers in *. by rewrite Hi, Hn.
Qed.

Lemma slow_well_paired l : well_paired (slow l).
Proof.
  induction l as [|m rest Ht IH|m rest Ht IH] using turns_ind; [constructor| |].
  - rewrite slow_turn by done. destruct (turn_answers m (span isTool rest).1) as [Ha Hb].
    { apply span_Forall. }
    apply wp_turn; auto using turn_msg_opens.
  - destruct (isTool m) eqn:E; [by rewrite slow_tool|]. rewrite slow_plain by done. by constructor.
Qed.

Lemma results_match_answers calls results :
  Forall (fun r => isTool r = true) results -> length calls = length results ->
  results_match calls results = true -> Forall2 answers calls results.
Proof.
  intros Hr. revert calls. induction Hr as [|r results Hr Hrs IH]; intros [|tc calls]; simpl; try done.
  intros [= Hl] H. bool_prop. constructor; auto. done.
Qed.

Lemma fast_well_paired l : fast l = true -> well_paired l.
Proof.
  induction l as [|m rest Ht IH|m rest Ht IH] using turns_ind; [constructor| |].
  - rewrite fast_turn by done. unfold toolTurnWellFormed. intros H. bool_prop.
    rewrite (span_app isTool rest). apply wp_turn; auto.
    + apply results_match_answers; auto using span_Forall.
    + unfold needsArgRepair in *.
      match goal with E : existsb _ _ = false |- _ => apply existsb_false_forallb, forallb_Forall in E end.
      eapply Forall_impl; [done|]. simpl. intros. by bool_prop.
  - rewrite fast_other by done. intros H. bool_prop. constructor; auto.
Qed.

Lemma Normalize_well_paired msgs : well_paired (NormalizeMessages msgs).
Proof.
  unfold NormalizeMessages, tryFastPath. fold (fast msgs).
  destruct (fast msgs) eqn:E; [by apply fast_well_paired|apply slow_well_paired].
Qed.

(** What a pass must not change: the messages other than tool results, in
    order, up to the names and arguments of their calls. *)
Definition erase (m : Message) : Message :=
  set_ToolCalls (map (fun t => set_tc_Name "" (set_tc_Arguments "" t)) (ToolCalls m)) m.
Definition conversation (msgs : list Message) : list Message :=
  map erase (List.filter (fun m => negb (isTool m)) msgs).

Lemma backfill_erase calls results :
  map (fun t => set_tc_Name "" (set_tc_Arguments "" t)) (backfillToolCallNames calls results) =
  map (fun t => set_tc_Name "" (set_tc_Arguments "" t)) calls.
Proof.
  unfold backfillToolCallNames. destruct (negb _); [done|]. destruct (idDistinct calls).
  - rewrite map_map. apply map_ext. intros tc. by repeat case_match.
  - revert results. induction calls as [|tc calls IH]; intros [|r results]; simpl; try done.
    rewrite IH. by case_match.
Qed.

Lemma repair_erase m : erase (repairToolCallArgs m) = erase m.
Proof.
  unfold repairToolCallArgs. destruct (negb _); [done|]. unfold erase, set_ToolCalls. simpl. f_equal.
  rewrite map_map. apply map_ext. intros tc. by case_match.
Qed.

Lemma turn_erase m results : erase (turn_msg m results) = erase m.
Proof.
  unfold turn_msg. rewrite repair_erase. unfold erase, set_ToolCalls. simpl. f_equal. apply backfill_erase.
Qed.

Lemma filter_tools results :
  Forall (fun r => isTool r = true) results ->
  List.filter (fun m => negb (isTool m)) results = [].
Proof. induction 1 as [|r results H ? IH]; simpl; [done|]. by rewrite H. Qed.

Lemma opens_not_tool m : opensTurn m = true -> isTool m = false.
Proof. unfold opensTurn, isTool. intros H. bool_prop. by rewrite H. Qed.

Lemma slow_conversation l : conversation (slow l) = conversation l.
Proof.
  unfold conversation.
  induction l as [|m rest Ht IH|m rest Ht IH] using turns_ind; [done| |].
  - rewrite slow_turn by done. simpl.
    rewrite !opens_not_tool by auto using turn_msg_opens. simpl. rewrite turn_erase. f_equal.
    transitivity (map erase (List.filter (fun x => negb (isTool x))
                    ((span isTool rest).1 ++ (span isTool rest).2))); [|by rewrite <- span_app].
    rewrite !List.filter_app. rewrite (filter_tools (span isTool rest).1) by apply span_Forall.
    rewrite filter_tools; [exact IH|]. eapply answers_tools, pair_answers, span_Forall.
  - destruct (isTool m) eqn:E.
    + rewrite slow_tool by done. simpl. by rewrite E.
    + rewrite slow_plain by done. simpl. rewrite E. simpl. by rewrite IH.
Qed.

(** * Theorems *)

(** C4: after [NormalizeMessages] every assistant message with tool calls is
    followed by exactly one tool result per call, in call order, carrying the
    call's id and name; its arguments are empty or valid JSON; no other tool
    message remains. *)
Theorem NormalizeMessages_well_paired msgs : well_paired (NormalizeMessages msgs).
Proof. apply Normalize_well_paired. Qed.

(** normalizing twice is normalizing once. *)
Theorem NormalizeMessages_idempotent msgs :
  NormalizeMessages (NormalizeMessages msgs) = NormalizeMessages msgs.
Proof.
  unfold NormalizeMessages at 1, tryFastPath. destruct (fast_ok _ _); [done|].
  apply slow_well_paired_id, Normalize_well_paired.
Qed.

(** C26: the fast path is an optimization: when it accepts a conversation it
    returns it unchanged and the general loop would return the same. *)
Theorem tryFastPath_equiv msgs r :
  tryFastPath msgs = Some r -> r = msgs /\ slow_loop (length msgs) msgs = msgs.
Proof.
  unfold tryFastPath. fold (fast msgs) (slow msgs). destruct (fast msgs) eqn:E; [|done].
  intros [= <-]. auto using slow_well_paired_id, fast_well_paired.
Qed.

(** C21: normalization neither drops, adds nor reorders the messages that are
    not tool results; of those it changes only the names and the arguments of
    tool calls. *)
Theorem NormalizeMessages_conversation msgs :
  conversation (NormalizeMessages msgs) = conversation msgs.
Proof.
  unfold NormalizeMessages. destruct (tryFastPath msgs) as [r|] eqn:E.
  - unfold tryFastPath in E. destruct (fast_ok _ _); [|done]. by injection E as <-.
  - apply slow_conversation.
Qed.

(** with distinct call ids, a result whose id is that of a call is kept,
    under the call's name, whatever the order the results arrived in. *)
Theorem pairToolResults_keeps calls avail tc r :
  idDistinct calls = true -> NoDup (ToolCallID <$> avail) ->
  tc ∈ calls -> r ∈ avail -> ToolCallID r = ID tc ->
  set_mName (Name tc) r ∈ pairToolResults calls avail.
Proof.
  intros Hd Hnd Htc Hr Hi. unfold pairToolResults. rewrite Hd.
  apply list_elem_of_In, in_map_iff. exists tc. split; [|by apply list_elem_of_In].
  by rewrite <- Hi, (map_of_lookup_NoDup ToolCallID).
Qed.

(** [closeTruncatedJSON] returns valid JSON unchanged. *)
Theorem closeTruncatedJSON_valid_id s : json_valid s = true -> closeTruncatedJSON s = s.
Proof. apply close_valid_id. Qed.

(** a JSON text cut inside a string value, in or after a number, after a
    complete value or right after an opening bracket is completed: the result
    extends the text and is valid JSON. *)
Theorem closeTruncatedJSON_completes s st stk :
  scan stateBeginValue [] s = Some (st, stk) -> cut_point st stk = true ->
  exists t, closeTruncatedJSON s = s +:+ t /\ json_valid (s +:+ t) = true.
Proof. apply close_completes. Qed.

(** ** Witnesses *)

Definition tc1 : ToolCall := mkToolCall "a" "function" "read" "".
Definition tc2 : ToolCall := mkToolCall "b" "function" "write" "[1]".
Definition res (i n c : string) : Message := mkMessage RoleTool c "" [] i n [].
Definition asst (l : list ToolCall) : Message := mkMessage RoleAssistant "" "" l "" "" [].
Definition user (c : string) : Message := mkMessage RoleUser c "" [] "" "" [].

Definition good : list Message := [user "hi"; asst [tc1; tc2]; res "a" "read" "1"; res "b" "write" "2"].

Lemma tryFastPath_equiv_witness :
  tryFastPath good = Some good /\ good = good /\ slow_loop (length good) good = good.
Proof. split; [reflexivity|]. apply (tryFastPath_equiv good good). reflexivity. Defined.

Lemma pairToolResults_keeps_witness :
  set_mName "read" (res "a" "" "1") ∈ pairToolResults [tc1; tc2] [res "b" "write" "2"; res "a" "" "1"].
Proof.
  apply (pairToolResults_keeps [tc1; tc2] [res "b" "write" "2"; res "a" "" "1"] tc1 (res "a" "" "1"));
    [vm_compute; reflexivity|..|reflexivity].
  - apply (bool_decide_unpack _). vm_compute. exact I.
  - apply (bool_decide_unpack _). vm_compute. exact I.
  - apply list_elem_of_In. simpl. tauto.
Defined.

Lemma closeTruncatedJSON_valid_id_witness : closeTruncatedJSON "[1, {}]" = "[1, {}]".
Proof. apply (closeTruncatedJSON_valid_id "[1, {}]"). vm_compute. reflexivity. Defined.

Lemma closeTruncatedJSON_completes_witness :
  exists t, closeTruncatedJSON "[1, [2" = "[1, [2" +:+ t /\ json_valid ("[1, [2" +:+ t) = true.
Proof.
  apply (closeTruncatedJSON_completes "[1, [2" state1 [parseArrayValue; parseArrayValue]);
    vm_compute; reflexivity.
Defined.

(** ** Examples from the repository's tests *)

Example normalize_orphan : NormalizeMessages [user "hi"; res "x" "y" "z"] = [user "hi"].
Proof. reflexivity. Qed.

Example normalize_missing :
  NormalizeMessages [asst [tc1; tc2]; res "b" "write" "2"; user "go"] =
  [asst [tc1; tc2]; interrupted tc1; res "b" "write" "2"; user "go"].
Proof. vm_compute. reflexivity. Qed.

Example normalize_backfill :
  NormalizeMessages [asst [set_tc_Name "" tc1]; res "a" "read" "1"] =
  [asst [tc1]; res "a" "read" "1"].
Proof. vm_compute. reflexivity. Qed.

Example close_key_fallback : closeTruncatedJSON (String "{" (String dquote "ke")) = "{}".
Proof. vm_compute. reflexivity. Qed.
