(* ===== verification/Think.v ===== *)
(** * Inline reasoning

    [protocol/think.go]: the splitter that separates [<think>...</think>]
    reasoning from visible text while a response streams in. *)
From stdpp Require Import base tactics list strings.
From Stdlib Require Import ZArith Lia.
From S2P Require Import Prelude GoStrings.

Inductive thinkState := thinkProbe | thinkInside | thinkPassthrough.

#[export] Instance thinkState_eq_dec : EqDecision thinkState.
Proof. solve_decision. Defined.

(** [buf] is the content of the [strings.Builder]. *)
Record thinkSplitter := mkThink { state : thinkState; buf : string; depth : Z }.

(** The zero value. *)
Definition think_init : thinkSplitter := mkThink thinkProbe "" 0.

Definition close_tag : string := "</think>".

Definition extractThinkTag (text : string) : string :=
  if HasPrefix text "<think>" then "<think>"
  else if HasPrefix text "<think " then
    let rest := str_drop (String.length "<think ") text in
    match Index rest ">" with
    | Some e => str_take (String.length text - String.length rest + e + 1) text
    | None => ""
    end
  else "".

(** [extractThink], which nothing calls: the text before the closing tag, or the
    text is buffered. *)
Definition extractThink (s : thinkSplitter) (text : string) : thinkSplitter * string :=
  let '(before, _, ok) := Cut text close_tag in
  if ok : bool then (s, before) else (mkThink (state s) (buf s +:+ text) (depth s), "").

(** The part [push] and [extractAndEmit] share when the closing tag is found:
    [depth--], leave the thought when it reaches 0, emit buffer and text. *)
Definition close_thought (s : thinkSplitter) (before : string) : thinkSplitter * string :=
  let d := (depth s - 1)%Z in
  let st := if (d =? 0)%Z then thinkProbe else state s in
  if (0 <? String.length (buf s))%nat
  then (mkThink st "" d, buf s +:+ before)
  else (mkThink st (buf s) d, before).

(** [extractAndEmit]: the new splitter, [*thought] and [*visible]. *)
Definition extractAndEmit (s : thinkSplitter) (text thought visible : string)
  : thinkSplitter * string * string :=
  match Cut text close_tag with
  | (before, after, true) =>
      let '(s', th) := close_thought s before in (s', th, visible +:+ after)
  | (_, _, false) => (mkThink (state s) (buf s +:+ text) (depth s), thought, visible)
  end.

(** [push]: the new splitter, the thought and the visible text. *)
Definition push (s : thinkSplitter) (text : string) : thinkSplitter * string * string :=
  match state s with
  | thinkProbe =>
      let tag := extractThinkTag text in
      if tag <>s "" then
        match Cut text tag with
        | (before, after, ok) =>
            let s1 := mkThink thinkInside (buf s) (depth s + 1) in
            if ok then extractAndEmit s1 after "" before else (s1, "", before)
        end
      else match Index text "<think" with
           | Some idx =>
               let before := str_take idx text in
               let rest := str_drop idx text in
               let s1 := mkThink thinkInside (buf s) (depth s + 1) in
               let inner := str_drop (String.length "<think") rest in
               if HasPrefix inner ">" then extractAndEmit s1 (str_drop 1 inner) "" before
               else (mkThink thinkInside (buf s1 +:+ inner) (depth s1), "", before)
           | None => (mkThink thinkPassthrough (buf s) (depth s), "", text)
           end
  | thinkInside =>
      match Cut text close_tag with
      | (before, after, true) => let '(s', th) := close_thought s before in (s', th, after)
      | (_, _, false) => (mkThink (state s) (buf s +:+ text) (depth s), "", "")
      end
  | thinkPassthrough => (s, "", text)
  end.

(** [flush] *)
Definition flush (s : thinkSplitter) : thinkSplitter * string * string :=
  (mkThink thinkProbe (if (0 <? String.length (buf s))%nat then "" else buf s) 0,
   if (0 <? String.length (buf s))%nat then buf s else "", "").

(** A stream: the pushes of a list of texts, the thoughts and the visible text
    each in order. *)
Fixpoint pushes (s : thinkSplitter) (texts : list string) : thinkSplitter * string * string :=
  match texts with
  | [] => (s, "", "")
  | t :: rest =>
      let '(s1, th, vis) := push s t in
      let '(s2, th', vis') := pushes s1 rest in (s2, th +:+ th', vis +:+ vis')
  end.

(** ** Invariant *)

(** The splitter is inside a thought exactly when the depth is 1, the depth is
    0 otherwise, and text is only buffered inside a thought. *)
Definition think_inv (s : thinkSplitter) : Prop :=
  match state s with
  | thinkInside => depth s = 1%Z
  | _ => depth s = 0%Z /\ buf s = ""
  end.

Lemma str_length_0 s : (0 <? String.length s)%nat = false -> s = "".
Proof. by destruct s. Qed.

Lemma close_thought_inv s before s' th :
  think_inv s -> state s = thinkInside -> close_thought s before = (s', th) ->
  think_inv s' /\ buf s' = "" /\ th = buf s +:+ before.
Proof.
  unfold think_inv, close_thought. intros Hi Hs. rewrite Hs in Hi. rewrite Hi. simpl.
  destruct (0 <? String.length (buf s))%nat eqn:E; intros [= <- <-]; simpl; [done|].
  by rewrite (str_length_0 _ E).
Qed.

Lemma extract_inv s text th vis s' th' vis' :
  think_inv s -> state s = thinkInside -> extractAndEmit s text th vis = (s', th', vis') ->
  think_inv s'.
Proof.
  unfold extractAndEmit. intros Hi Hs. destruct (Cut text close_tag) as [[b a] []].
  - destruct (close_thought s b) as [s1 th1] eqn:E. intros [= <- <- <-].
    by eapply close_thought_inv in E as [? _].
  - intros [= <- <- <-]. unfold think_inv in *. simpl. by rewrite Hs in *.
Qed.

Lemma push_keeps_inv s text s' th vis :
  think_inv s -> push s text = (s', th, vis) -> think_inv s'.
Proof.
  intros Hi. unfold push. destruct (state s) eqn:Hs.
  - unfold think_inv in Hi. rewrite Hs in Hi. destruct Hi as [Hd Hb].
    assert (think_inv (mkThink thinkInside (buf s) (depth s + 1))) as H1
      by (unfold think_inv; simpl; lia).
    destruct (extractThinkTag text <>s "").
    + destruct (Cut text (extractThinkTag text)) as [[b a] []].
      * by apply extract_inv.
      * by intros [= <- <- <-].
    + destruct (Index text "<think").
      * case_match; [by apply extract_inv|]. intros [= <- <- <-]. exact H1.
      * by intros [= <- <- <-].
  - destruct (Cut text close_tag) as [[b a] []].
    + destruct (close_thought s b) as [s1 th1] eqn:E. intros [= <- <- <-].
      by eapply close_thought_inv in E as [? _].
    + intros [= <- <- <-]. unfold think_inv in *. simpl. rewrite Hs in *. done.
  - by intros [= <- <- <-].
Qed.

(** ** Streams *)

Definition str_concat (l : list string) : string := foldr String.append "" l.

Lemma str_concat_app a b : str_concat (a ++ b) = str_concat a +:+ str_concat b.
Proof. induction a as [|x a IH]; simpl; [done|]. by rewrite IH, str_app_assoc. Qed.

Lemma pushes_app s a b :
  pushes s (a ++ b) =
  let '(s1, th, vis) := pushes s a in
  let '(s2, th', vis') := pushes s1 b in (s2, th +:+ th', vis +:+ vis').
Proof.
  revert s. induction a as [|t a IH]; intros s; simpl.
  - by destruct (pushes s b) as [[? ?] ?].
  - destruct (push s t) as [[s1 th1] v1]. rewrite IH.
    destruct (pushes s1 a) as [[s2 th2] v2]. destruct (pushes s2 b) as [[s3 th3] v3].
    by rewrite !str_app_assoc.
Qed.

Lemma Cut_absent s sep : Contains s sep = false -> Cut s sep = (s, "", false).
Proof. unfold Contains, Cut. by destruct (Index s sep). Qed.

(** Inside a thought, chunks without a closing tag are buffered. *)
Lemma pushes_inside s texts :
  state s = thinkInside ->
  Forall (fun t => Contains t close_tag = false) texts ->
  pushes s texts = (mkThink thinkInside (buf s +:+ str_concat texts) (depth s), "", "").
Proof.
  intros Hs H. revert s Hs. induction H as [|t texts Ht H IH]; intros s Hs; simpl.
  - rewrite str_app_nil_r. destruct s. simpl in *. by subst.
  - unfold push. rewrite Hs, (Cut_absent t) by done.
    rewrite IH by done. simpl. by rewrite str_app_assoc.
Qed.

Lemma push_open r1 :
  Contains r1 close_tag = false ->
  push think_init ("<think>" +:+ r1) = (mkThink thinkInside r1 1, "", "").
Proof.
  intros H. unfold push. simpl.
  replace (extractThinkTag _) with "<think>" by (by destruct r1). simpl.
  replace (Cut _ "<think>") with ("", r1, true) by (by destruct r1).
  unfold extractAndEmit. by rewrite (Cut_absent r1).
Qed.

Lemma Index_app_self a sep b :
  Index (a +:+ sep +:+ b) sep = Some (String.length a) ->
  Cut (a +:+ sep +:+ b) sep = (a, b, true).
Proof.
  intros H. unfold Cut. rewrite H. rewrite str_take_app.
  rewrite <- str_app_assoc, <- str_length_app, str_drop_app. done.
Qed.

Lemma pushes_passthrough s texts :
  state s = thinkPassthrough -> pushes s texts = (s, "", str_concat texts).
Proof.
  intros Hs. induction texts as [|u texts IH]; [done|]. simpl. unfold push. by rewrite Hs, IH.
Qed.

(** ** Reachable splitters *)

Inductive reachable : thinkSplitter -> Prop :=
| reach_init : reachable think_init
| reach_push s t s' th vis : reachable s -> push s t = (s', th, vis) -> reachable s'
| reach_flush s s' th vis : reachable s -> flush s = (s', th, vis) -> reachable s'.

(** * Theorems *)

(** in every state a stream can reach, the splitter is inside a thought
    exactly when its depth is 1, its depth is 0 otherwise, and it holds back
    text only inside a thought. *)
Theorem think_reachable_inv s : reachable s -> think_inv s.
Proof.
  induction 1 as [|s t s' th vis _ IH H|s s' th vis _ IH H]; [done|by eapply push_keeps_inv|].
  unfold flush in H. injection H as <- _ _. unfold think_inv. simpl. split; [done|].
  destruct (0 <? _)%nat eqn:E; [done|by apply str_length_0].
Qed.

(** reasoning that starts with [<think>] and spans any number of chunks is
    reassembled exactly, the text after the closing tag is visible, and the
    splitter is ready for the next one, when no chunk but the last holds a
    closing tag. *)
Theorem think_reassembles r1 rs rn vis :
  Contains r1 close_tag = false ->
  Forall (fun t => Contains t close_tag = false) rs ->
  Index (rn +:+ close_tag +:+ vis) close_tag = Some (String.length rn) ->
  pushes think_init (("<think>" +:+ r1) :: rs ++ [rn +:+ close_tag +:+ vis]) =
  (think_init, r1 +:+ str_concat rs +:+ rn, vis).
Proof.
  intros H1 Hs Hn. cbn [pushes]. rewrite push_open by done.
  rewrite pushes_app, pushes_inside by done. cbn [pushes push state buf depth].
  rewrite (Index_app_self _ _ _ Hn). unfold close_thought. simpl.
  destruct (0 <? _)%nat eqn:E; simpl.
  - by rewrite !str_app_nil_r, str_app_assoc.
  - apply str_length_0 in E. rewrite <- str_app_assoc, E, !str_app_nil_r. done.
Qed.

(** text in which no chunk holds an opening tag passes through unchanged
    and nothing is taken for reasoning. *)
Theorem think_transparent texts :
  Forall (fun t => Contains t "<think" = false) texts ->
  exists s, pushes think_init texts = (s, "", str_concat texts).
Proof.
  destruct 1 as [|t texts' Ht H]; [by eexists|]. simpl. unfold push at 1. simpl.
  pose proof (Contains_prefix _ _ Ht) as Hp.
  assert (extractThinkTag t = "") as ->.
  { unfold extractThinkTag.
    assert (forall x, HasPrefix t ("<think" +:+ x) = false) as Hq.
    { intros x. apply not_true_is_false. intros Hx. apply HasPrefix_spec in Hx.
      rewrite Hx, str_app_assoc, HasPrefix_app in Hp. done. }
    pose proof (Hq ">") as H1. pose proof (Hq " ") as H2. simpl String.append in H1, H2.
    by rewrite H1, H2. }
  simpl. replace (Index t "<think") with (@None nat)
    by (unfold Contains in Ht; by destruct (Index t "<think")).
  rewrite pushes_passthrough by done. by eexists.
Qed.

(** a closing tag that arrives split over two chunks is not recognized:
    all the text that follows it is held back and ends up as reasoning, and
    nothing is visible. *)
Theorem think_split_close_tag_hides_answer r1 rs :
  Contains r1 close_tag = false ->
  Forall (fun t => Contains t close_tag = false) rs ->
  exists s, pushes think_init (("<think>" +:+ r1) :: rs) = (s, "", "")
         /\ flush s = (think_init, r1 +:+ str_concat rs, "").
Proof.
  intros H1 Hs. cbn [pushes]. rewrite push_open, pushes_inside by done. simpl.
  eexists. split; [done|]. unfold flush. simpl.
  destruct (0 <? _)%nat eqn:E; [done|]. by rewrite (str_length_0 _ E).
Qed.

(** ** Witnesses *)

Lemma think_reachable_inv_witness : think_inv think_init.
Proof. apply (think_reachable_inv think_init). constructor. Defined.

Lemma think_reassembles_witness :
  pushes think_init (("<think>" +:+ "let ") :: ["me "] ++ ["see" +:+ close_tag +:+ "42"]) =
  (think_init, "let " +:+ str_concat ["me "] +:+ "see", "42").
Proof.
  apply (think_reassembles "let " ["me "] "see" "42"); [reflexivity| |reflexivity].
  constructor; [reflexivity|constructor].
Defined.

Lemma think_transparent_witness :
  exists s, pushes think_init ["a"; "b<thin"; "k>c"] = (s, "", str_concat ["a"; "b<thin"; "k>c"]).
Proof.
  apply (think_transparent ["a"; "b<thin"; "k>c"]). repeat constructor.
Defined.

Lemma think_split_close_tag_hides_answer_witness :
  exists s, pushes think_init (("<think>" +:+ "why") :: ["</thi"; "nk>the answer"]) = (s, "", "")
         /\ flush s = (think_init, "why" +:+ str_concat ["</thi"; "nk>the answer"], "").
Proof.
  apply (think_split_close_tag_hides_answer "why" ["</thi"; "nk>the answer"]);
    [reflexivity|repeat constructor].
Defined.

Example think_one_chunk :
  push think_init "<think>why</think>42" = (think_init, "why", "42").
Proof. reflexivity. Qed.

(** A tag with attributes that does not start the chunk keeps its attributes
    and its closing tag in the buffer. *)
Example think_mid_attr :
  push think_init "ok <think x>why</think>42" =
  (mkThink thinkInside " x>why</think>42" 1, "", "ok ").
Proof. reflexivity. Qed.
