(* ===== verification/Breaker.v ===== *)
(** * Circuit breaker and vendor health

    [CircuitBreaker] of [protocol/types.go], [protocol/health_check.go] and
    [protocol/health_manager.go]. A breaker is shared by pointer between the
    vendor map of the retry loop and the health manager, so breakers live in a
    heap. Every operation runs under its mutex and is one atomic step; the
    clock is an argument. *)
From stdpp Require Import base tactics list gmap strings pretty.
From Stdlib Require Import ZArith Lia.
From S2P Require Import Prelude GoStrings Types.

(** ** The breaker *)

Inductive CircuitBreakerState := Closed | Open_ | HalfOpen.

#[export] Instance CircuitBreakerState_eq_dec : EqDecision CircuitBreakerState.
Proof. solve_decision. Defined.

Record CircuitBreakerOptions := mkCBOptions {
  Timeout_ : Z; HalfOpenMaxCalls : Z; CheckHTTPCodes : list Z;
  CheckErrors : list gerror; FailureThreshold : Z }.

Record CircuitBreaker := mkCB {
  failureThreshold : Z; lastFailure : Z; cb_state : CircuitBreakerState;
  cb_options : CircuitBreakerOptions }.

Definition NewCircuitBreaker (opts : CircuitBreakerOptions) : CircuitBreaker :=
  let n := if (FailureThreshold opts <=? 0)%Z then 5%Z else FailureThreshold opts in
  let opts := mkCBOptions (Timeout_ opts) (HalfOpenMaxCalls opts) (CheckHTTPCodes opts)
                          (CheckErrors opts) n in
  mkCB n 0 Closed opts.

Definition isFailure (cb : CircuitBreaker) (err : option gerror) : bool :=
  match err with
  | None => false
  | Some e =>
      if existsb (errors_Is e) (CheckErrors (cb_options cb)) then true
      else
        if (0 <? length (CheckHTTPCodes (cb_options cb)))%nat
           && match as_AuthError e with
              | Some status => existsb (Z.eqb status) (CheckHTTPCodes (cb_options cb))
              | None => false
              end
        then true else true
  end.

(** [Check(err)] at time [now]: the breaker after it and the answer. *)
Definition cb_Check (cb : CircuitBreaker) (now : Z) (err : option gerror) : CircuitBreaker * bool :=
  match cb_state cb with
  | Closed =>
      if isFailure cb err then
        let n := (failureThreshold cb - 1)%Z in
        if (n <=? 0)%Z then (mkCB n now Open_ (cb_options cb), false)
        else (mkCB n (lastFailure cb) Closed (cb_options cb), true)
      else (cb, true)
  | Open_ =>
      if (Timeout_ (cb_options cb) <=? now - lastFailure cb)%Z
      then (mkCB (failureThreshold cb) (lastFailure cb) HalfOpen (cb_options cb), true)
      else (cb, false)
  | HalfOpen =>
      if isFailure cb err
      then (mkCB (failureThreshold cb) now Open_ (cb_options cb), false)
      else (cb, true)
  end.

Definition cb_Success (cb : CircuitBreaker) : CircuitBreaker :=
  let cb1 := match cb_state cb with
             | HalfOpen => mkCB (FailureThreshold (cb_options cb)) (lastFailure cb) Closed (cb_options cb)
             | _ => cb
             end in
  match cb_state cb1 with
  | Closed => mkCB (FailureThreshold (cb_options cb1)) (lastFailure cb1) Closed (cb_options cb1)
  | _ => cb1
  end.

(** ** Health *)

Inductive HealthStatus := HealthUnknown | HealthHealthy | HealthUnhealthy | HealthCircuitOpen.

#[export] Instance HealthStatus_eq_dec : EqDecision HealthStatus.
Proof. solve_decision. Defined.

(** The fields of [HealthChecker] other than its HTTP client, lock and stop
    channel; [hc_breaker] is a pointer into the heap of breakers. *)
Record HealthChecker := mkHC {
  hc_vendor : Vendor; endpoint : string; interval : Z; hc_timeout : Z;
  unhealthyThreshold : Z; status : HealthStatus; lastCheck : Z;
  lastErr : option gerror; consecutiveFailures : Z; hc_breaker : option nat }.

Definition NewHealthChecker (v : Vendor) (ep : string) (itv : Z) (br : option nat) : HealthChecker :=
  mkHC v ep itv (5 * Second) 3 HealthUnknown 0 None 0 br.

(** The package variables of the retry layer: the heap of breakers, the map
    [vendorCircuitBreaker] and the two maps of [vendorHealthManager]. *)
Record hworld := mkW {
  heap : gmap nat CircuitBreaker;
  vendorCircuitBreaker : gmap Vendor nat;
  checkers : gmap Vendor HealthChecker;
  hm_breakers : gmap Vendor (option nat) }.

(** Method calls through a breaker pointer. *)
Definition heap_Check (w : hworld) (p : nat) (now : Z) (err : option gerror) : hworld * bool :=
  match heap w !! p with
  | Some cb => let '(cb', b) := cb_Check cb now err in
               (mkW (<[p := cb']> (heap w)) (vendorCircuitBreaker w) (checkers w) (hm_breakers w), b)
  | None => (w, true)
  end.

Definition heap_Success (w : hworld) (p : nat) : hworld :=
  mkW (alter cb_Success p (heap w)) (vendorCircuitBreaker w) (checkers w) (hm_breakers w).

Definition set_checkers (w : hworld) (m : gmap Vendor HealthChecker) : hworld :=
  mkW (heap w) (vendorCircuitBreaker w) m (hm_breakers w).

Definition recordSuccess (w : hworld) (v : Vendor) (now : Z) : hworld :=
  match checkers w !! v with
  | Some h =>
      let h' := mkHC (hc_vendor h) (endpoint h) (interval h) (hc_timeout h) (unhealthyThreshold h)
                     HealthHealthy now None 0 (hc_breaker h) in
      let w' := set_checkers w (<[v := h']> (checkers w)) in
      match hc_breaker h with Some p => heap_Success w' p | None => w' end
  | None => w
  end.

Definition recordFailure (w : hworld) (v : Vendor) (now : Z) (err : gerror) : hworld :=
  match checkers w !! v with
  | Some h =>
      let h' := mkHC (hc_vendor h) (endpoint h) (interval h) (hc_timeout h) (unhealthyThreshold h)
                     HealthUnhealthy now (Some err) (consecutiveFailures h + 1) (hc_breaker h) in
      let w' := set_checkers w (<[v := h']> (checkers w)) in
      match hc_breaker h with Some p => (heap_Check w' p now (Some err)).1 | None => w' end
  | None => w
  end.

(** [check]: what the probe request gave, an error (building or sending it) or
    a status code. *)
Definition check (w : hworld) (v : Vendor) (now : Z) (probe : gerror + Z) : hworld :=
  match probe with
  | inl err => recordFailure w v now err
  | inr code =>
      if ((code =? 200) || (code =? 401))%Z then recordSuccess w v now
      else recordFailure w v now (EMsg ("unexpected status: " +:+ pretty code))
  end.

(** [HealthManager.Register]; starting the probe goroutine is the [check] steps
    that follow. *)
Definition hm_Register (w : hworld) (v : Vendor) (ep : string) (itv : Z) (br : option nat) : hworld :=
  match checkers w !! v with
  | Some _ => w
  | None => mkW (heap w) (vendorCircuitBreaker w)
                (<[v := NewHealthChecker v ep itv br]> (checkers w))
                (<[v := br]> (hm_breakers w))
  end.

Definition GetStatus (w : hworld) (v : Vendor) (now : Z) : hworld * HealthStatus :=
  match checkers w !! v with
  | None => (w, HealthUnknown)
  | Some h =>
      match status h with
      | HealthUnhealthy =>
          match hm_breakers w !! v with
          | Some (Some p) =>
              let '(w', ok) := heap_Check w p now None in
              (w', if ok then HealthUnhealthy else HealthCircuitOpen)
          | _ => (w, HealthUnhealthy)
          end
      | s => (w, s)
      end
  end.

Definition setCheckerStatus (w : hworld) (v : Vendor) (s : HealthStatus) : hworld :=
  match checkers w !! v with
  | Some h => set_checkers w (<[v := mkHC (hc_vendor h) (endpoint h) (interval h) (hc_timeout h)
                (unhealthyThreshold h) s (lastCheck h) (lastErr h) (consecutiveFailures h)
                (hc_breaker h)]> (checkers w))
  | None => w
  end.

(** * Properties *)

(** ** Traces of breaker operations *)

Inductive cb_op := OpCheck (now : Z) (err : option gerror) | OpSuccess.

Definition cb_exec (cb : CircuitBreaker) (o : cb_op) : CircuitBreaker * option bool :=
  match o with
  | OpCheck now err => let '(cb', b) := cb_Check cb now err in (cb', Some b)
  | OpSuccess => (cb_Success cb, None)
  end.

(** The answers of a sequence of operations (a [Success] has none). *)
Fixpoint cb_run (cb : CircuitBreaker) (ops : list cb_op) : CircuitBreaker * list bool :=
  match ops with
  | [] => (cb, [])
  | o :: rest =>
      let '(cb1, a) := cb_exec cb o in
      let '(cb2, l) := cb_run cb1 rest in
      (cb2, match a with Some b => b :: l | None => l end)
  end.

(** Closed breakers have failures left, and never more than configured. *)
Definition cb_inv (cb : CircuitBreaker) : Prop :=
  (0 < FailureThreshold (cb_options cb))%Z
  /\ (failureThreshold cb <= FailureThreshold (cb_options cb))%Z
  /\ (cb_state cb = Closed -> (0 < failureThreshold cb)%Z)
  /\ (cb_state cb <> Closed -> (failureThreshold cb <= 0)%Z).

Lemma isFailure_iff cb err : isFailure cb err = match err with Some _ => true | None => false end.
Proof. destruct err; simpl; [|done]. by repeat case_match. Qed.

#[export] Hint Rewrite isFailure_iff : go_rw.

Lemma cb_Check_inv cb now err : cb_inv cb -> cb_inv (cb_Check cb now err).1.
Proof.
  intros (H1 & H2 & H3 & H4). unfold cb_Check. rewrite isFailure_iff.
  destruct (cb_state cb) eqn:Hs, err; go_cases; unfold cb_inv; simpl; rewrite ?Hs;
    repeat split; intros; try done; try lia; try (specialize (H3 eq_refl); lia);
    try (apply H4; congruence).
Qed.

Lemma cb_Success_inv cb : cb_inv cb -> cb_inv (cb_Success cb).
Proof.
  intros (H1 & H2 & H3 & H4). unfold cb_Success.
  destruct (cb_state cb) eqn:Hs; simpl; rewrite ?Hs; unfold cb_inv; simpl; rewrite ?Hs;
    repeat split; intros; try done; try lia; try (apply H4; congruence).
Qed.

Lemma cb_options_Check cb now err : cb_options (cb_Check cb now err).1 = cb_options cb.
Proof. unfold cb_Check. go_solve. Qed.

Inductive cb_reachable (opts : CircuitBreakerOptions) : CircuitBreaker -> Prop :=
| cbr_new : cb_reachable opts (NewCircuitBreaker opts)
| cbr_step cb o : cb_reachable opts cb -> cb_reachable opts (cb_exec cb o).1.

Lemma cb_reachable_invariant opts cb : cb_reachable opts cb -> cb_inv cb.
Proof.
  induction 1 as [|cb [now err|] H IH]; simpl.
  - unfold NewCircuitBreaker, cb_inv. simpl. destruct (_ <=? 0)%Z eqn:E; bool_prop; simpl;
      repeat split; intros; try done; lia.
  - pose proof (cb_Check_inv cb now err IH). by destruct (cb_Check cb now err).
  - by apply cb_Success_inv.
Qed.

Lemma cb_run_app ops1 ops2 cb :
  cb_run cb (ops1 ++ ops2) =
  let '(c1, l1) := cb_run cb ops1 in let '(c2, l2) := cb_run c1 ops2 in (c2, l1 ++ l2).
Proof.
  revert cb. induction ops1 as [|o ops1 IH]; intros cb; simpl; [by destruct (cb_run cb ops2)|].
  destruct (cb_exec cb o) as [c a]. rewrite IH. destruct (cb_run c ops1) as [c1 l1].
  destruct (cb_run c1 ops2). by destruct a.
Qed.

(** [n] failures in a row on a closed breaker with more than [n] left. *)
Lemma cb_failures_count (fails : list (Z * gerror)) cb :
  cb_state cb = Closed -> (Z.of_nat (length fails) < failureThreshold cb)%Z ->
  cb_run cb (map (fun x => OpCheck x.1 (Some x.2)) fails) =
  (mkCB (failureThreshold cb - Z.of_nat (length fails)) (lastFailure cb) Closed (cb_options cb),
   repeat true (length fails)).
Proof.
  revert cb. induction fails as [|[t e] fails IH]; intros cb Hs Hl; cbn [map cb_run length repeat].
  - rewrite Z.sub_0_r. destruct cb. simpl in *. by subst.
  - cbn [cb_exec]. unfold cb_Check. rewrite Hs, isFailure_iff. cbn [length] in Hl.
    destruct (_ <=? 0)%Z eqn:E; bool_prop; [lia|].
    rewrite IH by (simpl; first [done|lia]). simpl. do 2 f_equal. lia.
Qed.

(** An open breaker before its timeout answers no to everything. *)
Lemma cb_open_blocks cb (checks : list (Z * option gerror)) :
  cb_state cb = Open_ ->
  Forall (fun x => (x.1 - lastFailure cb < Timeout_ (cb_options cb))%Z) checks ->
  cb_run cb (map (fun x => OpCheck x.1 x.2) checks) = (cb, repeat false (length checks)).
Proof.
  intros Hs H. induction H as [|[t e] checks Ht H IH]; [done|].
  cbn [map cb_run cb_exec length repeat fst snd] in *. unfold cb_Check. rewrite Hs.
  destruct (_ <=? _)%Z eqn:E; bool_prop; [lia|]. by rewrite IH.
Qed.

(** * Theorems *)

(** in every state a breaker can reach by checks and successes, a closed
    breaker has between one and the configured number of failures left, and an
    open or half-open one has none. *)
Theorem breaker_reachable_inv opts cb : cb_reachable opts cb -> cb_inv cb.
Proof. apply cb_reachable_invariant. Qed.

(** a new breaker with threshold [n] admits calls through [n - 1] failures
    in a row; the [n]-th failure opens it, is refused, and from then on every
    check before the timeout, whatever its argument, is refused and changes
    nothing. *)
Theorem breaker_opens_at_threshold opts fails t e checks :
  (0 < FailureThreshold opts)%Z ->
  Z.of_nat (length fails) = (FailureThreshold opts - 1)%Z ->
  Forall (fun x => (x.1 - t < Timeout_ opts)%Z) checks ->
  cb_run (NewCircuitBreaker opts)
    (map (fun x => OpCheck x.1 (Some x.2)) fails ++ OpCheck t (Some e)
     :: map (fun x => OpCheck x.1 x.2) checks) =
  (mkCB 0 t Open_ opts,
   repeat true (length fails) ++ false :: repeat false (length checks)).
Proof.
  intros Hn Hl Hc.
  rewrite cb_run_app. unfold NewCircuitBreaker. destruct (_ <=? 0)%Z eqn:E; bool_prop; [lia|].
  rewrite cb_failures_count by (simpl; first [done|lia]).
  cbn [cb_run cb_exec cb_state failureThreshold cb_options lastFailure].
  unfold cb_Check at 1. cbn [cb_state failureThreshold cb_options lastFailure].
  rewrite isFailure_iff. destruct (_ <=? 0)%Z eqn:E2; bool_prop; [|lia].
  rewrite cb_open_blocks; [|done|done]. f_equal. f_equal; [lia|]. by destruct opts.
Qed.

(** once the timeout has passed an open breaker admits a probe; a success
    then closes it with its full threshold, a failure opens it again from the
    time of the failure. *)
Theorem breaker_recovers cb now err t e :
  cb_state cb = Open_ -> (Timeout_ (cb_options cb) <= now - lastFailure cb)%Z ->
  exists half,
    cb_Check cb now err = (half, true) /\ cb_state half = HalfOpen
    /\ cb_Success half
       = mkCB (FailureThreshold (cb_options cb)) (lastFailure cb) Closed (cb_options cb)
    /\ cb_Check half t (Some e) = (mkCB (failureThreshold cb) t Open_ (cb_options cb), false).
Proof.
  intros Hs Ht. eexists. unfold cb_Check at 1. rewrite Hs.
  destruct (_ <=? _)%Z eqn:E; bool_prop; [|lia]. split; [done|]. split; [done|].
  split; [done|]. unfold cb_Check. cbn [cb_state]. by rewrite isFailure_iff.
Qed.

(** [CheckErrors] and [CheckHTTPCodes] do not select which errors count:
    every non-nil error is a failure, whatever the options say, and a half-open
    breaker admits any number of calls, whatever [HalfOpenMaxCalls] says. *)
Theorem breaker_options_ignored cb (times : list Z) e :
  cb_state cb = HalfOpen ->
  isFailure cb (Some e) = true
  /\ cb_run cb (map (fun t => OpCheck t None) times) = (cb, repeat true (length times)).
Proof.
  intros Hs. split; [by rewrite isFailure_iff|].
  induction times as [|t times IH]; [done|]. cbn [map cb_run cb_exec length repeat].
  unfold cb_Check. rewrite Hs, isFailure_iff. by rewrite IH.
Qed.

(** through the health manager: when a vendor is marked unhealthy and its
    shared breaker is open and not timed out, [GetStatus] reports the circuit
    open and leaves every breaker as it was. *)
Theorem GetStatus_circuit_open w v now h p cb :
  checkers w !! v = Some h -> status h = HealthUnhealthy ->
  hm_breakers w !! v = Some (Some p) -> heap w !! p = Some cb ->
  cb_state cb = Open_ -> (now - lastFailure cb < Timeout_ (cb_options cb))%Z ->
  GetStatus w v now = (w, HealthCircuitOpen).
Proof.
  intros Hc Hs Hb Hp Ho Ht. unfold GetStatus. rewrite Hc, Hs, Hb.
  unfold heap_Check. rewrite Hp. unfold cb_Check. rewrite Ho.
  destruct (_ <=? _)%Z eqn:E; bool_prop; [lia|].
  rewrite insert_id by done. by destruct w.
Qed.

(** ** Witnesses *)

Definition opts3 : CircuitBreakerOptions := mkCBOptions (10 * Second) 1 [] [] 3.

Lemma breaker_reachable_inv_witness : cb_inv (cb_exec (NewCircuitBreaker opts3) OpSuccess).1.
Proof. apply (breaker_reachable_inv opts3). apply cbr_step, cbr_new. Defined.

Lemma breaker_opens_at_threshold_witness :
  cb_run (NewCircuitBreaker opts3)
    (map (fun x => OpCheck x.1 (Some x.2)) [(1%Z, EEOF); (2%Z, EEOF)] ++ OpCheck 3 (Some EEOF)
     :: map (fun x => OpCheck x.1 x.2) [(4%Z, None)]) =
  (mkCB 0 3 Open_ opts3, repeat true 2 ++ false :: repeat false 1).
Proof.
  apply (breaker_opens_at_threshold opts3 [(1%Z, EEOF); (2%Z, EEOF)] 3 EEOF [(4%Z, None)]);
    [reflexivity|reflexivity|]. constructor; [reflexivity|constructor].
Defined.

Lemma breaker_recovers_witness :
  exists half,
    cb_Check (mkCB 0 3 Open_ opts3) (3 + 10 * Second) None = (half, true) /\ cb_state half = HalfOpen
    /\ cb_Success half = mkCB 3 3 Closed opts3
    /\ cb_Check half 7 (Some EEOF) = (mkCB 0 7 Open_ opts3, false).
Proof.
  apply (breaker_recovers (mkCB 0 3 Open_ opts3) (3 + 10 * Second) None 7 EEOF);
    [reflexivity|]. vm_compute. discriminate.
Defined.

Lemma breaker_options_ignored_witness :
  isFailure (mkCB 0 3 HalfOpen opts3) (Some EEOF) = true
  /\ cb_run (mkCB 0 3 HalfOpen opts3) (map (fun t => OpCheck t None) [1; 2; 3]%Z)
     = (mkCB 0 3 HalfOpen opts3, repeat true 3).
Proof. apply (breaker_options_ignored (mkCB 0 3 HalfOpen opts3) [1; 2; 3]%Z EEOF). reflexivity. Defined.

Definition w_open : hworld :=
  mkW {[ 0%nat := mkCB 0 3 Open_ opts3 ]} {[ VendorQwen := 0%nat ]}
      {[ VendorQwen := mkHC VendorQwen "" 0 0 3 HealthUnhealthy 0 None 1 (Some 0%nat) ]}
      {[ VendorQwen := Some 0%nat ]}.

Lemma GetStatus_circuit_open_witness : GetStatus w_open VendorQwen 4 = (w_open, HealthCircuitOpen).
Proof.
  apply (GetStatus_circuit_open w_open VendorQwen 4
           (mkHC VendorQwen "" 0 0 3 HealthUnhealthy 0 None 1 (Some 0%nat)) 0 (mkCB 0 3 Open_ opts3));
    vm_compute; reflexivity.
Defined.
