(* ===== verification/Health.v ===== *)
(** * Health probes

    The goroutines of [protocol/health_check.go] under the manager of
    [protocol/health_manager.go] as a transition system: each registered vendor
    has a goroutine that probes once and then at every tick until its context
    ends or its stop channel is closed. A [select] with several ready cases
    takes any of them. *)
From stdpp Require Import base tactics list gmap sets relations strings.
From Stdlib Require Import ZArith Lia.
From S2P Require Import Prelude GoStrings Types Breaker.

(** Where a goroutine is: in a probe, the first one or one after a tick, or at
    the [select]. *)
Inductive goroutine := Probing | Selecting.

(** The world of checkers and breakers, whether the manager's context is
    cancelled, the checker object registered for each vendor, the objects whose
    stop channel is closed, and the goroutines that have not returned: the
    object each was started on, its vendor and where it is. Objects are
    numbered as they are created. *)
Record manager := mkManagerState {
  mg_world : hworld; mg_cancelled : bool; mg_objects : gmap Vendor nat; mg_closed : gset nat;
  mg_running : gmap nat (Vendor * goroutine); mg_next : nat }.

Definition NewHealthManager (heap : gmap nat CircuitBreaker) (vcb : gmap Vendor nat) : manager :=
  mkManagerState (mkW heap vcb ∅ ∅) false ∅ ∅ ∅ 0.

(** [Register] makes a checker and starts its goroutine, for a vendor that has
    none yet. *)
Definition mg_Register (g : manager) (v : Vendor) (ep : string) (itv : Z) (br : option nat) : manager :=
  match mg_objects g !! v with
  | Some _ => g
  | None => mkManagerState (hm_Register (mg_world g) v ep itv br) (mg_cancelled g) (<[v := mg_next g]> (mg_objects g)) (mg_closed g)
              (<[mg_next g := (v, Probing)]> (mg_running g)) (S (mg_next g))
  end.

(** [Stop]: the context is cancelled and the channel of every checker in the
    map closed, once. *)
Definition mg_Stop (g : manager) : manager :=
  mkManagerState (mg_world g) true (mg_objects g) (mg_closed g ∪ map_img (mg_objects g)) (mg_running g) (mg_next g).

Definition set_running (g : manager) (r : gmap nat (Vendor * goroutine)) : manager :=
  mkManagerState (mg_world g) (mg_cancelled g) (mg_objects g) (mg_closed g) r (mg_next g).

(** The end of a probe: the result is recorded and the goroutine goes to its [select]. *)
Definition mg_probed (g : manager) (i : nat) (v : Vendor) (now : Z) (probe : gerror + Z) : manager :=
  mkManagerState (check (mg_world g) v now probe) (mg_cancelled g) (mg_objects g) (mg_closed g)
    (<[i := (v, Selecting)]> (mg_running g)) (mg_next g).

(** The steps of a goroutine that has not been given a tick. *)
Inductive quiet : manager -> manager -> Prop :=
| h_probed g i v now probe : mg_running g !! i = Some (v, Probing) -> quiet g (mg_probed g i v now probe)
| h_return g i v : mg_running g !! i = Some (v, Selecting) -> mg_cancelled g = true \/ i ∈ mg_closed g ->
    quiet g (set_running g (delete i (mg_running g))).

(** One step of the system. The [select] may take a tick also when it could
    return. *)
Inductive hstep : manager -> manager -> Prop :=
| h_quiet g g' : quiet g g' -> hstep g g'
| h_tick g i v : mg_running g !! i = Some (v, Selecting) -> hstep g (set_running g (<[i := (v, Probing)]> (mg_running g)))
| h_register g v ep itv br : hstep g (mg_Register g v ep itv br)
| h_stop g : hstep g (mg_Stop g).
#[export] Hint Constructors quiet hstep : go.

(** ** Invariants *)

(** A goroutine runs on the object registered for its vendor; until the manager
    is stopped no channel is closed and every registered object has its
    goroutine; objects are numbered below the next number. *)
Definition mg_inv (g : manager) : Prop :=
  (forall i v p, mg_running g !! i = Some (v, p) -> mg_objects g !! v = Some i)
  /\ (mg_cancelled g = false -> mg_closed g = ∅ /\ forall v i, mg_objects g !! v = Some i -> exists p, mg_running g !! i = Some (v, p))
  /\ (forall v i, mg_objects g !! v = Some i -> i < mg_next g)
  /\ dom (mg_objects g) = dom (checkers (mg_world g)).

Lemma check_dom w v now probe : dom (checkers (check w v now probe)) = dom (checkers w).
Proof.
  assert (forall h' h, checkers w !! v = Some h -> dom (<[v := h']> (checkers w)) = dom (checkers w)) as Hd
    by (intros h' h E; rewrite dom_insert_L; apply elem_of_dom_2 in E; set_solver).
  assert (dom (checkers (recordSuccess w v now)) = dom (checkers w) /\ forall e, dom (checkers (recordFailure w v now e)) = dom (checkers w)) as [Hs Hf].
  { unfold recordSuccess, recordFailure, heap_Success, heap_Check, set_checkers.
    destruct (checkers w !! v) as [h|] eqn:E; [|done]. split; [|intros e]; destruct (hc_breaker h); cbn [checkers heap]; try by eapply Hd.
    destruct (heap w !! n) as [cb|]; [|by eapply Hd]. destruct (cb_Check cb now (Some e)); cbn. by eapply Hd. }
  unfold check. destruct probe as [e|code]; [done|]. by case_match.
Qed.

(** Moving a goroutine along keeps the invariant. *)
Lemma move_inv g i v p q w : mg_inv g -> mg_running g !! i = Some (v, p) -> dom (checkers w) = dom (checkers (mg_world g)) ->
  mg_inv (mkManagerState w (mg_cancelled g) (mg_objects g) (mg_closed g) (<[i := (v, q)]> (mg_running g)) (mg_next g)).
Proof.
  intros (H1 & H2 & H3 & H4) Hr Hw. split; [|split; [|split; [done|cbn; congruence]]]; cbn.
  - intros j u r [[<- [= <- <-]]|[_ Hj]]%lookup_insert_Some; [by apply (H1 i v p)|by apply (H1 j u r)].
  - intros Hc. destruct (H2 Hc) as [-> Hall]. split; [done|]. intros u j Hj. destruct (Hall u j Hj) as [r Hr'].
    destruct (decide (i = j)) as [<-|Hn]; [|exists r; by rewrite lookup_insert_ne].
    exists q. rewrite lookup_insert_eq. congruence.
Qed.

Lemma quiet_inv g g' : mg_inv g -> quiet g g' -> mg_inv g'.
Proof.
  intros Hi Hq. revert Hi. destruct Hq as [g i v now probe Hr|g i v Hr Hc]; intros Hi.
  - eapply move_inv; [done|exact Hr|apply check_dom].
  - destruct Hi as (H1 & H2 & H3 & H4). split; [|split; [|done]]; cbn.
    + intros j u r [_ Hj]%lookup_delete_Some. by apply (H1 j u r).
    + intros Hf. destruct (H2 Hf) as [E _]. rewrite E in Hc. destruct Hc; [congruence|set_solver].
Qed.

Lemma register_inv g v ep itv br : mg_inv g -> mg_inv (mg_Register g v ep itv br).
Proof.
  intros Hi. unfold mg_Register. destruct (mg_objects g !! v) as [k|] eqn:E; [done|]. destruct Hi as (H1 & H2 & H3 & H4).
  assert (checkers (mg_world g) !! v = None) as Ec by (apply not_elem_of_dom; rewrite <- H4; by apply not_elem_of_dom).
  split; [|split; [|split]]; cbn [mg_running mg_objects mg_cancelled mg_closed mg_next mg_world].
  - intros j u r [[<- [= <- <-]]|[_ Hj]]%lookup_insert_Some; [apply lookup_insert_eq|].
    rewrite lookup_insert_ne; [by apply (H1 j u r)|]. intros <-. apply H1 in Hj. congruence.
  - intros Hc. destruct (H2 Hc) as [-> Hall]. split; [done|]. intros u j [[<- <-]|[_ Hj]]%lookup_insert_Some.
    + exists Probing. apply lookup_insert_eq.
    + destruct (Hall u j Hj) as [r Hr]. exists r. rewrite lookup_insert_ne; [done|]. intros <-. apply H3 in Hj. lia.
  - intros u j [[<- <-]|[_ Hj]]%lookup_insert_Some; [lia|]. apply H3 in Hj. lia.
  - unfold hm_Register. rewrite Ec. cbn [checkers]. by rewrite !dom_insert_L, H4.
Qed.

Lemma hstep_inv g g' : mg_inv g -> hstep g g' -> mg_inv g'.
Proof.
  intros Hi Hs. revert Hi. destruct Hs as [g g' Hq|g i v Hr|g v ep itv br|g]; intros Hi.
  - by eapply quiet_inv.
  - by eapply move_inv.
  - by apply register_inv.
  - destruct Hi as (H1 & H2 & H3 & H4). split; [done|]. split; [done|]. by split.
Qed.

Lemma hsteps_inv g g' : rtc hstep g g' -> mg_inv g -> mg_inv g'.
Proof. induction 1 as [|x y z Hxy _ IH]; [done|]. intros Hi. apply IH. by eapply hstep_inv. Qed.

Lemma health_reachable_inv heap vcb g : rtc hstep (NewHealthManager heap vcb) g -> mg_inv g.
Proof. intros H. apply (hsteps_inv _ _ H). split; [done|]. split; [done|]. split; [done|]. cbn. by rewrite !dom_empty_L. Qed.

(** A cancelled manager stays cancelled. *)
Lemma hstep_cancelled g g' : hstep g g' -> mg_cancelled g = true -> mg_cancelled g' = true.
Proof. intros [? ? []|? i v Hr|? v ep itv br|?] Hc; try done. unfold mg_Register. by destruct (mg_objects _ !! _). Qed.

Lemma hsteps_cancelled g g' : rtc hstep g g' -> mg_cancelled g = true -> mg_cancelled g' = true.
Proof. induction 1 as [|x y z Hxy _ IH]; [done|]. intros Hc. apply IH. by eapply hstep_cancelled. Qed.

(** ** Termination *)

(** What a goroutine has left to do: end its probe, and return. *)
Definition steps_left (x : Vendor * goroutine) : nat := match x.2 with Probing => 2 | Selecting => 1 end.
Definition work (r : gmap nat (Vendor * goroutine)) : nat := map_fold (fun _ x n => steps_left x + n) 0 r.

Lemma work_insert r i x : r !! i = None -> work (<[i := x]> r) = steps_left x + work r.
Proof. intros H. unfold work. by rewrite map_fold_insert_L by (done || (intros; lia)). Qed.

Lemma work_delete r i x : r !! i = Some x -> work r = steps_left x + work (delete i r).
Proof. intros H. rewrite <- (insert_delete_id r i x H) at 1. apply work_insert, lookup_delete_eq. Qed.

Lemma work_bound r : work r <= 2 * size r.
Proof.
  induction r as [|i x r Hi IH] using map_ind; [done|]. rewrite work_insert, map_size_insert_None by done.
  unfold steps_left. destruct x as [v []]; cbn [snd]; lia.
Qed.

Lemma quiet_work g g' : quiet g g' -> work (mg_running g) = S (work (mg_running g')).
Proof.
  intros [? i v now probe Hr|? i v Hr Hc]; cbn [mg_probed set_running mg_running]; rewrite (work_delete _ _ _ Hr); [|done].
  rewrite <- insert_delete_eq. rewrite work_insert by apply lookup_delete_eq. done.
Qed.

Lemma quiet_steps n g g' : nsteps quiet n g g' -> work (mg_running g) = n + work (mg_running g').
Proof. induction 1 as [|n x y z Hxy _ IH]; [done|]. apply quiet_work in Hxy. lia. Qed.

Lemma quiet_cancelled n g g' : nsteps quiet n g g' -> mg_cancelled g = true -> mg_cancelled g' = true.
Proof. intros H. apply hsteps_cancelled. induction H; [apply rtc_refl|]. eapply rtc_l; [by apply h_quiet|done]. Qed.

(** A stopped manager with a goroutine left has a step that is not a tick. *)
Lemma quiet_progress g : mg_cancelled g = true -> mg_running g <> ∅ -> exists g', quiet g g'.
Proof.
  intros Hc (i & [v p] & Hr)%map_choose. destruct p; eexists; [by apply (h_probed g i v 0%Z (inl ECanceled))|].
  apply (h_return g i v Hr). by left.
Qed.

(** C37: in every reachable state of the manager no two goroutines probe the
    same vendor, and until it is stopped exactly the registered vendors have
    one: none returns earlier. [Stop] closes the channel of every goroutine
    that runs; from then on, whatever happens next, further registrations
    included, a goroutine at its [select] can return at once; and every run
    from there in which no more ticks are taken and nothing is registered has
    at most two steps for each goroutine, and when none is left to take all of
    them have returned. *)
Theorem health_stop heap vcb g : rtc hstep (NewHealthManager heap vcb) g ->
  (forall i j v p q, mg_running g !! i = Some (v, p) -> mg_running g !! j = Some (v, q) -> i = j)
  /\ (mg_cancelled g = false -> forall v, is_Some (checkers (mg_world g) !! v) <-> exists i p, mg_running g !! i = Some (v, p))
  /\ dom (mg_running (mg_Stop g)) ⊆ mg_closed (mg_Stop g)
  /\ (forall g' i v, rtc hstep (mg_Stop g) g' -> mg_running g' !! i = Some (v, Selecting) ->
        hstep g' (set_running g' (delete i (mg_running g'))))
  /\ (forall n g', nsteps quiet n (mg_Stop g) g' ->
        n <= 2 * size (mg_running g) /\ ((forall g'', ~ quiet g' g'') -> mg_running g' = ∅)).
Proof.
  intros Hr. pose proof (health_reachable_inv heap vcb g Hr) as (H1 & H2 & H3 & H4). split; [|split; [|split; [|split]]].
  - intros i j v p q Hi%H1 Hj%H1. congruence.
  - intros Hc v. destruct (H2 Hc) as [_ Hall]. rewrite <- elem_of_dom, <- H4, elem_of_dom. split.
    + intros [i Hi]. destruct (Hall v i Hi) as [p Hp]. eauto.
    + intros (i & p & Hi%H1). by exists i.
  - intros i [[v p] Hi]%elem_of_dom. apply H1 in Hi. cbn. apply elem_of_union_r, elem_of_map_img. by exists v.
  - intros g' i v Hs Hi. apply h_quiet, (h_return g' i v Hi). left. by apply (hsteps_cancelled _ _ Hs).
  - intros n g' Hn. pose proof (quiet_steps n _ _ Hn) as Hw. pose proof (work_bound (mg_running g)). cbn [mg_Stop mg_running] in Hw.
    split; [lia|]. intros Hq. destruct (decide (mg_running g' = ∅)) as [|Hne]; [done|].
    destruct (quiet_progress g' (quiet_cancelled _ _ _ Hn eq_refl) Hne) as [g'' Hg]. by apply Hq in Hg.
Qed.

Definition one_vendor : manager := mg_Register (NewHealthManager ∅ ∅) VendorDeepSeek "https://api.deepseek.com/models" 30 None.

Lemma health_stop_witness : size (mg_running one_vendor) = 1
  /\ forall n g', nsteps quiet n (mg_Stop one_vendor) g' -> n <= 2 /\ ((forall g'', ~ quiet g' g'') -> mg_running g' = ∅).
Proof.
  split; [reflexivity|]. refine (proj2 (proj2 (proj2 (proj2 (health_stop ∅ ∅ one_vendor _))))).
  eapply rtc_l; [apply h_register|apply rtc_refl].
Defined.

(** The threshold of three failures is never read: one failed probe makes the
    vendor unhealthy. *)
Example one_failure_is_unhealthy :
  status <$> checkers (check (mg_world one_vendor) VendorDeepSeek 1 (inl EEOF)) !! VendorDeepSeek = Some HealthUnhealthy.
Proof. reflexivity. Qed.
