(* ===== verification/Retry.v ===== *)
(** * HTTP retry

    [protocol/retry.go]: which failures are retried, the backoff, and the loop
    of [SendWithRetry] around the vendor's circuit breaker and health status.
    What the network, the clock, the context and the random source do at each
    attempt is an argument. *)
From stdpp Require Import base tactics list gmap strings pretty.
From Stdlib Require Import ZArith Lia.
From S2P Require Import Prelude GoStrings Types Breaker.

Definition MaxRetries : nat := 10.
Definition maxBackoff : Z := (15 * Second)%Z.

Definition retryableStatus (s : Z) : bool :=
  ((s =? 408) || (s =? 429) || ((500 <=? s) && (s <=? 599)))%Z.

Definition transientErr (err : option gerror) : bool :=
  match err with
  | None => false
  | Some e => if errors_Is e ECanceled || errors_Is e EDeadlineExceeded then false else true
  end.

Definition IsConnReset (err : option gerror) : bool :=
  match err with
  | None => false
  | Some e =>
      if errors_Is e ECanceled || errors_Is e EDeadlineExceeded then false
      else if errors_Is e EUnexpectedEOF || errors_Is e EEOF || errors_Is e ENetClosed
              || errors_Is e EConnReset || errors_Is e EConnAborted then true
      else unwrap_any is_net_error e
  end.

(** [backoffDelay]; [jitter] is [rand.Intn(250)]. The products wrap around as
    Go's 64-bit durations do. *)
Definition backoffDelay (attempt : nat) (retryAfter : Z) (jitter : Z) : Z :=
  if (0 <? retryAfter)%Z then
    if (maxBackoff <? retryAfter)%Z then maxBackoff else retryAfter
  else
    let d := wrap64 (wrap64 (shl64 1 (attempt - 1) * 500) * Millisecond) in
    let d := if (maxBackoff <? d)%Z then maxBackoff else d in
    wrap64 (d + jitter * Millisecond).

(** The parts of an HTTP response the loop reads. *)
Record http_response := mkResp { StatusCode : Z; RetryAfterHeader : string; Body : string }.

Definition parseRetryAfter (r : http_response) : Z :=
  let v := TrimSpace (RetryAfterHeader r) in
  if v =s "" then 0%Z
  else match Atoi v with
       | Some secs => if (0 <=? secs)%Z then wrap64 (secs * Second) else 0%Z
       | None => 0%Z
       end.

(** What happens at one attempt: the context's error if it ends during the
    backoff, the jitter, the clock before and after the request, an error
    building the request, and what [client.Do] returns. *)
Record attempt_env := mkAttempt {
  a_ctxDone : option gerror; a_jitter : Z; a_t1 : Z; a_t2 : Z;
  a_newReq : option gerror; a_do : gerror + http_response }.

Inductive retry_event := EvNotify (attempt max : nat) | EvWait (d : Z) | EvSend.

(** [vendorCircuitBreaker.Load(vendor)] followed by a call on the breaker. *)
Definition vcb_Check (w : hworld) (v : Vendor) (now : Z) (err : option gerror) : hworld * bool :=
  match vendorCircuitBreaker w !! v with Some p => heap_Check w p now err | None => (w, true) end.
Definition vcb_Success (w : hworld) (v : Vendor) : hworld :=
  match vendorCircuitBreaker w !! v with Some p => heap_Success w p | None => w end.

(** [strings.TrimSpace] of the first 4096 bytes of the body. *)
Definition error_body (r : http_response) : string := TrimSpace (str_take 4096 (Body r)).

(** What the returned pair can be: the response or the error. *)
Definition send_result : Type := option gerror + http_response.

(** The body of one iteration after the backoff: stop with a result, or go on
    with the error and the server's delay. *)
Definition send_attempt (w : hworld) (v : Vendor) (a : attempt_env)
  : hworld * list retry_event * (send_result + gerror * Z) :=
  let '(w1, hs) := GetStatus w v (a_t1 a) in
  if bool_decide (hs = HealthCircuitOpen)
  then (w1, [], inl (inl (Some (EMsg ("vendor " +:+ Vendor_String v +:+ " unhealthy (circuit open)")))))
  else
    let '(w2, ok) := vcb_Check w1 v (a_t1 a) None in
    if negb ok
    then (w2, [], inl (inl (Some (EMsg ("circuit breaker open for vendor " +:+ Vendor_String v)))))
    else match a_newReq a with
         | Some e => (w2, [], inl (inl (Some (EWrap "build request" e))))
         | None =>
             match a_do a with
             | inl e =>
                 if negb (transientErr (Some e))
                 then (w2, [EvSend], inl (inl (Some (EWrap "request failed" e))))
                 else ((vcb_Check w2 v (a_t2 a) (Some e)).1, [EvSend], inr (EWrap "request failed" e, 0%Z))
             | inr resp =>
                 if (StatusCode resp =? 200)%Z then (vcb_Success w2 v, [EvSend], inl (inr resp))
                 else
                   let retryAfter := parseRetryAfter resp in
                   if ((StatusCode resp =? 401) || (StatusCode resp =? 403))%Z
                   then (vcb_Success w2 v, [EvSend], inl (inl (Some (EAuth v (StatusCode resp) true))))
                   else
                     let apiErr := EAPI v (StatusCode resp) (error_body resp) in
                     if negb (retryableStatus (StatusCode resp))
                     then (w2, [EvSend], inl (inl (Some apiErr)))
                     else ((vcb_Check w2 v (a_t2 a) (Some apiErr)).1, [EvSend], inr (apiErr, retryAfter))
             end
         end.

(** The loop from [attempt] with [n] iterations left. *)
Fixpoint send_loop (n attempt : nat) (notify : bool) (w : hworld) (v : Vendor)
    (env : nat -> attempt_env) (lastErr : option gerror) (retryAfter : Z)
  : hworld * list retry_event * send_result :=
  match n with
  | 0 => (w, [], inl lastErr)
  | S n' =>
      let a := env attempt in
      let pre := if (0 <? attempt)%nat then
                   (if notify then [EvNotify attempt MaxRetries] else [])
                   ++ [EvWait (backoffDelay attempt retryAfter (a_jitter a))]
                 else [] in
      match (if (0 <? attempt)%nat then a_ctxDone a else None) with
      | Some e => (w, pre, inl (Some e))
      | None =>
          let '(w1, ev, r) := send_attempt w v a in
          match r with
          | inl res => (w1, pre ++ ev, res)
          | inr (e, ra) =>
              let '(w2, ev', res) := send_loop n' (S attempt) notify w1 v env (Some e) ra in
              (w2, pre ++ ev ++ ev', res)
          end
      end
  end.

Definition SendWithRetry (notify : bool) (w : hworld) (v : Vendor) (env : nat -> attempt_env)
  : hworld * list retry_event * send_result :=
  send_loop (S MaxRetries) 0 notify w v env None 0.

(** * Properties *)

Definition sends (l : list retry_event) : nat :=
  length (List.filter (fun e => match e with EvSend => true | _ => false end) l).
Definition waits (l : list retry_event) : list Z :=
  omap (fun e => match e with EvWait d => Some d | _ => None end) l.

Lemma sends_app a b : sends (a ++ b) = sends a + sends b.
Proof. unfold sends. by rewrite List.filter_app, length_app. Qed.
Lemma waits_app a b : waits (a ++ b) = waits a ++ waits b.
Proof. apply omap_app. Qed.

(** ** Backoff *)

Lemma shl64_pow n : (n <= 34)%nat -> shl64 1 n = (2 ^ Z.of_nat n)%Z.
Proof.
  intros H. unfold shl64. rewrite Z.shiftl_1_l. apply wrap64_id. unfold int64_range.
  assert (0 < 2 ^ Z.of_nat n <= 2 ^ 34)%Z.
  { split; [lia|]. apply Z.pow_le_mono_r; lia. }
  lia.
Qed.

Lemma backoffDelay_exp attempt jitter :
  (1 <= attempt <= 35)%nat -> (0 <= jitter < 250)%Z ->
  backoffDelay attempt 0 jitter =
  (Z.min (15 * Second) (2 ^ Z.of_nat (attempt - 1) * 500 * Millisecond) + jitter * Millisecond)%Z.
Proof.
  intros Ha Hj. unfold backoffDelay. cbn [Z.ltb Z.compare]. rewrite shl64_pow by lia.
  assert (1 <= 2 ^ Z.of_nat (attempt - 1) <= 2 ^ 34)%Z as Hp.
  { split; [|apply Z.pow_le_mono_r; lia]. pose proof (Z.pow_pos_nonneg 2 (Z.of_nat (attempt - 1))). lia. }
  unfold maxBackoff, Second, Millisecond in *.
  rewrite (wrap64_id (_ * 500)) by (unfold int64_range; lia).
  rewrite (wrap64_id (_ * 500 * _)) by (unfold int64_range; lia).
  rewrite wrap64_id; [|unfold int64_range; destruct (_ <? _)%Z eqn:E; bool_prop; lia].
  destruct (_ <? _)%Z eqn:E; bool_prop; lia.
Qed.

Lemma backoffDelay_bound attempt ra jitter :
  (1 <= attempt <= 35)%nat -> (0 <= jitter < 250)%Z ->
  (0 < backoffDelay attempt ra jitter < maxBackoff + 250 * Millisecond)%Z.
Proof.
  intros Ha Hj. destruct (Z.ltb_spec 0 ra) as [Hr|Hr].
  - unfold backoffDelay. rewrite (proj2 (Z.ltb_lt _ _) Hr).
    unfold maxBackoff, Second, Millisecond. destruct (_ <? _)%Z eqn:E; bool_prop; lia.
  - assert (backoffDelay attempt ra jitter = backoffDelay attempt 0 jitter) as ->.
    { unfold backoffDelay. rewrite (proj2 (Z.ltb_ge _ _) Hr).
      change (0 <? 0)%Z with false. cbv iota. exact eq_refl. }
    rewrite backoffDelay_exp by done.
    pose proof (Z.pow_pos_nonneg 2 (Z.of_nat (attempt - 1))).
    unfold maxBackoff, Second, Millisecond. lia.
Qed.

(** ** The loop *)

Lemma send_attempt_sends w v a : sends (send_attempt w v a).1.2 <= 1.
Proof.
  unfold send_attempt. destruct (GetStatus w v (a_t1 a)) as [w1 hs].
  destruct (bool_decide _); [unfold sends; simpl; lia|].
  destruct (vcb_Check w1 v (a_t1 a) None) as [w2 ok].
  repeat case_match; unfold sends; simpl; lia.
Qed.

Lemma send_attempt_waits w v a : waits (send_attempt w v a).1.2 = [].
Proof.
  unfold send_attempt. destruct (GetStatus w v (a_t1 a)) as [w1 hs].
  destruct (bool_decide _); [done|].
  destruct (vcb_Check w1 v (a_t1 a) None) as [w2 ok].
  repeat case_match; done.
Qed.

Definition pre_events (notify : bool) (attempt : nat) (d : Z) : list retry_event :=
  if (0 <? attempt)%nat then (if notify then [EvNotify attempt MaxRetries] else []) ++ [EvWait d] else [].

Lemma pre_events_sends notify attempt d : sends (pre_events notify attempt d) = 0.
Proof. unfold pre_events. by destruct (0 <? attempt)%nat, notify. Qed.

Lemma pre_events_waits notify attempt d :
  waits (pre_events notify attempt d) = if (0 <? attempt)%nat then [d] else [].
Proof. unfold pre_events. by destruct (0 <? attempt)%nat, notify. Qed.

Definition good_jitter (env : nat -> attempt_env) : Prop :=
  forall i, (0 <= a_jitter (env i) < 250)%Z.

Definition bounded_wait (d : Z) : Prop := (0 < d < maxBackoff + 250 * Millisecond)%Z.

Lemma send_loop_bounds n attempt notify w v env le ra w' ev res :
  good_jitter env -> attempt + n <= 35 ->
  send_loop n attempt notify w v env le ra = (w', ev, res) ->
  sends ev <= n /\ length (waits ev) <= n - (if (0 <? attempt)%nat then 0 else 1)
  /\ Forall bounded_wait (waits ev).
Proof.
  intros Hj. revert attempt w le ra w' ev res.
  induction n as [|n IH]; intros attempt w le ra w' ev res Ha; cbn [send_loop].
  { intros [= <- <- <-]. unfold sends, waits; simpl. repeat split; [lia|lia|constructor]. }
  fold (pre_events notify attempt (backoffDelay attempt ra (a_jitter (env attempt)))).
  assert (Forall bounded_wait (waits (pre_events notify attempt
            (backoffDelay attempt ra (a_jitter (env attempt)))))) as Hw.
  { rewrite pre_events_waits. destruct (0 <? attempt)%nat eqn:E; constructor; [|constructor].
    bool_prop. apply backoffDelay_bound; [lia|apply Hj]. }
  assert (length (waits (pre_events notify attempt
            (backoffDelay attempt ra (a_jitter (env attempt)))))
          = if (0 <? attempt)%nat then 1 else 0) as Hl
    by (rewrite pre_events_waits; by destruct (0 <? attempt)%nat).
  pose proof (pre_events_sends notify attempt (backoffDelay attempt ra (a_jitter (env attempt)))) as Hs.
  revert Hw Hl Hs.
  generalize (pre_events notify attempt (backoffDelay attempt ra (a_jitter (env attempt)))).
  intros pre Hw Hl Hs.
  destruct (if (0 <? attempt)%nat then a_ctxDone (env attempt) else None).
  { intros [= <- <- <-]. rewrite Hs, Hl. repeat split; [lia| |done].
    destruct attempt; simpl in *; lia. }
  pose proof (send_attempt_sends w v (env attempt)) as Hs1.
  pose proof (send_attempt_waits w v (env attempt)) as Hw1.
  destruct (send_attempt w v (env attempt)) as [[w1 ev1] [r|[e ra']]]; simpl in Hs1, Hw1.
  - intros [= <- <- <-]. rewrite sends_app, waits_app, length_app, Hw1, Hs, Hl, app_nil_r.
    repeat split; [lia| |done]. destruct attempt; simpl in *; lia.
  - destruct (send_loop n (S attempt) notify w1 v env (Some e) ra') as [[w2 ev2] r2] eqn:E.
    intros [= <- <- <-]. destruct (IH (S attempt) w1 (Some e) ra' w2 ev2 r2 ltac:(lia) E) as (H1 & H2 & H3).
    rewrite !sends_app, !waits_app, !length_app, Hw1, Hs, Hl. simpl.
    repeat split; [lia| |by apply Forall_app].
    destruct attempt; simpl in *; lia.
Qed.

Lemma send_loop_unfold n i notify w v env le ra :
  send_loop (S n) i notify w v env le ra =
  let pre := pre_events notify i (backoffDelay i ra (a_jitter (env i))) in
  match (if (0 <? i)%nat then a_ctxDone (env i) else None) with
  | Some e => (w, pre, inl (Some e))
  | None =>
      let '(w1, ev, r) := send_attempt w v (env i) in
      match r with
      | inl res => (w1, pre ++ ev, res)
      | inr (e, ra) =>
          let '(w2, ev', res) := send_loop n (S i) notify w1 v env (Some e) ra in
          (w2, pre ++ ev ++ ev', res)
      end
  end.
Proof. reflexivity. Qed.

(** Outcomes of an attempt when no breaker is installed for the vendor. *)
Definition no_breaker (w : hworld) (v : Vendor) : Prop :=
  vendorCircuitBreaker w !! v = None
  /\ forall p, hm_breakers w !! v <> Some (Some p).

Definition not_reported_open (w : hworld) (v : Vendor) : Prop :=
  match checkers w !! v with Some h => status h <> HealthCircuitOpen | None => True end.

(** What one attempt decides on its own: stop with a result, or retry. *)
Definition outcome (v : Vendor) (a : attempt_env) : send_result + gerror * Z :=
  match a_newReq a with
  | Some e => inl (inl (Some (EWrap "build request" e)))
  | None =>
      match a_do a with
      | inl e => if transientErr (Some e) then inr (EWrap "request failed" e, 0%Z)
                 else inl (inl (Some (EWrap "request failed" e)))
      | inr resp =>
          if (StatusCode resp =? 200)%Z then inl (inr resp)
          else if ((StatusCode resp =? 401) || (StatusCode resp =? 403))%Z
          then inl (inl (Some (EAuth v (StatusCode resp) true)))
          else if retryableStatus (StatusCode resp)
          then inr (EAPI v (StatusCode resp) (error_body resp), parseRetryAfter resp)
          else inl (inl (Some (EAPI v (StatusCode resp) (error_body resp))))
      end
  end.

Lemma GetStatus_no_breaker w v now :
  no_breaker w v -> not_reported_open w v ->
  (GetStatus w v now).1 = w /\ (GetStatus w v now).2 <> HealthCircuitOpen.
Proof.
  intros [_ Hb] Hr. unfold GetStatus, not_reported_open in *.
  destruct (checkers w !! v) as [h|]; [|done].
  destruct (status h); try done. destruct (hm_breakers w !! v) as [[p|]|] eqn:E; try done.
  by destruct (Hb p).
Qed.

Lemma send_attempt_no_breaker w v a :
  no_breaker w v -> not_reported_open w v ->
  exists ev, send_attempt w v a = (w, ev, outcome v a)
          /\ sends ev = match a_newReq a with Some _ => 0 | None => 1 end.
Proof.
  intros Hb Hr. destruct (GetStatus_no_breaker w v (a_t1 a) Hb Hr) as [H1 H2].
  unfold send_attempt. destruct (GetStatus w v (a_t1 a)) as [w1 hs]. simpl in H1, H2. subst w1.
  rewrite bool_decide_eq_false_2 by done. destruct Hb as [Hv _].
  unfold vcb_Check, vcb_Success, outcome. rewrite ?Hv. cbn [negb fst]. rewrite ?Hv. cbn [negb fst].
  destruct (a_newReq a); [rewrite ?Hv; eexists; split; reflexivity|].
  destruct (a_do a) as [e|r]; [|].
  - destruct (transientErr (Some e)); rewrite ?Hv; eexists; split; reflexivity.
  - destruct (StatusCode r =? 200)%Z; [rewrite ?Hv; eexists; split; reflexivity|].
    destruct (((StatusCode r =? 401) || (StatusCode r =? 403)))%Z; [rewrite ?Hv; eexists; split; reflexivity|].
    destruct (retryableStatus (StatusCode r)); rewrite ?Hv; eexists; split; reflexivity.
Qed.

(** Outcomes of attempts [i .. i+k-1] are all retries. *)
Definition all_retry (v : Vendor) (env : nat -> attempt_env) (i k : nat) : Prop :=
  forall j, i <= j < i + k -> a_ctxDone (env j) = None /\ exists e ra, outcome v (env j) = inr (e, ra).

Lemma outcome_retry_sends v a e ra : outcome v a = inr (e, ra) -> a_newReq a = None.
Proof. unfold outcome. by destruct (a_newReq a). Qed.

(** From attempt [i], [k] retries and then a decision: that decision is the
    result, and every attempt sent one request. *)
Lemma send_loop_stops k n i notify w v env le ra r :
  no_breaker w v -> not_reported_open w v ->
  all_retry v env i k -> a_ctxDone (env (i + k)) = None ->
  outcome v (env (i + k)) = inl r -> a_newReq (env (i + k)) = None -> k < n ->
  exists ev, send_loop n i notify w v env le ra = (w, ev, r) /\ sends ev = S k.
Proof.
  intros Hb Hr. revert n i le ra. induction k as [|k IH]; intros n i le ra Hret Hc Ho Hn Hlt;
    (destruct n as [|n]; [lia|]); rewrite send_loop_unfold; cbv zeta;
    destruct (send_attempt_no_breaker w v (env i) Hb Hr) as (ev & -> & Hs).
  - rewrite Nat.add_0_r in *. rewrite Hc, Ho. destruct (0 <? i)%nat;
      (eexists; split; [reflexivity|]; by rewrite sends_app, pre_events_sends, Hs, Hn).
  - destruct (Hret i) as (Hci & e & ra' & He); [lia|].
    rewrite Hci, He. rewrite (outcome_retry_sends _ _ _ _ He) in Hs.
    destruct (IH n (S i) (Some e) ra') as (ev' & Hl & Hs').
    + intros j Hj. apply Hret. lia.
    + by rewrite Nat.add_succ_comm.
    + by rewrite Nat.add_succ_comm.
    + by rewrite Nat.add_succ_comm.
    + lia.
    + rewrite Hl. destruct (0 <? i)%nat;
      (eexists; split; [reflexivity|]; by rewrite !sends_app, pre_events_sends, Hs, Hs').
Qed.

(** Retries to the end: the error of the last attempt. *)
Lemma send_loop_exhausts n i notify w v env le ra :
  no_breaker w v -> not_reported_open w v -> all_retry v env i (S n) ->
  exists ev e ra', outcome v (env (i + n)) = inr (e, ra')
    /\ send_loop (S n) i notify w v env le ra = (w, ev, inl (Some e)) /\ sends ev = S n.
Proof.
  intros Hb Hr. revert i le ra. induction n as [|n IH]; intros i le ra Hret;
    destruct (Hret i) as (Hci & e & ra' & He); [lia| |lia|];
    rewrite send_loop_unfold; cbv zeta;
    destruct (send_attempt_no_breaker w v (env i) Hb Hr) as (ev & -> & Hs);
    rewrite Hci, He; rewrite (outcome_retry_sends _ _ _ _ He) in Hs.
  - rewrite Nat.add_0_r. eexists _, e, ra'. split; [done|]. destruct (0 <? i)%nat;
      (split; [reflexivity|]; by rewrite !sends_app, pre_events_sends, Hs).
  - destruct (IH (S i) (Some e) ra') as (ev' & e' & ra2 & Ho & Hl & Hs').
    { intros j Hj. apply Hret. lia. }
    rewrite Nat.add_succ_comm in Ho. rewrite Hl.
    eexists _, e', ra2. split; [done|]. destruct (0 <? i)%nat;
      (split; [reflexivity|]; by rewrite !sends_app, pre_events_sends, Hs, Hs').
Qed.

(** * Claims *)

(** C28: A call sends at most [MaxRetries + 1] requests and sleeps at most
    [MaxRetries] times, each sleep positive and shorter than 15.25 s, whatever
    the server, the network and the breakers do. *)
Theorem SendWithRetry_bounded notify w v env w' ev res :
  good_jitter env -> SendWithRetry notify w v env = (w', ev, res) ->
  sends ev <= 11 /\ length (waits ev) <= 10 /\ Forall bounded_wait (waits ev).
Proof. intros Hj H. apply (send_loop_bounds 11 0 notify w v env None 0 w' ev res Hj); [lia|done]. Qed.

(** C19: Without a breaker for the vendor, the call behaves as the reference
    reading of the loop: if attempts [0..k-1] fail in a retryable way and
    attempt [k] (at most [MaxRetries]) decides, its decision is returned after
    exactly [k+1] requests and no breaker state changes; if all attempts fail
    in a retryable way, the last one's error is returned after 11 requests. *)
Theorem SendWithRetry_decides notify w v env :
  no_breaker w v -> not_reported_open w v ->
  (forall k r, k <= MaxRetries -> all_retry v env 0 k -> a_ctxDone (env k) = None ->
     outcome v (env k) = inl r -> a_newReq (env k) = None ->
     exists ev, SendWithRetry notify w v env = (w, ev, r) /\ sends ev = S k)
  /\ (all_retry v env 0 (S MaxRetries) ->
     exists ev e ra, outcome v (env MaxRetries) = inr (e, ra)
       /\ SendWithRetry notify w v env = (w, ev, inl (Some e)) /\ sends ev = 11).
Proof.
  intros Hb Hr. split.
  - intros k r Hk Ha Hc Ho Hn. unfold MaxRetries in Hk.
    apply (send_loop_stops k 11 0 notify w v env None 0 r Hb Hr Ha Hc Ho Hn). lia.
  - intros Ha. exact (send_loop_exhausts MaxRetries 0 notify w v env None 0 Hb Hr Ha).
Qed.

(** An open breaker whose timeout has not passed refuses the call before
    any request is sent, and is left as it was. *)
Theorem SendWithRetry_open_breaker notify w v env p cb :
  checkers w !! v = None -> vendorCircuitBreaker w !! v = Some p -> heap w !! p = Some cb ->
  cb_state cb = Open_ -> (a_t1 (env 0%nat) - lastFailure cb < Timeout_ (cb_options cb))%Z ->
  SendWithRetry notify w v env =
  (w, [], inl (Some (EMsg ("circuit breaker open for vendor " +:+ Vendor_String v)))).
Proof.
  intros Hc Hv Hp Ho Hf. unfold SendWithRetry, MaxRetries. rewrite send_loop_unfold. cbv zeta.
  cbn [Nat.ltb Nat.leb pre_events]. unfold send_attempt, GetStatus. rewrite Hc.
  rewrite bool_decide_eq_false_2 by done. unfold vcb_Check. rewrite Hv.
  unfold heap_Check, cb_Check. rewrite Hp, Ho, (proj2 (Z.leb_gt _ _) Hf). cbn [negb]. rewrite insert_id by done.
  by destruct w.
Qed.

(** ** Witnesses and examples *)

Definition w_plain : hworld := mkW ∅ ∅ ∅ ∅.
Definition env_503_then_ok (i : nat) : attempt_env :=
  mkAttempt None 100 0 0 None
    (match i with
     | 0 => inr (mkResp 503 "2" "busy")
     | 1 => inl EConnReset
     | _ => inr (mkResp 200 "" "ok")
     end).

Lemma SendWithRetry_bounded_witness :
  exists w' ev res, SendWithRetry true w_plain VendorQwen env_503_then_ok = (w', ev, res)
    /\ sends ev <= 11 /\ length (waits ev) <= 10 /\ Forall bounded_wait (waits ev).
Proof.
  do 3 eexists. split; [vm_compute; reflexivity|].
  eapply (SendWithRetry_bounded true w_plain VendorQwen env_503_then_ok).
  - intros i. vm_compute. split; [discriminate|reflexivity].
  - vm_compute. reflexivity.
Defined.

Lemma SendWithRetry_decides_witness :
  exists ev, SendWithRetry true w_plain VendorQwen env_503_then_ok = (w_plain, ev, inr (mkResp 200 "" "ok"))
    /\ sends ev = 3.
Proof.
  refine (proj1 (SendWithRetry_decides true w_plain VendorQwen env_503_then_ok _ _) 2
            (inr (mkResp 200 "" "ok")) _ _ _ _ _).
  - split; [reflexivity|]. intros p. unfold w_plain. simpl. rewrite lookup_empty. discriminate.
  - exact I.
  - unfold MaxRetries. lia.
  - intros j Hj. split; [reflexivity|].
    destruct j as [|[|j]]; [do 2 eexists; vm_compute; reflexivity..|lia].
  - reflexivity.
  - vm_compute. reflexivity.
  - reflexivity.
Defined.

Lemma SendWithRetry_open_breaker_witness :
  SendWithRetry false (mkW {[ 0%nat := mkCB 0 3 Open_ opts3 ]} {[ VendorQwen := 0%nat ]} ∅ ∅) VendorQwen
    env_503_then_ok =
  (mkW {[ 0%nat := mkCB 0 3 Open_ opts3 ]} {[ VendorQwen := 0%nat ]} ∅ ∅, [],
   inl (Some (EMsg ("circuit breaker open for vendor " +:+ Vendor_String VendorQwen)))).
Proof.
  apply (SendWithRetry_open_breaker false _ VendorQwen env_503_then_ok 0 (mkCB 0 3 Open_ opts3));
    vm_compute; reflexivity.
Defined.

(** The events of that run: a server-imposed delay of 2 s, then the second
    step of the exponential backoff with its jitter. *)
Example retry_trace :
  (SendWithRetry true w_plain VendorQwen env_503_then_ok).1.2 =
  [EvSend; EvNotify 1 10; EvWait (2 * Second); EvSend; EvNotify 2 10;
   EvWait (1000 * Millisecond + 100 * Millisecond); EvSend].
Proof. vm_compute. reflexivity. Qed.

(** The 36th attempt of a larger retry budget would overflow the delay. *)
Example backoffDelay_overflow : (backoffDelay 36 0 0 < 0)%Z.
Proof. vm_compute. reflexivity. Qed.
