(* ===== verification/Vendor.v ===== *)
(** * Vendors, base URLs and failover settings

    [protocol/host.go] (vendor detection), [protocol/vendor_policy.go] (the
    reasoning fields of a request body), [protocol/failover.go] and
    [protocol/url_validator.go]. [url.Parse] and [net.ParseIP] are arguments:
    the definitions say what the code does with their results. *)
From stdpp Require Import base tactics list gmap strings.
From Stdlib Require Import ZArith Lia.
From S2P Require Import Prelude GoStrings Types.

(** What the code reads of a parsed URL: [u.Scheme] and [u.Hostname()]. *)
Record URL := mkURL { Scheme : string; Hostname : string }.

Section Host.
Context (url_Parse : string -> option URL).

Definition matchesVendorHost (baseURL apex : string) (canonicals : list string) : bool :=
  match url_Parse baseURL with
  | None => false
  | Some u =>
      let host := ToLower (Hostname u) in
      if existsb (String.eqb host) canonicals then true
      else HasSuffix host ("." +:+ apex)
  end.

Definition IsDeepSeek (b : string) : bool := matchesVendorHost b "deepseek.com" ["api.deepseek.com"].
Definition IsMiniMax (b : string) : bool := matchesVendorHost b "minimaxi.com" ["api.minimaxi.com"].
Definition IsMiMo (b : string) : bool := matchesVendorHost b "xiaomimimo.com" ["api.xiaomimimo.com"].
Definition IsZhipu (b : string) : bool :=
  matchesVendorHost b "bigmodel.cn" ["open.bigmodel.cn"] || matchesVendorHost b "z.ai" ["api.z.ai"].
Definition IsLongCat (b : string) : bool := matchesVendorHost b "longcat.chat" ["api.longcat.chat"].
Definition IsOllamaCloud (b : string) : bool := matchesVendorHost b "ollama.com" ["ollama.com"].
Definition IsStepFun (b : string) : bool := matchesVendorHost b "stepfun.com" ["api.stepfun.com"].
Definition IsQwen (b : string) : bool := matchesVendorHost b "aliyuncs.com" ["dashscope.aliyuncs.com"].

Definition DetectVendor (b : string) : Vendor :=
  if IsDeepSeek b then VendorDeepSeek
  else if IsMiniMax b then VendorMiniMax
  else if IsMiMo b then VendorMiMo
  else if IsZhipu b then VendorZhipu
  else if IsLongCat b then VendorLongCat
  else if IsOllamaCloud b then VendorOllamaCloud
  else if IsStepFun b then VendorStepFun
  else if IsQwen b then VendorQwen
  else VendorUnspecified.
End Host.

(** ** Reasoning policy *)

Inductive reasoningPolicy := reasoningNone | reasoningEffort | reasoningThinking.

Definition isThinkingVendor (v : Vendor) : bool :=
  match v with
  | VendorDeepSeek | VendorZhipu | VendorMiniMax | VendorLongCat | VendorMiMo
  | VendorStepFun | VendorQwen => true
  | _ => false
  end.

Definition isEffortVendor (v : Vendor) : bool := negb (isThinkingVendor v).

Definition vendorDefaultEffort (v : Vendor) : string :=
  match v with VendorMiniMax => "adaptive" | _ => "enabled" end.

Definition vendorDefaultThinkingType (v : Vendor) : string :=
  match v with VendorDeepSeek => "enabled" | _ => "enabled" end.

(** A request body under construction: [map[string]any]. *)
Abbreviation body_map := (gmap string any).

Definition thinking_field (t : string) : any := AObj [("type", AStr t)].

Definition buildThinkingFields (m : body_map) (v : Vendor) (policy : reasoningPolicy)
    (effort thinkingType : string) : body_map :=
  let or_default t d := if t =s "" then d else t in
  match policy with
  | reasoningThinking =>
      match v with
      | VendorDeepSeek =>
          if thinkingType =s "disabled" then <["thinking" := thinking_field "disabled"]> m
          else <["thinking" := thinking_field (or_default thinkingType (vendorDefaultThinkingType v))]> m
      | VendorMiniMax | VendorZhipu =>
          <["thinking" := thinking_field (or_default effort (vendorDefaultEffort v))]> m
      | _ => <["thinking" := thinking_field (or_default thinkingType (vendorDefaultThinkingType v))]> m
      end
  | reasoningEffort => if effort <>s "" then <["reasoning_effort" := AStr effort]> m else m
  | reasoningNone => m
  end.

Definition resolveReasoningPolicy (v : Vendor) : reasoningPolicy :=
  if isThinkingVendor v then reasoningThinking else reasoningEffort.

Definition defaultHealthEndpoint (v : Vendor) (baseURL : string) : string :=
  TrimRight baseURL "/" +:+ "/models".

(** ** Failover settings: [FailoverConfig] *)

Record FailoverConfig := mkFailover {
  fo_MaxRetries : Z;
  ShouldFailover : option (string -> string -> option gerror -> bool);
  GetFailoverModel : option (string -> string -> string * string * bool) }.

Definition shouldFailover (c : FailoverConfig) (model vendor : string) (err : option gerror) : bool :=
  match ShouldFailover c with None => true | Some f => f model vendor err end.

Definition getFailoverModel (c : FailoverConfig) (model vendor : string) : string * string * bool :=
  match GetFailoverModel c with None => ("", "", false) | Some f => f model vendor end.

Definition maxRetries (c : FailoverConfig) : Z :=
  if (fo_MaxRetries c <=? 0)%Z then 2%Z else fo_MaxRetries c.

Definition defaultFailoverConfig : FailoverConfig :=
  mkFailover 2 (Some (fun _ _ _ => true)) (Some (fun _ _ => ("", "", false))).

(** The zero value of the struct. *)
Definition zeroFailover : FailoverConfig := mkFailover 0 None None.

(** ** Private addresses

    [net.IP]: [V4] for what [To4] accepts (mapped addresses included), [V6]
    for the 16 bytes of any other address. *)
Inductive IP := V4 (a b c d : Z) | V6 (l : list Z).

Definition byte_at (l : list Z) (i : nat) : Z := List.nth i l 0%Z.

Definition ipv6_loopback : list Z := List.repeat 0%Z 15 ++ [1%Z].

Definition IsLoopback (ip : IP) : bool :=
  match ip with V4 a _ _ _ => (a =? 127)%Z | V6 l => bool_decide (l = ipv6_loopback) end.
Definition IsUnspecified (ip : IP) : bool :=
  match ip with
  | V4 a b c d => ((a =? 0) && (b =? 0) && (c =? 0) && (d =? 0))%Z
  | V6 l => bool_decide (l = List.repeat 0%Z 16)
  end.
Definition IsLinkLocalUnicast (ip : IP) : bool :=
  match ip with
  | V4 a b _ _ => ((a =? 169) && (b =? 254))%Z
  | V6 l => ((byte_at l 0 =? 254) && (Z.land (byte_at l 1) 192 =? 128))%Z
  end.
Definition IsLinkLocalMulticast (ip : IP) : bool :=
  match ip with
  | V4 a b c _ => ((a =? 224) && (b =? 0) && (c =? 0))%Z
  | V6 l => ((byte_at l 0 =? 255) && (Z.land (byte_at l 1) 15 =? 2))%Z
  end.

(** [cidr.Contains(ip)] for the networks of the table: an address of the
    other family is never contained. *)
Inductive cidr := Net4 (addr mask : Z * Z * Z * Z) | Net6 (addr mask : list Z).

Definition cidr_Contains (n : cidr) (ip : IP) : bool :=
  match n, ip with
  | Net4 (na, nb, nc, nd) (ma, mb, mc, md), V4 a b c d =>
      ((Z.land a ma =? na) && (Z.land b mb =? nb) && (Z.land c mc =? nc) && (Z.land d md =? nd))%Z
  | Net6 addr mask, V6 l =>
      forallb (fun x => (Z.land x.1.1 x.1.2 =? x.2)%Z) (combine (combine l mask) addr)
  | _, _ => false
  end.

Definition privateRanges : list cidr :=
  [ Net4 (127, 0, 0, 0) (255, 0, 0, 0);
    Net4 (10, 0, 0, 0) (255, 0, 0, 0);
    Net4 (172, 16, 0, 0) (255, 240, 0, 0);
    Net4 (192, 168, 0, 0) (255, 255, 0, 0);
    Net4 (169, 254, 0, 0) (255, 255, 0, 0);
    Net6 ipv6_loopback (List.repeat 255 16);
    Net6 (252 :: List.repeat 0 15) (254 :: List.repeat 0 15);
    Net6 (254 :: 128 :: List.repeat 0 14) (255 :: 192 :: List.repeat 0 14) ]%Z.

Definition isPrivateIP (ip : IP) : bool :=
  if IsLoopback ip || IsUnspecified ip || IsLinkLocalUnicast ip || IsLinkLocalMulticast ip then true
  else existsb (fun n => cidr_Contains n ip) privateRanges.

Section Url.
Context (url_Parse : string -> option URL) (ParseIP : string -> option IP).

Definition privateHosts : list string :=
  ["localhost"; "127.0.0.1"; "0.0.0.0"; "::1"; "0.0.0.0"; "169.254.0.1"].

(** The loop over [parts[1]]: the value of its leading decimal digits, at
    Go's 64-bit width. *)
Fixpoint leading_int (acc : Z) (s : string) : Z :=
  match s with
  | EmptyString => acc
  | String c s' => match digit_val c with
                   | Some d => leading_int (wrap64 (wrap64 (acc * 10) + d)) s'
                   | None => acc
                   end
  end.

Definition isPrivateHost (host : string) : bool :=
  let ip := match ParseIP host with
            | Some ip => Some ip
            | None => if HasPrefix host "[" && HasSuffix host "]"
                      then ParseIP (str_take (String.length host - 2) (str_drop 1 host)) else None
            end in
  match ip with
  | Some ip => isPrivateIP ip
  | None =>
      let lower := ToLower host in
      if existsb (String.eqb lower) privateHosts then true
      else if HasSuffix lower ".local" || HasSuffix lower ".localhost" then true
      else if HasPrefix lower "10." || HasPrefix lower "192.168." then true
      else if HasPrefix lower "172." then
        match split_byte "." lower with
        | _ :: p1 :: _ =>
            let second := leading_int 0 p1 in ((16 <=? second) && (second <=? 31))%Z
        | _ => false
        end
      else false
  end.

(** The [Reason] of a [URLValidationError]; the text of a parse error is an
    argument of the model. *)
Inductive url_reason := ParseError | UnsupportedScheme (s : string) | MissingHost | PrivateBlocked.

(** [ValidateBaseURL]: [allowPrivate] is [os.Getenv("ALLOW_PRIVATE_URLS") == "true"]. *)
Definition ValidateBaseURL (allowPrivate : bool) (rawURL : string) : option url_reason :=
  if rawURL =s "" then None
  else match url_Parse rawURL with
       | None => Some ParseError
       | Some u =>
           let scheme := ToLower (Scheme u) in
           if (scheme <>s "http") && (scheme <>s "https") then Some (UnsupportedScheme (Scheme u))
           else if Hostname u =s "" then Some MissingHost
           else if negb allowPrivate && isPrivateHost (Hostname u) then Some PrivateBlocked
           else None
       end.

Definition proxyVars : list string :=
  ["HTTP_PROXY"; "HTTPS_PROXY"; "http_proxy"; "https_proxy";
   "ALL_PROXY"; "all_proxy"; "NO_PROXY"; "no_proxy"].

(** [ValidateProxyEnv] over the environment: the value and variable refused. *)
Fixpoint proxy_loop (getenv : string -> string) (keys : list string) : option (string * string) :=
  match keys with
  | [] => None
  | key :: keys' =>
      let val := getenv key in
      if val =s "" then proxy_loop getenv keys'
      else
        let val := TrimSpace val in
        if negb (HasPrefix val "http://") && negb (HasPrefix val "https://")
           && negb (HasPrefix val "socks5://") && negb (HasPrefix val "socks5h://")
        then Some (val, key)
        else proxy_loop getenv keys'
  end.

Definition ValidateProxyEnv (getenv : string -> string) : option (string * string) :=
  proxy_loop getenv proxyVars.

(** [(e *URLValidationError) Error()]. *)
Definition URLValidationError_Error (URL Reason : string) : string :=
  if (URL <>s "") && (Reason <>s "") then "invalid URL " +:+ URL +:+ ": " +:+ Reason
  else if Reason <>s "" then Reason
  else "invalid URL: " +:+ URL.
End Url.

(** * Properties *)

Definition is_byte (z : Z) : Prop := (0 <= z < 256)%Z.

Lemma is_byte_in z : is_byte z -> z ∈ (Z.of_nat <$> seq 0 256).
Proof. intros [??]. apply list_elem_of_fmap. exists (Z.to_nat z). rewrite elem_of_seq. lia. Qed.

(** A fact about one byte, checked on all 256 of them. *)
Lemma byte_cases (p : Z -> bool) :
  forallb p (Z.of_nat <$> seq 0 256) = true -> forall z, is_byte z -> p z = true.
Proof.
  rewrite forallb_Forall, Forall_forall. intros H z Hz. by apply H, is_byte_in.
Qed.

Lemma land_255 z : is_byte z -> Z.land z 255 = z.
Proof.
  intros Hz. apply Z.eqb_eq. revert z Hz.
  apply (byte_cases (fun z => Z.land z 255 =? z)%Z). vm_compute. reflexivity.
Qed.

Lemma land_240_16 z : is_byte z -> (Z.land z 240 =? 16)%Z = ((16 <=? z) && (z <=? 31))%Z.
Proof.
  intros Hz. apply eqb_prop. revert z Hz.
  apply (byte_cases (fun z => Bool.eqb (Z.land z 240 =? 16) ((16 <=? z) && (z <=? 31)))%Z).
  vm_compute. reflexivity.
Qed.

(** The IPv4 addresses the check blocks, as the documented ranges. *)
Definition private_v4 (a b c d : Z) : Prop :=
  (a = 127 \/ a = 10 \/ (a = 172 /\ 16 <= b <= 31) \/ (a = 192 /\ b = 168) \/ (a = 169 /\ b = 254)
   \/ (a = 0 /\ b = 0 /\ c = 0 /\ d = 0) \/ (a = 224 /\ b = 0 /\ c = 0))%Z.

Lemma isPrivateIP_v4 a b c d :
  is_byte a -> is_byte b -> is_byte c -> is_byte d ->
  isPrivateIP (V4 a b c d) = true <-> private_v4 a b c d.
Proof.
  intros Ha Hb Hc Hd. unfold isPrivateIP, private_v4. simpl.
  rewrite !land_255, !Z.land_0_r, land_240_16 by done. simpl.
  rewrite <- !orb_lazy_alt. rewrite !orb_true_iff, !andb_true_iff, !Z.eqb_eq, !Z.leb_le.
  clear. intuition (lia || discriminate).
Qed.

(** A base URL that is accepted while private URLs are not allowed has an
    http(s) scheme and a host; when the host is an IPv4 literal it lies in none
    of the private, loopback, link-local or unspecified ranges, and a host that
    is no literal is none of the local names. *)
Theorem ValidateBaseURL_safe url_Parse ParseIP rawURL u :
  ValidateBaseURL url_Parse ParseIP false rawURL = None -> rawURL <> "" ->
  url_Parse rawURL = Some u ->
  (ToLower (Scheme u) = "http" \/ ToLower (Scheme u) = "https") /\ Hostname u <> ""
  /\ (forall a b c d, is_byte a -> is_byte b -> is_byte c -> is_byte d ->
        ParseIP (Hostname u) = Some (V4 a b c d) -> ~ private_v4 a b c d)
  /\ (forall ip, ParseIP (Hostname u) = Some ip -> isPrivateIP ip = false)
  /\ (ParseIP (Hostname u) = None -> HasPrefix (Hostname u) "[" = false ->
        ToLower (Hostname u) ∉ privateHosts /\ HasSuffix (ToLower (Hostname u)) ".local" = false
        /\ HasSuffix (ToLower (Hostname u)) ".localhost" = false).
Proof.
  intros H Hne Hu. unfold ValidateBaseURL in H. rewrite Hu in H.
  rewrite (proj2 (String.eqb_neq _ _) Hne) in H.
  destruct ((ToLower (Scheme u) <>s "http") && (ToLower (Scheme u) <>s "https")) eqn:Es; [done|].
  destruct (Hostname u =s "") eqn:Eh; [done|]. cbn [negb andb] in H.
  destruct (isPrivateHost ParseIP (Hostname u)) eqn:Ep; [done|]. clear H.
  assert (forall ip, ParseIP (Hostname u) = Some ip -> isPrivateIP ip = false) as Hip.
  { intros ip E. unfold isPrivateHost in Ep. by rewrite E in Ep. }
  split; [|split; [by bool_prop|split; [|split; [exact Hip|]]]].
  - destruct (ToLower (Scheme u) =s "http") eqn:E1; [left; by bool_prop|].
    destruct (ToLower (Scheme u) =s "https") eqn:E2; [right; by bool_prop|done].
  - intros a b c d Ha Hb Hc Hd E Hp. apply Hip in E.
    apply isPrivateIP_v4 in Hp; [|done..]. congruence.
  - intros E1 E2. unfold isPrivateHost in Ep. rewrite E1, E2 in Ep. cbn [andb] in Ep.
    destruct (existsb (String.eqb (ToLower (Hostname u))) privateHosts) eqn:Ex; [done|].
    destruct (HasSuffix (ToLower (Hostname u)) ".local"); [done|].
    destruct (HasSuffix (ToLower (Hostname u)) ".localhost"); [done|].
    split; [|done]. intros Hin. apply existsb_false_forallb, forallb_Forall in Ex.
    rewrite Forall_forall in Ex. specialize (Ex _ Hin). simpl in Ex. by rewrite String.eqb_refl in Ex.
Qed.

Definition demo_parse (s : string) : option URL :=
  if s =s "https://api.deepseek.com" then Some (mkURL "https" "api.deepseek.com")
  else if s =s "https://8.8.8.8" then Some (mkURL "https" "8.8.8.8") else None.
Definition demo_ip (s : string) : option IP :=
  if s =s "8.8.8.8" then Some (V4 8 8 8 8) else None.

Lemma ValidateBaseURL_safe_witness : ~ private_v4 8 8 8 8 /\ isPrivateIP (V4 8 8 8 8) = false.
Proof.
  destruct (ValidateBaseURL_safe demo_parse demo_ip "https://8.8.8.8" (mkURL "https" "8.8.8.8"))
    as (_ & _ & H4 & H5 & _); [vm_compute; reflexivity|discriminate|vm_compute; reflexivity|].
  split; [apply H4; [split; lia..|vm_compute; reflexivity]|apply H5; vm_compute; reflexivity].
Defined.

(** The usual value of [NO_PROXY], a list of hosts, is refused as a proxy URL
    without a scheme. *)
Example NO_PROXY_refused :
  ValidateProxyEnv (fun k => if k =s "NO_PROXY" then "localhost" else "") = Some ("localhost", "NO_PROXY").
Proof. vm_compute. reflexivity. Qed.

Example DetectVendor_deepseek : DetectVendor demo_parse "https://api.deepseek.com" = VendorDeepSeek.
Proof. vm_compute. reflexivity. Qed.
