(* ===== verification/RateLimit.v ===== *)
(** * Rate limiter

    [protocol/ratelimit.go]: a fixed one-minute window of request and token
    counters. The mutex serializes the calls, so a history is a sequence of
    [Wait] steps; the clock readings and the end of the context are arguments
    of each step. *)
From stdpp Require Import base tactics list strings.
From Stdlib Require Import ZArith Lia.
From S2P Require Import Prelude Types.

Record RateLimiter := mkRL {
  rpm : Z; tpm : Z; window : Z; rCount : Z; tCount : Z }.

(** The window starts at Go's zero time, far before any clock reading: [zero]
    is its distance, at least a minute before the first call. *)
Definition NewRateLimiter (rpm tpm zero : Z) : RateLimiter := mkRL rpm tpm zero 0 0.

(** One call of [Wait]: the readings of the clock before ([now]) and after the
    sleep ([later]), and the context's error if it ends during the sleep. *)
Record wait_env := mkWaitEnv { now : Z; later : Z; ctxDone : option gerror; tokens : Z }.

(** Counters after the window roll-over and the increments. *)
Definition rl_roll (rl : RateLimiter) (e : wait_env) : RateLimiter :=
  let rl := if (Minute <=? now e - window rl)%Z then mkRL (rpm rl) (tpm rl) (now e) 0 0 else rl in
  mkRL (rpm rl) (tpm rl) (window rl) (wrap64 (rCount rl + 1)) (wrap64 (tCount rl + tokens e)).

(** The sleep the call computes. *)
Definition rl_wait (rl : RateLimiter) (e : wait_env) : Z :=
  let wait := if ((0 <? rpm rl) && (rpm rl <? rCount rl))%Z then (Minute - (now e - window rl))%Z else 0%Z in
  if ((0 <? tpm rl) && (tpm rl <? tCount rl))%Z then
    let d := (Minute - (now e - window rl))%Z in if (wait <? d)%Z then d else wait
  else wait.

(** [Wait]: the limiter after the call, the time slept and the error. *)
Definition Wait (rl : RateLimiter) (e : wait_env) : RateLimiter * Z * option gerror :=
  if ((rpm rl <=? 0) && (tpm rl <=? 0))%Z then (rl, 0%Z, None)
  else
    let rl1 := rl_roll rl e in
    let wait := rl_wait rl1 e in
    if (wait <=? 0)%Z then (rl1, 0%Z, None)
    else match ctxDone e with
         | Some err => (rl1, wait, Some err)
         | None => (mkRL (rpm rl1) (tpm rl1) (later e) 0 0, wait, None)
         end.

(** * Properties *)

(** Histories: the admission time of each call that returned without error. *)
Definition admitted_at (e : wait_env) (slept : Z) : Z := if (slept <=? 0)%Z then now e else later e.

Fixpoint rl_run (rl : RateLimiter) (es : list wait_env) : RateLimiter * list Z :=
  match es with
  | [] => (rl, [])
  | e :: es' =>
      let '(rl1, slept, err) := Wait rl e in
      let '(rl2, l) := rl_run rl1 es' in
      (rl2, match err with None => admitted_at e slept :: l | Some _ => l end)
  end.

Lemma Minute_pos : (0 < Minute)%Z.
Proof. reflexivity. Qed.

(** A sleeping call sleeps at most one minute when the clock does not run
    backwards from the window's start. *)
Lemma rl_wait_bound rl e :
  (window rl <= now e)%Z -> (0 <= rl_wait rl e <= Minute)%Z \/ (rl_wait rl e < 0)%Z.
Proof.
  intros H. pose proof Minute_pos. unfold rl_wait.
  destruct ((0 <? rpm rl) && (rpm rl <? rCount rl))%Z, ((0 <? tpm rl) && (tpm rl <? tCount rl))%Z;
    try destruct (_ <? _)%Z eqn:E; bool_prop; lia.
Qed.

Lemma rl_roll_window rl e :
  (window rl <= now e)%Z ->
  (window (rl_roll rl e) <= now e < window (rl_roll rl e) + Minute)%Z.
Proof.
  intros H. pose proof Minute_pos. unfold rl_roll.
  destruct (Minute <=? now e - window rl)%Z eqn:E; bool_prop; cbn [window]; lia.
Qed.

(** What one call does, on every branch, when the clock is not behind the
    window. With both limits off the limiter is untouched. Otherwise a call
    that finds either counter above its limit sleeps until exactly the end of
    the current window (a positive time, at most a minute); if the context ends
    first its error is returned and the call stays counted; else the counters
    restart at zero. A call within the limits does not sleep and is counted. *)
Theorem Wait_spec rl e rl' slept err :
  (window rl <= now e)%Z -> Wait rl e = (rl', slept, err) ->
  let rl1 := rl_roll rl e in
  let over := ((0 <? rpm rl1) && (rpm rl1 <? rCount rl1) || (0 <? tpm rl1) && (tpm rl1 <? tCount rl1))%Z in
  if ((rpm rl <=? 0) && (tpm rl <=? 0))%Z then rl' = rl /\ slept = 0%Z /\ err = None
  else if over then
    slept = (window rl1 + Minute - now e)%Z /\ (0 < slept <= Minute)%Z /\ err = ctxDone e
    /\ rl' = match ctxDone e with Some _ => rl1 | None => mkRL (rpm rl) (tpm rl) (later e) 0 0 end
  else slept = 0%Z /\ err = None /\ rl' = rl1.
Proof.
  intros Hw H rl1 over. pose proof (rl_roll_window rl e Hw) as Hr. fold rl1 in Hr.
  unfold Wait in H. destruct ((rpm rl <=? 0) && (tpm rl <=? 0))%Z; [by simplify_eq|].
  fold rl1 in H.
  assert (rl_wait rl1 e = if over then (window rl1 + Minute - now e)%Z else 0%Z) as Hwait.
  { unfold rl_wait, over. clear over H Hw. revert Hr. clearbody rl1. clear.
    intros Hr. destruct ((0 <? rpm rl1) && (rpm rl1 <? rCount rl1))%Z,
      ((0 <? tpm rl1) && (tpm rl1 <? tCount rl1))%Z; cbn [orb];
      try destruct (_ <? _)%Z eqn:E; bool_prop; lia. }
  rewrite Hwait in H. clearbody over. destruct over.
  - destruct (_ <=? 0)%Z eqn:E in H; bool_prop; [lia|].
    assert (rpm rl1 = rpm rl /\ tpm rl1 = tpm rl) as [Hr1 Hr2].
    { unfold rl1, rl_roll. by destruct (_ <=? _)%Z. }
    rewrite Hr1, Hr2 in H.
    destruct (ctxDone e); simplify_eq; repeat split; lia.
  - simplify_eq. cbn in H. by simplify_eq.
Qed.

Definition rl_full : RateLimiter := mkRL 2 0 0 2 0.
Definition env_over : wait_env := mkWaitEnv (10 * Second) (60 * Second) None 7.

Lemma Wait_spec_witness :
  Wait rl_full env_over = (mkRL 2 0 (60 * Second) 0 0, (50 * Second)%Z, None)
  /\ (50 * Second = 0 + Minute - 10 * Second)%Z.
Proof.
  split; [reflexivity|].
  refine (proj1 (Wait_spec rl_full env_over (mkRL 2 0 (60 * Second) 0 0) (50 * Second) None _ eq_refl)).
  vm_compute. discriminate.
Defined.

(** The call that slept is not counted in the window it opens: with a limit of
    two requests per minute, three calls are admitted in the minute that
    starts when the sleep ends. *)
Example Wait_admits_one_extra :
  let e t := mkWaitEnv t t None 0 in
  rl_run rl_full [env_over; e (61 * Second); e (62 * Second)]%Z
  = (mkRL 2 0 (60 * Second) 2 0, [60 * Second; 61 * Second; 62 * Second])%Z.
Proof. reflexivity. Qed.
