(* ===== verification/Telemetry.v ===== *)
(** * Call telemetry

    [protocol/telemetry.go]: the last call's record, the context-window
    thresholds and the counters. A duration is kept in nanoseconds (the source
    stores seconds as a float that is only formatted); the usage tracker is the
    list of the records handed to it. *)
From stdpp Require Import base tactics list gmap strings.
From Stdlib Require Import ZArith Lia.
From S2P Require Import Prelude GoStrings Types.

Record CallRecord := mkCall {
  crModel : string; crVendor : string; Duration : Z;
  crPrompt : Z; crCompletion : Z }.

(** What [tracker.Record] receives. *)
Record tracked := mkTracked { trSession : string; trCall : CallRecord }.

Record Telemetry := mkTel {
  last : CallRecord; warnPct : Z; comprPct : Z; lastWarn : bool; lastCompr : bool;
  chunkBytes : Z; toolCalls : Z; tel_errors : Z; tel_sessionID : string;
  tracker : option (list tracked) }.

Definition NewTelemetry : Telemetry :=
  mkTel (mkCall "" "" 0 0 0) 40 50 false false 0 0 0 "" None.

Definition modelWindows : list (string * Z) :=
  [("gpt-4", 8192); ("gpt-4-32k", 32768); ("gpt-4-turbo", 128000); ("gpt-4o", 128000);
   ("gpt-4o-mini", 128000); ("claude-3-haiku", 200000); ("claude-3-sonnet", 200000);
   ("claude-3-opus", 200000); ("claude-3-5-haiku", 200000); ("claude-3-5-sonnet", 200000);
   ("deepseek-chat", 65536); ("deepseek-reasoner", 65536); ("step-2-16k", 16384);
   ("step-1-128k", 131072); ("qwen-turbo", 8192); ("qwen-plus", 32768);
   ("qwq-32b-preview", 32768)]%Z.

Definition ModelContextWindow (model : string) : Z :=
  match List.find (fun p => p.1 =s model) modelWindows with
  | Some p => p.2
  | None =>
      if Contains model "128k" || Contains model "128K" then 128000
      else if Contains model "200k" || Contains model "200K" then 200000
      else if Contains model "step" || Contains model "Step" then 128000
      else if Contains model "qwen" || Contains model "Qwen" then 32768
      else 524288
  end%Z.

(** [usage.PromptTokens * 100 / maxCtx]: Go's product wraps and its division
    truncates towards zero. *)
Definition context_pct (u : Usage) (maxCtx : Z) : Z :=
  Z.quot (wrap64 (PromptTokens u * 100)) maxCtx.

(** [record]: the state after the call and the returned pair. *)
Definition record (t : Telemetry) (sessionID model vendor : string) (dur : Z) (usage : option Usage)
  : Telemetry * (bool * bool) :=
  let prompt := match usage with Some u => PromptTokens u | None => 0%Z end in
  let completion := match usage with Some u => CompletionTokens u | None => 0%Z end in
  let call := mkCall model vendor dur prompt completion in
  let '(warn, compress) :=
    match usage with
    | Some u =>
        if (0 <? warnPct t)%Z then
          let maxCtx := ModelContextWindow model in
          if (0 <? maxCtx)%Z then
            let pct := context_pct u maxCtx in
            ((warnPct t <=? pct)%Z, ((0 <? comprPct t) && (comprPct t <=? pct))%Z)
          else (false, false)
        else (false, false)
    | None => (false, false)
    end in
  (mkTel call (warnPct t) (comprPct t) warn compress (chunkBytes t) (toolCalls t) (tel_errors t)
         (tel_sessionID t) (option_map (fun l => l ++ [mkTracked sessionID call]) (tracker t)),
   (warn, compress)).

Definition Record_ (t : Telemetry) (model vendor : string) (dur : Z) (usage : option Usage)
  : Telemetry * (bool * bool) := record t (tel_sessionID t) model vendor dur usage.

(** [RecordFromContext]: [sid] is the context's session id, or the empty string. *)
Definition RecordFromContext (t : Telemetry) (sid model vendor : string) (dur : Z) (usage : option Usage)
  : Telemetry * (bool * bool) := record t sid model vendor dur usage.

Definition SetTracker (t : Telemetry) (ut : option (list tracked)) : Telemetry :=
  mkTel (last t) (warnPct t) (comprPct t) (lastWarn t) (lastCompr t) (chunkBytes t) (toolCalls t)
        (tel_errors t) (tel_sessionID t) ut.

Definition SetSessionID (t : Telemetry) (sid : string) : Telemetry :=
  mkTel (last t) (warnPct t) (comprPct t) (lastWarn t) (lastCompr t) (chunkBytes t) (toolCalls t)
        (tel_errors t) sid (tracker t).

Definition SetThresholds (t : Telemetry) (w c : Z) : Telemetry :=
  mkTel (last t) w c (lastWarn t) (lastCompr t) (chunkBytes t) (toolCalls t)
        (tel_errors t) (tel_sessionID t) (tracker t).

Definition LastWarning (t : Telemetry) : bool * bool := (lastWarn t, lastCompr t).

Definition RecordChunkBytes (t : Telemetry) (n : Z) : Telemetry :=
  mkTel (last t) (warnPct t) (comprPct t) (lastWarn t) (lastCompr t) (wrap64 (chunkBytes t + n))
        (toolCalls t) (tel_errors t) (tel_sessionID t) (tracker t).

Definition RecordToolCall (t : Telemetry) : Telemetry :=
  mkTel (last t) (warnPct t) (comprPct t) (lastWarn t) (lastCompr t) (chunkBytes t)
        (wrap64 (toolCalls t + 1)) (tel_errors t) (tel_sessionID t) (tracker t).

Definition RecordError (t : Telemetry) : Telemetry :=
  mkTel (last t) (warnPct t) (comprPct t) (lastWarn t) (lastCompr t) (chunkBytes t) (toolCalls t)
        (wrap64 (tel_errors t + 1)) (tel_sessionID t) (tracker t).

Definition RecordUsage (t : Telemetry) (usage : option Usage) : Telemetry :=
  match usage with
  | None => t
  | Some u =>
      mkTel (mkCall (crModel (last t)) (crVendor (last t)) (Duration (last t))
                    (PromptTokens u) (CompletionTokens u))
            (warnPct t) (comprPct t) (lastWarn t) (lastCompr t) (chunkBytes t) (toolCalls t)
            (tel_errors t) (tel_sessionID t) (tracker t)
  end.

(** * Properties *)

(** Every model has a positive window, so the guard [maxCtx > 0] always holds
    and the division is defined. *)
Lemma ModelContextWindow_pos model : (8192 <= ModelContextWindow model)%Z.
Proof.
  unfold ModelContextWindow. destruct (List.find _ _) as [p|] eqn:E.
  - apply List.find_some in E as [Hin _].
    assert (Forall (fun p => (8192 <= p.2)%Z) modelWindows) as H
      by (repeat constructor; discriminate).
    rewrite Forall_forall in H. apply H. by apply list_elem_of_In.
  - repeat case_match; lia.
Qed.

Lemma context_pct_mono u u' m :
  (0 < m)%Z -> (0 <= PromptTokens u <= PromptTokens u')%Z -> (PromptTokens u' < 2 ^ 56)%Z ->
  (context_pct u m <= context_pct u' m)%Z.
Proof.
  intros Hm H1 H2. unfold context_pct.
  rewrite !wrap64_id by (unfold int64_range; lia).
  rewrite !Z.quot_div_nonneg by lia. apply Z.div_le_mono; lia.
Qed.

(** The recommendation to compress implies the warning whenever the
    compression threshold is not below the warning threshold, and each is given
    exactly when the prompt takes at least that percentage of the model's
    window, for every prompt length whose product fits 64 bits. *)
Theorem record_thresholds t sid model vendor dur u :
  (0 < warnPct t <= comprPct t)%Z -> (0 <= PromptTokens u < 2 ^ 56)%Z ->
  let '(t', (warn, compress)) := record t sid model vendor dur (Some u) in
  let w := ModelContextWindow model in
  (warn = true <-> (warnPct t * w <= PromptTokens u * 100)%Z)
  /\ (compress = true <-> (comprPct t * w <= PromptTokens u * 100)%Z)
  /\ (compress = true -> warn = true)
  /\ LastWarning t' = (warn, compress)
  /\ last t' = mkCall model vendor dur (PromptTokens u) (CompletionTokens u).
Proof.
  intros Ht Hp. unfold record. pose proof (ModelContextWindow_pos model) as Hw.
  revert Hw. generalize (ModelContextWindow model). intros w Hw.
  rewrite (proj2 (Z.ltb_lt 0 (warnPct t))) by lia.
  rewrite (proj2 (Z.ltb_lt 0 w)) by lia.
  assert (forall p, (p <= context_pct u w <-> p * w <= PromptTokens u * 100)%Z) as Hc.
  { intros p. unfold context_pct. rewrite wrap64_id by (unfold int64_range; lia).
    rewrite Z.quot_div_nonneg by lia. split; intros H.
    - pose proof (Z.mul_div_le (PromptTokens u * 100) w). nia.
    - apply Z.div_le_lower_bound; lia. }
  rewrite (proj2 (Z.ltb_lt 0 (comprPct t))) by lia. cbn [andb].
  rewrite <- !Hc, !Z.leb_le. repeat split; lia.
Qed.

Lemma record_thresholds_witness :
  let '(t', (warn, compress)) :=
    record NewTelemetry "s" "gpt-4" "openai" 5 (Some (mkUsage 4000 10 4010)) in
  let w := ModelContextWindow "gpt-4" in
  (warn = true <-> (40 * w <= 4000 * 100)%Z)
  /\ (compress = true <-> (50 * w <= 4000 * 100)%Z)
  /\ (compress = true -> warn = true)
  /\ LastWarning t' = (warn, compress)
  /\ last t' = mkCall "gpt-4" "openai" 5 4000 10.
Proof.
  exact (record_thresholds NewTelemetry "s" "gpt-4" "openai" 5 (mkUsage 4000 10 4010)
           ltac:(split; [reflexivity|discriminate]) ltac:(split; [discriminate|reflexivity])).
Defined.
