(* ===== verification/Stats.v ===== *)
(** * Statistics of a call, as text

    The formatting half of [protocol/telemetry.go], the statistics of the model
    bridge ([internal/adk/llm/bridge.go]) and of the server's chat model
    ([internal/server/chatmodel.go]), and what the server makes of them
    ([getStatsMap]). *)
From stdpp Require Import base tactics list strings pretty.
From Stdlib Require Import ZArith NArith Lia.
From S2P Require Import Prelude GoStrings GoRegex Types GoJSONText GoJSONStruct GoFloat Telemetry.

(** [humanTok] *)
Definition humanTok (n : Z) : string :=
  if (1000 * 1000 <=? n)%Z then fixed1 (f_div (of_int n) (of_int (1000 * 1000))) +:+ "M"
  else if (1000 <=? n)%Z then fixed1 (f_div (of_int n) (of_int 1000)) +:+ "k"
  else pretty n.

(** [fmt.Sprintf("%.0f%%", float64(n)*100/float64(maxCtx))]; the sign of a
    negative count is printed in front, also of a rounded zero. *)
Definition percent (n maxCtx : Z) : string :=
  (if (n <? 0)%Z then "-" else "") +:+ fixed0 (f_div (f_mul (of_int (Z.abs n)) (of_int 100)) (of_int maxCtx)) +:+ "%".

(** [fmt.Sprintf("%.0fs", r.Duration)] *)
Definition duration_text (r : CallRecord) : string := fixed0 (Seconds (Duration r)) +:+ "s".

(** [FormatLine] *)
Definition FormatLine (t : Telemetry) (sep : string) : string :=
  let r := last t in
  let inTok := humanTok (crPrompt r) in
  let outTok := humanTok (crCompletion r) in
  let maxCtx := ModelContextWindow (crModel r) in
  duration_text r +:+ sep +:+ crModel r
  +:+ (if (inTok <>s "0") || (outTok <>s "0") then sep +:+ "↑" +:+ inTok +:+ sep +:+ "↓" +:+ outTok else "")
  +:+ (if (0 <? maxCtx)%Z && (0 <? crPrompt r)%Z
       then sep +:+ "ctx " +:+ humanTok (crPrompt r) +:+ "/" +:+ humanTok maxCtx +:+ " " +:+ percent (crPrompt r) maxCtx
       else "").

(** [FormatMap] *)
Definition FormatMap (t : Telemetry) : list (string * any) :=
  let r := last t in
  let maxCtx := ModelContextWindow (crModel r) in
  [("duration", AStr (duration_text r)); ("model", AStr (crModel r));
   ("in_tokens", int_tree (crPrompt r)); ("out_tokens", int_tree (crCompletion r));
   ("in_tokens_h", AStr (humanTok (crPrompt r))); ("out_tokens_h", AStr (humanTok (crCompletion r)))]
  ++ (if (0 <? maxCtx)%Z then
        [("ctx_max", int_tree maxCtx); ("ctx_max_h", AStr (humanTok maxCtx)); ("ctx_pct", AStr (percent (crPrompt r) maxCtx))]
      else []).

(** [Bridge.StatsLine] and [Bridge.StatsJSON], the same in [ChatModel]:
    [tel] is the telemetry of a protocol that has one. *)
Definition StatsLine (tel : option Telemetry) (model : string) : string :=
  match tel with Some t => FormatLine t " · " | None => model end.
Definition StatsJSON (tel : option Telemetry) : string :=
  match tel with Some t => Marshal (AObj (FormatMap t)) | None => "" end.

(** [getStatsMap]: [None] is nil. *)
Definition getStatsMap (num : string -> option string) (json : string) : option (list (string * any)) :=
  if json =s "" then None
  else match Unmarshal num json with Some (AObj m) => Some m | _ => None end.

(** * Properties *)

(** ** Numbers *)

(** Integers below [2 ^ 53] are exact. *)
Lemma of_int_exact n : (0 <= n < 2 ^ 53)%Z -> f_num (of_int n) = (n * f_den (of_int n))%Z.
Proof.
  intros Hn. unfold of_int, nearest. destruct (Z.eqb_spec n 0) as [->|H0]; [done|]. cbn [f_num f_den]. cbv zeta.
  assert (last_bit n 1 <= 0)%Z as He.
  { unfold last_bit. assert (Z.log2 n < 53)%Z by (apply Z.log2_lt_pow2; lia). change (Z.log2 1) with 0%Z. case_match; lia. }
  rewrite (pow2_neg (last_bit n 1)) by done. rewrite Z.mul_1_r. by rewrite <- (Z.mul_1_r (n * pow2 _)) at 1; rewrite rne_exact.
Qed.

(** The arithmetic of a printed quotient: [P/Q] is the quotient [a/b] up to one
    part in [2 ^ 53], and [k] its tenths. *)
Lemma tenths_close n d a b P Q k : (0 <= n < 2 ^ 48)%Z -> (0 < d)%Z -> (0 < b)%Z -> (0 < Q)%Z ->
  (a * d = n * b)%Z -> (2 ^ 53 * Z.abs (P * b - a * Q) <= a * Q)%Z -> (Z.abs (2 * (k * Q - P * 10)) <= Q)%Z ->
  (2 * Z.abs (k * d - 10 * n) <= d)%Z.
Proof.
  intros Hn Hd Hb HQ Hab Hx Hk.
  assert ((k * d - 10 * n) * (Q * b) = d * (b * (k * Q - P * 10) + 10 * (P * b - a * Q)))%Z as E.
  { transitivity (k * d * Q * b - 10 * (n * b) * Q)%Z; [ring|]. rewrite <- Hab. ring. }
  assert (Z.abs ((k * d - 10 * n) * (Q * b)) <= d * (b * Z.abs (k * Q - P * 10) + 10 * Z.abs (P * b - a * Q)))%Z as Habs.
  { rewrite E, Z.abs_mul, (Z.abs_eq d) by lia. apply Z.mul_le_mono_nonneg_l; [lia|].
    etransitivity; [apply Z.abs_triangle|]. rewrite !Z.abs_mul, (Z.abs_eq b) by lia. cbn [Z.abs]. lia. }
  rewrite Z.abs_mul, (Z.abs_eq (Q * b)) in Habs by nia. rewrite Z.abs_mul in Hk. cbn [Z.abs] in Hk.
  set (u := Z.abs (k * d - 10 * n)) in *. set (v := Z.abs (k * Q - P * 10)) in *. set (w := Z.abs (P * b - a * Q)) in *.
  assert (2 ^ 53 * (2 * (u * (Q * b))) <= (2 ^ 53 * d + 20 * n) * (Q * b))%Z as Hu.
  { assert (d * (a * Q) = n * (Q * b))%Z by nia. assert (d * (b * (2 * v)) <= d * (b * Q))%Z by nia.
    assert (d * (2 ^ 53 * w) <= d * (a * Q))%Z by nia. nia. }
  assert (2 ^ 53 * (2 * u) <= 2 ^ 53 * d + 20 * n)%Z as Hf by (apply (Z.mul_le_mono_pos_r _ _ (Q * b)); nia). lia.
Qed.

(** A quotient of two integers, printed with one decimal: the nearest number of
    tenths, up to ties. *)
Lemma fixed1_quotient n d : (0 <= n < 2 ^ 48)%Z -> (0 < d < 2 ^ 20)%Z ->
  exists k, fixed1 (f_div (of_int n) (of_int d)) = tenths k /\ (0 <= k /\ 2 * Z.abs (k * d - 10 * n) <= d)%Z.
Proof.
  intros Hn Hd. unfold fixed1.
  destruct (nearest_close n 1) as (Dn & Nn & _); [lia|lia|]. destruct (nearest_close d 1) as (Dd & Nd & _); [lia|lia|].
  fold (of_int n) in Dn, Nn. fold (of_int d) in Dd, Nd. pose proof (of_int_exact n ltac:(lia)) as En. pose proof (of_int_exact d ltac:(lia)) as Ed.
  unfold f_div. set (a := (f_num (of_int n) * f_den (of_int d))%Z). set (b := (f_den (of_int n) * f_num (of_int d))%Z).
  assert (0 <= a)%Z as Ha by (unfold a; nia). assert (0 < b)%Z as Hb by (unfold b; rewrite Ed; nia).
  assert (a * d = n * b)%Z as Hab by (unfold a, b; rewrite En, Ed; ring).
  destruct (nearest_close a b Ha Hb) as (Dx & Nx & Hx). set (x := nearest a b) in *.
  pose proof (rne_close (f_num x * 10) (f_den x) Dx) as Hk. pose proof (rne_nonneg (f_num x * 10) (f_den x) ltac:(lia) Dx).
  eexists. split; [reflexivity|]. split; [done|]. by apply (tenths_close n d a b (f_num x) (f_den x)); try lia.
Qed.

(** C39: The abbreviated counts are right to the digit shown: below a thousand the
    count itself, then thousands and millions with one decimal, each the
    nearest tenth. *)
Theorem humanTok_close n : (n < 2 ^ 48)%Z ->
  if (n <? 1000)%Z then humanTok n = pretty n
  else exists k, humanTok n = tenths k +:+ (if (n <? 1000 * 1000)%Z then "k" else "M")
    /\ (2 * Z.abs (k * (if (n <? 1000 * 1000)%Z then 1000 else 1000 * 1000) - 10 * n)
        <= (if (n <? 1000 * 1000)%Z then 1000 else 1000 * 1000))%Z.
Proof.
  intros Hn. unfold humanTok. destruct (Z.ltb_spec n 1000) as [H1|H1].
  - by rewrite !(proj2 (Z.leb_gt _ _)) by lia.
  - destruct (Z.ltb_spec n (1000 * 1000)) as [H2|H2].
    + rewrite (proj2 (Z.leb_gt (1000 * 1000) n)), (proj2 (Z.leb_le 1000 n)) by lia.
      destruct (fixed1_quotient n 1000) as (k & -> & _ & Hk); [lia|lia|]. by exists k.
    + rewrite (proj2 (Z.leb_le (1000 * 1000) n)) by lia.
      destruct (fixed1_quotient n (1000 * 1000)) as (k & -> & _ & Hk); [lia|lia|]. by exists k.
Qed.

Lemma humanTok_close_witness : exists k, humanTok 1549 = tenths k +:+ "k" /\ (2 * Z.abs (k * 1000 - 10 * 1549) <= 1000)%Z.
Proof. exact (humanTok_close 1549 eq_refl). Defined.

(** Ties follow the binary fractions; the last counts before a million show a
    thousand thousands. *)
Example humanTok_ex : humanTok <$> [999; 1000; 1050; 1150; 1250; 12345; 999949; 999950; 1000000; 123456789; -5]%Z
  = ["999"; "1.0k"; "1.1k"; "1.1k"; "1.2k"; "12.3k"; "999.9k"; "1000.0k"; "1.0M"; "123.5M"; "-5"].
Proof. vm_compute. reflexivity. Qed.

(** ** The statistics as JSON *)

Definition ascii_text (s : string) : bool := forallb (fun c => nat_of_ascii c <? 128)%nat (String.list_ascii_of_string s).

Lemma ascii_app a b : ascii_text (a +:+ b) = ascii_text a && ascii_text b.
Proof.
  unfold ascii_text. induction a as [|c a IH]; [done|]. cbn [String.append String.list_ascii_of_string forallb]. by rewrite IH, andb_assoc.
Qed.

Lemma ascii_utf8 s : ascii_text s = true -> utf8b s = true.
Proof.
  intros H. apply utf8b_complete. induction s as [|c s IH]; [constructor|].
  apply andb_prop in H as [Hc Hs]. eapply (utf8_rune _ (Z.of_nat (nat_of_ascii c)) s); [|unfold bad_rune|by apply IH].
  - unfold decode_rune. by rewrite Hc.
  - apply Nat.ltb_lt in Hc. by rewrite (proj2 (Z.eqb_neq _ _)) by (unfold rune_error; lia).
Qed.

Lemma digits_ascii ds : forallb (fun c => (48 <=? nat_of_ascii c) && (nat_of_ascii c <=? 57))%nat (String.list_ascii_of_string ds) = true ->
  ascii_text ds = true.
Proof.
  unfold ascii_text. rewrite !forallb_Forall. intros H. eapply Forall_impl; [exact H|]. intros c Hc. cbv beta in Hc. apply andb_prop in Hc as [_ Hc%Nat.leb_le]. apply Nat.ltb_lt. lia.
Qed.

Lemma pretty_N_ascii p : ascii_text (pretty_N_go (Npos p) "") = true.
Proof.
  destruct (pretty_digits (Npos p) "" ltac:(lia)) as (c & ds & -> & Hc & Hds & _). rewrite str_app_nil_r.
  change (ascii_text (String c "" +:+ ds) = true). rewrite ascii_app, (digits_ascii ds Hds), andb_true_r.
  by destruct c as [[] [] [] [] [] [] [] []].
Qed.

Lemma pretty_ascii (z : Z) : ascii_text (pretty z) = true.
Proof.
  destruct z as [|p|p]; [done|exact (pretty_N_ascii p)|].
  change (ascii_text ("-" +:+ pretty_N_go (Npos p) "") = true). by rewrite ascii_app, pretty_N_ascii.
Qed.

Lemma humanTok_ascii n : ascii_text (humanTok n) = true.
Proof.
  unfold humanTok, fixed1, tenths. destruct (_ <=? n)%Z; [by rewrite !ascii_app, !pretty_ascii|].
  destruct (_ <=? n)%Z; [by rewrite !ascii_app, !pretty_ascii|apply pretty_ascii].
Qed.

Lemma percent_ascii n m : ascii_text (percent n m) = true.
Proof. unfold percent, fixed0. rewrite !ascii_app, pretty_ascii. by destruct (n <? 0)%Z. Qed.

Lemma duration_ascii r : ascii_text (duration_text r) = true.
Proof. unfold duration_text, fixed0. by rewrite ascii_app, pretty_ascii. Qed.

Lemma window_range model : (8192 <= ModelContextWindow model <= 524288)%Z.
Proof.
  unfold ModelContextWindow. destruct (List.find _ modelWindows) as [p|] eqn:E; [|repeat case_match; lia].
  apply List.find_some in E as [Hin _]. revert p Hin. apply List.Forall_forall. repeat constructor; simpl; lia.
Qed.

(** The number parser gives an integer back as it was written. *)
Definition keeps_int (num : string -> option string) (z : Z) : Prop := num (pretty z) = Some (pretty z).

Lemma int_fine num z : in_int64 z = true -> keeps_int num z -> wf_any num (int_tree z) = true.
Proof.
  intros Hz Hk. destruct (int_tree_fine z Hz) as [Hw _]. unfold int_tree in *. cbn [wf_any] in *. bool_prop.
  by rewrite H, H1, bool_decide_eq_true_2.
Qed.

Lemma FormatMap_fields t : (fun p => (p.1, canon p.2)) <$> FormatMap t = FormatMap t.
Proof. unfold FormatMap. by destruct (0 <? _)%Z. Qed.

Lemma FormatMap_wf num t : utf8b (crModel (last t)) = true ->
  in_int64 (crPrompt (last t)) = true -> in_int64 (crCompletion (last t)) = true ->
  Forall (keeps_int num) [crPrompt (last t); crCompletion (last t); ModelContextWindow (crModel (last t))] ->
  wf_any num (AObj (FormatMap t)) = true.
Proof.
  intros Hm P1 C1 [P2 [C2 [X2 _]%Forall_cons]%Forall_cons]%Forall_cons.
  pose proof (window_range (crModel (last t))) as Hw.
  assert (in_int64 (ModelContextWindow (crModel (last t))) = true) as X1 by (apply andb_true_intro; split; [apply Z.leb_le|apply Z.ltb_lt]; lia).
  unfold FormatMap. rewrite (proj2 (Z.ltb_lt 0 _)) by lia.
  cbn [wf_any app]. rewrite bool_decide_eq_true_2 by (apply (bool_decide_unpack _); vm_compute; exact I).
  cbn [forallb fst snd wf_any]. rewrite !int_fine, Hm by done. rewrite !(ascii_utf8 (humanTok _)) by apply humanTok_ascii.
  rewrite (ascii_utf8 (duration_text _)), (ascii_utf8 (percent _ _)) by first [apply duration_ascii|apply percent_ascii].
  vm_compute. reflexivity.
Qed.

(** The statistics that [HandleChat] returns are those of the last call: the
    JSON text of the bridge is decoded to the same fields, sorted, for a model
    name in valid UTF-8 and counts that a [float64] holds exactly. *)
Theorem stats_roundtrip num t :
  utf8b (crModel (last t)) = true ->
  in_int64 (crPrompt (last t)) = true -> in_int64 (crCompletion (last t)) = true ->
  Forall (keeps_int num) [crPrompt (last t); crCompletion (last t); ModelContextWindow (crModel (last t))] ->
  getStatsMap num (StatsJSON (Some t)) = Some (sort_fields (FormatMap t)).
Proof.
  intros Hm Hp Hc Hz. unfold getStatsMap, StatsJSON.
  assert (Marshal (AObj (FormatMap t)) =s "" = false) as -> by done.
  rewrite (Unmarshal_Marshal num (AObj (FormatMap t))); [|by apply FormatMap_wf|].
  - cbn [canon]. f_equal. f_equal. apply FormatMap_fields.
  - pose proof (window_range (crModel (last t))). unfold FormatMap. rewrite (proj2 (Z.ltb_lt 0 _)) by lia. vm_compute. discriminate.
Qed.

Definition demo_stats : Telemetry :=
  mkTel (mkCall "gpt-4o" "openai" (2600 * Millisecond) 45678 321) 40 50 false false 0 0 0 "" None.

Lemma stats_roundtrip_witness : getStatsMap Some (StatsJSON (Some demo_stats))
  = Some [("ctx_max", ANum "128000"); ("ctx_max_h", AStr "128.0k"); ("ctx_pct", AStr "36%"); ("duration", AStr "3s");
          ("in_tokens", ANum "45678"); ("in_tokens_h", AStr "45.7k"); ("model", AStr "gpt-4o");
          ("out_tokens", ANum "321"); ("out_tokens_h", AStr "321")].
Proof.
  rewrite (stats_roundtrip Some demo_stats); [vm_compute; reflexivity|vm_compute; reflexivity|reflexivity|reflexivity|].
  repeat constructor.
Defined.

Example stats_line_ex : StatsLine (Some demo_stats) "" = "3s · gpt-4o · ↑45.7k · ↓321 · ctx 45.7k/128.0k 36%".
Proof. vm_compute. reflexivity. Qed.

(** The telemetry keeps one last call for all requests: a handler whose call is
    followed by another one shows the other's numbers. *)
Lemma FormatMap_last t t' : last t = last t' -> FormatMap t = FormatMap t'.
Proof. unfold FormatMap. by intros ->. Qed.

Lemma record_last t sid model vendor d u :
  last (record t sid model vendor d (Some u)).1 = mkCall model vendor d (PromptTokens u) (CompletionTokens u).
Proof. unfold record. by repeat case_match. Qed.

Example stats_of_another_call t t0 mine theirs d1 d2 u1 u2 :
  FormatMap (record (record t "alice" mine "v" d1 (Some u1)).1 "bob" theirs "v" d2 (Some u2)).1
  = FormatMap (record t0 "bob" theirs "v" d2 (Some u2)).1.
Proof. apply FormatMap_last. by rewrite !record_last. Qed.
