(* ===== verification/Usage.v ===== *)
(** * The usage store and its query server

    [protocol/usage_tracker.go], [protocol/raw_query.go] and
    [protocol/mcp_server.go]: token counts are written to an SQL database, read
    back by filtered and grouped queries, and served over a websocket that only
    answers local peers. The database engine behind [database/sql], the JSON
    decoding of requests and [url.Parse], [net.ParseIP], [net.SplitHostPort]
    are arguments; that a closed [sql.DB] refuses every call is not. *)
From stdpp Require Import base tactics list sets strings.
From Stdlib Require Import ZArith Lia.
From S2P Require Import Prelude GoStrings Types Vendor.

(** ** SQL texts *)

(** An argument of a statement; a float is its literal. *)
Inductive sqlval := SText (s : string) | SInt (z : Z) | SReal (lit : string).

Record UsageQuery := mkUsageQuery {
  uq_SessionID : string; uq_Model : string; uq_Vendor : string; uq_Since : string; uq_Until : string;
  uq_Limit : Z; uq_Offset : Z }.

(** [if v != "" { where += clause; args = append(args, v) }] *)
Definition add_cond (v clause : string) (wa : string * list sqlval) : string * list sqlval :=
  if v <>s "" then (wa.1 +:+ clause, wa.2 ++ [SText v]) else wa.

(** [if where != "" { where = " WHERE " + where\[5:\] }] *)
Definition with_where (w : string) : string := if w <>s "" then " WHERE " +:+ str_drop 5 w else w.

Definition query_limit (limit : Z) : Z :=
  let limit := if (limit <=? 0)%Z then 100%Z else limit in if (1000 <? limit)%Z then 1000%Z else limit.
Definition query_offset (offset : Z) : Z := if (offset <? 0)%Z then 0%Z else offset.

(** The text and the arguments [Query] runs. *)
Definition query_sql (f : UsageQuery) : string * list sqlval :=
  let '(w, args) :=
    add_cond (uq_Until f) " AND created_at <= ?" (add_cond (uq_Since f) " AND created_at >= ?"
      (add_cond (uq_Vendor f) " AND vendor = ?" (add_cond (uq_Model f) " AND model = ?"
        (add_cond (uq_SessionID f) " AND session_id = ?" ("", []))))) in
  ("SELECT id, session_id, model, vendor, duration, prompt_tokens, completion_tokens, total_tokens, created_at FROM usage_records"
     +:+ with_where w +:+ " ORDER BY id DESC LIMIT ? OFFSET ?",
   args ++ [SInt (query_limit (uq_Limit f)); SInt (query_offset (uq_Offset f))]).

Definition daily_sql (since until : string) : string * list sqlval :=
  let '(w, args) := add_cond until " AND created_at <= ?" (add_cond since " AND created_at >= ?" ("", [])) in
  ("SELECT DATE(created_at) as day, COUNT(*), AVG(duration), COALESCE(SUM(total_tokens),0), COALESCE(SUM(prompt_tokens),0), COALESCE(SUM(completion_tokens),0), COUNT(DISTINCT model) FROM usage_records"
     +:+ with_where w +:+ " GROUP BY day ORDER BY day DESC", args).

Definition models_sql : string :=
  "SELECT model, COUNT(*), AVG(duration), COALESCE(SUM(total_tokens),0), COALESCE(SUM(prompt_tokens),0), COALESCE(SUM(completion_tokens),0) FROM usage_records GROUP BY model ORDER BY COUNT(*) DESC".
Definition vendors_sql : string :=
  "SELECT vendor, COUNT(*), AVG(duration), COALESCE(SUM(total_tokens),0), COALESCE(SUM(prompt_tokens),0), COALESCE(SUM(completion_tokens),0) FROM usage_records GROUP BY vendor ORDER BY COUNT(*) DESC".
Definition stats_sql : string :=
  "SELECT COUNT(*), COALESCE(AVG(duration),0), COALESCE(SUM(total_tokens),0), COALESCE(SUM(prompt_tokens),0), COALESCE(SUM(completion_tokens),0) FROM usage_records".
Definition insert_sql : string :=
  "INSERT INTO usage_records(session_id, model, vendor, duration, prompt_tokens, completion_tokens, total_tokens, created_at) VALUES(?,?,?,?,?,?,?,?)".

(** ** The tracker *)

Record UsageRecord := mkUsageRecord {
  ur_ID : Z; ur_SessionID : string; ur_Model : string; ur_Vendor : string; ur_Duration : string;
  ur_PromptTokens : Z; ur_CompletionTokens : Z; ur_TotalTokens : Z; ur_CreatedAt : string }.

(** One row of the grouped queries; the key is a day, a model or a vendor, and
    only days count models. *)
Record GroupUsage := mkGroupUsage {
  gu_Key : string; gu_CallCount : Z; gu_AvgDuration : string; gu_TotalTokens : Z; gu_TotalPrompt : Z;
  gu_TotalCompletion : Z; gu_ModelCount : option Z }.
Record UsageStats := mkUsageStats {
  us_TotalCalls : Z; us_AvgDuration : string; us_TotalTokens : Z; us_TotalPrompt : Z; us_TotalCompletion : Z }.

(** The rows of a query: what each [Scan] gives, and [rows.Err()] at the end. *)
Definition rows (R : Type) : Type := list (gerror + R) * option gerror.

(** [for rows.Next() { ... }]: the first scan that fails ends the loop. *)
Fixpoint scan_rows {R} (acc : list R) (l : list (gerror + R)) (err : option gerror) : gerror + list R :=
  match l with
  | [] => match err with Some e => inl e | None => inr acc end
  | inl e :: _ => inl e
  | inr r :: l' => scan_rows (acc ++ [r]) l' err
  end.

Definition ErrDBClosed : gerror := EMsg "sql: database is closed".
Definition ErrTrackerClosed : gerror := EMsg "usage tracker closed".

(** A database engine. *)
Class Engine (D : Type) := {
  eng_Exec : D -> string -> list sqlval -> D * option gerror;
  eng_Records : D -> string -> list sqlval -> gerror + rows UsageRecord;
  eng_Groups : D -> string -> list sqlval -> gerror + rows GroupUsage;
  eng_Stats : D -> string -> gerror + UsageStats;
  eng_Close : D -> option gerror }.

Section Tracker.
Context {D : Type} `{!Engine D}.

(** [db] with whether it is closed, and whether [stmt] is set. *)
Record UsageTracker := mkTracker { ut_db : D; ut_closed : bool; ut_stmt : bool }.

(** [Record]; [now] is the time as RFC 3339. *)
Definition ut_Record (ut : UsageTracker) (now sessionID m vendor durSec : string) (promptTks completionTks : Z)
  : UsageTracker * option gerror :=
  let total := wrap64 (promptTks + completionTks) in
  if negb (ut_stmt ut) then (ut, Some ErrTrackerClosed)
  else let '(d, err) := eng_Exec (ut_db ut) insert_sql
         [SText sessionID; SText m; SText vendor; SReal durSec; SInt promptTks; SInt completionTks; SInt total; SText now] in
       (mkTracker d (ut_closed ut) (ut_stmt ut), err).

(** A query through [database/sql] and the loop over its rows. *)
Definition run_rows {R} (ut : UsageTracker) (q : gerror + rows R) : gerror + list R :=
  if ut_closed ut then inl ErrDBClosed
  else match q with inl e => inl e | inr (l, err) => scan_rows [] l err end.

Definition Query (ut : UsageTracker) (f : UsageQuery) : gerror + list UsageRecord :=
  let '(q, args) := query_sql f in run_rows ut (eng_Records (ut_db ut) q args).
Definition GetDailyStats (ut : UsageTracker) (since until : string) : gerror + list GroupUsage :=
  let '(q, args) := daily_sql since until in run_rows ut (eng_Groups (ut_db ut) q args).
Definition GetModelStats (ut : UsageTracker) : gerror + list GroupUsage := run_rows ut (eng_Groups (ut_db ut) models_sql []).
Definition GetVendorStats (ut : UsageTracker) : gerror + list GroupUsage := run_rows ut (eng_Groups (ut_db ut) vendors_sql []).
Definition GetStats (ut : UsageTracker) : gerror + UsageStats :=
  if ut_closed ut then inl ErrDBClosed else eng_Stats (ut_db ut) stats_sql.

Definition Close (ut : UsageTracker) : UsageTracker * option gerror :=
  (mkTracker (ut_db ut) true false, if ut_closed ut then None else eng_Close (ut_db ut)).
End Tracker.
Arguments UsageTracker D : clear implicits.

(** ** Opening *)

(** The calls [NewUsageTracker] makes. *)
Inductive dbcall := MkdirAll | Open | ExecWAL | ExecCreate | ExecIndex | PrepareInsert | CloseDB.

#[export] Instance dbcall_eq_dec : EqDecision dbcall.
Proof. solve_decision. Defined.

(** [fails] says which call fails; the calls made are returned with the error
    or the tracker's database. *)
Definition NewUsageTracker (fails : dbcall -> option gerror) : list dbcall * (gerror + unit) :=
  match fails MkdirAll with
  | Some e => ([MkdirAll], inl (EWrap "create db dir: " e))
  | None =>
      match fails Open with
      | Some e => ([MkdirAll; Open], inl (EWrap "open db: " e))
      | None =>
          match fails ExecWAL with
          | Some e => ([MkdirAll; Open; ExecWAL; CloseDB], inl (EWrap "enable WAL: " e))
          | None =>
              match fails ExecCreate with
              | Some e => ([MkdirAll; Open; ExecWAL; ExecCreate; CloseDB], inl (EWrap "create table: " e))
              | None =>
                  match fails ExecIndex with
                  | Some e => ([MkdirAll; Open; ExecWAL; ExecCreate; ExecIndex; CloseDB], inl (EWrap "create index: " e))
                  | None =>
                      match fails PrepareInsert with
                      | Some e => ([MkdirAll; Open; ExecWAL; ExecCreate; ExecIndex; PrepareInsert; CloseDB],
                                   inl (EWrap "prepare insert: " e))
                      | None => ([MkdirAll; Open; ExecWAL; ExecCreate; ExecIndex; PrepareInsert], inr tt)
                      end
                  end
              end
          end
      end
  end.

(** ** Placeholders and texts *)

Fixpoint marks (s : string) : nat :=
  match s with EmptyString => 0 | String c s' => (if Ascii.eqb c "?" then 1 else 0) + marks s' end.

(** Which filters are given. *)
Definition given (f : UsageQuery) : list bool :=
  map (fun v => v <>s "") [uq_SessionID f; uq_Model f; uq_Vendor f; uq_Since f; uq_Until f].

Lemma add_cond_cases v clause wa : add_cond v clause wa = if v =s "" then wa else (wa.1 +:+ clause, wa.2 ++ [SText v]).
Proof. unfold add_cond. by destruct (v =s ""). Qed.

Ltac filters f := destruct f as [v1 v2 v3 v4 v5 lim off]; unfold query_sql;
  cbn [uq_SessionID uq_Model uq_Vendor uq_Since uq_Until uq_Limit uq_Offset]; rewrite !add_cond_cases;
  destruct (v1 =s "") eqn:?, (v2 =s "") eqn:?, (v3 =s "") eqn:?, (v4 =s "") eqn:?, (v5 =s "") eqn:?; cbn [fst snd].

Lemma query_marks f : marks (query_sql f).1 = length (query_sql f).2.
Proof. filters f; vm_compute; reflexivity. Qed.

(** The text with a stand-in for each value that is given. *)
Definition query_text (l : list bool) : string :=
  let v i := if nth i l false then "x" else "" in (query_sql (mkUsageQuery (v 0) (v 1) (v 2) (v 3) (v 4) 0 0)).1.

Lemma query_text_given f : (query_sql f).1 = query_text (given f).
Proof.
  filters f; unfold query_text, given; cbn [map uq_SessionID uq_Model uq_Vendor uq_Since uq_Until];
    rewrite ?Heqb, ?Heqb0, ?Heqb1, ?Heqb2, ?Heqb3; vm_compute; reflexivity.
Qed.

(** C24: the text of a record query is fixed by which filters are given, never
    by their values, which only travel as arguments; every placeholder has its
    argument, in the order of the clauses; and the limit is between 1 and 1000
    and the offset not negative whatever the caller asked for. *)
Theorem query_sql_safe f :
  (forall g, given f = given g -> (query_sql f).1 = (query_sql g).1)
  /\ marks (query_sql f).1 = length (query_sql f).2
  /\ (query_sql f).2 = (SText <$> filter (fun v => v <> "") [uq_SessionID f; uq_Model f; uq_Vendor f; uq_Since f; uq_Until f])
       ++ [SInt (query_limit (uq_Limit f)); SInt (query_offset (uq_Offset f))]
  /\ (1 <= query_limit (uq_Limit f) <= 1000)%Z /\ (0 <= query_offset (uq_Offset f))%Z.
Proof.
  split; [|split; [apply query_marks|split; [|split]]].
  - intros g Hg. by rewrite !query_text_given, Hg.
  - filters f; bool_prop; subst; repeat first [rewrite filter_cons_False by (intros H; by apply H)|rewrite filter_cons_True by done];
      reflexivity.
  - unfold query_limit. repeat case_match; bool_prop; lia.
  - unfold query_offset. case_match; bool_prop; lia.
Qed.

(** A quote in a value stays in the arguments. *)
Lemma query_sql_safe_witness :
  (query_sql (mkUsageQuery "x' OR 1=1 --" "" "" "" "" 0 0)).1 = (query_sql (mkUsageQuery "s" "" "" "" "" 5 (-1))).1.
Proof.
  exact (proj1 (query_sql_safe (mkUsageQuery "x' OR 1=1 --" "" "" "" "" 0 0)) (mkUsageQuery "s" "" "" "" "" 5 (-1)) eq_refl).
Defined.

(** ** Lifecycle *)

(** opening the store either succeeds with every statement run, or fails
    with the error of the call that failed, wrapped, and then the database is
    closed exactly when it had been opened. *)
Theorem NewUsageTracker_closes fails : let '(calls, r) := NewUsageTracker fails in
  match r with
  | inr _ => calls = [MkdirAll; Open; ExecWAL; ExecCreate; ExecIndex; PrepareInsert] /\ Forall (fun c => fails c = None) calls
  | inl e => exists c pre e', fails c = Some e' /\ e = EWrap pre e'
      /\ (CloseDB ∈ calls <-> fails MkdirAll = None /\ fails Open = None)
  end.
Proof.
  unfold NewUsageTracker.
  repeat match goal with |- context [match fails ?c with _ => _ end] =>
    destruct (fails c) eqn:?; [eexists _, _, _; split; [eassumption|]; split; [reflexivity|]; set_solver|] end.
  split; [done|]. by repeat constructor.
Qed.

Section Lifecycle.
Context {D : Type} `{!Engine D}.

(** The operations of a tracker, as the program's parts call them. *)
Inductive op :=
| ORecord (now sid m v dur : string) (p c : Z) | OQuery (f : UsageQuery) | ODaily (since until : string)
| OModels | OVendors | OStats | OClose.

(** Whether the operation fails, and what it leaves. *)
Definition run_op (ut : UsageTracker D) (o : op) : UsageTracker D * option gerror :=
  let failed {A} (r : gerror + A) := match r with inl e => Some e | inr _ => None end in
  match o with
  | ORecord now sid m v dur p c => ut_Record ut now sid m v dur p c
  | OQuery f => (ut, failed (Query ut f))
  | ODaily s u => (ut, failed (GetDailyStats ut s u))
  | OModels => (ut, failed (GetModelStats ut))
  | OVendors => (ut, failed (GetVendorStats ut))
  | OStats => (ut, failed (GetStats ut))
  | OClose => Close ut
  end.

(** after the store is closed, any sequence of calls leaves the database
    as it was and every read or write fails: a record with the tracker's own
    error, a query with that of the closed database; closing again is harmless. *)
Theorem closed_refuses ut ops o :
  let ut1 := (Close ut).1 in
  let ut2 := foldl (fun u o => (run_op u o).1) ut1 ops in
  ut_db ut2 = ut_db ut /\
  match o with
  | ORecord _ _ _ _ _ _ _ => (run_op ut2 o).2 = Some ErrTrackerClosed
  | OClose => (run_op ut2 o).2 = None
  | _ => (run_op ut2 o).2 = Some ErrDBClosed
  end.
Proof.
  intros ut1 ut2. assert (forall l, foldl (fun u o => (run_op u o).1) ut1 l = ut1) as H.
  { intros l. induction l as [|x l IH]; [done|]. cbn [foldl]. rewrite <- IH at 2. f_equal. by destruct x. }
  unfold ut2. rewrite H. split; [done|]. destruct o; try done; cbn; unfold Query, GetDailyStats; by destruct (_ : string * list sqlval).
Qed.
End Lifecycle.

(** ** The query server *)

Record MCPRequest := mkMCPRequest { mq_ID : string; mq_Method : string; mq_Params : option string }.

(** [Result] by the type of the value that is put there. *)
Inductive mcp_result := RStats (s : UsageStats) | RGroups (l : list GroupUsage) | RRecords (l : list UsageRecord).
Record MCPResponse := mkMCPResponse {
  mr_ID : string; mr_Result : option mcp_result; mr_Error : option (Z * string) }.

Definition mcp_error (code : Z) (msg : string) : MCPResponse := mkMCPResponse "" None (Some (code, msg)).
Definition mcp_ok (r : mcp_result) : MCPResponse := mkMCPResponse "" (Some r) None.

Section Server.
Context {D : Type} `{!Engine D}.
(** [json.Unmarshal] of a request and of the parameters; [err.Error()]. *)
Context (decode_request : string -> option MCPRequest) (decode_daily : string -> option (string * string))
  (decode_query : string -> option UsageQuery) (error_text : gerror -> string).

Definition zeroQuery : UsageQuery := mkUsageQuery "" "" "" "" "" 0 0.

(** The end every handler has. *)
Definition mcp_reply {A} (r : gerror + A) (f : A -> mcp_result) : MCPResponse :=
  match r with inl e => mcp_error (-32000) (error_text e) | inr x => mcp_ok (f x) end.

Definition no_tracker : MCPResponse := mcp_error (-32000) "tracker not available".

Definition handleGetStats (t : option (UsageTracker D)) : MCPResponse :=
  match t with None => no_tracker | Some ut => mcp_reply (GetStats ut) RStats end.
Definition handleGetModels (t : option (UsageTracker D)) : MCPResponse :=
  match t with None => no_tracker | Some ut => mcp_reply (GetModelStats ut) RGroups end.
Definition handleGetVendors (t : option (UsageTracker D)) : MCPResponse :=
  match t with None => no_tracker | Some ut => mcp_reply (GetVendorStats ut) RGroups end.

Definition handleGetDaily (t : option (UsageTracker D)) (params : option string) : MCPResponse :=
  match t with
  | None => no_tracker
  | Some ut =>
      match match params with None => Some ("", "") | Some p => decode_daily p end with
      | None => mcp_error (-32602) "invalid params"
      | Some (since, until) => mcp_reply (GetDailyStats ut since until) RGroups
      end
  end.

Definition handleQueryRecords (t : option (UsageTracker D)) (params : option string) : MCPResponse :=
  match t with
  | None => no_tracker
  | Some ut =>
      match match params with None => Some zeroQuery | Some p => decode_query p end with
      | None => mcp_error (-32602) "invalid params"
      | Some q => mcp_reply (Query ut q) RRecords
      end
  end.

Definition handle (t : option (UsageTracker D)) (req : MCPRequest) : MCPResponse :=
  if mq_Method req =s "get_stats" then handleGetStats t
  else if mq_Method req =s "get_daily" then handleGetDaily t (mq_Params req)
  else if mq_Method req =s "get_models" then handleGetModels t
  else if mq_Method req =s "get_vendors" then handleGetVendors t
  else if mq_Method req =s "query_records" then handleQueryRecords t (mq_Params req)
  else mcp_error (-32601) ("unknown method: " +:+ mq_Method req).

Definition set_ID (i : string) (r : MCPResponse) : MCPResponse := mkMCPResponse i (mr_Result r) (mr_Error r).

(** The loop of [ServeHTTP]: [None] is a failed read; [writes n] says whether
    the n-th write succeeds. The responses it tries to write. *)
Fixpoint serve (t : option (UsageTracker D)) (writes : nat -> bool) (n : nat) (msgs : list (option string)) : list MCPResponse :=
  match msgs with
  | [] | None :: _ => []
  | Some msg :: msgs' =>
      match decode_request msg with
      | None => set_ID "" (mcp_error (-32700) "parse error") :: serve t writes (S n) msgs'
      | Some req =>
          set_ID (mq_ID req) (handle t req) :: (if writes n then serve t writes (S n) msgs' else [])
      end
  end.

(** ** Who is served *)

Context (url_Parse : string -> option URL) (ParseIP : string -> option IP) (SplitHostPort : string -> option string).

Definition isLoopbackHost (host : string) : bool :=
  let host := Trim host "[]" in
  if host =s "localhost" then true
  else match ParseIP host with Some ip => IsLoopback ip | None => false end.

Definition allowLocalOrigin (origin : string) : bool :=
  let origin := TrimSpace origin in
  if origin =s "" then true
  else match url_Parse origin with None => false | Some u => isLoopbackHost (Hostname u) end.

Definition isLocalRequest (remoteAddr : string) : bool :=
  isLoopbackHost (match SplitHostPort remoteAddr with Some host => host | None => remoteAddr end).

Inductive served := Forbidden | UpgradeFailed | Served (responses : list MCPResponse).

(** [upgraded] is whether the handshake succeeds for other reasons; the
    upgrader refuses an origin that [CheckOrigin] does not accept. *)
Definition ServeHTTP (localOnly : bool) (t : option (UsageTracker D)) (remoteAddr origin : string) (upgraded : bool)
    (writes : nat -> bool) (msgs : list (option string)) : served :=
  if localOnly && negb (isLocalRequest remoteAddr) then Forbidden
  else if negb (allowLocalOrigin origin && upgraded) then UpgradeFailed
  else Served (serve t writes 0 msgs).

(** ** Properties *)

(** The messages before the first failed read. *)
Fixpoint received (msgs : list (option string)) : list string :=
  match msgs with Some m :: msgs' => m :: received msgs' | _ => [] end.

Definition answers (t : option (UsageTracker D)) (msg : string) (r : MCPResponse) : Prop :=
  match decode_request msg with
  | None => mr_ID r = "" /\ mr_Error r = Some (-32700, "parse error")%Z /\ mr_Result r = None
  | Some req => mr_ID r = mq_ID req /\ mr_Result r = mr_Result (handle t req) /\ mr_Error r = mr_Error (handle t req)
  end.

Definition one_of (r : MCPResponse) : Prop :=
  match mr_Result r, mr_Error r with
  | Some _, None => True
  | None, Some (c, _) => c ∈ [-32700; -32601; -32602; -32000]%Z
  | _, _ => False
  end.

Lemma mcp_reply_one {A} (r : gerror + A) f : one_of (mcp_reply r f).
Proof. destruct r; [|done]. vm_compute. set_solver. Qed.

Lemma handle_one t req : one_of (handle t req).
Proof.
  assert (forall c m, c ∈ [-32700; -32601; -32602; -32000]%Z -> one_of (mcp_error c m)) as He by done.
  unfold handle, handleGetStats, handleGetDaily, handleGetModels, handleGetVendors, handleQueryRecords, no_tracker.
  destruct t as [ut|]; repeat (case_match; try apply mcp_reply_one); apply He; set_solver.
Qed.

Lemma serve_answers t writes n msgs : exists k, Forall2 (answers t) (take k (received msgs)) (serve t writes n msgs)
  /\ Forall one_of (serve t writes n msgs)
  /\ ((forall i, writes i = true) -> length (received msgs) <= k).
Proof.
  revert n. induction msgs as [|[msg|] msgs IH]; intros n; [by exists 0; repeat constructor| |by exists 0; repeat constructor].
  cbn [serve received]. destruct (IH (S n)) as (k & H1 & H2 & H3). unfold answers in *. destruct (decode_request msg) as [req|] eqn:E.
  - assert (one_of (set_ID (mq_ID req) (handle t req))) as Ho by exact (handle_one t req).
    destruct (writes n) eqn:Ew.
    + exists (S k). cbn [take]. split; [constructor; [by rewrite E|done]|]. split; [by constructor|].
      intros Hw. cbn [length]. specialize (H3 Hw). lia.
    + exists 1. cbn [take]. split; [constructor; [by rewrite E|by destruct (received msgs); constructor]|].
      split; [by repeat constructor|]. intros Hw. by rewrite Hw in Ew.
  - exists (S k). cbn [take]. split; [constructor; [by rewrite E|done]|]. split; [constructor; [vm_compute; set_solver|done]|].
    intros Hw. cbn [length]. specialize (H3 Hw). lia.
Qed.

(** the query server answers its messages in order, one response each,
    under the message's own id (an empty one when it cannot be decoded), until
    a read or the write of an answer fails; each response carries either a
    result or an error with one of the four codes; and when no write fails,
    every message that was read has been answered. *)
Theorem mcp_answers t writes msgs : exists k,
  Forall2 (answers t) (take k (received msgs)) (serve t writes 0 msgs) /\ Forall one_of (serve t writes 0 msgs)
  /\ ((forall i, writes i = true) -> length (serve t writes 0 msgs) = length (received msgs)).
Proof.
  destruct (serve_answers t writes 0 msgs) as (k & H1 & H2 & H3). exists k. split; [done|]. split; [done|].
  intros Hw. apply Forall2_length in H1. rewrite length_take in H1. specialize (H3 Hw). lia.
Qed.

(** whoever is served by the query server is on the local machine: the
    peer's address is a loopback one, and the origin a browser reports is
    absent or loopback too. *)
Theorem mcp_local_only t remoteAddr origin upgraded writes msgs rs :
  ServeHTTP true t remoteAddr origin upgraded writes msgs = Served rs ->
  isLoopbackHost (match SplitHostPort remoteAddr with Some host => host | None => remoteAddr end) = true
  /\ (TrimSpace origin = "" \/ exists u, url_Parse (TrimSpace origin) = Some u /\ isLoopbackHost (Hostname u) = true).
Proof.
  unfold ServeHTTP, isLocalRequest, allowLocalOrigin. cbn [andb]. destruct (isLoopbackHost _) eqn:E; [|done]. cbn [negb].
  destruct (String.eqb_spec (TrimSpace origin) "") as [H|H]; [by auto|].
  destruct (url_Parse (TrimSpace origin)) as [u|]; [|done]. destruct (isLoopbackHost (Hostname u)) eqn:Eu; [|done].
  intros _. split; [done|]. right. by exists u.
Qed.
End Server.

(** ** A concrete store *)

(** The inserted rows; it answers no filter. *)
#[export] Instance mem_engine : Engine (list (list sqlval)) := {
  eng_Exec d _ args := (d ++ [args], None);
  eng_Records d _ _ := inr ([], None);
  eng_Groups d _ _ := inr ([], None);
  eng_Stats d _ := inr (mkUsageStats (Z.of_nat (length d)) "0" 0 0 0);
  eng_Close d := None }.

Definition mem_tracker : UsageTracker (list (list sqlval)) := mkTracker [] false true.

Definition demo_request (msg : string) : option MCPRequest :=
  if msg =s "stats" then Some (mkMCPRequest "1" "get_stats" None)
  else if msg =s "daily" then Some (mkMCPRequest "2" "get_daily" (Some "{")) else None.

Definition demo_serve (remote : string) : served :=
  ServeHTTP demo_request (fun _ => None) (fun _ => None) (fun _ => "") (fun _ => None)
    (fun h => if h =s "127.0.0.1" then Some (V4 127 0 0 1) else None)
    (fun a => if HasPrefix a "127.0.0.1:" then Some "127.0.0.1" else None)
    true (Some mem_tracker) remote "" true (fun _ => true) [Some "stats"; Some "oops"; Some "daily"; None; Some "stats"].

Example demo_serve_ex :
  demo_serve "127.0.0.1:5000" = Served
    [mkMCPResponse "1" (Some (RStats (mkUsageStats 0 "0" 0 0 0))) None;
     mkMCPResponse "" None (Some ((-32700)%Z, "parse error"));
     mkMCPResponse "2" None (Some ((-32602)%Z, "invalid params"))]
  /\ demo_serve "10.0.0.7:5000" = Forbidden.
Proof. vm_compute. split; reflexivity. Qed.

Lemma mcp_local_only_witness :
  isLoopbackHost (fun h => if h =s "127.0.0.1" then Some (V4 127 0 0 1) else None) "127.0.0.1" = true.
Proof.
  refine (proj1 (mcp_local_only demo_request (fun _ => None) (fun _ => None) (fun _ => "") (fun _ => None)
    (fun h => if h =s "127.0.0.1" then Some (V4 127 0 0 1) else None)
    (fun a => if HasPrefix a "127.0.0.1:" then Some "127.0.0.1" else None)
    (Some mem_tracker) "127.0.0.1:5000" "" true (fun _ => true) [Some "stats"] _ _)).
  vm_compute. reflexivity.
Defined.
