(* ===== verification/Hooks.v ===== *)
(** * Lifecycle hooks

    [protocol/hooks.go]: the registry and the three runs over a snapshot of it.
    A hook acts on values and on a world [W] that stands for whatever its
    closures touch; a nil request or response is [None]. *)
From stdpp Require Import base tactics list strings.
From S2P Require Import Prelude Types.

Section Hooks.
Context {W : Type}.

Record LifecycleHook := mkHook {
  hookName : string;
  BeforeProcess : W -> Request -> W * (gerror + option Request);
  AfterProcess : W -> Request -> Response -> W * (gerror + option Response);
  OnError : W -> Request -> gerror -> W }.

(** [RegisterLifecycleHook]: a nil hook is ignored. *)
Definition RegisterLifecycleHook (hooks : list LifecycleHook) (h : option LifecycleHook)
  : list LifecycleHook :=
  match h with None => hooks | Some h => hooks ++ [h] end.

Definition ClearLifecycleHooks (hooks : list LifecycleHook) : list LifecycleHook := [].

Definition nil_request (h : LifecycleHook) : gerror :=
  EMsg ("lifecycle hook " +:+ String (Ascii.ascii_of_nat 34) "" +:+ hookName h
        +:+ String (Ascii.ascii_of_nat 34) "" +:+ " returned nil request").
Definition nil_response (h : LifecycleHook) : gerror :=
  EMsg ("lifecycle hook " +:+ String (Ascii.ascii_of_nat 34) "" +:+ hookName h
        +:+ String (Ascii.ascii_of_nat 34) "" +:+ " returned nil response").

Fixpoint RunBeforeProcessHooks (items : list LifecycleHook) (w : W) (req : Request)
  : W * (gerror + Request) :=
  match items with
  | [] => (w, inr req)
  | h :: items' =>
      let '(w1, r) := BeforeProcess h w req in
      match r with
      | inl err => (w1, inl err)
      | inr None => (w1, inl (nil_request h))
      | inr (Some req') => RunBeforeProcessHooks items' w1 req'
      end
  end.

Fixpoint RunAfterProcessHooks (items : list LifecycleHook) (w : W) (req : Request) (resp : Response)
  : W * (gerror + Response) :=
  match items with
  | [] => (w, inr resp)
  | h :: items' =>
      let '(w1, r) := AfterProcess h w req resp in
      match r with
      | inl err => (w1, inl err)
      | inr None => (w1, inl (nil_response h))
      | inr (Some resp') => RunAfterProcessHooks items' w1 req resp'
      end
  end.

(** Every hook sees the error; what [OnError] returns is discarded. *)
Fixpoint RunOnErrorHooks (items : list LifecycleHook) (w : W) (req : Request) (err : gerror) : W :=
  match items with
  | [] => w
  | h :: items' => RunOnErrorHooks items' (OnError h w req err) req err
  end.

(** [LifecycleHookFuncs]: optional functions with pass-through defaults. *)
Definition NewLifecycleHook (name : string)
    (beforeFn : option (W -> Request -> W * (gerror + option Request)))
    (afterFn : option (W -> Request -> Response -> W * (gerror + option Response)))
    (onErrorFn : option (W -> Request -> gerror -> W)) : LifecycleHook :=
  mkHook name
    (fun w req => match beforeFn with Some f => f w req | None => (w, inr (Some req)) end)
    (fun w req resp => match afterFn with Some f => f w req resp | None => (w, inr (Some resp)) end)
    (fun w req err => match onErrorFn with Some f => f w req err | None => w end).

(** ** Properties *)

Lemma RunBeforeProcessHooks_app a b w req :
  RunBeforeProcessHooks (a ++ b) w req =
  let '(w1, r) := RunBeforeProcessHooks a w req in
  match r with inl e => (w1, inl e) | inr req' => RunBeforeProcessHooks b w1 req' end.
Proof.
  revert w req. induction a as [|h a IH]; intros w req; simpl; [done|].
  destruct (BeforeProcess h w req) as [w1 [e|[r|]]]; auto.
Qed.

Lemma RunOnErrorHooks_app a b w req e :
  RunOnErrorHooks (a ++ b) w req e = RunOnErrorHooks b (RunOnErrorHooks a w req e) req e.
Proof. revert w. induction a as [|h a IH]; intros w; simpl; auto. Qed.
End Hooks.
Arguments LifecycleHook : clear implicits.
