(* ===== verification/Content.v ===== *)
(** * Content detection and compression

    [protocol/content_detector.go], [protocol/content_predict.go] and
    [protocol/content_compress.go]: what the client does to long tool and user
    messages before they are sent. SHA-256 is an argument, and an expirable LRU
    cache is a map from which any entries may have disappeared. *)
From stdpp Require Import base tactics list gmap strings pretty.
From Stdlib Require Import ZArith Lia.
From S2P Require Import Prelude GoStrings GoRegex GoJSON.

Inductive ContentType :=
| ContentPlainText | ContentJsonArray | ContentBuildOutput | ContentSearchResults
| ContentGitDiff | ContentSourceCode.

#[export] Instance ContentType_eq_dec : EqDecision ContentType.
Proof. solve_decision. Defined.

(** ** The patterns; each is matched against single lines, so [(?m)^] is the
    start of the line. *)

Definition re_date : re :=
  RSeqs [RTimes 4 RDigit; RIn "-/"; RTimes 2 RDigit; RIn "-/"; RTimes 2 RDigit].

Definition reTimestamp : re :=
  RSeqs [re_date; RIn "T "; RTimes 2 RDigit; RByte ":"; RTimes 2 RDigit;
         ROpt (RSeq (RByte ":") (RTimes 2 RDigit));
         ROpt (RSeq (RByte ".") (RPlus RDigit));
         ROpt (RAlt (RByte "Z") (RSeqs [RIn "+-"; RTimes 2 RDigit; ROpt (RByte ":"); RTimes 2 RDigit]));
         RPlus RSpace].
Definition reHunkHeader : re :=
  RSeqs [RLit "@@ -"; RPlus RDigit; RByte ","; RPlus RDigit; RPlus (RByte " "); RByte "+";
         RPlus RDigit; RByte ","; RPlus RDigit; RLit " @@"].
Definition reBuildLog : re := RSeqs [re_date; RPlus RSpace; RTimes 2 RDigit; RByte ":"; RTimes 2 RDigit].
Definition reSearch : re := RSeqs [RPlus RDigit; RByte "."; RPlus RSpace; RPlus RDot].
Definition reGitDiff : re := RAlts [RLit "diff --git"; RLit "@@ "; RLit "--- "; RLit "+++ "].
Definition reLogLevel : re :=
  RSeq (RAlts (RLitI <$> ["DEBUG"; "INFO"; "WARN"; "ERROR"; "FATAL"; "TRACE"])) RWordEnd.
Definition reURL : re :=
  RSeqs [RPlus RSpace; RLit "URL:"; RStar RSpace; RLit "http"; ROpt (RByte "s"); RLit "://"].
Definition reANSIEscape : re :=
  RSeqs [RByte (byte 27); RByte "["; RStar (RAlt RDigit (RByte ";")); RByte "m"].

Definition maxHunks : nat := 50.
Definition maxSearchResults : nat := 10.

(** ** Detection *)

Definition isSearchResultLine (line : string) : bool :=
  (30 <? String.length line)%nat && Contains line "http".

Definition ContainsAny (s chars : string) : bool :=
  existsb (byte_in chars) (String.list_ascii_of_string s).

Definition lineNeedsFurtherCheck (line : string) : bool :=
  (20 <? String.length line)%nat && ContainsAny line "=@()[]{}+-<>".

(** The four cases of the counting [switch]. *)
Definition line_matches (line : string) : bool :=
  MatchStart reGitDiff line || (MatchStart reBuildLog line || MatchStart reLogLevel line)
  || (MatchStart reSearch line && isSearchResultLine line) || lineNeedsFurtherCheck line.

Fixpoint count_matched (matched : nat) (lines : list string) : nat :=
  match lines with
  | [] => matched
  | line :: rest =>
      let line := TrimSpace line in
      if line =s "" then count_matched matched rest
      else if (5 <? matched)%nat then matched
      else count_matched (if line_matches line then S matched else matched) rest
  end.

(** Counters of [detectFromMatched]: diff, log and search lines. *)
Definition classify_line (cnt : nat * nat * nat) (line : string) : nat * nat * nat :=
  let '(d, l, s) := cnt in
  let line := TrimSpace line in
  if line =s "" then cnt
  else if MatchStart reGitDiff line then (S d, l, s)
  else if MatchStart reBuildLog line || MatchStart reLogLevel line then (d, S l, s)
  else if MatchStart reSearch line || MatchStart reURL line then (d, l, S s)
  else cnt.

Definition detectFromMatched (lines : list string) : ContentType :=
  let '(d, l, s) := foldl classify_line (0, 0, 0) lines in
  if (l <? d)%nat && (s <? d)%nat then ContentGitDiff
  else if (d <? l)%nat && (s <? l)%nat then ContentBuildOutput
  else if (d <? s)%nat && (l <? s)%nat then ContentSearchResults
  else ContentPlainText.

Definition code_patterns : list string :=
  ["func "; "class "; "import "; "package "; "#include"; "def "; "fn ";
   "=>"; "->"; ";;"; "if ("; "for ("; "while ("; "```"].

Definition hasCodePatterns (content : string) : bool :=
  (2 <=? length (List.filter (Contains content) code_patterns))%nat.

Definition count_byte (c : ascii) (s : string) : nat :=
  length (List.filter (Ascii.eqb c) (String.list_ascii_of_string s)).

Definition detectFromContent (content : string) : ContentType :=
  let trimmed := TrimSpace content in
  if HasPrefix trimmed "diff --git" || HasPrefix trimmed "--- " || HasPrefix trimmed "Index: "
  then ContentGitDiff
  else if HasPrefix trimmed "[" && negb (Contains trimmed (nl +:+ "{")) then ContentJsonArray
  else
    let first := (Cut trimmed nl).1.1 in
    if MatchStart reBuildLog first || MatchStart reLogLevel first then ContentBuildOutput
    else if (20 <? count_byte LF content)%nat && hasCodePatterns content then ContentSourceCode
    else ContentPlainText.

Definition detectContentTypeHeuristic (content : string) : ContentType :=
  if (HasPrefix (TrimSpace content) "[" || HasPrefix (TrimSpace content) "{")
     && negb (Contains content nl) then ContentJsonArray
  else
    let lines := SplitLines (TrimSpace content) in
    if (3 <? count_matched 0 lines)%nat then detectFromMatched lines
    else detectFromContent content.

(** ** Compression *)

(** The loop of [compressJSONArray], from a state of its two flags. *)
Fixpoint compress_json (inStr esc : bool) (s : string) : string :=
  match s with
  | EmptyString => ""
  | String c s' =>
      if inStr then
        String c (if esc then compress_json true false s'
                  else if Ascii.eqb c backslash then compress_json true true s'
                  else if Ascii.eqb c dquote then compress_json false false s'
                  else compress_json true false s')
      else if Ascii.eqb c dquote then String c (compress_json true esc s')
      else if byte_in ws c then compress_json false esc s'
      else String c (compress_json false esc s')
  end.

Definition compressJSONArray (content : string) : string := compress_json false false content.

(** One line of [compressBuildOutput] after the three strips. *)
Definition strip_line (line : string) : string :=
  TrimRight (DeleteAll reANSIEscape (DeleteStart reTimestamp line)) (String " " (String TAB (String CR ""))).

Fixpoint build_loop (seenBlank : bool) (lineCount : nat) (b : string) (lines : list string) : string * nat :=
  match lines with
  | [] => (b, lineCount)
  | line :: rest =>
      let stripped := strip_line line in
      if stripped =s "" then
        if negb seenBlank && (0 <? lineCount)%nat then build_loop true lineCount (b +:+ nl) rest
        else build_loop seenBlank lineCount b rest
      else build_loop false (S lineCount) (b +:+ stripped +:+ nl) rest
  end.

Definition compressBuildOutput (content : string) : string :=
  let '(b, lineCount) := build_loop false 0 "" (SplitLines content) in
  if (0 <? lineCount)%nat && (0 <? String.length b)%nat then TrimRight b nl else b.

Fixpoint search_loop (count : nat) (b : string) (lines : list string) : string :=
  match lines with
  | [] => b
  | line :: rest =>
      if TrimSpace line =s "" then search_loop count b rest
      else if HasPrefix (TrimSpace line) "---" || HasPrefix (TrimSpace line) "===" then search_loop count b rest
      else if MatchStart reSearch line then
        if (maxSearchResults <=? count)%nat then search_loop count b rest
        else search_loop (S count) (b +:+ line +:+ nl) rest
      else if MatchStart reURL line then search_loop count (b +:+ line +:+ nl) rest
      else if (0 <? count)%nat && (0 <? String.length b)%nat then search_loop count (b +:+ line +:+ nl) rest
      else search_loop count b rest
  end.

Definition compressSearchResults (content : string) : string :=
  TrimRight (search_loop 0 "" (SplitLines content)) nl.

(** [itoa]: the decimal digits written from the right into a 12-byte buffer.
    [fuel] is the buffer's size: Go panics on a longer number. *)
Fixpoint itoa_digits (fuel : nat) (n : Z) (acc : string) : string :=
  match fuel with
  | 0 => acc
  | S f => if (0 <? n)%Z
           then itoa_digits f (n / 10) (String (ascii_of_nat (48 + Z.to_nat (n mod 10))) acc)
           else acc
  end.
Definition itoa (n : Z) : string :=
  if (n =? 0)%Z then "0"
  else if (n <? 0)%Z then "-" +:+ itoa_digits 12 (- n) "" else itoa_digits 12 n "".

(** The loop of [compressGitDiff]; [total] is [len(lines)]. *)
Fixpoint diff_loop (total hunkCount : nat) (b : string) (lines : list string) : string :=
  match lines with
  | [] => b
  | line :: rest =>
      if MatchStart reHunkHeader line then
        let hunkCount := S hunkCount in
        if (maxHunks <? hunkCount)%nat then
          if (hunkCount =? S maxHunks)%nat then
            diff_loop total hunkCount
              (b +:+ "... (+" +:+ itoa (Z.of_nat total - Z.of_nat maxHunks) +:+ " more hunks truncated)" +:+ nl) rest
          else diff_loop total hunkCount b rest
        else diff_loop total hunkCount (b +:+ line +:+ nl) rest
      else diff_loop total hunkCount (b +:+ line +:+ nl) rest
  end.

Definition compressGitDiff (content : string) : string :=
  let lines := SplitLines content in TrimRight (diff_loop (length lines) 0 "" lines) nl.

Definition CompressContent (content : string) (ct : ContentType) : string :=
  if (String.length content <? 256)%nat then content
  else match ct with
       | ContentJsonArray => compressJSONArray content
       | ContentBuildOutput => compressBuildOutput content
       | ContentSearchResults => compressSearchResults content
       | ContentGitDiff => compressGitDiff content
       | _ => content
       end.

(** ** Caches *)

Section Caches.
(** [hash8]: the first eight bytes of SHA-256 in hexadecimal; [hash]: all of it. *)
Context (hash8 hash : string -> string).

Definition ct_num (ct : ContentType) : string :=
  match ct with
  | ContentPlainText => "0" | ContentJsonArray => "1" | ContentBuildOutput => "2"
  | ContentSearchResults => "3" | ContentGitDiff => "4" | ContentSourceCode => "5"
  end.

Definition cache_key (content : string) (ct : ContentType) : string :=
  hash8 content +:+ "-" +:+ ct_num ct.

Definition CachedCompressContent (cache : gmap string string) (content : string) (ct : ContentType)
  : gmap string string * string :=
  if (String.length content <? 256)%nat then (cache, content)
  else
    let key := cache_key content ct in
    match cache !! key with
    | Some result => (cache, result)
    | None => let result := CompressContent content ct in (<[key := result]> cache, result)
    end.

(** [contentHash]: only the first 4096 bytes are hashed. *)
Definition contentHash (content : string) : string :=
  hash (if (4096 <? String.length content)%nat then str_take 4096 content else content).

(** [ContentPredictor.Predict]. *)
Definition Predict (enabled : bool) (cache : gmap string ContentType) (content : string)
  : gmap string ContentType * ContentType :=
  if negb enabled then (cache, detectContentTypeHeuristic content)
  else match cache !! contentHash content with
       | Some ct => (cache, ct)
       | None => let ct := detectContentTypeHeuristic content in (<[contentHash content := ct]> cache, ct)
       end.

Definition Invalidate (cache : gmap string ContentType) (content : string) : gmap string ContentType :=
  delete (contentHash content) cache.
End Caches.

(** [DetectContentType] is [Predict] of the enabled default predictor. *)
Definition DetectContentType (hash : string -> string) (cache : gmap string ContentType) (content : string)
  : gmap string ContentType * ContentType := Predict hash true cache content.

(** * Properties *)

(** ** JSON compression keeps JSON valid

    The scanner on the original text and on the compressed text stay in step;
    they differ only after white space that ended a number. *)

Definition ends_at_space (st : sstate) : bool :=
  match st with
  | state1 | state0 | stateDot0 | stateE0 | stateEndValue => true
  | _ => false
  end.

Definition ended (stk : list pstate) : sstate :=
  match stk with [] => stateEndTop | _ => stateEndValue end.

Definition scan_rel (st st2 : sstate) (stk : list pstate) : Prop :=
  st2 = st \/ (ends_at_space st2 = true /\ st = ended stk).

Definition flags_ok (inStr esc : bool) (st : sstate) : Prop :=
  inStr = in_string st /\ esc = bool_decide (st = stateInStringEsc).

Lemma isSpace_cases c : isSpace c = true -> (c = " " \/ c = TAB \/ c = CR \/ c = LF)%char.
Proof.
  unfold isSpace. intros Hc. repeat (apply orb_prop in Hc as [Hc|Hc]); apply Ascii.eqb_eq in Hc; auto.
Qed.

(** White space outside strings: the value position stays, or a value ends. *)
Lemma scan_space st stk c st' stk' :
  isSpace c = true -> in_string st = false -> scan_step st stk c = Some (st', stk') ->
  stk' = stk /\ in_string st' = false
  /\ ((st' = st /\ (ends_at_space st = false \/ st' = ended stk \/ st = stateEndTop))
      \/ (ends_at_space st = true /\ st' = ended stk)).
Proof.
  intros Hc Hs E. apply isSpace_cases in Hc as [->|[->|[->| ->]]];
  destruct st; try done; cbv in E; try done; destruct stk; simplify_eq; auto 8.
Qed.

(** A number state and the ended state treat a byte that ends a value alike. *)
Lemma scan_ended st2 stk c r :
  isSpace c = false -> ends_at_space st2 = true ->
  scan_step (ended stk) stk c = Some r -> scan_step st2 stk c = Some r.
Proof.
  intros Hc H2 E. destruct stk as [|p stk]; simpl in E.
  - unfold step_EndTop in E. by rewrite Hc in E.
  - rewrite Hc in E.
    assert (c = ":" \/ c = "," \/ c = "}" \/ c = "]")%char as Hd.
    { destruct p; repeat case_match; simplify_eq; bool_prop; auto. }
    unfold ended in *. destruct st2; try done; destruct Hd as [->|[->|[->| ->]]]; exact E.
Qed.

Lemma scan_quote st stk st' stk' :
  in_string st = false -> scan_step st stk dquote = Some (st', stk') ->
  st' = stateInString /\ ends_at_space st = false.
Proof.
  intros Hs E. destruct st; try done; cbv in E; try done; try (by simplify_eq);
    destruct stk as [|[] stk]; by simplify_eq.
Qed.

(** Other bytes outside strings stay outside. *)
Lemma scan_other st stk c st' stk' :
  in_string st = false -> Ascii.eqb c dquote = false -> scan_step st stk c = Some (st', stk') ->
  in_string st' = false.
Proof.
  intros Hs Hc. destruct st; simpl; try done; unfold expect, step_0, step_ESign, step_BeginValue,
    step_BeginString, step_EndValue, step_EndTop, push, pop; rewrite ?Hc; intros; repeat (case_match; simplify_eq/=; try done).
Qed.

(** Inside a string the flags follow the scanner. *)
Lemma scan_in_string st stk c st' stk' esc :
  in_string st = true -> esc = bool_decide (st = stateInStringEsc) ->
  scan_step st stk c = Some (st', stk') ->
  flags_ok (negb (negb esc && Ascii.eqb c dquote)) (negb esc && Ascii.eqb c backslash) st'.
Proof.
  intros Hs -> E. destruct st; try done; simpl in E; unfold flags_ok.
  - rewrite bool_decide_eq_false_2 by done. destruct (Ascii.eqb c dquote) eqn:E1.
    { apply Ascii.eqb_eq in E1 as ->. by simplify_eq. }
    destruct (Ascii.eqb c backslash); simplify_eq; [by split|]. by destruct (_ <? _)%nat; simplify_eq.
  - rewrite bool_decide_eq_true_2 by done. repeat case_match; by simplify_eq.
  - rewrite bool_decide_eq_false_2 by done. destruct (isHex c) eqn:Ex; [|done].
    assert (Ascii.eqb c dquote = false /\ Ascii.eqb c backslash = false) as [-> ->].
    { split; apply not_true_is_false; intros ->%Ascii.eqb_eq; by vm_compute in Ex. }
    by destruct (n =? 3)%nat; simplify_eq.
Qed.

Lemma compress_json_in_string esc c s :
  compress_json true esc (String c s) =
  String c (compress_json (negb (negb esc && Ascii.eqb c dquote)) (negb esc && Ascii.eqb c backslash) s).
Proof.
  simpl. destruct esc; simpl; [done|]. destruct (Ascii.eqb c backslash) eqn:E1.
  - by apply Ascii.eqb_eq in E1 as ->.
  - by destruct (Ascii.eqb c dquote).
Qed.

Lemma compress_json_scan s st st2 stk inStr esc st' stk' :
  scan_rel st st2 stk -> flags_ok inStr esc st -> scan st stk s = Some (st', stk') ->
  exists st2', scan st2 stk (compress_json inStr esc s) = Some (st2', stk') /\ scan_rel st' st2' stk'.
Proof.
  revert st st2 stk inStr esc. induction s as [|c s IH]; intros st st2 stk inStr esc Hr Hf.
  { simpl. intros [= <- <-]. eauto. }
  cbn [scan]. destruct (scan_step st stk c) as [[st1 stk1]|] eqn:E; [|done]. intros Hs.
  destruct Hf as [-> ->]. destruct (in_string st) eqn:Ein.
  - assert (st2 = st) as ->. { destruct Hr as [->|[_ ->]]; [done|]. by destruct stk. }
    rewrite compress_json_in_string. cbn [scan]. rewrite E.
    eapply IH; [by left| |exact Hs]. eapply scan_in_string; eauto.
  - rewrite bool_decide_eq_false_2 by (by intros ->). cbn [compress_json].
    destruct (Ascii.eqb c dquote) eqn:Eq.
    + apply Ascii.eqb_eq in Eq as ->. destruct (scan_quote _ _ _ _ Ein E) as [-> He].
      assert (st2 = st) as ->. { destruct Hr as [->|[_ ->]]; [done|]. by destruct stk. }
      cbn [scan]. rewrite E. eapply IH; [by left|done|exact Hs].
    + rewrite byte_in_ws. destruct (isSpace c) eqn:Esp.
      * destruct (scan_space _ _ _ _ _ Esp Ein E) as (-> & Hin & Hcase).
        assert (st1 <> stateInStringEsc) by (by intros ->).
        eapply IH; [|split; [done|by rewrite bool_decide_eq_false_2]|exact Hs].
        unfold scan_rel in *. naive_solver.
      * pose proof (scan_other _ _ _ _ _ Ein Eq E) as Hin.
        assert (scan_step st2 stk c = Some (st1, stk1)) as E2.
        { destruct Hr as [->|[He ->]]; [done|]. by apply scan_ended. }
        cbn [scan]. rewrite E2. eapply IH; [by left| |exact Hs].
        split; [done|]. rewrite bool_decide_eq_false_2; [done|by intros ->].
Qed.

Lemma scan_rel_eof st st2 stk : scan_rel st st2 stk -> scan_eof st stk = true -> scan_eof st2 stk = true.
Proof.
  intros [->|[He ->]]; [done|]. destruct stk as [|p stk]; [|done].
  intros _. destruct st2; try done.
Qed.

Lemma compress_json_idem inStr esc s :
  compress_json inStr esc (compress_json inStr esc s) = compress_json inStr esc s.
Proof.
  revert inStr esc. induction s as [|c s IH]; intros inStr esc; [done|].
  destruct inStr; [by rewrite !compress_json_in_string, IH|]. simpl.
  destruct (Ascii.eqb c dquote) eqn:E1; [simpl; by rewrite E1, IH|].
  destruct (byte_in ws c) eqn:E2; [apply IH|]. simpl. by rewrite E1, E2, IH.
Qed.

Lemma compress_json_length inStr esc s : String.length (compress_json inStr esc s) <= String.length s.
Proof.
  revert inStr esc. induction s as [|c s IH]; intros inStr esc; simpl; [lia|].
  pose proof (IH true false). pose proof (IH true true). pose proof (IH false false).
  pose proof (IH true esc). pose proof (IH false esc). repeat case_match; simpl; lia.
Qed.

(** Compressing a JSON text never breaks it: a text the JSON scanner
    accepts is accepted after the white space outside its strings is removed,
    the result is no longer than the input, and compressing again changes
    nothing. *)
Theorem compressJSONArray_valid s :
  json_valid s = true ->
  json_valid (compressJSONArray s) = true
  /\ String.length (compressJSONArray s) <= String.length s
  /\ compressJSONArray (compressJSONArray s) = compressJSONArray s.
Proof.
  intros H. split; [|split; [apply compress_json_length|apply compress_json_idem]].
  unfold json_valid in *. destruct (scan stateBeginValue [] s) as [[st stk]|] eqn:E; [|done].
  destruct (compress_json_scan s stateBeginValue stateBeginValue [] false false st stk)
    as (st2 & E2 & Hr); [by left|done|done|].
  unfold compressJSONArray. rewrite E2. by eapply scan_rel_eof.
Qed.

Lemma compressJSONArray_valid_witness :
  json_valid "[1 , 2 , {} ]" = true /\ json_valid (compressJSONArray "[1 , 2 , {} ]") = true
  /\ compressJSONArray "[1 , 2 , {} ]" = "[1,2,{}]".
Proof.
  split; [reflexivity|split; [|reflexivity]].
  apply (compressJSONArray_valid "[1 , 2 , {} ]"). reflexivity.
Defined.

(** ** Diff truncation *)

(** The lines the loop writes, as a list. *)
Fixpoint diff_lines (total hunkCount : nat) (lines : list string) : list string :=
  match lines with
  | [] => []
  | line :: rest =>
      if MatchStart reHunkHeader line then
        let n := S hunkCount in
        (if (maxHunks <? n)%nat then
           if (n =? S maxHunks)%nat then
             ["... (+" +:+ itoa (Z.of_nat total - Z.of_nat maxHunks) +:+ " more hunks truncated)"]
           else []
         else [line]) ++ diff_lines total n rest
      else line :: diff_lines total hunkCount rest
  end.

Definition unlines (l : list string) : string := foldr (fun x acc => x +:+ nl +:+ acc) "" l.

Lemma diff_loop_lines total h b lines :
  diff_loop total h b lines = b +:+ unlines (diff_lines total h lines).
Proof.
  revert h b. induction lines as [|line rest IH]; intros h b; cbn [diff_loop diff_lines].
  { by rewrite str_app_nil_r. }
  destruct (MatchStart reHunkHeader line).
  - destruct (maxHunks <? S h)%nat; [destruct (S h =? S maxHunks)%nat|]; rewrite IH;
      cbn [app unlines foldr]; by rewrite ?str_app_assoc.
  - rewrite IH. cbn [unlines foldr]. by rewrite ?str_app_assoc.
Qed.

Definition is_body (line : string) : bool := negb (MatchStart reHunkHeader line).

Lemma notice_is_body total :
  is_body ("... (+" +:+ itoa total +:+ " more hunks truncated)") = true.
Proof. reflexivity. Qed.

Definition headers (l : list string) : nat := length (List.filter (MatchStart reHunkHeader) l).

(** The notice written in place of the first truncated header. *)
Definition notice (total : nat) : string :=
  "... (+" +:+ itoa (Z.of_nat total - Z.of_nat maxHunks) +:+ " more hunks truncated)".

(** Past the limit only header lines disappear. *)
Lemma diff_lines_past total h lines :
  (maxHunks < h)%nat -> diff_lines total h lines = List.filter is_body lines.
Proof.
  revert h. induction lines as [|line rest IH]; intros h Hh; [done|]. simpl. unfold is_body at 1.
  destruct (MatchStart reHunkHeader line); simpl; [|by rewrite IH].
  rewrite (proj2 (Nat.ltb_lt _ _)) by lia. rewrite (proj2 (Nat.eqb_neq _ _)) by (unfold maxHunks in *; lia).
  simpl. apply IH. lia.
Qed.

(** Up to the limit everything is kept. *)
Lemma diff_lines_within total h lines :
  (h + headers lines <= maxHunks)%nat -> diff_lines total h lines = lines.
Proof.
  revert h. induction lines as [|line rest IH]; intros h Hh; [done|]. simpl. unfold headers in *. simpl in Hh.
  destruct (MatchStart reHunkHeader line); simpl in Hh; [|by rewrite IH].
  rewrite (proj2 (Nat.ltb_ge _ _)) by lia. simpl. f_equal. apply IH. lia.
Qed.

Lemma diff_lines_split total h pre hdr post :
  MatchStart reHunkHeader hdr = true -> (h + headers pre = maxHunks)%nat ->
  diff_lines total h (pre ++ hdr :: post) = pre ++ notice total :: List.filter is_body post.
Proof.
  intros Hh. revert h. induction pre as [|line rest IH]; intros h Hn; unfold headers in *; simpl in *.
  - rewrite Hh. rewrite (proj2 (Nat.ltb_lt _ _)) by lia. rewrite (proj2 (Nat.eqb_eq _ _)) by lia.
    simpl. f_equal. apply diff_lines_past. lia.
  - destruct (MatchStart reHunkHeader line); simpl in *; [|by rewrite IH].
    rewrite (proj2 (Nat.ltb_ge _ _)) by lia. simpl. f_equal. apply IH. lia.
Qed.

(** Truncation of a diff at 50 hunks removes only header lines: the
    51st header is replaced by a notice that counts lines, not hunks
    ([len(lines) - 50]), later headers are dropped, and every other line of the
    truncated hunks is still written. *)
Theorem compressGitDiff_keeps_bodies content pre hdr post :
  SplitLines content = pre ++ hdr :: post -> MatchStart reHunkHeader hdr = true ->
  headers pre = maxHunks ->
  compressGitDiff content =
  TrimRight (unlines (pre ++ notice (length pre + S (length post)) :: List.filter is_body post)) nl.
Proof.
  intros Hs Hh Hn. unfold compressGitDiff. rewrite Hs, diff_loop_lines, length_app.
  rewrite diff_lines_split by done. done.
Qed.

Definition hunk_lines : list string := concat (replicate 51 ["@@ -1,2 +1,2 @@"; "+x"]).

Lemma compressGitDiff_keeps_bodies_witness :
  compressGitDiff (Join hunk_lines nl) =
  TrimRight (unlines (take 100 hunk_lines ++ notice 102 :: ["+x"])) nl.
Proof.
  apply (compressGitDiff_keeps_bodies (Join hunk_lines nl) (take 100 hunk_lines) "@@ -1,2 +1,2 @@" ["+x"]);
    vm_compute; reflexivity.
Defined.

(** ** The compression cache *)

(** Every entry is the compression of whatever content has its key. *)
Definition cache_ok (hash8 : string -> string) (cache : gmap string string) : Prop :=
  forall content ct v, cache !! cache_key hash8 content ct = Some v -> v = CompressContent content ct.

(** No two contents share the 64-bit key. *)
Definition collision_free (hash8 : string -> string) : Prop :=
  forall a b, hash8 a = hash8 b -> a = b.

Lemma str_app_inj_tail1 a b x y :
  String.length x = String.length y -> a +:+ x = b +:+ y -> a = b /\ x = y.
Proof.
  intros Hl H.
  assert (String.length a = String.length b) as Hab.
  { apply (f_equal String.length) in H. rewrite !str_length_app in H. lia. }
  revert b Hab H. induction a as [|c a IH]; intros [|d b] Hab H; try done.
  simpl in *. injection H as -> H. destruct (IH b) as [-> ->]; [lia|done|done].
Qed.

Lemma cache_key_inj hash8 a b ct ct' :
  collision_free hash8 -> cache_key hash8 a ct = cache_key hash8 b ct' -> a = b /\ ct = ct'.
Proof.
  intros Hc H. unfold cache_key in H.
  apply str_app_inj_tail1 in H as [H1 H2]; [|by destruct ct, ct'].
  split; [by apply Hc|]. by destruct ct, ct'.
Qed.

(** The cache is transparent: from an empty cache, after any sequence of
    compressions and evictions, [CachedCompressContent] returns exactly what
    [CompressContent] computes, provided no two contents collide on the key. *)
Theorem CachedCompressContent_equiv hash8 cache content ct :
  collision_free hash8 -> cache_ok hash8 cache ->
  (CachedCompressContent hash8 cache content ct).2 = CompressContent content ct
  /\ cache_ok hash8 (CachedCompressContent hash8 cache content ct).1
  /\ cache_ok hash8 ∅
  /\ (forall cache', cache' ⊆ cache -> cache_ok hash8 cache').
Proof.
  intros Hc Hok. split; [|split; [|split]].
  - unfold CachedCompressContent. destruct (_ <? _)%nat eqn:E.
    + unfold CompressContent. by rewrite E.
    + destruct (cache !! _) eqn:El; [|done]. by apply Hok.
  - unfold CachedCompressContent. destruct (_ <? _)%nat eqn:E; [done|].
    destruct (cache !! _) eqn:El; [done|]. intros c2 ct2 v. simpl.
    rewrite lookup_insert_Some. intros [[H <-]|[_ H]]; [|by apply Hok].
    by destruct (cache_key_inj _ _ _ _ _ Hc H) as [-> ->].
  - intros c2 ct2 v. by rewrite lookup_empty.
  - intros cache' Hsub c2 ct2 v H. apply Hok. by eapply lookup_weaken.
Qed.

Lemma CachedCompressContent_equiv_witness :
  (CachedCompressContent (fun x => x) ∅ "short" ContentGitDiff).2 = CompressContent "short" ContentGitDiff.
Proof.
  refine (proj1 (CachedCompressContent_equiv (fun x => x) ∅ "short" ContentGitDiff _ _)).
  - intros a b H. exact H.
  - intros c2 ct2 v. by rewrite lookup_empty.
Defined.

