(* ===== verification/EventBus.v ===== *)
(** * The event buses

    [protocol/stream.go]: the bus on which the client publishes the chunks of a
    stream, with the goroutines of [run] and [dispatch], concurrent publishers,
    late subscribers and concurrent calls of [Stop], as a transition system;
    its telemetry subscriber. [internal/adk/event/bus.go]: the synchronous bus
    of the agent's events. *)
From stdpp Require Import base tactics list gmap strings relations pretty.
From Stdlib Require Import ZArith NArith Lia.
From S2P Require Import Prelude GoStrings Types Telemetry.

Module ChunkBus.

(** ** State *)

(** A subscriber: the channel [Subscribe] makes, and the goroutine that
    processes it. [seen] is what [Process] was called with, [finished] that the
    goroutine has returned. [since] and [offered] are history variables: how
    many chunks had been broadcast when it subscribed, and the chunks [run]
    tried to send it. *)
Record sub := mkSub {
  queue : list Chunk; sclosed : bool; seen : list Chunk; finished : bool;
  since : nat; offered : list Chunk }.

(** The capacity of a subscriber's channel. *)
Definition subCap : nat := 256.

(** Where [run] is: at the receive, waiting for the read lock with a chunk,
    in the range over [subs] (with the entries not visited yet), or returned. *)
Inductive run_pc := RunRecv | RunLock (c : Chunk) | RunSend (c : Chunk) (rest : gmap string nat) | RunDone.

(** [Publish] with a context, or [TryPublish]; both past the read lock, before
    the test of [stopped] or before the select. *)
Inductive pub_kind := KPublish | KTryPublish.
Inductive pub_pc := PubCheck (k : pub_kind) (c : Chunk) | PubSend (k : pub_kind) (c : Chunk).

(** A call of [Stop]: before [stopOnce.Do], at the receive from [runDone], at
    the lock, in the loop that closes the channels, at [wg.Wait], returned. *)
Inductive stop_pc := StopOnce | StopWait | StopLock | StopClose | StopWg | StopRet.

(** [readers] and [writer] are the state of [mu]; [accepted] and [broadcast]
    are history variables: the chunks put into [publisher], and those [run]
    has gone round with. [panicked]: a send on or a close of a closed channel,
    or a misuse of [wg], has killed the process. *)
Record bus := mkBus {
  publisher : list Chunk; pclosed : bool;
  subs : gmap string nat; heap : gmap nat sub;
  readers : nat; writer : bool;
  once : bool; stopped : bool;
  run : run_pc; pubs : gmap nat pub_pc; stops : gmap nat stop_pc;
  accepted : list Chunk; broadcast : list Chunk; panicked : bool }.

Definition set_publisher (v : list Chunk) (s : bus) : bus :=
  mkBus v (pclosed s) (subs s) (heap s) (readers s) (writer s) (once s) (stopped s) (run s) (pubs s) (stops s) (accepted s) (broadcast s) (panicked s).
Definition set_pclosed (v : bool) (s : bus) : bus :=
  mkBus (publisher s) v (subs s) (heap s) (readers s) (writer s) (once s) (stopped s) (run s) (pubs s) (stops s) (accepted s) (broadcast s) (panicked s).
Definition set_subs (v : gmap string nat) (s : bus) : bus :=
  mkBus (publisher s) (pclosed s) v (heap s) (readers s) (writer s) (once s) (stopped s) (run s) (pubs s) (stops s) (accepted s) (broadcast s) (panicked s).
Definition set_heap (v : gmap nat sub) (s : bus) : bus :=
  mkBus (publisher s) (pclosed s) (subs s) v (readers s) (writer s) (once s) (stopped s) (run s) (pubs s) (stops s) (accepted s) (broadcast s) (panicked s).
Definition set_readers (v : nat) (s : bus) : bus :=
  mkBus (publisher s) (pclosed s) (subs s) (heap s) v (writer s) (once s) (stopped s) (run s) (pubs s) (stops s) (accepted s) (broadcast s) (panicked s).
Definition set_writer (v : bool) (s : bus) : bus :=
  mkBus (publisher s) (pclosed s) (subs s) (heap s) (readers s) v (once s) (stopped s) (run s) (pubs s) (stops s) (accepted s) (broadcast s) (panicked s).
Definition set_once (v : bool) (s : bus) : bus :=
  mkBus (publisher s) (pclosed s) (subs s) (heap s) (readers s) (writer s) v (stopped s) (run s) (pubs s) (stops s) (accepted s) (broadcast s) (panicked s).
Definition set_stopped (v : bool) (s : bus) : bus :=
  mkBus (publisher s) (pclosed s) (subs s) (heap s) (readers s) (writer s) (once s) v (run s) (pubs s) (stops s) (accepted s) (broadcast s) (panicked s).
Definition set_run (v : run_pc) (s : bus) : bus :=
  mkBus (publisher s) (pclosed s) (subs s) (heap s) (readers s) (writer s) (once s) (stopped s) v (pubs s) (stops s) (accepted s) (broadcast s) (panicked s).
Definition set_pubs (v : gmap nat pub_pc) (s : bus) : bus :=
  mkBus (publisher s) (pclosed s) (subs s) (heap s) (readers s) (writer s) (once s) (stopped s) (run s) v (stops s) (accepted s) (broadcast s) (panicked s).
Definition set_stops (v : gmap nat stop_pc) (s : bus) : bus :=
  mkBus (publisher s) (pclosed s) (subs s) (heap s) (readers s) (writer s) (once s) (stopped s) (run s) (pubs s) v (accepted s) (broadcast s) (panicked s).
Definition set_accepted (v : list Chunk) (s : bus) : bus :=
  mkBus (publisher s) (pclosed s) (subs s) (heap s) (readers s) (writer s) (once s) (stopped s) (run s) (pubs s) (stops s) v (broadcast s) (panicked s).
Definition set_broadcast (v : list Chunk) (s : bus) : bus :=
  mkBus (publisher s) (pclosed s) (subs s) (heap s) (readers s) (writer s) (once s) (stopped s) (run s) (pubs s) (stops s) (accepted s) v (panicked s).
Definition set_panicked (v : bool) (s : bus) : bus :=
  mkBus (publisher s) (pclosed s) (subs s) (heap s) (readers s) (writer s) (once s) (stopped s) (run s) (pubs s) (stops s) (accepted s) (broadcast s) v.

Definition NewEventBus : bus :=
  mkBus [] false ∅ ∅ 0 false false false RunRecv ∅ ∅ [] [] false.

(** ** Operations *)

(** The non-blocking send of [run] to one subscriber. *)
Definition offer (c : Chunk) (d : sub) : sub :=
  mkSub (if (length (queue d) <? subCap)%nat then queue d ++ [c] else queue d)
        (sclosed d) (seen d) (finished d) (since d) (offered d ++ [c]).

(** [Subscribe], under the lock: [a] is the address of the new channel. *)
Definition Subscribe (name : string) (a : nat) (s : bus) : bus :=
  match subs s !! name with
  | Some _ => s
  | None =>
      set_subs (<[name := a]> (subs s))
        (set_heap (<[a := mkSub [] false [] false (length (broadcast s)) []]> (heap s)) s)
  end.

(** The deferred [RUnlock] and the return of a publisher. *)
Definition pub_return (t : nat) (s : bus) : bus :=
  set_pubs (delete t (pubs s)) (set_readers (readers s - 1) s).

(** The body of [stopOnce.Do]. *)
Definition stop_once (s : bus) : bus :=
  if pclosed s then set_panicked true s
  else set_once true (set_stopped true (set_pclosed true s)).

(** [wg.Wait] can return. *)
Definition wg_zero (s : bus) : Prop :=
  run s = RunDone /\ map_Forall (fun _ d => finished d = true) (heap s).

(** A call of [Stop] is in [wg.Wait] and the counter is zero: an [Add] now is
    the misuse for which [sync.WaitGroup] may panic (the counter leaves zero
    before the previous [Wait] has returned). *)
Definition misused (s : bus) : Prop := (exists t, stops s !! t = Some StopWg) /\ wg_zero s.

Inductive label := LPublish | LSubscribe | LStop | LTau.

(** [run] holds the read lock. *)
Definition sending (r : run_pc) : nat := match r with RunSend _ _ => 1 | _ => 0 end.

(** The fields of an updated bus. *)
Ltac unset :=
  unfold pub_return, stop_once, Subscribe, set_publisher, set_pclosed, set_subs, set_heap, set_readers, set_writer, set_once,
    set_stopped, set_run, set_pubs, set_stops, set_accepted, set_broadcast, set_panicked in *;
  cbn [publisher pclosed subs heap readers writer once stopped run pubs stops accepted broadcast panicked
       queue sclosed seen finished since offered sending] in *.

(** Lookups in an updated map. *)
Ltac upd :=
  repeat match goal with
  | H : <[_ := _]> _ !! _ = Some _ |- _ => apply lookup_insert_Some in H as [[? ?]|[? ?]]; simplify_eq
  | H : delete _ _ !! _ = Some _ |- _ => apply lookup_delete_Some in H as [? ?]
  end.

(** The sum of a weight over a map. *)
Definition msum {A} (f : A -> nat) (m : gmap nat A) : nat := map_fold (fun _ x n => f x + n) 0 m.

Lemma msum_delete {A} (f : A -> nat) m i x : m !! i = Some x -> msum f m = f x + msum f (delete i m).
Proof. intros H. unfold msum. refine (map_fold_delete_L (fun _ y n => f y + n) 0 i x m _ H). intros; lia. Qed.

Lemma msum_insert {A} (f : A -> nat) m i x y : m !! i = Some x -> msum f (<[i := y]> m) + f x = msum f m + f y.
Proof.
  intros H. rewrite (msum_delete f m i x H), (msum_delete f _ i y (lookup_insert_eq _ _ _)), delete_insert_eq. lia.
Qed.

Lemma msum_mono {A} (f g : A -> nat) m : (forall x, f x <= g x) -> msum f m <= msum g m.
Proof.
  intros H. induction m as [|i x m Hi Hf IH] using map_first_key_ind; [done|].
  unfold msum in *. rewrite !map_fold_insert_L by (try done; intros; lia). specialize (H x). lia.
Qed.

Section Steps.
Context (bufferSize : nat).

Inductive step : label -> bus -> bus -> Prop :=
(* Publish and TryPublish *)
| pub_enter s t k c : pubs s !! t = None -> writer s = false -> panicked s = false ->
    step LPublish s (set_pubs (<[t := PubCheck k c]> (pubs s)) (set_readers (S (readers s)) s))
| pub_refused s t k c : pubs s !! t = Some (PubCheck k c) -> stopped s = true -> panicked s = false ->
    step LTau s (pub_return t s)
| pub_checked s t k c : pubs s !! t = Some (PubCheck k c) -> stopped s = false -> panicked s = false ->
    step LTau s (set_pubs (<[t := PubSend k c]> (pubs s)) s)
| pub_sent s t k c : pubs s !! t = Some (PubSend k c) -> pclosed s = false ->
    length (publisher s) < bufferSize -> panicked s = false ->
    step LTau s (pub_return t (set_publisher (publisher s ++ [c]) (set_accepted (accepted s ++ [c]) s)))
(* the channel hands the chunk to the waiting receive, the only way when it has no buffer *)
| pub_handoff s t k c : pubs s !! t = Some (PubSend k c) -> pclosed s = false ->
    run s = RunRecv -> publisher s = [] -> panicked s = false ->
    step LTau s (pub_return t (set_run (RunLock c) (set_accepted (accepted s ++ [c]) s)))
| pub_full s t k c : pubs s !! t = Some (PubSend k c) -> pclosed s = false ->
    bufferSize <= length (publisher s) -> panicked s = false ->
    step LTau s (pub_return t s)
| pub_ctx_done s t c : pubs s !! t = Some (PubSend KPublish c) -> panicked s = false ->
    step LTau s (pub_return t s)
| pub_panics s t k c : pubs s !! t = Some (PubSend k c) -> pclosed s = true -> panicked s = false ->
    step LTau s (set_panicked true s)
(* run *)
| run_receives s c q : run s = RunRecv -> publisher s = c :: q -> panicked s = false ->
    step LTau s (set_run (RunLock c) (set_publisher q s))
| run_ends s : run s = RunRecv -> publisher s = [] -> pclosed s = true -> panicked s = false ->
    step LTau s (set_run RunDone s)
| run_locks s c : run s = RunLock c -> writer s = false -> panicked s = false ->
    step LTau s (set_run (RunSend c (subs s)) (set_readers (S (readers s)) s))
| run_offers s c rest name a d : run s = RunSend c rest -> rest !! name = Some a ->
    heap s !! a = Some d -> sclosed d = false -> panicked s = false ->
    step LTau s (set_run (RunSend c (delete name rest)) (set_heap (<[a := offer c d]> (heap s)) s))
| run_panics s c rest name a d : run s = RunSend c rest -> rest !! name = Some a ->
    heap s !! a = Some d -> sclosed d = true -> panicked s = false ->
    step LTau s (set_panicked true s)
| run_unlocks s c : run s = RunSend c ∅ -> panicked s = false ->
    step LTau s (set_run RunRecv (set_readers (readers s - 1) (set_broadcast (broadcast s ++ [c]) s)))
(* dispatch *)
| dispatch_processes s a d c q : heap s !! a = Some d -> finished d = false -> queue d = c :: q -> panicked s = false ->
    step LTau s (set_heap (<[a := mkSub q (sclosed d) (seen d ++ [c]) false (since d) (offered d)]> (heap s)) s)
| dispatch_ends s a d : heap s !! a = Some d -> finished d = false -> queue d = [] -> sclosed d = true ->
    panicked s = false ->
    step LTau s (set_heap (<[a := mkSub [] true (seen d) true (since d) (offered d)]> (heap s)) s)
(* Subscribe *)
| subscribes s name a : readers s = 0 -> writer s = false -> heap s !! a = None -> panicked s = false ->
    step LSubscribe s (Subscribe name a s)
| subscribe_panics s name : readers s = 0 -> writer s = false -> subs s !! name = None -> misused s -> panicked s = false ->
    step LSubscribe s (set_panicked true s)
(* Stop *)
| stop_called s t : stops s !! t = None -> panicked s = false ->
    step LStop s (set_stops (<[t := StopOnce]> (stops s)) s)
| stop_first s t : stops s !! t = Some StopOnce -> once s = false -> readers s = 0 -> writer s = false ->
    panicked s = false ->
    step LTau s (set_stops (<[t := StopWait]> (stops s)) (stop_once s))
| stop_again s t : stops s !! t = Some StopOnce -> once s = true -> panicked s = false ->
    step LTau s (set_stops (<[t := StopWait]> (stops s)) s)
| stop_waited s t : stops s !! t = Some StopWait -> run s = RunDone -> panicked s = false ->
    step LTau s (set_stops (<[t := StopLock]> (stops s)) s)
| stop_locks s t : stops s !! t = Some StopLock -> readers s = 0 -> writer s = false -> panicked s = false ->
    step LTau s (set_stops (<[t := StopClose]> (stops s)) (set_writer true s))
| stop_closes s t name a d : stops s !! t = Some StopClose -> subs s !! name = Some a ->
    heap s !! a = Some d -> sclosed d = false -> panicked s = false ->
    step LTau s (set_subs (delete name (subs s))
      (set_heap (<[a := mkSub (queue d) true (seen d) (finished d) (since d) (offered d)]> (heap s)) s))
| stop_panics s t name a d : stops s !! t = Some StopClose -> subs s !! name = Some a ->
    heap s !! a = Some d -> sclosed d = true -> panicked s = false ->
    step LTau s (set_panicked true s)
| stop_unlocks s t : stops s !! t = Some StopClose -> subs s = ∅ -> panicked s = false ->
    step LTau s (set_stops (<[t := StopWg]> (stops s)) (set_writer false s))
| stop_returns s t : stops s !! t = Some StopWg -> wg_zero s -> panicked s = false ->
    step LTau s (set_stops (<[t := StopRet]> (stops s)) s).

(** Any interleaving, from the new bus. *)
Definition reachable (s : bus) : Prop := rtc (fun x y => exists l, step l x y) NewEventBus s.

(** ** The lock discipline *)

Record lock_inv (s : bus) : Prop := mkLI {
  l_panic : panicked s = false -> pclosed s = stopped s;
  l_once : once s = stopped s;
  l_readers : readers s = size (pubs s) + sending (run s);
  l_writer : writer s = true -> readers s = 0;
  l_wstop : forall t, stops s !! t = Some StopClose -> writer s = true;
  l_wuniq : forall t t', stops s !! t = Some StopClose -> stops s !! t' = Some StopClose -> t = t';
  l_wown : writer s = true -> exists t, stops s !! t = Some StopClose;
  l_send : forall t k c, pubs s !! t = Some (PubSend k c) -> stopped s = false;
  l_stop : forall t p, stops s !! t = Some p -> p <> StopOnce -> stopped s = true;
  l_rundone : forall t p, stops s !! t = Some p -> p <> StopOnce -> p <> StopWait -> run s = RunDone;
  l_run : run s = RunDone -> publisher s = [] /\ stopped s = true }.

Lemma size_pos {A} (m : gmap nat A) t x : m !! t = Some x -> 0 < size m.
Proof. intros H. assert (size m <> 0); [|lia]. apply map_size_ne_0_lookup. eauto. Qed.

(** A thread other than the closer moves: the closer is still there. *)
Lemma closer_kept (m : gmap nat stop_pc) t p :
  (exists t0, m !! t0 = Some StopClose) -> m !! t <> Some StopClose ->
  exists t0, <[t := p]> m !! t0 = Some StopClose.
Proof. intros [t0 H] Hn. exists t0. rewrite lookup_insert_ne; congruence. Qed.

(** The number of threads under the read lock. *)
Ltac count :=
  repeat match goal with
  | H : ?m !! ?t = Some _ |- context [size (delete ?t ?m)] => rewrite (map_size_delete_Some t m) by eauto
  | H : ?m !! ?t = Some _ |- context [size (<[?t := _]> ?m)] => rewrite (map_size_insert_Some t _ m) by eauto
  | H : ?m !! ?t = None |- context [size (<[?t := _]> ?m)] => rewrite (map_size_insert_None t _ m) by eauto
  | H : pubs ?s !! _ = Some _ |- _ => pose proof (size_pos _ _ _ H); clear H
  | H : run ?s = _, H' : context [sending (run ?s)] |- _ => rewrite H in H'; cbn [sending] in H'
  end; try lia.

Lemma NewEventBus_lock : lock_inv NewEventBus.
Proof. split; simpl; try done; intros; simplify_map_eq. Qed.

Lemma step_lock l s s' : lock_inv s -> step l s s' -> lock_inv s'.
Proof.
  intros [H1 H2 H3 H4 H5 H6 H7 H8 H9 H10 H11] Hst.
  destruct Hst; unset; repeat split_match; unset; split; unset; try done; try (intros; upd; eauto; fail).
  all: try (intros; congruence); try (count; fail); try (intros Hw; specialize (H4 Hw); count; fail).
  all: try (intros Hw; apply closer_kept; [by apply H7|congruence]).
  all: try (intros t0 p0 Ht Hp1 Hp2; specialize (H10 t0 p0 Ht Hp1 Hp2); congruence).
  all: intros; upd; try congruence; eauto.
  all: repeat match goal with H : _ = RunDone |- _ => destruct (H11 H); clear H end.
  all: try (specialize (H1 ltac:(assumption)); intuition congruence).
  - match goal with H : pubs _ !! _ = _ |- _ => apply size_pos in H; lia end.
  - match goal with H : stops _ !! _ = Some StopClose |- _ => apply H5 in H; congruence end.
  - match goal with H : stops _ !! _ = Some StopClose |- _ => apply H5 in H; congruence end.
  - exists t. apply lookup_insert_eq.
Qed.

(** ** The data *)

(** The chunk [run] is busy with. *)
Definition carried (r : run_pc) : list Chunk :=
  match r with RunLock c | RunSend c _ => [c] | _ => [] end.

(** What [run] has already offered channel [a] in its current round. *)
Definition this_round (r : run_pc) (a : nat) : list Chunk :=
  match r with
  | RunSend c rest => if decide (map_Exists (fun _ a' => a' = a) rest) then [] else [c]
  | _ => []
  end.

(** A subscriber on its own: order is kept, and nothing is lost while no more
    was offered than the channel holds. *)
Record sub_inv (d : sub) : Prop := mkSI {
  si_cap : length (queue d) <= subCap;
  si_order : seen d ++ queue d `sublist_of` offered d;
  si_all : length (offered d) <= subCap -> seen d ++ queue d = offered d;
  si_fin : finished d = true -> sclosed d = true /\ queue d = [] }.

(** A subscriber within the bus. *)
Record sub_ok (s : bus) (a : nat) (d : sub) : Prop := mkSO {
  so_closed : sclosed d = true -> run s = RunDone;
  so_open : sclosed d = false -> exists n, subs s !! n = Some a;
  so_since : since d <= length (broadcast s);
  so_offered : offered d = drop (since d) (broadcast s) ++ this_round (run s) a }.

Record data_inv (s : bus) : Prop := mkDI {
  d_acc : accepted s = broadcast s ++ carried (run s) ++ publisher s;
  d_cap : length (publisher s) <= bufferSize;
  d_rest : forall c rest, run s = RunSend c rest -> rest ⊆ subs s;
  d_subs : forall n a, subs s !! n = Some a -> exists d, heap s !! a = Some d /\ sclosed d = false;
  d_inj : forall n n' a, subs s !! n = Some a -> subs s !! n' = Some a -> n = n';
  d_sub : forall a d, heap s !! a = Some d -> sub_inv d;
  d_ok : forall a d, heap s !! a = Some d -> sub_ok s a d }.

Lemma offer_inv c d : sclosed d = false -> sub_inv d -> sub_inv (offer c d).
Proof.
  intros Hc [H1 H2 H3 H4]. split; cbn [offer queue sclosed seen finished offered].
  - destruct (Nat.ltb_spec (length (queue d)) subCap); [rewrite length_app; simpl; lia|done].
  - destruct (_ <? _)%nat; [rewrite app_assoc; by apply sublist_app|].
    rewrite <- (app_nil_r (seen d ++ queue d)). apply sublist_app; [done|apply sublist_nil_l].
  - rewrite length_app. simpl. intros Hl.
    assert (seen d ++ queue d = offered d) as E by (apply H3; lia).
    destruct (Nat.ltb_spec (length (queue d)) subCap); [by rewrite app_assoc, E|].
    apply (f_equal length) in E. rewrite length_app in E. lia.
  - intros Hf. destruct (H4 Hf). congruence.
Qed.

Lemma NewEventBus_data : data_inv NewEventBus.
Proof. split; simpl; try done; intros; simplify_map_eq. apply Nat.le_0_l. Qed.

(** Steps that only move threads and locks. *)
Lemma data_same s s' :
  data_inv s -> publisher s' = publisher s -> subs s' = subs s -> heap s' = heap s -> run s' = run s ->
  accepted s' = accepted s -> broadcast s' = broadcast s -> data_inv s'.
Proof.
  intros [H2 H3 H4 H5 H6 H7 H8] E1 E2 E3 E4 E5 E6.
  split; rewrite ?E1, ?E2, ?E3, ?E4, ?E5, ?E6; try done.
  intros a d Hd. destruct (H8 a d Hd). split; rewrite ?E2, ?E4, ?E6; done.
Qed.

(** Steps of a dispatcher. *)
Lemma data_dispatch s a d d' :
  data_inv s -> heap s !! a = Some d -> sclosed d' = sclosed d -> since d' = since d -> offered d' = offered d ->
  sub_inv d' -> data_inv (set_heap (<[a := d']> (heap s)) s).
Proof.
  intros [H2 H3 H4 H5 H6 H7 H8] Hd E1 E2 E3 Hinv. split; unset; try done.
  - intros n b Hn. destruct (H5 n b Hn) as (e & He & Hc). destruct (decide (a = b)) as [->|Hne].
    + exists d'. rewrite lookup_insert_eq. simplify_eq. split; [done|congruence].
    + exists e. by rewrite lookup_insert_ne.
  - intros b e Hb. upd; eauto.
  - intros b e Hb. upd; [destruct (H8 _ _ Hd)|destruct (H8 b e ltac:(done))]; split; unset; rewrite ?E1, ?E2, ?E3; done.
Qed.

(** An open subscriber is in the range. *)
Lemma open_in_subs s a d :
  data_inv s -> run s <> RunDone -> heap s !! a = Some d -> map_Exists (fun _ a' => a' = a) (subs s).
Proof.
  intros H Hr Hd. destruct (d_ok s H a d Hd) as [Hc Ho _ _].
  destruct (sclosed d) eqn:E; [by specialize (Hc eq_refl)|].
  destruct (Ho eq_refl) as [n Hn]. apply map_Exists_lookup. eauto.
Qed.

(** The bookkeeping of a round. *)
Lemma this_round_start s a d c :
  data_inv s -> run s <> RunDone -> heap s !! a = Some d -> this_round (RunSend c (subs s)) a = [].
Proof. intros. simpl. rewrite decide_True; [done|]. by eapply open_in_subs. Qed.

Lemma this_round_visit s c rest n a b :
  data_inv s -> run s = RunSend c rest -> rest !! n = Some a -> heap s !! b <> None ->
  this_round (RunSend c (delete n rest)) b = this_round (RunSend c rest) b ++ (if decide (b = a) then [c] else []).
Proof.
  intros H Hr Hn Hb. assert (forall m, rest !! m = Some a -> m = n) as Hinj.
  { intros m Hm. pose proof (d_rest s H c rest Hr) as Hs. eapply d_inj; [exact H| |]; eapply lookup_weaken; eauto. }
  simpl. destruct (decide (b = a)) as [->|Hne].
  - rewrite decide_False, decide_True; [done| |].
    + apply map_Exists_lookup. eauto.
    + intros (m & b & Hm & ->)%map_Exists_lookup. apply lookup_delete_Some in Hm as [Hm1 Hm2]. by apply Hm1, eq_sym, Hinj.
  - rewrite app_nil_r. apply decide_ext. rewrite !map_Exists_lookup. split.
    + intros (m & x & Hm & ->). apply lookup_delete_Some in Hm as [_ Hm]. eauto.
    + intros (m & x & Hm & ->). exists m, b. split; [|done]. apply lookup_delete_Some. split; [|done]. congruence.
Qed.

Lemma data_run_locks s c : data_inv s -> run s = RunLock c ->
  data_inv (set_run (RunSend c (subs s)) (set_readers (S (readers s)) s)).
Proof.
  intros H Hr. assert (run s <> RunDone) as Hnd by congruence. pose proof H as [H2 H3 H4 H5 H6 H7 H8].
  split; unset; try done.
  - by rewrite H2, Hr.
  - intros c' rest [= <- <-]. done.
  - intros a d Hd. destruct (H8 a d Hd) as [G1 G2 G3 G4]. split; unset; try done.
    + intros Hc. by rewrite G1 in Hnd.
    + rewrite (this_round_start s a d c H Hnd Hd). by rewrite G4, Hr.
Qed.

Lemma data_run_offers s c rest n a d : data_inv s -> run s = RunSend c rest -> rest !! n = Some a ->
  heap s !! a = Some d -> sclosed d = false ->
  data_inv (set_run (RunSend c (delete n rest)) (set_heap (<[a := offer c d]> (heap s)) s)).
Proof.
  intros H Hr Hn Hd Hcl. pose proof H as [H2 H3 H4 H5 H6 H7 H8]. split; unset; try done.
  - by rewrite H2, Hr.
  - intros c' r' [= <- <-]. etransitivity; [apply delete_subseteq|by eapply H4].
  - intros m b Hm. destruct (H5 m b Hm) as (e & He & Hc). destruct (decide (a = b)) as [->|Hne].
    + exists (offer c d). by rewrite lookup_insert_eq.
    + exists e. by rewrite lookup_insert_ne.
  - intros b e Hb. upd; [apply offer_inv|]; eauto.
  - intros b e Hb. assert (heap s !! b <> None) as Hb' by (upd; congruence).
    pose proof (this_round_visit s c rest n a b H Hr Hn Hb') as Hv.
    upd; [destruct (H8 _ _ Hd) as [G1 G2 G3 G4]|destruct (H8 b e ltac:(done)) as [G1 G2 G3 G4]]; split; try done.
    + cbn [offer sclosed]. congruence.
    + cbn [offer offered]. unset. rewrite Hv, decide_True, G4, Hr, <- app_assoc; done.
    + intros Hc. apply G1 in Hc. congruence.
    + unset. rewrite Hv, decide_False, app_nil_r, G4, Hr; done.
Qed.

Lemma data_run_unlocks s c : data_inv s -> run s = RunSend c ∅ ->
  data_inv (set_run RunRecv (set_readers (readers s - 1) (set_broadcast (broadcast s ++ [c]) s))).
Proof.
  intros H Hr. pose proof H as [H2 H3 H4 H5 H6 H7 H8]. split; unset; try done.
  - rewrite H2, Hr. simpl. by rewrite <- app_assoc.
  - intros a d Hd. destruct (H8 a d Hd) as [G1 G2 G3 G4]. split; unset; try done.
    + intros Hc. apply G1 in Hc. congruence.
    + rewrite length_app. simpl. lia.
    + rewrite drop_app_le, app_nil_r by done. rewrite G4, Hr. simpl. rewrite decide_False; [done|].
      intros (m & x & Hm & _)%map_Exists_lookup. simplify_map_eq.
Qed.

Lemma data_subscribes s n a : data_inv s -> sending (run s) = 0 -> heap s !! a = None -> data_inv (Subscribe n a s).
Proof.
  intros H Hs Ha. pose proof H as [H2 H3 H4 H5 H6 H7 H8]. unfold Subscribe.
  destruct (subs s !! n) eqn:Hn; [done|]. split; unset; try done.
  - intros c rest Hr. by rewrite Hr in Hs.
  - intros m b Hm. upd; [eexists; by rewrite lookup_insert_eq|].
    destruct (H5 m b ltac:(done)) as (e & He & Hc). exists e. rewrite lookup_insert_ne; [done|congruence].
  - intros m m' b Hm Hm'. upd; try done; eauto; exfalso;
      match goal with H : subs s !! _ = Some ?x, Hx : heap s !! ?x = None |- _ => destruct (H5 _ _ H) as (e & He & _); congruence end.
  - intros b e Hb. upd; [|by eauto]. split; simpl; try done. lia.
  - intros b e Hb. upd.
    + split; unset; try done; [intros _; exists n; apply lookup_insert_eq|].
      rewrite drop_ge by lia. by destruct (run s).
    + destruct (H8 b e ltac:(done)) as [G1 G2 G3 G4]. split; unset; try done.
      intros Hc. destruct (G2 Hc) as [m Hm]. exists m. rewrite lookup_insert_ne; [done|congruence].
Qed.

Lemma data_stop_closes s n a d : data_inv s -> run s = RunDone -> subs s !! n = Some a -> heap s !! a = Some d ->
  sclosed d = false ->
  data_inv (set_subs (delete n (subs s))
    (set_heap (<[a := mkSub (queue d) true (seen d) (finished d) (since d) (offered d)]> (heap s)) s)).
Proof.
  intros H Hr Hn Hd Hcl. pose proof H as [H2 H3 H4 H5 H6 H7 H8]. split; unset; try done.
  - intros c rest Hr'. congruence.
  - intros m b Hm. upd. destruct (H5 m b ltac:(done)) as (e & He & Hc). exists e.
    rewrite lookup_insert_ne; [done|]. intros ->. destruct (H6 n m b); done.
  - intros m m' b Hm Hm'. upd. eauto.
  - intros b e Hb. upd; [|by eauto]. destruct (H7 _ _ Hd). split; unset; try done. intros Hf. split; [done|]. intuition.
  - intros b e Hb. upd.
    + destruct (H8 _ _ Hd). split; unset; try done.
    + destruct (H8 b e ltac:(done)) as [G1 G2 G3 G4]. split; unset; try done.
      intros Hc. destruct (G2 Hc) as [m Hm]. exists m. rewrite lookup_delete_ne; [done|].
      intros ->. congruence.
Qed.

(** [run] between rounds. *)
Lemma data_run_moves s r q : data_inv s -> sending (run s) = 0 -> sending r = 0 ->
  run s <> RunDone -> carried r ++ q = carried (run s) ++ publisher s -> length q <= bufferSize ->
  data_inv (set_run r (set_publisher q s)).
Proof.
  intros H Hs Hr Hnd Hq Hl. pose proof H as [H2 H3 H4 H5 H6 H7 H8]. split; unset; try done.
  - by rewrite H2, Hq.
  - intros c rest ->. done.
  - intros a d Hd. destruct (H8 a d Hd) as [G1 G2 G3 G4]. split; unset; try done.
    + intros Hc. by apply G1 in Hc.
    + rewrite G4. by destruct (run s), r.
Qed.

(** A chunk handed over without the buffer. *)
Lemma data_handoff s t c : data_inv s -> run s = RunRecv -> publisher s = [] ->
  data_inv (pub_return t (set_run (RunLock c) (set_accepted (accepted s ++ [c]) s))).
Proof.
  intros H Hr Hp. pose proof H as [H2 H3 H4 H5 H6 H7 H8]. split; unset; try done.
  - rewrite H2, Hr, Hp. simpl. by rewrite app_nil_r.
  - intros a d Hd. destruct (H8 a d Hd) as [G1 G2 G3 G4]. split; unset; try done.
    + intros Hc. apply G1 in Hc. congruence.
    + by rewrite G4, Hr.
Qed.

Lemma step_data l s s' : lock_inv s -> data_inv s -> step l s s' -> data_inv s'.
Proof.
  intros HL H Hst. assert (panicked s = false) as Hp by by destruct Hst. pose proof (l_panic s HL Hp) as Hcl.
  destruct Hst; try (eapply data_same; [exact H|done..]).
  - (* sent *) pose proof H as [G2 G3 G4 G5 G6 G7 G8]. split; unset; try done.
    + rewrite G2. by rewrite <- !app_assoc.
    + rewrite length_app. simpl. lia.
    + intros a d Hd. destruct (G8 a d Hd). by split.
  - (* handed over *) by eapply data_handoff.
  - apply data_run_moves; try done; rewrite ?H0; try done. pose proof (d_cap s H). rewrite H1 in *. simpl in *. lia.
  - replace (set_run RunDone s) with (set_run RunDone (set_publisher [] s)) by (unset; by rewrite H1).
    apply data_run_moves; try done; rewrite ?H0, ?H1; try done. simpl. lia.
  - by apply data_run_locks.
  - eapply data_run_offers; eauto.
  - by apply data_run_unlocks.
  - eapply data_dispatch; eauto. destruct (d_sub s H a d H0) as [G1 G2 G3 G4]. rewrite H2 in *.
    split; unset; [simpl in *; lia|by rewrite <- app_assoc|intros Hl; rewrite <- app_assoc; by apply G3|done].
  - eapply data_dispatch; eauto. destruct (d_sub s H a d H0) as [G1 G2 G3 G4]. rewrite H2 in *. split; unset; try done.
  - apply data_subscribes; try done. pose proof (l_readers s HL). lia.
  - unfold stop_once. rewrite Hcl, <- (l_once s HL), H1. eapply data_same; [exact H|done..].
  - eapply data_stop_closes; eauto. eapply (l_rundone s HL); [exact H0|done..].
Qed.

Lemma reachable_inv s : reachable s -> lock_inv s /\ data_inv s.
Proof.
  unfold reachable. intros Hr. pattern s. eapply rtc_ind_r; [| |exact Hr].
  - split; [apply NewEventBus_lock|apply NewEventBus_data].
  - intros x y _ [l Hst] [HL HD]. split; [by eapply step_lock|by eapply step_data].
Qed.

(** The only panic is that of [wg.Add] in [Subscribe]. *)
Lemma step_panics l s s' : lock_inv s -> data_inv s -> step l s s' -> panicked s' = true ->
  l = LSubscribe /\ misused s' /\ stopped s = true.
Proof.
  intros HL H Hst Hp'. assert (panicked s = false) as Hp by by destruct Hst. pose proof (l_panic s HL Hp) as Hcl.
  destruct Hst; unset; repeat split_match; unset; try congruence; try (exfalso; congruence).
  - (* a publisher past its check sees an open channel *) apply (l_send s HL) in H0. congruence.
  - (* the channels in the range are open *)
    destruct (d_subs s H name a) as (e & He & Hc); [|congruence]. eapply lookup_weaken; [done|by eapply d_rest].
  - split; [done|]. split; [done|]. destruct H3 as [[t Ht] _]. by eapply l_stop.
  - (* the publisher is closed once *) rewrite (l_once s HL) in *. congruence.
  - destruct (d_subs s H name a H1) as (e & He & Hc). congruence.
Qed.

Lemma reachable_panicked s : reachable s -> panicked s = true -> misused s.
Proof.
  intros Hr Hp. apply rtc_inv_r in Hr as [<-|(x & Hx & l & Hst)]; [done|].
  destruct (reachable_inv x Hx) as [HL HD]. by destruct (step_panics l x s HL HD Hst Hp) as (_ & ? & _).
Qed.

(** What a subscriber was offered is a prefix of what was accepted since. *)
Lemma offered_prefix s a d : data_inv s -> heap s !! a = Some d ->
  offered d `prefix_of` drop (since d) (accepted s).
Proof.
  intros H Hd. destruct (d_ok s H a d Hd) as [_ _ Hs Ho]. rewrite Ho, (d_acc s H), drop_app_le by done.
  apply prefix_app. destruct (run s); simpl; try apply prefix_nil.
  case_decide; [apply prefix_nil|by exists (publisher s)].
Qed.

(** ** Progress *)

(** Subscriptions end before the bus is stopped. *)
Definition reachable_early (s : bus) : Prop :=
  rtc (fun x y => exists l, step l x y /\ (l = LSubscribe -> stopped x = false)) NewEventBus s.

Lemma early_reachable s : reachable_early s -> reachable s.
Proof. apply rtc_subrel. intros x y (l & H & _). by exists l. Qed.

Lemma early_panicked s : reachable_early s -> panicked s = false.
Proof.
  intros Hr. apply rtc_inv_r in Hr as [<-|(x & Hx & l & Hst & He)]; [done|].
  destruct (reachable_inv x (early_reachable x Hx)) as [HL HD]. apply not_true_iff_false. intros Hp.
  destruct (step_panics l x s HL HD Hst Hp) as (-> & _ & Hs). specialize (He eq_refl). congruence.
Qed.

Lemma early_closed s : reachable_early s ->
  forall t p, stops s !! t = Some p -> p = StopWg \/ p = StopRet -> subs s = ∅.
Proof.
  intros Hr. assert (reachable s) as Hr' by by apply early_reachable.
  revert Hr'. pattern s. eapply rtc_ind_r; [| |exact Hr]; clear s Hr.
  { intros _ t p H. unset. simplify_map_eq. }
  intros x y Hx (l & Hst & Hearly) IH _. assert (reachable x) as Hrx by by apply early_reachable.
  specialize (IH Hrx). destruct (reachable_inv x Hrx) as [HL HD].
  intros t p Ht Hp. destruct Hst; unset; repeat split_match; unset; upd; try (intuition congruence); eauto.
  - (* no late subscription *) specialize (Hearly eq_refl).
    rewrite (l_stop s HL t p Ht) in Hearly by (intuition congruence). done.
  - (* the closer is alone *) rewrite (IH _ _ Ht Hp). apply delete_empty.
Qed.

(** No goroutine can move. *)
Definition quiescent (s : bus) : Prop := forall s', ~ step LTau s s'.

Lemma quiet_publishers s : panicked s = false -> quiescent s -> pubs s = ∅.
Proof.
  intros Hp Hq. apply map_empty. intros t. destruct (pubs s !! t) as [[k c|k c]|] eqn:E; [exfalso..|done].
  - destruct (stopped s) eqn:Hs; eapply Hq; [by eapply pub_refused|by eapply pub_checked].
  - destruct (pclosed s) eqn:Hs; [eapply Hq; by eapply pub_panics|].
    destruct (le_lt_dec bufferSize (length (publisher s))); eapply Hq; [by eapply pub_full|by eapply pub_sent].
Qed.

Lemma quiet_writer s : panicked s = false -> lock_inv s -> data_inv s -> quiescent s -> writer s = false.
Proof.
  intros Hp HL H Hq. destruct (writer s) eqn:Hw; [exfalso|done].
  destruct (l_wown s HL Hw) as [t Ht]. destruct (decide (subs s = ∅)) as [E|E]; [eapply Hq; by eapply stop_unlocks|].
  apply map_choose in E as (n & a & Hn). destruct (d_subs s H n a Hn) as (d & Hd & Hc).
  eapply Hq. by eapply stop_closes.
Qed.

Lemma quiet_run s : panicked s = false -> lock_inv s -> data_inv s -> quiescent s -> run s = RunDone \/ (run s = RunRecv /\ stopped s = false).
Proof.
  intros Hp HL H Hq. pose proof (quiet_writer s Hp HL H Hq) as Hw.
  destruct (run s) as [|c|c rest|] eqn:Hr; [|exfalso..|by left].
  - right. split; [done|]. destruct (stopped s) eqn:Hs; [exfalso|done].
    destruct (publisher s) eqn:Hpub; eapply Hq; [eapply run_ends; try done; by rewrite (l_panic s HL Hp)|by eapply run_receives].
  - eapply Hq. by eapply run_locks.
  - destruct (decide (rest = ∅)) as [->|E]; [eapply Hq; by eapply run_unlocks|].
    apply map_choose in E as (n & a & Hn).
    destruct (d_subs s H n a) as (d & Hd & Hc); [eapply lookup_weaken; [done|by eapply d_rest]|].
    eapply Hq. by eapply run_offers.
Qed.

Lemma quiet_dispatch s : panicked s = false -> data_inv s -> quiescent s -> subs s = ∅ -> map_Forall (fun _ d => finished d = true) (heap s).
Proof.
  intros Hp H Hq He a d Hd. destruct (finished d) eqn:Hf; [done|exfalso].
  destruct (sclosed d) eqn:Hc.
  - destruct (queue d) eqn:Hqu; eapply Hq; [by eapply dispatch_ends|by eapply dispatch_processes].
  - destruct (so_open s a d (d_ok s H a d Hd) Hc) as [n Hn]. rewrite He in Hn. simplify_map_eq.
Qed.

Lemma quiet_stops s t p : reachable_early s -> quiescent s -> stops s !! t = Some p -> p = StopRet.
Proof.
  intros Hr Hq Ht. destruct (reachable_inv s (early_reachable s Hr)) as [HL H]. pose proof (early_panicked s Hr) as Hp.
  pose proof (quiet_writer s Hp HL H Hq) as Hw. pose proof (quiet_run s Hp HL H Hq) as Hrun.
  assert (readers s = 0) as Hrd.
  { rewrite (l_readers s HL), (quiet_publishers s Hp Hq), map_size_empty. by destruct Hrun as [->|[-> _]]. }
  destruct p; [exfalso..|done].
  - destruct (once s) eqn:Ho; eapply Hq; [by eapply stop_again|by eapply stop_first].
  - destruct Hrun as [Hd|[_ Hs]]; [eapply Hq; by eapply stop_waited|]. by rewrite (l_stop s HL t _ Ht) in Hs.
  - eapply Hq. by eapply stop_locks.
  - by rewrite (l_wstop s HL t Ht) in Hw.
  - eapply Hq. eapply stop_returns; [done| |done]. split; [by eapply (l_rundone s HL); [exact Ht|..]|].
    apply quiet_dispatch; [done..|]. eapply early_closed; eauto.
Qed.

(** ** Termination

    What the goroutines of a state still have to do: a chunk in the buffer
    costs a receive, a lock, two steps per subscriber and an unlock. *)
Definition chunk_cost (s : bus) : nat := 2 * size (subs s) + 4.
Definition pub_work (n : nat) (p : pub_pc) : nat :=
  n + match p with PubCheck _ _ => 2 | PubSend _ _ => 1 end.
Arguments pub_work n !p /.
Definition run_work (n : nat) (r : run_pc) : nat :=
  match r with RunRecv => 1 | RunLock _ => n | RunSend _ rest => 2 * size rest + 3 | RunDone => 0 end.
Definition sub_work (d : sub) : nat := length (queue d) + (if finished d then 0 else 1).
Definition stop_work (p : stop_pc) : nat :=
  match p with StopOnce => 5 | StopWait => 4 | StopLock => 3 | StopClose => 2 | StopWg => 1 | StopRet => 0 end.
Definition work (s : bus) : nat :=
  msum (pub_work (chunk_cost s)) (pubs s) + length (publisher s) * chunk_cost s + run_work (chunk_cost s) (run s) + msum sub_work (heap s)
  + msum stop_work (stops s) + size (subs s) + (if panicked s then 0 else 1).

(** The weights of the map entries a step touches. *)
Ltac weigh :=
  repeat match goal with
  | H : ?m !! ?i = Some ?x |- context [msum ?f (<[?i := ?y]> ?m)] =>
      let E := fresh in pose proof (msum_insert f m i x y H) as E; revert E;
      generalize (msum f (<[i := y]> m)); intros
  | H : ?m !! ?i = Some ?x |- context [msum ?f (delete ?i ?m)] =>
      let E := fresh in pose proof (msum_delete f m i x H) as E; revert E;
      generalize (msum f (delete i m)); intros
  end.

Lemma sub_work_insert m a d d' : m !! a = Some d ->
  msum sub_work (<[a := d']> m) + (length (queue d) + (if finished d then 0 else 1))
  = msum sub_work m + (length (queue d') + (if finished d' then 0 else 1)).
Proof. exact (msum_insert sub_work m a d d'). Qed.

Lemma offer_work c d : sub_work (offer c d) <= S (sub_work d).
Proof. unfold sub_work, offer. simpl. case_match; rewrite ?length_app; simpl; lia. Qed.

Lemma size_delete (m : gmap string nat) n a : m !! n = Some a -> size m = S (size (delete n m)).
Proof.
  intros H. rewrite map_size_delete_Some by eauto. assert (size m <> 0); [|lia].
  apply map_size_ne_0_lookup. eauto.
Qed.

(** Fewer subscribers, less work. *)
Lemma work_mono n n' ps r : n <= n' ->
  msum (pub_work n) ps <= msum (pub_work n') ps /\ run_work n r <= run_work n' r.
Proof.
  intros H. split; [apply msum_mono; intros []; unfold pub_work; lia|]. destruct r; simpl; lia.
Qed.

Lemma step_work l s s' : step l s s' -> l = LTau -> work s' < work s.
Proof.
  intros Hst Hl. destruct Hst; try discriminate Hl; unfold work, stop_once in *;
    try match goal with |- context [if pclosed ?s then _ else _] => destruct (pclosed s) eqn:? end;
    unfold chunk_cost in *; unset;
    repeat match goal with H : ?x = _ |- context [?x] => rewrite H end.
  all: try (weigh; cbn [pub_work run_work stop_work length] in *;
            rewrite ?length_app in *; cbn [length] in *; simplify_eq; lia).
  - (* run offers *) pose proof (offer_work c d). weigh. cbn [run_work].
    rewrite (size_delete rest name a) by done. lia.
  - pose proof (sub_work_insert (heap s) a d (mkSub q (sclosed d) (seen d ++ [c]) false (since d) (offered d)) H) as E.
    rewrite H0, H1 in E. cbn [queue finished length] in E. lia.
  - pose proof (sub_work_insert (heap s) a d (mkSub [] true (seen d) true (since d) (offered d)) H) as E.
    rewrite H0, H1 in E. cbn [queue finished length] in E. lia.
  - (* stop closes *) rewrite (size_delete (subs s) name a) by done.
    pose proof (sub_work_insert (heap s) a d (mkSub (queue d) true (seen d) (finished d) (since d) (offered d)) H1) as E.
    cbn [queue finished] in E.
    destruct (work_mono (2 * size (delete name (subs s)) + 4) (2 * S (size (delete name (subs s))) + 4) (pubs s) (run s)); [lia|].
    nia.
Qed.

End Steps.

Section Stopping.
Context (bufferSize : nat).

Lemma tau_early s s' : reachable_early bufferSize s -> rtc (step bufferSize LTau) s s' -> reachable_early bufferSize s'.
Proof.
  intros H Hs. unfold reachable_early in *. etransitivity; [exact H|]. eapply rtc_subrel; [|exact Hs].
  intros x y Hxy. by exists LTau.
Qed.

(** A call of [Stop] does not disappear. *)
Lemma tau_stops s s' t : rtc (step bufferSize LTau) s s' -> is_Some (stops s !! t) -> is_Some (stops s' !! t).
Proof.
  induction 1 as [|x y z Hxy _ IH]; [done|]. intros Ht. apply IH. clear IH. inversion Hxy; subst; unset; try done;
    try (apply lookup_insert_is_Some; destruct (decide (t0 = t)); auto).
Qed.

Lemma tau_bounded n s s' : nsteps (step bufferSize LTau) n s s' -> n <= work s.
Proof.
  induction 1 as [|n x y z Hxy _ IH]; [lia|]. pose proof (step_work bufferSize LTau x y Hxy eq_refl). lia.
Qed.
End Stopping.

(** ** Properties *)

(** C20: Whatever the interleaving of publishers, subscribers, goroutines and
    calls of [Stop]: the only panic is a [Subscribe] that meets a [Stop] in
    [wg.Wait] with no goroutine left, and there is none when nobody subscribes
    to a stopped bus; a chunk that was accepted is in the buffer, in the hands
    of [run], or has gone round; [run] has offered a subscriber exactly the
    chunks that went round since it subscribed, and the chunk of the current
    round if its turn has come; what it has processed and what waits in its
    channel are among those, in order, and are all of them up to the capacity
    of the channel, 256; the buffers stay within their capacities. *)
Theorem bus_safe bufferSize s :
  reachable bufferSize s ->
  (panicked s = true -> misused s)
  /\ (reachable_early bufferSize s -> panicked s = false)
  /\ accepted s = broadcast s ++ carried (run s) ++ publisher s
  /\ length (publisher s) <= bufferSize
  /\ forall a d, heap s !! a = Some d ->
       offered d = drop (since d) (broadcast s) ++ this_round (run s) a
       /\ length (queue d) <= subCap
       /\ seen d ++ queue d `sublist_of` offered d
       /\ (length (offered d) <= subCap -> seen d ++ queue d = offered d).
Proof.
  intros Hr. destruct (reachable_inv _ s Hr) as [HL H].
  split; [by eapply reachable_panicked|]. split; [apply early_panicked|].
  split; [by eapply d_acc|]. split; [by eapply d_cap|]. intros a d Hd.
  destruct (d_sub _ s H a d Hd), (d_ok _ s H a d Hd). done.
Qed.


(** C31: If nobody subscribes once the bus is stopped, every call of [Stop]
    returns: from any reachable state the goroutines take at most [work s] more
    steps, in any order, and when none of them can move, all calls of [Stop]
    have returned. *)
Theorem Stop_terminates bufferSize s :
  reachable_early bufferSize s ->
  (forall n s', nsteps (step bufferSize LTau) n s s' -> n <= work s)
  /\ (forall s' t, rtc (step bufferSize LTau) s s' -> quiescent bufferSize s' ->
        is_Some (stops s !! t) -> stops s' !! t = Some StopRet).
Proof.
  intros Hr. split; [intros n s'; apply tau_bounded|]. intros s' t Hs Hq Ht.
  destruct (tau_stops _ s s' t Hs Ht) as [p Hp]. rewrite Hp. f_equal.
  exact (quiet_stops bufferSize s' t p (tau_early _ s s' Hr Hs) Hq Hp).
Qed.

(** One step of a concrete execution. *)
Ltac norm := match goal with |- rtc _ ?x _ => let y := eval vm_compute in x in change x with y end.
Ltac go c := eapply rtc_l; [eexists; c; vm_compute; reflexivity|]; norm.

Lemma rtc_eq (R : relation bus) x y : x = y -> rtc R x y.
Proof. intros ->. apply rtc_refl. Qed.

(** The bus after a [Stop] that met a late subscriber. *)
Definition late_state : bus :=
  mkBus [] true {[ "raw" := 0 ]} {[ 0 := mkSub [] false [] false 0 [] ]} 0 false true true RunDone ∅
        {[ 0 := StopWg ]} [] [] false.

(** Without that condition [Stop] can block for ever: [Subscribe] does not
    look at [stopped], and a subscriber that arrives between the closing of the
    channels and [wg.Wait] waits on a channel nobody will close. *)
Theorem late_subscriber_blocks_Stop :
  reachable 256 late_state /\ stops late_state !! 0 = Some StopWg /\ quiescent 256 late_state.
Proof.
  split; [|split].
  - go ltac:(apply (stop_called _ _ 0)). go ltac:(apply (stop_first _ _ 0)). go ltac:(apply run_ends).
    go ltac:(apply (stop_waited _ _ 0)). go ltac:(apply (stop_locks _ _ 0)). go ltac:(apply (stop_unlocks _ _ 0)).
    go ltac:(apply (subscribes _ _ "raw" 0)). apply rtc_eq. vm_compute. reflexivity.
  - reflexivity.
  - intros s' Hst. remember LTau as l eqn:Hl. inversion Hst; subst; try discriminate; unfold late_state in *; unset;
      repeat match goal with
      | H : {[ _ := _ ]} !! _ = Some _ |- _ => apply lookup_singleton_Some in H as [? ?]; simplify_eq
      | H : _ |- _ => rewrite lookup_empty in H; discriminate H
      end; simplify_eq.
    destruct H0 as [_ Hf]. specialize (Hf 0 _ (lookup_singleton_eq 0 _)). discriminate Hf.
Qed.

(** The bus on which a [Subscribe] has met a [Stop] in [wg.Wait]. *)
Definition misuse_state : bus :=
  mkBus [] true ∅ ∅ 0 false true true RunDone ∅ {[ 0 := StopWg ]} [] [] true.

(** The panic of [bus_safe] is reachable. *)
Theorem late_subscriber_panics : reachable 256 misuse_state.
Proof.
  go ltac:(apply (stop_called _ _ 0)). go ltac:(apply (stop_first _ _ 0)). go ltac:(apply run_ends).
  go ltac:(apply (stop_waited _ _ 0)). go ltac:(apply (stop_locks _ _ 0)). go ltac:(apply (stop_unlocks _ _ 0)).
  eapply rtc_l; [|apply rtc_eq].
  - exists LSubscribe. apply (subscribe_panics _ _ "raw"); try reflexivity.
    split; [by exists 0|]. split; [done|]. intros i x Hx. change ((∅ : gmap nat sub) !! i = Some x) in Hx. by rewrite lookup_empty in Hx.
  - vm_compute. reflexivity.
Qed.

(** A bus without a buffer takes a chunk when [run] waits for it. *)
Example unbuffered_accepts : reachable 0 (set_run (RunLock (text_chunk "hi")) (set_accepted [text_chunk "hi"] NewEventBus)).
Proof.
  go ltac:(apply (pub_enter _ _ 0 KPublish (text_chunk "hi"))). go ltac:(eapply (pub_checked _ _ 0)).
  go ltac:(eapply (pub_handoff _ _ 0)). apply rtc_eq. vm_compute. reflexivity.
Qed.

(** ** Witnesses *)

(** One chunk published to one subscriber, then [Stop] up to [wg.Wait]. *)
Definition sample_state : bus :=
  mkBus [] true ∅ {[ 0 := mkSub [] true [text_chunk "hi"] true 0 [text_chunk "hi"] ]} 0 false true true RunDone ∅
        {[ 0 := StopWg ]} [text_chunk "hi"] [text_chunk "hi"] false.

Ltac go_early c := eapply rtc_l; [eexists; split; [c; vm_compute; reflexivity|vm_compute; done]|]; norm.

Lemma sample_early : reachable_early 256 sample_state.
Proof.
  go_early ltac:(apply (subscribes _ _ "log" 0)).
  go_early ltac:(apply (pub_enter _ _ 0 KTryPublish (text_chunk "hi"))).
  go_early ltac:(eapply (pub_checked _ _ 0)).
  eapply rtc_l; [eexists; split; [eapply (pub_sent _ _ 0); [vm_compute; reflexivity..|vm_compute; lia|vm_compute; reflexivity]|vm_compute; done]|]; norm.
  go_early ltac:(eapply run_receives). go_early ltac:(eapply run_locks).
  go_early ltac:(eapply (run_offers _ _ _ _ "log" 0)). go_early ltac:(eapply run_unlocks).
  go_early ltac:(eapply (dispatch_processes _ _ 0)).
  go_early ltac:(apply (stop_called _ _ 0)). go_early ltac:(apply (stop_first _ _ 0)). go_early ltac:(apply run_ends).
  go_early ltac:(apply (stop_waited _ _ 0)). go_early ltac:(apply (stop_locks _ _ 0)).
  go_early ltac:(eapply (stop_closes _ _ 0 "log" 0)). go_early ltac:(apply (stop_unlocks _ _ 0)).
  go_early ltac:(eapply (dispatch_ends _ _ 0)).
  apply rtc_eq. vm_compute. reflexivity.
Qed.

Lemma bus_safe_witness : panicked sample_state = false /\ [text_chunk "hi"] `sublist_of` [text_chunk "hi"].
Proof.
  destruct (bus_safe 256 sample_state (early_reachable _ _ sample_early)) as (_ & H & _ & _ & Hs).
  split; [exact (H sample_early)|]. exact (proj1 (proj2 (proj2 (Hs 0 _ eq_refl)))).
Defined.


Lemma Stop_terminates_witness : (exists s', step 256 LTau sample_state s') /\ 1 <= work sample_state.
Proof.
  assert (step 256 LTau sample_state (set_stops (<[0 := StopRet]> (stops sample_state)) sample_state)) as H.
  { apply stop_returns; [reflexivity| |reflexivity]. split; [reflexivity|]. apply map_Forall_singleton. reflexivity. }
  split; [eexists; exact H|].
  exact (proj1 (Stop_terminates 256 sample_state sample_early) 1 _ (nsteps_once _ _ H)).
Defined.

End ChunkBus.

(** ** The telemetry subscriber *)

(** [telemetryProcessor.Process]. *)
Definition telemetry_Process (t : Telemetry) (c : Chunk) : Telemetry :=
  match cType c with
  | ChunkText | ChunkReasoning => RecordChunkBytes t (Z.of_nat (String.length (cText c)))
  | ChunkToolCall | ChunkToolCallStart => RecordToolCall t
  | ChunkUsage => match cUsage c with Some u => RecordUsage t (Some u) | None => t end
  | ChunkError => RecordError t
  | _ => t
  end.

(** [logProcessor.Process]: the line that is logged, if any. *)
Definition log_line (c : Chunk) : option string :=
  match cType c with
  | ChunkText => if 0 <? String.length (cText c) then Some ("RAW chunk text len=" +:+ pretty (N.of_nat (String.length (cText c)))) else None
  | ChunkReasoning =>
      if 0 <? String.length (cText c) then Some ("RAW chunk reasoning len=" +:+ pretty (N.of_nat (String.length (cText c)))) else None
  | ChunkToolCallStart =>
      (fun t => "RAW tool_call_start id=" +:+ ID t +:+ " name=" +:+ Name t) <$> cToolCall c
  | ChunkToolCall =>
      (fun t => "RAW tool_call id=" +:+ ID t +:+ " name=" +:+ Name t +:+ " args=" +:+ Arguments t) <$> cToolCall c
  | ChunkUsage =>
      (fun u => "RAW usage prompt=" +:+ pretty (PromptTokens u) +:+ " completion=" +:+ pretty (CompletionTokens u)
                +:+ " total=" +:+ pretty (TotalTokens u)) <$> cUsage c
  | ChunkWarn => Some ("RAW warn: " +:+ cWarning c)
  | ChunkError => (fun e => "RAW error: " +:+ Error e) <$> cError c
  | _ => None
  end.

(** Of a text or of reasoning the log shows the length and nothing else. *)
Lemma log_line_private c c' : cType c = cType c' -> cType c = ChunkText \/ cType c = ChunkReasoning ->
  String.length (cText c) = String.length (cText c') -> log_line c = log_line c'.
Proof. unfold log_line. intros <- [-> | ->] ->; done. Qed.

Definition text_bytes (c : Chunk) : Z :=
  match cType c with ChunkText | ChunkReasoning => Z.of_nat (String.length (cText c)) | _ => 0%Z end.
Definition of_type (ts : list ChunkType) (c : Chunk) : Z := if bool_decide (cType c ∈ ts) then 1%Z else 0%Z.
Definition zsum (f : Chunk -> Z) (l : list Chunk) : Z := foldr (fun c n => (f c + n)%Z) 0%Z l.

Lemma wrap64_add a b : wrap64 (wrap64 a + b) = wrap64 (a + b).
Proof.
  unfold wrap64. f_equal. replace ((a + 2 ^ 63) mod 2 ^ 64 - 2 ^ 63 + b + 2 ^ 63)%Z with ((a + 2 ^ 63) mod 2 ^ 64 + b)%Z by lia.
  rewrite Z.add_mod_idemp_l by done. f_equal. lia.
Qed.

Lemma wrap64_idem a : wrap64 (wrap64 a) = wrap64 a.
Proof. apply wrap64_id, wrap64_range. Qed.

(** What one chunk adds. *)
Lemma telemetry_step t c :
  let t' := telemetry_Process t c in
  (forall z, wrap64 (chunkBytes t' + z) = wrap64 (chunkBytes t + (text_bytes c + z)))
  /\ (forall z, wrap64 (toolCalls t' + z) = wrap64 (toolCalls t + (of_type [ChunkToolCallStart; ChunkToolCall] c + z)))
  /\ (forall z, wrap64 (tel_errors t' + z) = wrap64 (tel_errors t + (of_type [ChunkError] c + z))).
Proof.
  unfold telemetry_Process, text_bytes, of_type. destruct (cType c); simpl; try destruct (cUsage c); simpl;
    repeat split; intros z; rewrite ?wrap64_add; f_equal; lia.
Qed.

Lemma telemetry_fold t l :
  let t' := foldl telemetry_Process t l in
  wrap64 (chunkBytes t') = wrap64 (chunkBytes t + zsum text_bytes l)
  /\ wrap64 (toolCalls t') = wrap64 (toolCalls t + zsum (of_type [ChunkToolCallStart; ChunkToolCall]) l)
  /\ wrap64 (tel_errors t') = wrap64 (tel_errors t + zsum (of_type [ChunkError]) l).
Proof.
  revert t. induction l as [|c l IH]; intros t; cbn [foldl zsum foldr]; [by rewrite !Z.add_0_r|].
  destruct (IH (telemetry_Process t c)) as (-> & -> & ->). destruct (telemetry_step t c) as (-> & -> & ->). done.
Qed.

Definition counters_ok (t : Telemetry) : Prop :=
  int64_range (chunkBytes t) /\ int64_range (toolCalls t) /\ int64_range (tel_errors t).

Lemma telemetry_ok t l : counters_ok t -> counters_ok (foldl telemetry_Process t l).
Proof.
  revert t. induction l as [|c l IH]; intros t H; [done|]. apply IH. destruct H as (? & ? & ?).
  unfold telemetry_Process, counters_ok. destruct (cType c); simpl; try destruct (cUsage c); simpl; auto using wrap64_range.
Qed.

(** The counters after a sequence of chunks are the sums over it, modulo
    the width of the counters: bytes of text and reasoning, errors, and tool
    calls; a tool call counts once when it starts and once more when it is
    complete. *)
Theorem telemetry_totals l :
  let t := foldl telemetry_Process NewTelemetry l in
  chunkBytes t = wrap64 (zsum text_bytes l)
  /\ toolCalls t = wrap64 (zsum (of_type [ChunkToolCallStart; ChunkToolCall]) l)
  /\ tel_errors t = wrap64 (zsum (of_type [ChunkError]) l).
Proof.
  cbv zeta. destruct (telemetry_ok NewTelemetry l) as (H1 & H2 & H3); [by repeat split|].
  destruct (telemetry_fold NewTelemetry l) as (E1 & E2 & E3).
  rewrite (wrap64_id _ H1) in E1. rewrite (wrap64_id _ H2) in E2. rewrite (wrap64_id _ H3) in E3. done.
Qed.

(** One tool call is counted twice. *)
Example tool_call_counted_twice :
  let c := mkToolCall "call_1" "function" "search" "{}" in
  toolCalls (foldl telemetry_Process NewTelemetry [tool_start_chunk c; tool_call_chunk c]) = 2%Z.
Proof. reflexivity. Qed.

(** ** The agent's event bus *)

Module AgentBus.

Inductive EventType :=
| AgentStart | AgentEnd | StepStart | StepEnd | ModelStart | ModelEnd | ToolStart | ToolEnd | ErrorEvent.
#[export] Instance EventType_eq_dec : EqDecision EventType.
Proof. solve_decision. Defined.

Section Bus.
(** [W]: what handlers touch; [D]: the data of an event. *)
Context {W D : Type}.

Record Event := mkEvent { evType : EventType; evSession : string; evData : D }.

(** A handler: the address of its code, which closures of one function literal
    share, and what a call does; [true] when it panics. *)
Record Handler := mkHandler { code : nat; invoke : Event -> W -> W * bool }.

Definition Bus := EventType -> list Handler.
Definition NewBus : Bus := fun _ => [].

Definition set_handlers (b : Bus) (t : EventType) (l : list Handler) : Bus :=
  fun t' => if decide (t' = t) then l else b t'.

Definition bus_Subscribe (b : Bus) (t : EventType) (h : Handler) : Bus := set_handlers b t (b t ++ [h]).

(** The loop of [Unsubscribe]: the first handler with the target's code. *)
Fixpoint remove_code (target : nat) (l : list Handler) : list Handler :=
  match l with
  | [] => []
  | h :: l' => if code h =? target then l' else h :: remove_code target l'
  end.

Definition Unsubscribe (b : Bus) (t : EventType) (h : Handler) : Bus := set_handlers b t (remove_code (code h) (b t)).

(** [safeInvoke]: a panic is recovered; what the handler did before stays. *)
Definition safeInvoke (evt : Event) (w : W) (h : Handler) : W := (invoke h evt w).1.

Definition bus_Publish (b : Bus) (evt : Event) (w : W) : W := foldl (safeInvoke evt) w (b (evType evt)).
Definition PublishAll (b : Bus) (evts : list Event) (w : W) : W := foldl (fun w e => bus_Publish b e w) w evts.

(** Unsubscribing undoes the last subscription exactly when no earlier
    handler of the type has the same code; otherwise it removes the earlier
    handler and keeps the one it was given. *)
Theorem Unsubscribe_undoes b t h :
  (Forall (fun h' => code h' <> code h) (b t) -> forall t', Unsubscribe (bus_Subscribe b t h) t h t' = b t')
  /\ (forall l1 h1 l2, b t = l1 ++ h1 :: l2 -> Forall (fun h' => code h' <> code h) l1 -> code h1 = code h ->
        Unsubscribe (bus_Subscribe b t h) t h t = l1 ++ l2 ++ [h]).
Proof.
  unfold Unsubscribe, bus_Subscribe, set_handlers.
  assert (forall l r, Forall (fun h' => code h' <> code h) l -> remove_code (code h) (l ++ r) = l ++ remove_code (code h) r) as E.
  { induction 1 as [|x l Hx _ IH]; [done|]. simpl. rewrite (proj2 (Nat.eqb_neq _ _) Hx). by rewrite IH. }
  split.
  - intros Hf t'. destruct (decide (t' = t)) as [->|]; [|done]. rewrite decide_True by done.
    rewrite E by done. simpl. by rewrite Nat.eqb_refl, app_nil_r.
  - intros l1 h1 l2 Hb Hf Hc. rewrite !decide_True by done. rewrite Hb, <- app_assoc, E by done. simpl.
    by rewrite Hc, Nat.eqb_refl.
Qed.
End Bus.
End AgentBus.
