(* ===== verification/OpenAI.v ===== *)
(** * The OpenAI-compatible client: state and request bodies

    [protocol/openai.go]: the client's state, its construction, the API key
    rotation, failover to another model, and the JSON body of a request as the
    [map[string]any] that is marshalled. [url.Parse], [net.ParseIP], SHA-256
    and the marshalled form of a tool's parameter schema are arguments. *)
From stdpp Require Import base tactics list gmap strings pretty sorting.
From Stdlib Require Import ZArith Lia.
From S2P Require Import Prelude GoStrings Types Normalize Breaker Vendor Telemetry RateLimit GoRegex Content.

Record Config := mkConfig {
  cfg_APIKey : string; cfg_APIKeys : list string; cfg_BaseURL : string; cfg_Model : string;
  cfg_StreamTimeout : Z; cfg_RPM : Z; cfg_TPM : Z; cfg_ContextWarnPct : Z; cfg_ContextCompressPct : Z;
  cfg_MaxReconnect : Z; cfg_HealthCheckURL : string; cfg_FallbackModel : string;
  cfg_FallbackBaseURL : string }.

Record OpenAI := mkOpenAI {
  apiKey : string; apiKeys : list string; keyIndex : Z; baseURL : string; model : string;
  name : string; vendor : Vendor; effort : string; thinkingType : string; policy : reasoningPolicy;
  streamTimeout : Z; maxReconnect : Z; rateLimiter : RateLimiter; telemetry : Telemetry;
  lastUsage : option Usage; failover : FailoverConfig }.

(** Field updates. *)
Definition set_keyIndex (i : Z) (o : OpenAI) : OpenAI :=
  mkOpenAI (apiKey o) (apiKeys o) i (baseURL o) (model o) (name o) (vendor o) (effort o)
    (thinkingType o) (policy o) (streamTimeout o) (maxReconnect o) (rateLimiter o) (telemetry o)
    (lastUsage o) (failover o).
Definition set_rateLimiter (rl : RateLimiter) (o : OpenAI) : OpenAI :=
  mkOpenAI (apiKey o) (apiKeys o) (keyIndex o) (baseURL o) (model o) (name o) (vendor o) (effort o)
    (thinkingType o) (policy o) (streamTimeout o) (maxReconnect o) rl (telemetry o)
    (lastUsage o) (failover o).
Definition set_telemetry (t : Telemetry) (o : OpenAI) : OpenAI :=
  mkOpenAI (apiKey o) (apiKeys o) (keyIndex o) (baseURL o) (model o) (name o) (vendor o) (effort o)
    (thinkingType o) (policy o) (streamTimeout o) (maxReconnect o) (rateLimiter o) t
    (lastUsage o) (failover o).
Definition set_lastUsage (u : option Usage) (o : OpenAI) : OpenAI :=
  mkOpenAI (apiKey o) (apiKeys o) (keyIndex o) (baseURL o) (model o) (name o) (vendor o) (effort o)
    (thinkingType o) (policy o) (streamTimeout o) (maxReconnect o) (rateLimiter o) (telemetry o)
    u (failover o).

(** ** Keys *)

Definition currentKey (o : OpenAI) : string :=
  if ((0 <=? keyIndex o) && (keyIndex o <? Z.of_nat (length (apiKeys o))))%Z
  then List.nth (Z.to_nat (keyIndex o)) (apiKeys o) ""
  else apiKey o.

Definition rotateKey (o : OpenAI) : OpenAI * bool :=
  if (length (apiKeys o) <=? 1)%nat then (o, false)
  else (set_keyIndex (Z.rem (keyIndex o + 1) (Z.of_nat (length (apiKeys o)))) o, true).

(** ** Construction and failover *)

Section Urls.
Context (url_Parse : string -> option URL) (ParseIP : string -> option IP).

Definition applyFailover (o : OpenAI) (m url : string) : OpenAI :=
  let v := DetectVendor url_Parse url in
  mkOpenAI (apiKey o) (apiKeys o) (keyIndex o) (TrimRight url "/" +:+ "/chat/completions") m (name o)
    v (effort o) (thinkingType o) (resolveReasoningPolicy v) (streamTimeout o)
    (maxReconnect o) (rateLimiter o) (telemetry o) (lastUsage o) (failover o).

(** [NewOpenAI] in a world of breakers and checkers; [zero] is the zero time.
    The error is the reason of the wrapped [URLValidationError]. *)
Definition NewOpenAI (allowPrivate : bool) (zero : Z) (w : hworld) (cfg : Config)
  : hworld * (url_reason + OpenAI) :=
  let base := TrimRight (cfg_BaseURL cfg) "/" in
  match ValidateBaseURL url_Parse ParseIP allowPrivate base with
  | Some r => (w, inl r)
  | None =>
      let keys := if (length (cfg_APIKeys cfg) =? 0)%nat && (cfg_APIKey cfg <>s "")
                  then [cfg_APIKey cfg] else cfg_APIKeys cfg in
      let timeout := if (cfg_StreamTimeout cfg <=? 0)%Z then (120 * Second)%Z else cfg_StreamTimeout cfg in
      let reconnect := if (cfg_MaxReconnect cfg <=? 0)%Z then 3%Z else cfg_MaxReconnect cfg in
      let v := DetectVendor url_Parse base in
      let fo := if (cfg_FallbackModel cfg <>s "") && (cfg_FallbackBaseURL cfg <>s "")
                then mkFailover 2 (Some (fun _ _ _ => true))
                       (Some (fun _ _ => (cfg_FallbackModel cfg, cfg_FallbackBaseURL cfg, true)))
                else zeroFailover in
      let o := mkOpenAI (cfg_APIKey cfg) keys 0 (base +:+ "/chat/completions") (cfg_Model cfg)
                 (cfg_Model cfg) v "" "" (resolveReasoningPolicy v) timeout reconnect
                 (NewRateLimiter (cfg_RPM cfg) (cfg_TPM cfg) zero)
                 (SetThresholds NewTelemetry (cfg_ContextWarnPct cfg) (cfg_ContextCompressPct cfg))
                 None fo in
      let healthURL := if cfg_HealthCheckURL cfg =s "" then defaultHealthEndpoint v base
                       else cfg_HealthCheckURL cfg in
      let w' := if healthURL <>s ""
                then hm_Register w v healthURL (30 * Second) (vendorCircuitBreaker w !! v) else w in
      (w', inr o)
  end.
End Urls.

(** ** Token estimate *)

Definition is_cjk (r : Z) : bool :=
  ((19968 <=? r) && (r <=? 40959) || (13312 <=? r) && (r <=? 19903) || (11904 <=? r) && (r <=? 12287))%Z.

(** [ascii/4 + cjk*2] of one message: bytes less CJK runes, not less their
    bytes. *)
Definition estimate_content (content : string) : Z :=
  let cjk := Z.of_nat (length (List.filter is_cjk (runes content))) in
  let ascii := (Z.of_nat (String.length content) - cjk)%Z in
  (Z.quot ascii 4 + cjk * 2)%Z.

Definition estimateTokens (req : Request) : Z :=
  foldl (fun n m => wrap64 (n + estimate_content (Content m))) 0%Z (reqMessages req).

(** ** Request body *)

Definition findLiveZoneStart (msgs : list Message) : nat :=
  (fix go (i : nat) (rev : list Message) : nat :=
     match rev with
     | [] => 0
     | m :: rest => if bool_decide (mRole m = RoleUser) then i - 1 else go (i - 1) rest
     end) (length msgs) (reverse msgs).

Definition sanitizeTool (t : ToolSchema) : ToolSchema :=
  mkToolSchema
    (if TrimSpace (tsName t) =s "" then "unnamed_tool" else tsName t)
    (if TrimSpace (tsDescription t) =s "" then "user-defined tool" else tsDescription t)
    (tsParameters t).

(** [sort.SliceStable] by name: insertion keeps equal names in order. *)
Fixpoint insert_tool (t : ToolSchema) (l : list ToolSchema) : list ToolSchema :=
  match l with
  | [] => [t]
  | u :: l' => if String.leb (tsName t) (tsName u) then t :: l else u :: insert_tool t l'
  end.
Fixpoint sort_tools (l : list ToolSchema) : list ToolSchema :=
  match l with [] => [] | t :: l' => insert_tool t (sort_tools l') end.

Section Body.
(** [hash8], [hash]: SHA-256; [params]: [sortSchemaKeys(CanonicalizeSchema(p))]. *)
Context (hash8 hash : string -> string) (params : string -> any).

Definition toWireTool (t : ToolSchema) : any :=
  let t := sanitizeTool t in
  AObj [("type", AStr "function");
        ("function", AObj [("name", AStr (tsName t)); ("description", AStr (tsDescription t));
                           ("parameters", params (tsParameters t))])].

Definition toWireTools (tools : list ToolSchema) : list any := toWireTool <$> sort_tools tools.

(** The process-wide caches the body goes through. *)
Record caches := mkCaches { type_cache : gmap string ContentType; compress_cache : gmap string string }.

Definition wire_tool_call (tc : ToolCall) : any :=
  AObj [("id", AStr (ID tc)); ("type", AStr "function");
        ("function", AObj [("name", AStr (Name tc)); ("arguments", AStr (Arguments tc))])].

(** The text sent for message [i]: long user and tool texts of the live zone
    are compressed. *)
Definition wire_content (c : caches) (liveIdx i : nat) (m : Message) : caches * string :=
  if (liveIdx <=? i)%nat && (bool_decide (mRole m = RoleTool) || bool_decide (mRole m = RoleUser))
     && (512 <? String.length (Content m))%nat
  then
    let '(tcache, ct) := DetectContentType hash (type_cache c) (Content m) in
    let '(ccache, s) := CachedCompressContent hash8 (compress_cache c) (Content m) ct in
    (mkCaches tcache ccache, s)
  else (c, Content m).

Definition toWireMessage (v : Vendor) (c : caches) (liveIdx i : nat) (m : Message) : caches * body_map :=
  let item : body_map := {[ "role" := AStr (mRole m) ]} in
  let '(c, item) :=
    if (0 <? length (MultiContent m))%nat
    then (c, <["content" := AArr (AObj <$> MultiContent m)]> item)
    else let '(c, s) := wire_content c liveIdx i m in (c, <["content" := AStr s]> item) in
  let item :=
    if (0 <? length (ToolCalls m))%nat then
      let item := <["tool_calls" := AArr (wire_tool_call <$> ToolCalls m)]> item in
      if bool_decide (v = VendorDeepSeek) then <["reasoning_content" := AStr (ReasoningContent m)]> item
      else item
    else item in
  let item := if ToolCallID m <>s "" then <["tool_call_id" := AStr (ToolCallID m)]> item else item in
  let item := if mName m <>s "" then <["name" := AStr (mName m)]> item else item in
  (c, item).

Fixpoint wire_loop (v : Vendor) (c : caches) (liveIdx i : nat) (msgs : list Message)
  : caches * list body_map :=
  match msgs with
  | [] => (c, [])
  | m :: rest =>
      let '(c, item) := toWireMessage v c liveIdx i m in
      let '(c, items) := wire_loop v c liveIdx (S i) rest in
      (c, item :: items)
  end.

Definition toWireMessages (o : OpenAI) (c : caches) (msgs : list Message) : caches * list body_map :=
  wire_loop (vendor o) c (findLiveZoneStart msgs) 0 msgs.

Definition bmap_any (m : body_map) : any := AObj (map_to_list m).

(** [buildBody]: the map that is marshalled. *)
Definition buildBody (o : OpenAI) (c : caches) (req : Request) (stream : bool) : caches * body_map :=
  let '(c, msgs) := toWireMessages o c (NormalizeMessages (reqMessages req)) in
  let m : body_map := {[ "model" := AStr (model o) ]} in
  let m := <["messages" := AArr (bmap_any <$> msgs)]> m in
  let m := <["stream" := ABool stream]> m in
  let m := if stream then <["stream_options" := AObj [("include_usage", ABool true)]]> m else m in
  let m := if (0 <? length (reqTools req))%nat
           then <["tools" := AArr (toWireTools (reqTools req))]> m else m in
  let m := match reqTemperature req with Some t => <["temperature" := ANum t]> m | None => m end in
  let m := match reqTopP req with Some t => <["top_p" := ANum t]> m | None => m end in
  let m := match reqMaxTokens req with Some n => <["max_tokens" := ANum (pretty n)]> m | None => m end in
  let m := if (0 <? length (reqStop req))%nat then <["stop" := AArr (AStr <$> reqStop req)]> m else m in
  (c, buildThinkingFields m (vendor o) (policy o) (effort o) (thinkingType o)).
End Body.

(** ** Properties of keys *)

(** The index stays a valid position of the key list. *)
Definition keys_ok (o : OpenAI) : Prop :=
  (0 <= keyIndex o)%Z /\ (apiKeys o <> [] -> keyIndex o < Z.of_nat (length (apiKeys o)))%Z.

Definition rotate_n (n : nat) (o : OpenAI) : OpenAI := Nat.iter n (fun o => (rotateKey o).1) o.

Lemma rotateKey_keys o : apiKeys (rotateKey o).1 = apiKeys o.
Proof. unfold rotateKey. by destruct (_ <=? _)%nat. Qed.

Lemma rotateKey_ok o : keys_ok o -> keys_ok (rotateKey o).1.
Proof.
  unfold keys_ok, rotateKey. intros [H1 H2]. destruct (_ <=? _)%nat eqn:E; bool_prop; [done|].
  simpl. rewrite Z.rem_mod_nonneg by lia.
  pose proof (Z.mod_pos_bound (keyIndex o + 1) (Z.of_nat (length (apiKeys o)))). lia.
Qed.

(** [n] rotations move the index by [n] positions, cyclically. *)
Lemma rotate_n_index n o :
  (2 <= length (apiKeys o))%nat -> (0 <= keyIndex o < Z.of_nat (length (apiKeys o)))%Z ->
  apiKeys (rotate_n n o) = apiKeys o
  /\ keyIndex (rotate_n n o) = ((keyIndex o + Z.of_nat n) mod Z.of_nat (length (apiKeys o)))%Z.
Proof.
  intros Hl Hi. induction n as [|n [IH1 IH2]]; simpl.
  - split; [done|]. rewrite Z.add_0_r, Z.mod_small; lia.
  - change (Nat.iter n (fun o => (rotateKey o).1) o) with (rotate_n n o).
    split; [by rewrite rotateKey_keys|]. unfold rotateKey. rewrite IH1.
    rewrite (proj2 (Nat.leb_gt _ _)) by lia. simpl. rewrite IH2.
    pose proof (Z.mod_pos_bound (keyIndex o + Z.of_nat n) (Z.of_nat (length (apiKeys o)))).
    rewrite Z.rem_mod_nonneg by lia. rewrite Zplus_mod_idemp_l. f_equal. lia.
Qed.

(** ** Tool order *)

Lemma insert_tool_perm t l : insert_tool t l ≡ₚ t :: l.
Proof.
  induction l as [|u l IH]; simpl; [done|]. destruct (String.leb _ _); [done|].
  rewrite IH. apply Permutation_swap.
Qed.

Lemma sort_tools_perm l : sort_tools l ≡ₚ l.
Proof. induction l as [|t l IH]; simpl; [done|]. by rewrite insert_tool_perm, IH. Qed.
