(* ===== verification/Schema.v ===== *)
(** * Tool parameter schemas

    [protocol/schema_canonicalize.go] and the key sorting of
    [protocol/openai.go]: the parameters of a tool are decoded, given a type
    and a set of properties when they have none, and written with sorted keys,
    so that the same schema always yields the same bytes. *)
From stdpp Require Import base tactics list gmap strings sorting.
From Stdlib Require Import ZArith NArith Lia.
From S2P Require Import Prelude GoStrings GoRegex Types OpenAI GoJSONText.

(** [obj\[k\]] of a [map\[string\]any]: a missing key reads as [nil]. *)
Fixpoint obj_get (k : string) (l : list (string * any)) : any :=
  match l with [] => ANull | (k', v) :: l' => if k =s k' then v else obj_get k l' end.

Definition is_nil (v : any) : bool := match v with ANull => true | _ => false end.

Definition defaultSchema : string := Marshal (AObj [("type", AStr "object"); ("properties", AObj [])]).

(** [if obj\[k\] == nil { obj\[k\] = v }] *)
Definition fill (k : string) (v : any) (obj : list (string * any)) : list (string * any) :=
  if is_nil (obj_get k obj) then put_field k v obj else obj.

Section Schema.
Context (num : string -> option string).

Definition CanonicalizeSchema (params : string) : string :=
  if String.length params =? 0 then defaultSchema
  else match Unmarshal num params with
       | None => defaultSchema
       | Some (AObj obj) => Marshal (AObj (fill "properties" (AObj []) (fill "type" (AStr "object") obj)))
       | Some _ => defaultSchema
       end.

(** [sort.Strings] *)
Definition sort_strings (l : list string) : list string := merge_sort String.le l.

(** The text of [val\[k\]]. *)
Fixpoint field_of (k : string) (l : list (string * string)) : string :=
  match l with [] => "null" | (k', t) :: l' => if k =s k' then t else field_of k l' end.

(** The loop body over keys or elements: a comma before all but the first. *)
Fixpoint write_all (i : nat) (l : list string) : string :=
  match l with [] => "" | x :: l' => (if 0 <? i then "," else "") +:+ x +:+ write_all (S i) l' end.

Fixpoint sortKeysRecursive (v : any) : string :=
  match v with
  | AObj val =>
      let texts := map (fun p => (p.1, sortKeysRecursive p.2)) val in
      let keys := sort_strings (map fst val) in
      "{" +:+ write_all 0 (map (fun k => MarshalString k +:+ ":" +:+ field_of k texts) keys) +:+ "}"
  | AArr val => "[" +:+ write_all 0 (map sortKeysRecursive val) +:+ "]"
  | _ => Marshal v
  end.

Definition sortSchemaKeys (raw : string) : string :=
  match Unmarshal num raw with None => raw | Some v => sortKeysRecursive v end.

(** The [parameters] of a tool in the request body; the raw message is written
    into the body as it is. *)
Definition schema_params (p : string) : string := sortSchemaKeys (CanonicalizeSchema p).
End Schema.

(** The cases of the package's own test. *)
Definition quoted (s : string) : string :=
  String.string_of_list_ascii (map (fun c => if Ascii.eqb c "'" then byte 34 else c) (String.list_ascii_of_string s)).

Example CanonicalizeSchema_ex :
  CanonicalizeSchema Some "" = quoted "{'properties':{},'type':'object'}"
  /\ CanonicalizeSchema Some (quoted "{'type':'object','properties':{'city':{'type':'string'}}}")
     = quoted "{'properties':{'city':{'type':'string'}},'type':'object'}"
  /\ CanonicalizeSchema Some (quoted "{'properties':{'x':{'type':'int'}}}")
     = quoted "{'properties':{'x':{'type':'int'}},'type':'object'}"
  /\ CanonicalizeSchema Some "invalid" = quoted "{'properties':{},'type':'object'}"
  /\ CanonicalizeSchema Some "[1]" = quoted "{'properties':{},'type':'object'}"
  /\ CanonicalizeSchema Some (quoted "{'type':null,'a':1}") = quoted "{'a':1,'properties':{},'type':'object'}".
Proof. vm_compute. repeat split; reflexivity. Qed.

Example sortSchemaKeys_ex :
  sortSchemaKeys Some (quoted "{'b':[{'d':1,'c':2}],'a':'x'}") = quoted "{'a':'x','b':[{'c':2,'d':1}]}"
  /\ sortSchemaKeys Some "{oops" = "{oops".
Proof. vm_compute. split; reflexivity. Qed.

(** ** Sorting twice *)

Lemma write_all_S i l : write_all (S i) l = match l with [] => "" | _ => "," +:+ Join l "," end.
Proof.
  revert i. induction l as [|x l IH]; intros i; [done|]. cbn [write_all Nat.ltb Nat.leb]. rewrite IH.
  destruct l as [|y l]; [by rewrite str_app_nil_r|by rewrite Join_step].
Qed.

Lemma write_all_Join l : write_all 0 l = Join l ",".
Proof.
  destruct l as [|x l]; [done|]. cbn [write_all Nat.ltb Nat.leb]. rewrite write_all_S.
  destruct l as [|y l]; [apply str_app_nil_r|by rewrite Join_step].
Qed.

Lemma sort_strings_fields {A} (l : list (string * A)) : sort_strings (map fst l) = (sort_fields l).*1.
Proof.
  apply (StronglySorted_unique String.le).
  - apply StronglySorted_merge_sort; apply _.
  - pose proof (sort_fields_sorted l) as H. induction H as [|p l' Hl IH Hf]; cbn; constructor; [done|]. by apply Forall_fmap.
  - unfold sort_strings. rewrite merge_sort_Permutation. change (l.*1 ≡ₚ (sort_fields l).*1). by rewrite sort_fields_perm.
Qed.

Lemma field_of_In k t l : NoDup l.*1 -> (k, t) ∈ l -> field_of k l = t.
Proof.
  induction l as [|[k' t'] l IH]; cbn [fmap list_fmap fst field_of]; [by intros _ ?%elem_of_nil|].
  intros [Hk Hl]%NoDup_cons [[= -> ->]|Hin]%elem_of_cons; [by rewrite str_eqb_refl|].
  destruct (String.eqb_spec k k') as [->|]; [|by apply IH]. exfalso. apply Hk. apply list_elem_of_fmap. by exists (k', t).
Qed.

(** [encoding/json] already sorts keys: the recursive sorter writes what
    [Marshal] writes. *)
Lemma sortKeys_Marshal v : distinct v = true -> sortKeysRecursive v = Marshal v.
Proof.
  induction v as [| | | |l IH|l IH] using any_tree_ind; cbn [distinct sortKeysRecursive Marshal]; try done.
  - rewrite forallb_Forall. intros H. rewrite write_all_Join. unfold arr_text. do 2 f_equal. f_equal.
    apply Forall_map_eq. eapply Forall_impl; [apply (Forall_both _ _ _ IH H)|]. naive_solver.
  - intros [Hnd%bool_decide_eq_true_1 H]%andb_prop. rewrite forallb_Forall in H. rewrite write_all_Join.
    assert (map (fun p => (p.1, sortKeysRecursive p.2)) l = map_vals Marshal l) as ->.
    { apply Forall_map_eq. eapply Forall_impl; [apply (Forall_both _ _ _ IH H)|]. intros p [Hp Hd]. by rewrite Hp. }
    change (map (fun p => (p.1, Marshal p.2)) l) with (map_vals Marshal l). unfold obj_text. do 2 f_equal. f_equal.
    rewrite sort_strings_fields. rewrite (sort_fields_map Marshal l Hnd).
    change (map ?f (?l.*1)) with (f <$> (l.*1)). rewrite <- list_fmap_compose. unfold map_vals at 2.
    rewrite <- list_fmap_compose. apply list_fmap_ext. intros i [k x] Hx. cbn [compose fst snd]. f_equal. f_equal.
    apply field_of_In; [by rewrite map_vals_keys|]. apply list_elem_of_lookup_2 in Hx.
    rewrite sort_fields_perm in Hx. apply list_elem_of_fmap. by exists (k, x).
Qed.


(** ** The shape of a canonical schema *)

Lemma obj_get_In k l v : NoDup l.*1 -> (k, v) ∈ l -> obj_get k l = v.
Proof.
  induction l as [|[k' t'] l IH]; cbn [fmap list_fmap fst obj_get]; [by intros _ ?%elem_of_nil|].
  intros [Hk Hl]%NoDup_cons [[= -> ->]|Hin]%elem_of_cons; [by rewrite str_eqb_refl|].
  destruct (String.eqb_spec k k') as [->|]; [|by apply IH]. exfalso. apply Hk. apply list_elem_of_fmap. by exists (k', v).
Qed.

Lemma obj_get_cases k l : (obj_get k l = ANull /\ k ∉ l.*1) \/ (k, obj_get k l) ∈ l.
Proof.
  induction l as [|[k' v] l IH]; [left; split; [done|apply not_elem_of_nil]|]. cbn [obj_get fmap list_fmap fst].
  destruct (String.eqb_spec k k') as [->|Hn]; [right; left|]. destruct IH as [[H1 H2]|H]; [left|by right; right].
  split; [done|]. by apply not_elem_of_cons.
Qed.

Lemma obj_get_perm k l1 l2 : NoDup l1.*1 -> l1 ≡ₚ l2 -> obj_get k l1 = obj_get k l2.
Proof.
  intros Hnd Hp. destruct (obj_get_cases k l2) as [[-> Hk]|H].
  - rewrite <- Hp in Hk. destruct (obj_get_cases k l1) as [[-> _]|H1]; [done|].
    exfalso. apply Hk. apply list_elem_of_fmap. by eexists (_, _).
  - remember (obj_get k l2) as v. rewrite <- Hp in H. by apply obj_get_In.
Qed.

Lemma obj_get_map f k l : f ANull = ANull -> obj_get k (map_vals f l) = f (obj_get k l).
Proof. intros Hf. induction l as [|[k' v] l IH]; [done|]. cbn. by destruct (k =s k'). Qed.

Lemma is_nil_canon v : is_nil (canon v) = is_nil v.
Proof. by destruct v. Qed.

Lemma put_field_get k k' v l : obj_get k' (put_field k v l) = if k' =s k then v else obj_get k' l.
Proof.
  induction l as [|[k0 v0] l IH]; cbn [put_field obj_get]; [done|].
  destruct (String.eqb_spec k k0) as [->|Hn]; cbn [obj_get]; [by destruct (k' =s k0)|]. rewrite IH.
  destruct (String.eqb_spec k' k0) as [->|]; [|done]. by rewrite (proj2 (String.eqb_neq k0 k)) by congruence.
Qed.

Lemma fill_get k v l : is_nil v = false -> is_nil (obj_get k (fill k v l)) = false.
Proof. intros Hv. unfold fill. destruct (is_nil (obj_get k l)) eqn:E; [|done]. by rewrite put_field_get, str_eqb_refl. Qed.

Lemma fill_get_other k k' v l : k' <> k -> obj_get k' (fill k v l) = obj_get k' l.
Proof. intros Hn. unfold fill. case_match; [|done]. by rewrite put_field_get, (proj2 (String.eqb_neq _ _) Hn). Qed.

(** Filling in nothing changes nothing. *)
Lemma fill_id k v l : is_nil (obj_get k l) = false -> fill k v l = l.
Proof. unfold fill. by intros ->. Qed.

Lemma fill_keys k v l : NoDup l.*1 -> NoDup (fill k v l).*1.
Proof. intros H. unfold fill. case_match; [|done]. by apply put_field_keys. Qed.

Lemma filter_all {A} (P : A -> Prop) `{!forall x, Decision (P x)} l : Forall P l -> filter P l = l.
Proof. induction 1; [done|]. rewrite filter_cons_True by done. congruence. Qed.

Lemma put_field_perm {A} k (v : A) l : NoDup l.*1 -> put_field k v l ≡ₚ (k, v) :: filter (fun p => p.1 <> k) l.
Proof.
  induction l as [|[k0 v0] l IH]; cbn [put_field fmap list_fmap fst]; [done|]. intros [Hk Hl]%NoDup_cons.
  destruct (String.eqb_spec k k0) as [->|Hn].
  - rewrite filter_cons_False by naive_solver. rewrite filter_all; [done|]. apply Forall_forall. intros [k1 v1] Hi E. cbn [fst] in E. subst k1. apply Hk.
    apply list_elem_of_fmap. by exists (k0, v1).
  - rewrite filter_cons_True by naive_solver. rewrite IH by done. apply Permutation_swap.
Qed.

Section Shape.
Context (num : string -> option string) `{!Float64 num}.

Lemma good_fields d l : good num d (AObj l) -> NoDup l.*1 /\ Forall (good_field num (N.pred d)) l /\ (d =? 0)%N = false.
Proof.
  intros [[Hnd%bool_decide_eq_true_1 Hw]%andb_prop Hd]. cbn [depth] in Hd. apply depth_elems in Hd as [Hd Hds].
  split; [done|]. split; [|done]. rewrite forallb_Forall in Hw.
  eapply Forall_impl; [apply (Forall_both _ _ _ Hw Hds)|]. intros p [[Hu Hp]%andb_prop Hn]. split; [by apply utf8b_sound|by split].
Qed.

Lemma good_fill d k v l : utf8 k -> good num (N.pred d) v -> good num d (AObj l) -> good num d (AObj (fill k v l)).
Proof.
  intros Hk Hv (Hnd & Hf & Hd)%good_fields. apply good_obj; [done|by apply fill_keys|]. unfold fill.
  case_match; [|done]. by apply put_field_Forall.
Qed.

(** The fields of the object that is written. *)
Definition schema_fields (params : string) : list (string * any) :=
  match Unmarshal num params with
  | Some (AObj obj) => fill "properties" (AObj []) (fill "type" (AStr "object") obj)
  | _ => [("type", AStr "object"); ("properties", AObj [])]
  end.

Lemma Canonicalize_fields p : CanonicalizeSchema num p = Marshal (AObj (schema_fields p)).
Proof.
  unfold CanonicalizeSchema, schema_fields. destruct (String.length p =? 0) eqn:E.
  - destruct p; [|done]. done.
  - destruct (Unmarshal num p) as [[]|]; done.
Qed.

Lemma default_good : good num maxNestingDepth (AObj [("type", AStr "object"); ("properties", AObj [])]).
Proof. split; [by vm_compute|vm_compute; discriminate]. Qed.

Lemma schema_fields_good p : good num maxNestingDepth (AObj (schema_fields p)).
Proof.
  pose proof default_good as Hdef. unfold schema_fields.
  destruct (Unmarshal num p) as [v|] eqn:E; [|done]. apply (Unmarshal_good num) in E. destruct v; try done.
  repeat apply good_fill; try done; try (apply utf8b_sound; by vm_compute); (split; [by vm_compute|vm_compute; discriminate]).
Qed.

Lemma schema_fields_set p : is_nil (obj_get "type" (schema_fields p)) = false
  /\ is_nil (obj_get "properties" (schema_fields p)) = false.
Proof.
  unfold schema_fields. destruct (Unmarshal num p) as [[]|]; try done.
  split; [rewrite fill_get_other by done|]; by apply fill_get.
Qed.

(** Decoding a canonical schema. *)
Lemma Unmarshal_schema p : Unmarshal num (CanonicalizeSchema num p) = Some (canon (AObj (schema_fields p))).
Proof. rewrite Canonicalize_fields. apply Unmarshal_Marshal; apply (schema_fields_good p). Qed.
End Shape.

(** ** Schemas up to the order of fields *)

(** The same JSON value: the fields of objects may be listed in any order, at
    any depth. *)
Inductive same : any -> any -> Prop :=
| same_refl v : same v v
| same_arr l1 l2 : Forall2 same l1 l2 -> same (AArr l1) (AArr l2)
| same_obj l1 l l2 : Forall2 (fun p q => p.1 = q.1 /\ same p.2 q.2) l1 l -> l ≡ₚ l2 -> same (AObj l1) (AObj l2).

Lemma same_canon v1 v2 : distinct v1 = true -> same v1 v2 -> canon v1 = canon v2.
Proof.
  revert v2. induction v1 as [| | | |l1 IH|l1 IH] using any_tree_ind; intros v2 Hd Hs;
    inversion Hs as [|? l2 Hl|? lm l2 Hl Hp]; subst; try done; cbn [distinct canon] in *.
  - f_equal. rewrite forallb_Forall in Hd. clear Hs. induction Hl as [|x y l1 l2 Hxy Hl IHl]; [done|].
    apply Forall_cons in IH as [IH1 IH2]. apply Forall_cons in Hd as [Hd1 Hd2]. cbn [map]. f_equal; auto.
  - apply andb_prop in Hd as [Hnd%bool_decide_eq_true_1 Hd]. rewrite forallb_Forall in Hd. f_equal.
    assert (map_vals canon l1 = map_vals canon lm) as E.
    { clear Hs Hp Hnd. induction Hl as [|x y l1 lm Hxy Hl IHl]; [done|]. apply Forall_cons in IH as [IH1 IH2].
      apply Forall_cons in Hd as [Hd1 Hd2]. destruct Hxy as [Hk Hv]. cbn. rewrite Hk, (IH1 _ Hd1 Hv). f_equal. by apply IHl. }
    change (sort_fields (map_vals canon l1) = sort_fields (map_vals canon l2)).
    apply sort_fields_unique; [by rewrite map_vals_keys|]. rewrite E. unfold map_vals. by rewrite Hp.
Qed.

(** Two lists of fields that are written alike. *)
Definition alike (l1 l2 : list (string * any)) : Prop := map_vals canon l1 ≡ₚ map_vals canon l2.

Lemma canon_alike l1 l2 : canon (AObj l1) = canon (AObj l2) -> alike l1 l2.
Proof.
  cbn [canon]. intros [= H]. unfold alike. rewrite <- (sort_fields_perm (map_vals canon l1)).
  change (sort_fields (map_vals canon l1) = sort_fields (map_vals canon l2)) in H. by rewrite H, sort_fields_perm.
Qed.

Lemma alike_canon l1 l2 : NoDup l1.*1 -> alike l1 l2 -> canon (AObj l1) = canon (AObj l2).
Proof.
  intros Hnd H. cbn [canon]. f_equal. apply sort_fields_unique; [|done].
  change (NoDup (map_vals canon l1).*1). by rewrite map_vals_keys.
Qed.

Lemma alike_nil k l1 l2 : NoDup l1.*1 -> alike l1 l2 -> is_nil (obj_get k l1) = is_nil (obj_get k l2).
Proof.
  intros Hnd H. rewrite <- (is_nil_canon (obj_get k l1)), <- (is_nil_canon (obj_get k l2)).
  rewrite <- !(obj_get_map canon) by done. by rewrite (obj_get_perm k (map_vals canon l1) (map_vals canon l2)) by (done || by rewrite map_vals_keys).
Qed.

Lemma map_vals_filter {A B} (f : A -> B) k l :
  map_vals f (filter (fun p => p.1 <> k) l) = filter (fun p => p.1 <> k) (map_vals f l).
Proof.
  induction l as [|[k0 v0] l IH]; [done|]. cbn [map_vals fmap list_fmap fst snd]. rewrite !filter_cons. cbn [fst].
  destruct (decide (k0 <> k)); [|done]. cbn [map_vals fmap list_fmap fst snd]. by f_equal.
Qed.

Lemma alike_keys l1 l2 : alike l1 l2 -> NoDup l1.*1 -> NoDup l2.*1.
Proof. unfold alike. intros H Hnd. rewrite <- (map_vals_keys canon l2), <- H. by rewrite map_vals_keys. Qed.

Lemma alike_fill k v l1 l2 : NoDup l1.*1 -> alike l1 l2 -> alike (fill k v l1) (fill k v l2).
Proof.
  intros Hnd H. unfold fill. rewrite (alike_nil k l1 l2 Hnd H). destruct (is_nil _); [|done].
  unfold alike in *. unfold map_vals. rewrite !put_field_perm by (done || by apply (alike_keys l1)).
  cbn [fmap list_fmap fst snd]. f_equiv. change (map_vals canon (filter (fun p => p.1 <> k) l1) ≡ₚ map_vals canon (filter (fun p => p.1 <> k) l2)).
  by rewrite !map_vals_filter, H.
Qed.

Section Properties.
Context (num : string -> option string) `{!Float64 num}.

Lemma canon_nil_get k l : NoDup l.*1 -> is_nil (obj_get k (sort_fields (map_vals canon l))) = is_nil (obj_get k l).
Proof.
  intros Hnd. rewrite (obj_get_perm k _ (map_vals canon l)); [|by rewrite sort_fields_perm, map_vals_keys|apply sort_fields_perm].
  by rewrite obj_get_map, is_nil_canon.
Qed.

Lemma Marshal_canon v : wf_any num v = true -> Marshal (canon v) = Marshal v.
Proof.
  intros Hw. pose proof (canon_wf num v Hw) as Hc. rewrite !Marshal_text by by eapply wf_distinct. f_equal.
  clear Hc. apply wf_distinct in Hw. induction v as [| | | |l IH|l IH] using any_tree_ind; try done; cbn [canon distinct] in *.
  - f_equal. rewrite map_map. apply Forall_map_eq. rewrite forallb_Forall in Hw.
    eapply Forall_impl; [apply (Forall_both _ _ _ IH Hw)|]. naive_solver.
  - apply andb_prop in Hw as [Hnd%bool_decide_eq_true_1 Hw]. rewrite forallb_Forall in Hw. f_equal.
    assert (map_vals canon (map_vals canon l) = map_vals canon l) as E.
    { unfold map_vals. rewrite <- list_fmap_compose. apply Forall_map_eq.
      eapply Forall_impl; [apply (Forall_both _ _ _ IH Hw)|]. intros p [Hp Hd]. cbn. by rewrite Hp. }
    change (sort_fields (map_vals canon (sort_fields (map_vals canon l))) = sort_fields (map_vals canon l)).
    rewrite <- sort_fields_map by by rewrite map_vals_keys. rewrite E.
    apply sort_fields_unique; [by rewrite sort_fields_perm, map_vals_keys|apply sort_fields_perm].
Qed.

Lemma schema_params_eq p : schema_params num p = CanonicalizeSchema num p.
Proof.
  unfold schema_params, sortSchemaKeys. pose proof (proj1 (schema_fields_good num p)) as Hw.
  rewrite (Unmarshal_schema num p), sortKeys_Marshal by (by eapply wf_distinct, canon_wf).
  by rewrite Marshal_canon, Canonicalize_fields.
Qed.

Lemma schema_same_fields p1 p2 v1 v2 : Unmarshal num p1 = Some v1 -> Unmarshal num p2 = Some v2 -> same v1 v2 ->
  canon (AObj (schema_fields num p1)) = canon (AObj (schema_fields num p2)).
Proof.
  intros H1 H2 Hs. pose proof (Unmarshal_good num p1 v1 H1) as Hg.
  pose proof (same_canon v1 v2 (wf_distinct num v1 (proj1 Hg)) Hs) as Hc.
  unfold schema_fields. rewrite H1, H2. destruct v1 as [| | | | |l1], v2 as [| | | | |l2]; try discriminate Hc; try done.
  apply canon_alike in Hc. apply good_fields in Hg as (Hnd & _ & _).
  apply alike_canon; [by repeat apply fill_keys|]. apply alike_fill; [by apply fill_keys|]. by apply alike_fill.
Qed.

(** sorting the keys of a canonical schema changes nothing, because the
    encoder has sorted them already, and canonicalizing a second time changes
    nothing either: the bytes sent for a tool are a fixed point. *)
Theorem schema_fixed_point p :
  sortSchemaKeys num (CanonicalizeSchema num p) = CanonicalizeSchema num p
  /\ CanonicalizeSchema num (CanonicalizeSchema num p) = CanonicalizeSchema num p.
Proof.
  split; [exact (schema_params_eq p)|]. rewrite (Canonicalize_fields num (CanonicalizeSchema num p)).
  pose proof (schema_fields_good num p) as Hg. pose proof (schema_fields_set num p) as [Ht Hp].
  rewrite (Canonicalize_fields num p) at 2. rewrite <- (Marshal_canon (AObj (schema_fields num p))) by apply Hg. f_equal.
  unfold schema_fields at 1. rewrite Unmarshal_schema by done. cbn [canon]. apply good_fields in Hg as (Hnd & _ & _).
  change (map (fun p => (p.1, canon p.2)) (schema_fields num p)) with (map_vals canon (schema_fields num p)).
  rewrite (fill_id "type") by by rewrite canon_nil_get. by rewrite fill_id by by rewrite canon_nil_get.
Qed.

(** C34: whatever bytes a tool gives as its parameters, what is sent decodes to
    an object that has a type and properties. *)
Theorem schema_params_type p : exists l,
  Unmarshal num (schema_params num p) = Some (AObj l) /\ NoDup l.*1
  /\ obj_get "type" l <> ANull /\ obj_get "properties" l <> ANull.
Proof.
  exists (sort_fields (map_vals canon (schema_fields num p))). rewrite schema_params_eq, Unmarshal_schema by done.
  pose proof (good_fields num _ _ (schema_fields_good num p)) as (Hnd & _ & _).
  pose proof (schema_fields_set num p) as [Ht Hp]. split; [done|].
  split; [by rewrite sort_fields_perm, map_vals_keys|].
  split; intros E; [rewrite <- canon_nil_get in Ht by done|rewrite <- canon_nil_get in Hp by done]; by rewrite E in *.
Qed.

(** parameters that are empty, not JSON, or JSON but not an object are
    replaced by the empty object schema. *)
Theorem schema_fallback p :
  p = "" \/ Unmarshal num p = None \/ (exists v, Unmarshal num p = Some v /\ (forall l, v <> AObj l)) ->
  schema_params num p = defaultSchema.
Proof.
  rewrite schema_params_eq. unfold CanonicalizeSchema. intros [->|[H|(v & H & Hv)]]; [done|..]; case_match; try done; rewrite H; [done|].
  destruct v as [| | | | |l]; try done. by destruct (Hv l).
Qed.

(** ** The tools of a request *)

(** The raw message as the value it stands for. *)
Definition raw_value (raw : string) : any := default ANull (Unmarshal num raw).

(** Tools that differ only in how their parameters are laid out. *)
Definition same_tool (t1 t2 : ToolSchema) : Prop :=
  tsName t1 = tsName t2 /\ tsDescription t1 = tsDescription t2
  /\ (tsParameters t1 = tsParameters t2 \/
      exists v1 v2, Unmarshal num (tsParameters t1) = Some v1 /\ Unmarshal num (tsParameters t2) = Some v2 /\ same v1 v2).

Definition params (p : string) : any := raw_value (schema_params num p).

Lemma same_tool_wire t1 t2 : same_tool t1 t2 -> toWireTool params t1 = toWireTool params t2.
Proof.
  destruct t1 as [n1 d1 p1], t2 as [n2 d2 p2]. unfold same_tool. cbn [tsName tsDescription tsParameters].
  intros (-> & -> & Hp). unfold toWireTool, sanitizeTool. cbn [tsName tsDescription tsParameters].
  assert (params p1 = params p2) as ->; [|done]. destruct Hp as [->|(v1 & v2 & H1 & H2 & Hs)]; [done|].
  unfold params, raw_value. rewrite !schema_params_eq, !Unmarshal_schema by done. cbn [default].
  by apply (schema_same_fields p1 p2 v1 v2).
Qed.
End Properties.

Lemma insert_tool_same (R : ToolSchema -> ToolSchema -> Prop) t u l k : (forall a b, R a b -> tsName a = tsName b) ->
  R t u -> Forall2 R l k -> Forall2 R (insert_tool t l) (insert_tool u k).
Proof.
  intros HR Ht. induction 1 as [|a b l k Hab Hl IH]; cbn [insert_tool]; [by repeat constructor|].
  rewrite (HR _ _ Ht), (HR _ _ Hab). case_match; by repeat constructor.
Qed.

Lemma sort_tools_same (R : ToolSchema -> ToolSchema -> Prop) l k : (forall a b, R a b -> tsName a = tsName b) ->
  Forall2 R l k -> Forall2 R (sort_tools l) (sort_tools k).
Proof. intros HR. induction 1; cbn [sort_tools]; [constructor|]. by apply insert_tool_same. Qed.

Definition name_le (t u : ToolSchema) : Prop := String.le (tsName t) (tsName u).

Lemma insert_tool_sorted t l : StronglySorted name_le l -> StronglySorted name_le (insert_tool t l).
Proof.
  induction 1 as [|u l Hl IH Hu]; cbn [insert_tool]; [repeat constructor|].
  destruct (String.leb (tsName t) (tsName u)) eqn:E.
  - assert (name_le t u) by (unfold name_le, String.le; by rewrite E). constructor; [by constructor|]. constructor; [done|].
    eapply Forall_impl; [exact Hu|]. intros v Hv. unfold name_le in *. by etransitivity.
  - constructor; [done|]. rewrite insert_tool_perm. constructor; [|done].
    destruct (total String.le (tsName u) (tsName t)) as [H|H]; [done|]. unfold String.le in H. by rewrite E in H.
Qed.

Lemma sort_tools_unique l k : NoDup (tsName <$> l) -> l ≡ₚ k -> sort_tools l = sort_tools k.
Proof.
  intros Hnd Hp. assert (forall m, StronglySorted name_le (sort_tools m)) as Hs
    by (induction m; cbn [sort_tools]; [constructor|by apply insert_tool_sorted]).
  apply (StronglySorted_unique_strong name_le); [|done..|by rewrite !sort_tools_perm].
  intros t u Ht Hu H1 H2. rewrite sort_tools_perm in Ht, Hu. rewrite <- Hp in Hu.
  assert (tsName t = tsName u) as E by by apply (anti_symm String.le).
  apply list_elem_of_lookup in Ht as [i Hi], Hu as [j Hj].
  assert (i = j) as ->; [|congruence]. eapply (NoDup_lookup (tsName <$> l)); [done|by rewrite list_lookup_fmap, Hi|].
  by rewrite list_lookup_fmap, Hj, E.
Qed.

(** C13: the tools of a request body do not depend on the order in which the
    tools are given (their names being distinct) nor on the order of the fields
    in their parameter schemas, so that the prefix of the prompt stays the same. *)
Theorem wire_tools_stable num `{!Float64 num} tools tools' mid :
  NoDup (tsName <$> tools) -> Forall2 (same_tool num) tools mid -> mid ≡ₚ tools' ->
  toWireTools (params num) tools = toWireTools (params num) tools'.
Proof.
  intros Hnd Hs Hp. unfold toWireTools.
  assert (tsName <$> tools = tsName <$> mid) as Hn
    by (clear Hnd Hp; induction Hs as [|a b l k (Hab & _) Hl IH]; cbn; congruence).
  rewrite <- (sort_tools_unique mid tools') by (by rewrite <- ?Hn).
  assert (Forall2 (same_tool num) (sort_tools tools) (sort_tools mid)) as H
    by (apply sort_tools_same; [by intros ?? (? & _)|done]).
  clear Hnd Hs Hp Hn. induction H as [|a b l k Hab Hl IH]; cbn; [done|]. by rewrite (same_tool_wire num a b Hab), IH.
Qed.

(** ** Concrete runs *)

(** Numbers that print as they are written. *)
Definition plain_num (lit : string) : option string :=
  if forallb num_char (String.list_ascii_of_string lit) && MatchStart reNumber lit then Some lit else None.

#[export] Instance plain_num_float : Float64 plain_num.
Proof.
  split; unfold plain_num; intros lit n H; destruct (forallb _ _ && _) eqn:E; simplify_eq; rewrite ?E; try done;
    by apply andb_prop in E as [??].
Qed.

Definition schema_a : string := quoted "{'type':'object','properties':{'n':{'type':'number','maximum':10}}}".
Definition schema_b : string := quoted "{'properties':{'n':{'maximum':10,'type':'number'}},'type':'object'}".

Lemma schema_fixed_point_witness :
  sortSchemaKeys plain_num (CanonicalizeSchema plain_num schema_a) = CanonicalizeSchema plain_num schema_a.
Proof. exact (proj1 (schema_fixed_point plain_num schema_a)). Defined.

Lemma schema_params_type_witness : exists l, Unmarshal plain_num (schema_params plain_num "[1]") = Some (AObj l) /\ NoDup l.*1
  /\ obj_get "type" l <> ANull /\ obj_get "properties" l <> ANull.
Proof. exact (schema_params_type plain_num "[1]"). Defined.

Lemma schema_fallback_witness : schema_params plain_num "[1]" = defaultSchema.
Proof.
  apply (schema_fallback plain_num). right. right. exists (AArr [ANum "1"]).
  split; [vm_compute; reflexivity|discriminate].
Defined.

Lemma schema_ab_same : exists v1 v2, Unmarshal plain_num schema_a = Some v1 /\ Unmarshal plain_num schema_b = Some v2 /\ same v1 v2.
Proof.
  eexists _, _. split; [vm_compute; reflexivity|]. split; [vm_compute; reflexivity|].
  eapply same_obj; [|apply Permutation_swap]. constructor; [split; [done|apply same_refl]|].
  constructor; [split; [done|]|constructor]. cbn [snd]. eapply same_obj; [|reflexivity].
  constructor; [split; [done|]|constructor]. eapply same_obj; [|apply Permutation_swap].
  repeat (constructor; [split; [done|apply same_refl]|]). constructor.
Qed.

Lemma wire_tools_stable_witness :
  toWireTools (params plain_num) [mkToolSchema "b" "second" schema_a; mkToolSchema "a" "first" ""]
  = toWireTools (params plain_num) [mkToolSchema "a" "first" ""; mkToolSchema "b" "second" schema_b].
Proof.
  apply (wire_tools_stable plain_num _ _ [mkToolSchema "b" "second" schema_b; mkToolSchema "a" "first" ""]).
  - apply (bool_decide_unpack _). vm_compute. exact I.
  - constructor; [|constructor; [|constructor]]; (split; [done|]; split; [done|]); [right; exact schema_ab_same|by left].
  - apply Permutation_swap.
Defined.
