(* ===== verification/Stream.v ===== *)
(** * Reading a completion stream

    [protocol/openai.go]: [readStream], [readStreamState] and
    [processSSEData]. The lines come out of [bufio.Scanner] with the limits the
    source sets; decoding the JSON of an event is an argument. Whether a send
    on the output channel goes through or loses to the end of the context is an
    argument for each send. *)
From stdpp Require Import base tactics list gmap strings pretty.
From Stdlib Require Import ZArith Lia.
From S2P Require Import Prelude GoStrings Types Think Vendor Telemetry RateLimit OpenAI.

(** ** Decoded events *)

Record sse_call := mkSseCall {
  sc_Index : Z; sc_ID : string; sc_Type : string; sc_Name : string; sc_Arguments : string }.
Record sse_delta := mkDelta {
  d_Content : string; d_ReasoningContent : string; d_Reasoning : string; d_ToolCalls : list sse_call }.
Record sse_choice := mkChoice { c_Delta : sse_delta; c_FinishReason : option string }.
Record sse := mkSSE { s_Choices : list sse_choice; s_Usage : option Usage; s_Error : option string }.

(** ** State

    [rs_out]: what the channel has accepted; [rs_sends]: how many channel
    operations were tried; [rs_bus]: what was offered to the event bus;
    [rs_lastUsage]: the client's field. *)
Record rstate := mkRS {
  rs_out : list Chunk; rs_sends : nat; rs_bus : list Chunk;
  rs_acc : gmap Z ToolCall; rs_started : gmap Z bool; rs_order : list Z;
  rs_think : thinkSplitter; rs_emitted : bool; rs_lastUsage : option Usage }.

Definition rs_init : rstate := mkRS [] 0 [] ∅ ∅ [] think_init false None.

(** What the outside decides: the fate of each channel operation and
    [ctx.Err()]. *)
Record schan := mkChan { accepts : nat -> bool; ctxErr : gerror }.

(** State and error monad of the reader. *)
Definition M (A : Type) : Type := rstate -> rstate * (gerror + A).
Definition mret {A} (x : A) : M A := fun s => (s, inr x).
Definition mthrow {A} (e : gerror) : M A := fun s => (s, inl e).
Definition mbind {A B} (m : M A) (f : A -> M B) : M B :=
  fun s => let '(s', r) := m s in match r with inl e => (s', inl e) | inr x => f x s' end.
Definition mget : M rstate := fun s => (s, inr s).
Definition mput (s : rstate) : M unit := fun _ => (s, inr tt).

Declare Scope stream_scope.
Delimit Scope stream_scope with stream.
Notation "x <- m ; k" := (mbind m (fun x => k)) (at level 100, m at next level, right associativity) : stream_scope.
Notation "m ;; k" := (mbind m (fun _ => k)) (at level 100, right associativity) : stream_scope.
Notation "'when' b 'do' m" := (if b then m else mret tt) (at level 99) : stream_scope.
Local Open Scope stream_scope.

Section Reader.
Context (ch : schan).

(** [readStreamState.send] *)
Definition send (c : Chunk) : M bool := fun s =>
  if accepts ch (rs_sends s) then
    (mkRS (rs_out s ++ [c]) (S (rs_sends s)) (rs_bus s ++ [c]) (rs_acc s) (rs_started s) (rs_order s)
          (rs_think s) true (rs_lastUsage s), inr true)
  else
    (mkRS (rs_out s) (S (rs_sends s)) (rs_bus s) (rs_acc s) (rs_started s) (rs_order s)
          (rs_think s) (rs_emitted s) (rs_lastUsage s), inr false).

(** [if !state.send(c) { return false, state.ctx.Err() }] *)
Definition send_or_stop (c : Chunk) : M unit :=
  ok <- send c ; if ok then mret tt else mthrow (ctxErr ch).

(** [sendChunk]: never blocks and does not count as emitted. *)
Definition sendChunk (c : Chunk) : M unit := fun s =>
  if accepts ch (rs_sends s) then
    (mkRS (rs_out s ++ [c]) (S (rs_sends s)) (rs_bus s) (rs_acc s) (rs_started s) (rs_order s)
          (rs_think s) (rs_emitted s) (rs_lastUsage s), inr tt)
  else
    (mkRS (rs_out s) (S (rs_sends s)) (rs_bus s) (rs_acc s) (rs_started s) (rs_order s)
          (rs_think s) (rs_emitted s) (rs_lastUsage s), inr tt).

Definition streamErr (emitted : bool) (err : option gerror) : option gerror :=
  match err with
  | Some e => if emitted then Some (EStreamInterrupted true e) else err
  | None => None
  end.

(** [sendErr] *)
Definition sendErr (e : gerror) : M bool := fun s =>
  send (mkChunk ChunkError "" None None "" (streamErr (rs_emitted s) (Some e))) s.

Definition set_think (t : thinkSplitter) : M unit := fun s =>
  (mkRS (rs_out s) (rs_sends s) (rs_bus s) (rs_acc s) (rs_started s) (rs_order s) t (rs_emitted s)
        (rs_lastUsage s), inr tt).
Definition set_last_usage (u : option Usage) : M unit := fun s =>
  (mkRS (rs_out s) (rs_sends s) (rs_bus s) (rs_acc s) (rs_started s) (rs_order s) (rs_think s)
        (rs_emitted s) u, inr tt).
Definition set_calls (acc : gmap Z ToolCall) (started : gmap Z bool) (order : list Z) : M unit := fun s =>
  (mkRS (rs_out s) (rs_sends s) (rs_bus s) acc started order (rs_think s) (rs_emitted s)
        (rs_lastUsage s), inr tt).

Section Client.
Context (o : OpenAI).

(** [sendContextWarning] *)
Definition sendContextWarning (usage : option Usage) : M unit :=
  match usage with
  | None => mret tt
  | Some u =>
      let maxCtx := ModelContextWindow (model o) in
      if (maxCtx <=? 0)%Z then mret tt
      else
        let pct := context_pct u maxCtx in
        if (comprPct (telemetry o) <=? pct)%Z then
          sendChunk (warn_chunk ("context at " +:+ pretty pct +:+ "% — compression recommended"))
        else if (warnPct (telemetry o) <=? pct)%Z then
          sendChunk (warn_chunk ("context at " +:+ pretty pct +:+ "%"))
        else mret tt
  end.

(** One entry of [delta.ToolCalls]: the accumulated call after it. *)
Definition merge_call (cur : ToolCall) (tc : sse_call) : ToolCall :=
  mkToolCall (if sc_ID tc <>s "" then sc_ID tc else ID cur) (Type_ cur)
             (if sc_Name tc <>s "" then sc_Name tc else Name cur)
             (Arguments cur +:+ sc_Arguments tc).

Definition process_call (tc : sse_call) : M unit :=
  s <- mget ;
  let i := sc_Index tc in
  let '(cur, order) := match rs_acc s !! i with
                       | Some cur => (cur, rs_order s)
                       | None => (mkToolCall "" "" "" "", rs_order s ++ [i])
                       end in
  let cur := merge_call cur tc in
  let started := match rs_started s !! i with Some b => b | None => false end in
  if negb started && (Name cur <>s "") then
    set_calls (<[i := cur]> (rs_acc s)) (<[i := true]> (rs_started s)) order ;;
    send_or_stop (tool_start_chunk (mkToolCall (ID cur) "" (Name cur) ""))
  else set_calls (<[i := cur]> (rs_acc s)) (rs_started s) order.

Fixpoint process_calls (l : list sse_call) : M unit :=
  match l with [] => mret tt | tc :: l' => process_call tc ;; process_calls l' end.

(** The accumulated calls at the end of the stream, in order of appearance;
    a call without an id is given one. *)
Definition finish_id (i : Z) (tc : ToolCall) : ToolCall :=
  if ID tc =s "" then set_tc_ID ("call_" +:+ pretty i) tc else tc.

Fixpoint flush_calls (l : list Z) : M unit :=
  match l with
  | [] => mret tt
  | i :: l' =>
      s <- mget ;
      match rs_acc s !! i with
      | Some tc =>
          let tc := finish_id i tc in
          set_calls (<[i := tc]> (rs_acc s)) (rs_started s) (rs_order s) ;;
          send_or_stop (tool_call_chunk tc) ;;
          flush_calls l'
      | None => flush_calls l'
      end
  end.

Definition process_reasoning (d : sse_delta) : M unit :=
  let r := if d_ReasoningContent d =s "" then d_Reasoning d else d_ReasoningContent d in
  when r <>s "" do send_or_stop (reasoning_chunk r).

Definition process_content (d : sse_delta) : M unit :=
  if d_Content d =s "" then mret tt
  else if bool_decide (vendor o = VendorMiniMax) then
    s <- mget ;
    let '(t, r, txt) := push (rs_think s) (d_Content d) in
    set_think t ;;
    (when r <>s "" do send_or_stop (reasoning_chunk r)) ;;
    (when txt <>s "" do send_or_stop (text_chunk txt))
  else send_or_stop (text_chunk (d_Content d)).

(** The end of a completion: a non-empty finish reason. *)
Definition process_finish (fr : option string) : M bool :=
  match fr with
  | Some f =>
      if f =s "" then mret false
      else
        s <- mget ;
        let '(t, r, _) := flush (rs_think s) in
        set_think t ;;
        (when r <>s "" do send_or_stop (reasoning_chunk r)) ;;
        flush_calls (rs_order s) ;;
        send done_chunk ;;
        mret true
  | None => mret false
  end.

Definition process_usage (u : option Usage) : M unit :=
  match u with
  | None => mret tt
  | Some u => set_last_usage (Some u) ;; send (usage_chunk u) ;; sendContextWarning (Some u)
  end.

Definition process_choice (c : sse_choice) : M bool :=
  process_reasoning (c_Delta c) ;;
  process_content (c_Delta c) ;;
  process_calls (d_ToolCalls (c_Delta c)) ;;
  process_finish (c_FinishReason c).

(** [processSSEData] on the decoded event; [None] is a decoding error. *)
Definition processSSEData (sr : option sse) : M bool :=
  match sr with
  | None => mret false
  | Some sr =>
      match s_Error sr with
      | Some m => sendErr (EMsg m) ;; mthrow (EMsg ("API stream error: " +:+ m))
      | None =>
          process_usage (s_Usage sr) ;;
          match s_Choices sr with
          | [] => mret false
          | c :: _ => process_choice c
          end
      end
  end.

Context (decode : string -> option sse).

(** One line of the body: [None] ends the loop by [break]. *)
Inductive line_kind := LSkip | LDone | LData (data : string).

Definition classify (line : string) : line_kind :=
  let line := TrimSpace line in
  if (line =s "") || negb (HasPrefix line "data:") then LSkip
  else
    let data := TrimSpace (TrimPrefix line "data:") in
    if data =s "[DONE]" then LDone else LData data.

(** How the scan loop ends: [processSSEData] ended the stream, [[DONE]] was
    seen, or there are no more lines. *)
Inductive read_end := RStop | RDone | REnd.

Fixpoint read_lines (lines : list string) : M read_end :=
  match lines with
  | [] => mret REnd
  | line :: rest =>
      match classify line with
      | LSkip => read_lines rest
      | LDone => send done_chunk ;; mret RDone
      | LData data =>
          stop <- processSSEData (decode data) ;
          if stop then mret RStop else read_lines rest
      end
  end.
End Client.
End Reader.

(** ** Lines of the body: [bufio.Scanner] with a buffer of at most 1 MiB *)

Definition maxLine : Z := 1048576%Z.

Definition drop_cr (s : string) : string :=
  if HasSuffix s (String CR "") then str_take (String.length s - 1) s else s.

(** The tokens of [ScanLines]: a final empty line is no token. *)
Fixpoint tokens_of (lines : list string) : list string :=
  match lines with
  | [] => []
  | [last] => if last =s "" then [] else [drop_cr last]
  | l :: rest => drop_cr l :: tokens_of rest
  end.

(** The lines before the first too long one, and whether there is one. *)
Fixpoint cut_long (lines : list string) : list string * bool :=
  match lines with
  | [] => ([], false)
  | l :: rest =>
      if (maxLine <=? Z.of_nat (String.length l))%Z then ([], true)
      else let '(a, b) := cut_long rest in (l :: a, b)
  end.

(** The lines [Scan] yields and the scanner's error: its own, or the error with
    which reading the body ended. *)
Definition scan_body (body : string) (readErr : option gerror) : list string * option gerror :=
  let '(ok, long) := cut_long (SplitLines body) in
  if long then (drop_cr <$> ok, Some (EMsg "bufio.Scanner: token too long"))
  else (tokens_of ok, readErr).

(** ** [readStream]

    [readErr] is how reading the body ended ([None] at EOF), [doneErr] what the
    scanner had already met when [[DONE]] was read, [stalled] what the stall
    guard reports. *)
Definition idleTimeout (d : Z) : Z := if (d <=? 0)%Z then (120 * Second)%Z else d.

Record body_env := mkBody { be_readErr : option gerror; be_doneErr : option gerror; be_stalled : bool }.

Definition readStream (ch : schan) (o : OpenAI) (decode : string -> option sse)
    (body : string) (be : body_env) (s0 : rstate) : rstate * bool * option gerror :=
  let '(lines, scanErr) := scan_body body (be_readErr be) in
  let '(s, r) := read_lines ch o decode lines s0 in
  let ending (err : option gerror) :=
    match err with
    | Some e => (s, rs_emitted s, streamErr (rs_emitted s) (Some (EWrap "scanner error" e)))
    | None =>
        if be_stalled be then
          let s := (sendChunk ch (error_chunk (EMsg "stream idle timeout")) s).1 in
          (s, rs_emitted s, streamErr (rs_emitted s) (Some (EMsg "stream idle timeout")))
        else (s, rs_emitted s, None)
    end in
  match r with
  | inl e => (s, rs_emitted s, streamErr (rs_emitted s) (Some e))
  | inr RStop => (s, rs_emitted s, None)
  | inr RDone => ending (be_doneErr be)
  | inr REnd => ending scanErr
  end.

(** * Properties *)

(** ** Views of the delivered chunks *)

Definition of_type (t : ChunkType) (l : list Chunk) : list Chunk :=
  List.filter (fun c => bool_decide (cType c = t)) l.
Definition text_of (t : ChunkType) (l : list Chunk) : string := str_concat (cText <$> of_type t l).
Definition calls_of (l : list Chunk) : list ToolCall := omap cToolCall (of_type ChunkToolCall l).

Lemma of_type_app t a b : of_type t (a ++ b) = of_type t a ++ of_type t b.
Proof. apply List.filter_app. Qed.
Lemma text_of_app t a b : text_of t (a ++ b) = text_of t a +:+ text_of t b.
Proof. unfold text_of. by rewrite of_type_app, fmap_app, str_concat_app. Qed.
Lemma calls_of_app a b : calls_of (a ++ b) = calls_of a ++ calls_of b.
Proof. unfold calls_of. by rewrite of_type_app, omap_app. Qed.

#[export] Hint Rewrite of_type_app text_of_app calls_of_app : go_rw.

(** ** What the tool-call fragments of a stream stand for *)

(** The last non-empty string. *)
Definition last_nonempty (l : list string) : string :=
  foldl (fun a s => if s <>s "" then s else a) "" l.

(** The fragments of one index, joined: the last id and name given, and the
    argument pieces in order. *)
Definition frags_at (i : Z) (F : list sse_call) : list sse_call :=
  List.filter (fun f => (sc_Index f =? i)%Z) F.
Definition assemble (i : Z) (F : list sse_call) : ToolCall :=
  mkToolCall (last_nonempty (sc_ID <$> frags_at i F)) "" (last_nonempty (sc_Name <$> frags_at i F))
             (str_concat (sc_Arguments <$> frags_at i F)).

(** Indices in order of first appearance. *)
Definition add_new (l : list Z) (i : Z) : list Z := if bool_decide (i ∈ l) then l else l ++ [i].
Definition indices (F : list sse_call) : list Z := foldl (fun l f => add_new l (sc_Index f)) [] F.

Lemma indices_app_one F f : indices (F ++ [f]) = add_new (indices F) (sc_Index f).
Proof. unfold indices. by rewrite foldl_app. Qed.

Lemma elem_of_indices i F : i ∈ indices F <-> exists f, f ∈ F /\ sc_Index f = i.
Proof.
  induction F as [|f F IH] using rev_ind; [set_solver|].
  rewrite indices_app_one. unfold add_new. case_bool_decide; set_solver.
Qed.

Lemma frags_at_app_one i F f :
  frags_at i (F ++ [f]) = frags_at i F ++ (if (sc_Index f =? i)%Z then [f] else []).
Proof. unfold frags_at. rewrite List.filter_app. simpl. by destruct (_ =? _)%Z. Qed.

Lemma assemble_snoc_same F f : assemble (sc_Index f) (F ++ [f]) = merge_call (assemble (sc_Index f) F) f.
Proof.
  unfold assemble, merge_call. rewrite frags_at_app_one, Z.eqb_refl, !fmap_app. simpl.
  unfold last_nonempty. rewrite !foldl_app, str_concat_app. simpl. by rewrite str_app_nil_r.
Qed.

Lemma assemble_snoc_other i F f : sc_Index f <> i -> assemble i (F ++ [f]) = assemble i F.
Proof.
  intros H. unfold assemble. rewrite frags_at_app_one.
  rewrite (proj2 (Z.eqb_neq _ _) H), app_nil_r. done.
Qed.

Lemma assemble_absent i F : i ∉ indices F -> assemble i F = mkToolCall "" "" "" "".
Proof.
  intros H. unfold assemble. replace (frags_at i F) with (@nil sse_call); [done|].
  symmetry. unfold frags_at. induction F as [|f F IH]; [done|]. simpl.
  destruct (sc_Index f =? i)%Z eqn:E.
  - bool_prop. exfalso. apply H, elem_of_indices. exists f. set_solver.
  - apply IH. rewrite elem_of_indices in *. set_solver.
Qed.

(** The start of a call that the fragment [f] announces after [F], and those of
    a sequence of fragments: a call starts when it has a name. *)
Definition opening (F : list sse_call) (f : sse_call) : list ToolCall :=
  let i := sc_Index f in
  let t := assemble i (F ++ [f]) in
  if (Name (assemble i F) =s "") && (Name t <>s "") then [mkToolCall (ID t) "" (Name t) ""] else [].
Fixpoint openings (F l : list sse_call) : list ToolCall :=
  match l with [] => [] | f :: l' => opening F f ++ openings (F ++ [f]) l' end.

Lemma openings_app F a b : openings F (a ++ b) = openings F a ++ openings (F ++ a) b.
Proof.
  revert F. induction a as [|f a IH]; intros F; cbn [app openings]; [by rewrite app_nil_r|].
  by rewrite IH, <- !app_assoc.
Qed.

(** Neither the end of the stream nor a completed tool call. *)
Definition plain (c : Chunk) : Prop :=
  cType c <> ChunkDone /\ cType c <> ChunkError /\ cType c <> ChunkToolCall.

(** The calls that were announced. *)
Definition started_calls (l : list Chunk) : list ToolCall := omap cToolCall (of_type ChunkToolCallStart l).
Lemma started_calls_app a b : started_calls (a ++ b) = started_calls a ++ started_calls b.
Proof. unfold started_calls. by rewrite of_type_app, omap_app. Qed.
Lemma started_calls_starts l : started_calls (tool_start_chunk <$> l) = l.
Proof. induction l as [|t l IH]; [done|]. rewrite fmap_cons. transitivity (t :: started_calls (tool_start_chunk <$> l)); [reflexivity|by rewrite IH]. Qed.
#[export] Hint Rewrite started_calls_app : go_rw.

(** ** The reader with an accepting channel *)

Section Accepting.
Context (ch : schan) (Hacc : forall n, accepts ch n = true) (o : OpenAI).

(** [s'] is [s] with [added] delivered; accumulators aside, nothing changed. *)
Record delivered (added : list Chunk) (s s' : rstate) : Prop := mkDelivered {
  dl_out : rs_out s' = rs_out s ++ added;
  dl_think : rs_think s' = rs_think s }.

(** The accumulators stand for the fragments [F]. *)
Record holds (F : list sse_call) (s : rstate) : Prop := mkHolds {
  ho_acc : forall i, rs_acc s !! i = if bool_decide (i ∈ indices F) then Some (assemble i F) else None;
  ho_order : rs_order s = indices F;
  ho_started : forall i, default false (rs_started s !! i) = (Name (assemble i F) <>s "") }.

Lemma send_accepted c s :
  exists s', send ch c s = (s', inr true) /\ delivered [c] s s' /\ rs_emitted s' = true
    /\ rs_acc s' = rs_acc s /\ rs_order s' = rs_order s /\ rs_started s' = rs_started s.
Proof. unfold send. rewrite Hacc. eexists. split; [reflexivity|]. done. Qed.

Lemma send_or_stop_accepted c s :
  exists s', send_or_stop ch c s = (s', inr tt) /\ delivered [c] s s'
    /\ rs_acc s' = rs_acc s /\ rs_order s' = rs_order s /\ rs_started s' = rs_started s.
Proof.
  unfold send_or_stop, mbind. destruct (send_accepted c s) as (s' & -> & H1 & _ & H2).
  exists s'. done.
Qed.

Lemma delivered_refl s : delivered [] s s.
Proof. split; [by rewrite app_nil_r|done]. Qed.
Lemma delivered_trans a b s1 s2 s3 :
  delivered a s1 s2 -> delivered b s2 s3 -> delivered (a ++ b) s1 s3.
Proof. intros [H1 H2] [H3 H4]. split; [by rewrite H3, H1, app_assoc|congruence]. Qed.

Lemma holds_same F s s' :
  holds F s -> rs_acc s' = rs_acc s /\ rs_order s' = rs_order s /\ rs_started s' = rs_started s -> holds F s'.
Proof. intros [H1 H2 H3] (E1 & E2 & E3). split; [by rewrite E1|by rewrite E2|by rewrite E3]. Qed.

Lemma process_call_ok F f s :
  holds F s ->
  exists s', process_call ch f s = (s', inr tt) /\ delivered (tool_start_chunk <$> opening F f) s s' /\ holds (F ++ [f]) s'.
Proof.
  intros [Ha Ho Hst]. unfold process_call, mbind, mget. cbv zeta.
  set (old := match rs_acc s !! sc_Index f with Some cur => (cur, rs_order s)
              | None => (mkToolCall "" "" "" "", rs_order s ++ [sc_Index f]) end).
  assert (old = (assemble (sc_Index f) F, add_new (indices F) (sc_Index f))) as ->.
  { unfold old, add_new. rewrite Ha, Ho. case_bool_decide as Hi; [done|]. by rewrite assemble_absent. }
  assert (forall s', rs_acc s' = <[sc_Index f := merge_call (assemble (sc_Index f) F) f]> (rs_acc s) ->
            rs_order s' = add_new (indices F) (sc_Index f) ->
            default false (rs_started s' !! sc_Index f) = (Name (assemble (sc_Index f) (F ++ [f])) <>s "") ->
            (forall i, i <> sc_Index f -> rs_started s' !! i = rs_started s !! i) -> holds (F ++ [f]) s') as Hh.
  { intros s' E1 E2 E3 E4. split; [|by rewrite indices_app_one|].
    - intros i. rewrite E1, indices_app_one. destruct (decide (i = sc_Index f)) as [->|Hne].
      + rewrite lookup_insert_eq, <- assemble_snoc_same, bool_decide_eq_true_2; [done|].
        unfold add_new. case_bool_decide; set_solver.
      + rewrite lookup_insert_ne, Ha by done. rewrite assemble_snoc_other by done.
        unfold add_new. repeat case_bool_decide; set_solver.
    - intros i. destruct (decide (i = sc_Index f)) as [->|Hne]; [done|]. by rewrite E4, Hst, assemble_snoc_other. }
  specialize (Hst (sc_Index f)). unfold opening. rewrite assemble_snoc_same in *.
  change (match rs_started s !! sc_Index f with Some b => b | None => false end) with (default false (rs_started s !! sc_Index f)).
  rewrite Hst, negb_involutive. destruct (_ && _) eqn:E.
  - unfold set_calls. match goal with |- context [send_or_stop ch ?c ?s1] =>
      destruct (send_or_stop_accepted c s1) as (s' & -> & [Hd1 Hd2] & Hs1 & Hs2 & Hs3) end.
    exists s'. split; [done|]. split; [by split|]. apply andb_prop in E as [_ E].
    apply Hh; try done; rewrite Hs3; cbn [rs_started]; [by rewrite lookup_insert_eq, E|]. intros i Hi. by rewrite lookup_insert_ne.
  - unfold set_calls. eexists. split; [reflexivity|]. split; [by split; [rewrite app_nil_r|]|].
    apply Hh; try done. cbn [rs_started]. rewrite Hst. unfold merge_call in *. cbn [Name] in *.
    destruct (sc_Name f =s "") eqn:En; cbn [negb] in *; [done|]. rewrite En in *. cbn [negb] in *. by rewrite andb_true_r in E; rewrite E.
Qed.

Lemma process_calls_ok l F s :
  holds F s ->
  exists s', process_calls ch l s = (s', inr tt) /\ delivered (tool_start_chunk <$> openings F l) s s' /\ holds (F ++ l) s'.
Proof.
  revert F s. induction l as [|f l IH]; intros F s H; cbn [process_calls openings].
  - exists s. rewrite app_nil_r. split; [done|]. split; [apply delivered_refl|done].
  - unfold mbind. destruct (process_call_ok F f s H) as (s1 & -> & Hd1 & Hh1).
    destruct (IH (F ++ [f]) s1 Hh1) as (s2 & -> & Hd2 & Hh2).
    exists s2. rewrite <- app_assoc in Hh2. split; [done|]. rewrite fmap_app.
    split; [by eapply delivered_trans|done].
Qed.

Lemma process_usage_ok u s :
  exists s' added, process_usage ch o u s = (s', inr tt) /\ delivered added s s'
    /\ (rs_acc s' = rs_acc s /\ rs_order s' = rs_order s /\ rs_started s' = rs_started s)
    /\ Forall (fun c => cType c = ChunkUsage \/ cType c = ChunkWarn) added.
Proof.
  destruct u as [u|]; simpl; [|exists s, []; split; [done|]; split; [apply delivered_refl|]; split; [done|constructor]].
  unfold mbind, set_last_usage. match goal with |- context [send ch ?c ?s1] =>
    destruct (send_accepted c s1) as (s1' & -> & [Hd1 Hd2] & _ & Ha & Ho & Hst) end. simpl in *.
  assert (forall c : Chunk, cType c = ChunkWarn ->
    exists s' added, sendChunk ch c s1' = (s', inr tt)
    /\ delivered added s s' /\ (rs_acc s' = rs_acc s /\ rs_order s' = rs_order s /\ rs_started s' = rs_started s)
    /\ Forall (fun c => cType c = ChunkUsage \/ cType c = ChunkWarn) added) as Hw.
  { intros c Hc. unfold sendChunk. rewrite Hacc. eexists _, [usage_chunk u; c]. split; [reflexivity|].
    split; [split; [by simpl; rewrite Hd1, <- app_assoc|done]|]. repeat split; try done.
    constructor; [by left|]. constructor; [by right|constructor]. }
  unfold sendContextWarning, mret.
  destruct (_ <=? 0)%Z; [|destruct (_ <=? _)%Z; [by apply Hw|destruct (_ <=? _)%Z; [by apply Hw|]]];
    (exists s1', [usage_chunk u]; split; [done|]; split; [by split|]; repeat split; try done;
     constructor; [by left|constructor]).
Qed.

(** The reasoning text of a delta. *)
Definition reasoning_text (d : sse_delta) : string :=
  if d_ReasoningContent d =s "" then d_Reasoning d else d_ReasoningContent d.

Lemma process_reasoning_ok d s :
  exists s', process_reasoning ch d s = (s', inr tt)
    /\ delivered (if reasoning_text d =s "" then [] else [reasoning_chunk (reasoning_text d)]) s s'
    /\ rs_acc s' = rs_acc s /\ rs_order s' = rs_order s /\ rs_started s' = rs_started s.
Proof.
  unfold process_reasoning. fold (reasoning_text d). cbv zeta.
  destruct (reasoning_text d =s ""); cbn [negb].
  - exists s. split; [done|]. split; [apply delivered_refl|done].
  - destruct (send_or_stop_accepted (reasoning_chunk (reasoning_text d)) s) as (s' & -> & H1 & H2 & H3).
    by exists s'.
Qed.

Lemma process_content_ok d s :
  vendor o <> VendorMiniMax ->
  exists s', process_content ch o d s = (s', inr tt)
    /\ delivered (if d_Content d =s "" then [] else [text_chunk (d_Content d)]) s s'
    /\ rs_acc s' = rs_acc s /\ rs_order s' = rs_order s /\ rs_started s' = rs_started s.
Proof.
  intros Hv. unfold process_content. destruct (_ =s "") eqn:E.
  - exists s. split; [done|]. split; [apply delivered_refl|done].
  - rewrite bool_decide_eq_false_2 by done.
    destruct (send_or_stop_accepted (text_chunk (d_Content d)) s) as (s' & -> & H1 & H2 & H3).
    by exists s'.
Qed.

Lemma flush_calls_ok F l s :
  NoDup l -> (forall i, i ∈ l -> rs_acc s !! i = Some (assemble i F)) ->
  exists s', flush_calls ch l s = (s', inr tt)
    /\ delivered ((fun i => tool_call_chunk (finish_id i (assemble i F))) <$> l) s s'.
Proof.
  intros Hnd. revert s. induction Hnd as [|i l Hi Hnd IH]; intros s Ha; simpl.
  - exists s. split; [done|apply delivered_refl].
  - unfold mbind, mget. rewrite (Ha i) by set_solver. unfold set_calls.
    match goal with |- context [send_or_stop ch ?c ?s1] =>
      destruct (send_or_stop_accepted c s1) as (s2 & -> & [Hd1 Hd2] & Hs1 & _) end. simpl in *.
    destruct (IH s2) as (s3 & -> & Hd3).
    + intros j Hj. rewrite Hs1, lookup_insert_ne by (by intros ->). apply Ha. set_solver.
    + exists s3. split; [done|]. apply (delivered_trans [_] _ s s2 s3); [by split|done].
Qed.

Lemma indices_NoDup F : NoDup (indices F).
Proof.
  induction F as [|f F IH] using rev_ind; [constructor|].
  rewrite indices_app_one. unfold add_new. case_bool_decide; [done|].
  apply NoDup_app. split; [done|]. split; [set_solver|apply NoDup_singleton].
Qed.

(** ** Events *)

Definition event_deltas (es : list sse) : list sse_delta :=
  omap (fun e => c_Delta <$> head (s_Choices e)) es.
Definition contents (es : list sse) : string := str_concat (d_Content <$> event_deltas es).
Definition reasonings (es : list sse) : string := str_concat (reasoning_text <$> event_deltas es).
Definition fragments (es : list sse) : list sse_call := concat (d_ToolCalls <$> event_deltas es).

(** No error and no finish reason. *)
Definition goes_on (e : sse) : bool :=
  match s_Error e with
  | Some _ => false
  | None => match s_Choices e with
            | c :: _ => match c_FinishReason c with Some f => f =s "" | None => true end
            | [] => true
            end
  end.

Definition finishes (e : sse) : bool :=
  match s_Error e, s_Choices e with
  | None, c :: _ => match c_FinishReason c with Some f => f <>s "" | None => false end
  | _, _ => false
  end.

(** What a prefix of the events has delivered. *)
Record seen (es : list sse) (s : rstate) : Prop := mkSeen {
  se_text : text_of ChunkText (rs_out s) = contents es;
  se_reason : text_of ChunkReasoning (rs_out s) = reasonings es;
  se_calls : calls_of (rs_out s) = [];
  se_done : of_type ChunkDone (rs_out s) = [];
  se_error : of_type ChunkError (rs_out s) = [];
  se_starts : started_calls (rs_out s) = openings [] (fragments es);
  se_plain : Forall plain (rs_out s);
  se_holds : holds (fragments es) s;
  se_think : rs_think s = think_init }.

Definition silent (c : Chunk) : Prop := cType c = ChunkUsage \/ cType c = ChunkWarn.

Lemma silent_views l :
  Forall silent l ->
  text_of ChunkText l = "" /\ text_of ChunkReasoning l = "" /\ calls_of l = []
  /\ of_type ChunkDone l = [] /\ of_type ChunkError l = [] /\ started_calls l = [] /\ Forall plain l.
Proof.
  unfold text_of, calls_of, started_calls. induction 1 as [|c l Hc Hl IH]; [by split_and!|].
  destruct IH as (H1 & H2 & H3 & H4 & H5 & H6 & H7). split_and!; try (constructor; [|done]; unfold plain);
    unfold of_type in *; cbn [List.filter]; destruct Hc as [->| ->]; done.
Qed.

Lemma starts_views l :
  text_of ChunkText (tool_start_chunk <$> l) = "" /\ text_of ChunkReasoning (tool_start_chunk <$> l) = ""
  /\ calls_of (tool_start_chunk <$> l) = [] /\ of_type ChunkDone (tool_start_chunk <$> l) = []
  /\ of_type ChunkError (tool_start_chunk <$> l) = [] /\ started_calls (tool_start_chunk <$> l) = l
  /\ Forall plain (tool_start_chunk <$> l).
Proof.
  rewrite started_calls_starts. unfold text_of, calls_of.
  induction l as [|t l (H1 & H2 & H3 & H4 & H5 & H6 & H7)]; [by split_and!|]. rewrite fmap_cons. by split_and!; try (constructor; [|done]).
Qed.

(** A choice without a finish reason. *)
Lemma process_delta_ok d F s :
  vendor o <> VendorMiniMax -> holds F s ->
  exists s' a, (process_reasoning ch d ;; process_content ch o d ;; process_calls ch (d_ToolCalls d)) s = (s', inr tt)
    /\ rs_out s' = rs_out s ++ a /\ rs_think s' = rs_think s /\ holds (F ++ d_ToolCalls d) s'
    /\ text_of ChunkText a = d_Content d /\ text_of ChunkReasoning a = reasoning_text d
    /\ calls_of a = [] /\ of_type ChunkDone a = [] /\ of_type ChunkError a = []
    /\ started_calls a = openings F (d_ToolCalls d) /\ Forall plain a.
Proof.
  intros Hv Hh. unfold mbind.
  destruct (process_reasoning_ok d s) as (s1 & -> & Hd1 & Hs1).
  destruct (process_content_ok d s1 Hv) as (s2 & -> & Hd2 & Hs2).
  destruct (process_calls_ok (d_ToolCalls d) F s2) as (s3 & -> & Hd3 & Hh3).
  { eapply holds_same; [|exact Hs2]. by eapply holds_same. }
  destruct (starts_views (openings F (d_ToolCalls d))) as (V1 & V2 & V3 & V4 & V5 & V6 & V7).
  pose proof (delivered_trans _ _ _ _ _ Hd1 (delivered_trans _ _ _ _ _ Hd2 Hd3)) as [Hd Ht].
  eexists s3, _. split; [done|]. split; [exact Hd|]. split; [exact Ht|]. split; [done|].
  autorewrite with go_rw. rewrite V1, V2, V3, V4, V5, V6, !Forall_app.
  assert (forall t, plain (text_chunk t) /\ plain (reasoning_chunk t)) as Hp by done.
  destruct (reasoning_text d =s "") eqn:E1, (d_Content d =s "") eqn:E2; bool_prop;
    rewrite ?E1, ?E2; unfold text_of, calls_of, started_calls, of_type; simpl; rewrite ?str_app_nil_r, ?Forall_singleton; split_and!; try done; apply Hp.
Qed.

Lemma fragments_app a b : fragments (a ++ b) = fragments a ++ fragments b.
Proof. unfold fragments, event_deltas. by rewrite omap_app, fmap_app, concat_app. Qed.
Lemma contents_app a b : contents (a ++ b) = contents a +:+ contents b.
Proof. unfold contents, event_deltas. by rewrite omap_app, fmap_app, str_concat_app. Qed.
Lemma reasonings_app a b : reasonings (a ++ b) = reasonings a +:+ reasonings b.
Proof. unfold reasonings, event_deltas. by rewrite omap_app, fmap_app, str_concat_app. Qed.

Lemma views_one e c cs :
  s_Choices e = c :: cs ->
  contents [e] = d_Content (c_Delta c) /\ reasonings [e] = reasoning_text (c_Delta c)
  /\ fragments [e] = d_ToolCalls (c_Delta c).
Proof.
  intros Ec. unfold contents, reasonings, fragments, event_deltas. simpl. rewrite Ec. simpl.
  by rewrite !str_app_nil_r, app_nil_r.
Qed.
Lemma views_none e :
  s_Choices e = [] -> contents [e] = "" /\ reasonings [e] = "" /\ fragments [e] = [].
Proof. intros Ec. unfold contents, reasonings, fragments, event_deltas. simpl. by rewrite Ec. Qed.

(** The usage part, then the delta part of an event without error. *)
Lemma process_event_delta es e s :
  vendor o <> VendorMiniMax -> s_Error e = None -> seen es s ->
  exists s', seen (es ++ [e]) s'
    /\ processSSEData ch o (Some e) s =
       match s_Choices e with [] => (s', inr false) | c :: _ => process_finish ch (c_FinishReason c) s' end.
Proof.
  intros Hv He [H1 H2 H3 H4 H5 Hst Hpl H6 H7]. unfold processSSEData. rewrite He. unfold mbind at 1.
  destruct (process_usage_ok (s_Usage e) s) as (s1 & a1 & -> & [Hd1 Ht1] & Hs1 & Hf1).
  destruct (silent_views a1 Hf1) as (V1 & V2 & V3 & V4 & V5 & V6 & V7). apply (holds_same _ _ _ H6) in Hs1 as Hh1.
  destruct (s_Choices e) as [|c cs] eqn:Ec.
  - exists s1. split; [|done].
    destruct (views_none e Ec) as (O1 & O2 & O3).
    split; rewrite ?contents_app, ?reasonings_app, ?fragments_app, ?O1, ?O2, ?O3, ?Hd1;
      autorewrite with go_rw; rewrite ?V1, ?V2, ?V3, ?V4, ?V5, ?V6, ?str_app_nil_r, ?app_nil_r; try done.
    + by apply Forall_app.
    + congruence.
  - unfold process_choice.
    destruct (process_delta_ok (c_Delta c) (fragments es) s1 Hv) as (s2 & a2 & Hp & Hd2 & Ht2 & Hh2 & W1 & W2 & W3 & W4 & W5 & W6 & W7);
      [done|].
    exists s2. split.
    + destruct (views_one e c cs Ec) as (O1 & O2 & O3).
      split; rewrite ?contents_app, ?reasonings_app, ?fragments_app, ?O1, ?O2, ?O3,
        ?Hd2, ?Hd1; autorewrite with go_rw;
        rewrite ?V1, ?V2, ?V3, ?V4, ?V5, ?V6, ?W1, ?W2, ?W3, ?W4, ?W5, ?W6, ?H1, ?H2, ?H3, ?H4, ?H5, ?Hst, ?str_app_nil_r, ?app_nil_r; try done.
      * by rewrite openings_app.
      * by rewrite !Forall_app.
      * congruence.
    + revert Hp. unfold mbind. destruct (process_reasoning ch (c_Delta c) s1) as [t1 [e1|]]; [done|].
      destruct (process_content ch o (c_Delta c) t1) as [t2 [e2|]]; [done|].
      destruct (process_calls ch _ t2) as [t3 [e3|]]; [done|]. by intros [= -> _].
Qed.

Lemma process_event_goes_on es e s :
  vendor o <> VendorMiniMax -> goes_on e = true -> seen es s ->
  exists s', processSSEData ch o (Some e) s = (s', inr false) /\ seen (es ++ [e]) s'.
Proof.
  intros Hv Hg Hs. unfold goes_on in Hg. destruct (s_Error e) eqn:Ee; [done|].
  destruct (process_event_delta es e s Hv Ee Hs) as (s' & Hs' & Hp). exists s'. split; [|done].
  rewrite Hp. destruct (s_Choices e) as [|c cs]; [done|].
  unfold process_finish. destruct (c_FinishReason c) as [f|]; [|done]. by rewrite Hg.
Qed.

Lemma calls_of_calls (f : Z -> ToolCall -> ToolCall) F l :
  calls_of ((fun i => tool_call_chunk (f i (assemble i F))) <$> l) = (fun i => f i (assemble i F)) <$> l.
Proof.
  induction l as [|i l IH]; [done|]. rewrite !fmap_cons, <- IH. reflexivity.
Qed.

(** What the reader has delivered when the completion is finished. *)
Record complete (es : list sse) (out : list Chunk) : Prop := mkComplete {
  cm_text : text_of ChunkText out = contents es;
  cm_reason : text_of ChunkReasoning out = reasonings es;
  cm_calls : calls_of out = (fun i => finish_id i (assemble i (fragments es))) <$> indices (fragments es);
  cm_done : exists l, out = l ++ [done_chunk] /\ of_type ChunkDone l = [];
  cm_error : of_type ChunkError out = [];
  cm_shape : exists body, out = body ++ (tool_call_chunk <$> calls_of out) ++ [done_chunk]
    /\ Forall plain body /\ started_calls body = openings [] (fragments es) }.

Lemma process_event_finishes es e s :
  vendor o <> VendorMiniMax -> finishes e = true -> seen es s ->
  exists s', processSSEData ch o (Some e) s = (s', inr true) /\ complete (es ++ [e]) (rs_out s')
    /\ rs_emitted s' = true.
Proof.
  intros Hv Hg Hs. unfold finishes in Hg. destruct (s_Error e) eqn:Ee; [done|].
  destruct (process_event_delta es e s Hv Ee Hs) as (s1 & [H1 H2 H3 H4 H5 Hst Hpl [Ha Ho _] H7] & Hp).
  rewrite Hp. destruct (s_Choices e) as [|c cs]; [done|].
  unfold process_finish. destruct (c_FinishReason c) as [f|]; [|done].
  apply negb_true_iff in Hg. rewrite Hg. unfold mbind, mget. rewrite H7. cbn [flush buf think_init String.length Nat.ltb Nat.leb].
  unfold set_think. change ("" <>s "") with false. cbv iota. unfold mret at 1.
  match goal with |- context [flush_calls ch _ ?s2] =>
    destruct (flush_calls_ok (fragments (es ++ [e])) (rs_order s1) s2) as (s3 & Hfl & [Hd3 _]) end.
  { rewrite Ho. apply indices_NoDup. }
  { intros i Hi. simpl. rewrite Ha, bool_decide_eq_true_2; [done|]. by rewrite <- Ho. }
  rewrite Hfl. destruct (send_accepted done_chunk s3) as (s4 & -> & [Hd4 _] & He & _).
  exists s4. split; [done|]. split; [|done]. simpl in Hd3. rewrite Hd4, Hd3, Ho.
  assert (forall l : list Z, Forall (fun c => cType c = ChunkToolCall)
    ((fun i => tool_call_chunk (finish_id i (assemble i (fragments (es ++ [e]))))) <$> l)) as Htc
    by (intros l; by apply Forall_fmap, Forall_true).
  assert (forall ty (l : list Chunk), ty <> ChunkToolCall -> Forall (fun c => cType c = ChunkToolCall) l -> of_type ty l = []) as Hoff.
  { intros ty l Hne. induction 1 as [|x l Hx Hl IH]; [done|]. unfold of_type. simpl.
    rewrite Hx, bool_decide_eq_false_2 by congruence. exact IH. }
  assert (forall ty (l : list Chunk), of_type ty l = [] -> text_of ty l = "") as Htx
    by (intros ty l Hl; unfold text_of; by rewrite Hl).
  split; rewrite ?text_of_app, ?calls_of_app, ?of_type_app.
  - rewrite H1, (Htx _ (_ <$> _)), (Htx _ [_]) by auto. by rewrite !str_app_nil_r.
  - rewrite H2, (Htx _ (_ <$> _)), (Htx _ [_]) by auto. by rewrite !str_app_nil_r.
  - rewrite H3, app_nil_l, (calls_of_calls finish_id). by rewrite app_nil_r.
  - eexists. split; [reflexivity|]. rewrite of_type_app, H4, Hoff by done. done.
  - rewrite H5, Hoff by done. done.
  - exists (rs_out s1). split; [|done]. rewrite H3, app_nil_l, (calls_of_calls finish_id). cbn [calls_of of_type List.filter omap list_omap].
    rewrite <- app_assoc, app_nil_r, <- list_fmap_compose. done.
Qed.
End Accepting.

(** ** Lines *)

#[local] Arguments processSSEData : simpl never.

Definition events_of (decode : string -> option sse) (lines : list string) : list sse :=
  omap (fun l => match classify l with LData d => decode d | _ => None end) lines.

Definition not_done_line (l : string) : Prop := classify l <> LDone.

Lemma read_lines_goes_on ch o decode pre rest es s :
  (forall n, accepts ch n = true) -> vendor o <> VendorMiniMax ->
  Forall not_done_line pre -> Forall (fun e => goes_on e = true) (events_of decode pre) -> seen es s ->
  exists s', read_lines ch o decode (pre ++ rest) s = read_lines ch o decode rest s'
    /\ seen (es ++ events_of decode pre) s'.
Proof.
  intros Hacc Hv Hpre. revert es s. induction Hpre as [|l pre Hl Hpre IH]; intros es s Hg Hs.
  { exists s. simpl. by rewrite app_nil_r. }
  unfold events_of in *. simpl in *. unfold not_done_line in Hl.
  destruct (classify l) as [| |d]; [by apply IH|done|].
  destruct (decode d) as [e|]; simpl in *.
  - inversion_clear Hg as [|? ? He Hg']. unfold mbind at 1.
    destruct (process_event_goes_on ch Hacc o es e s Hv He Hs) as (s1 & -> & Hs1).
    destruct (IH (es ++ [e]) s1 Hg' Hs1) as (s2 & -> & Hs2). exists s2. by rewrite <- app_assoc in Hs2.
  - by apply IH.
Qed.

Lemma seen_init : seen [] rs_init.
Proof. split; done. Qed.

(** A finishing event is never followed by another line: the reader stops or
    fails. *)
Lemma processSSEData_finishes ch o e s :
  finishes e = true -> (processSSEData ch o (Some e) s).2 <> inr false.
Proof.
  unfold finishes, processSSEData. destruct (s_Error e); [done|]. unfold mbind at 1.
  destruct (process_usage ch o (s_Usage e) s) as [s1 [?|[]]]; [done|].
  destruct (s_Choices e) as [|c cs]; [done|]. unfold process_choice, mbind at 1.
  destruct (process_reasoning ch (c_Delta c) s1) as [s2 [?|[]]]; [done|]. unfold mbind at 1.
  destruct (process_content ch o (c_Delta c) s2) as [s3 [?|[]]]; [done|]. unfold mbind at 1.
  destruct (process_calls ch _ s3) as [s4 [?|[]]]; [done|].
  unfold process_finish. destruct (c_FinishReason c) as [f|]; [|done].
  intros ->%negb_true_iff. unfold mbind, mget.
  destruct (flush (rs_think s4)) as [[t r] x]. unfold set_think.
  match goal with |- context [match ?m ?s with _ => _ end] => destruct (m s) as [s5 [?|[]]] end; [done|].
  destruct (flush_calls ch _ s5) as [s6 [?|[]]]; [done|].
  unfold send. by destruct (accepts ch _).
Qed.

(** The whole reader on a completion that finishes, from a state in which
    nothing was seen. *)
Lemma readStream_completes ch o decode body be s0 pre fin post err data e :
  (forall n, accepts ch n = true) -> vendor o <> VendorMiniMax -> seen [] s0 ->
  scan_body body (be_readErr be) = (pre ++ fin :: post, err) ->
  Forall not_done_line pre -> Forall (fun e => goes_on e = true) (events_of decode pre) ->
  classify fin = LData data -> decode data = Some e -> finishes e = true ->
  exists s', readStream ch o decode body be s0 = (s', true, None)
    /\ complete (events_of decode pre ++ [e]) (rs_out s').
Proof.
  intros Hacc Hv H0 Hb Hpre Hg Hc Hd He. unfold readStream. rewrite Hb.
  destruct (read_lines_goes_on ch o decode pre (fin :: post) [] s0 Hacc Hv Hpre Hg H0)
    as (s1 & -> & Hs1). cbn [read_lines]. rewrite Hc, Hd. unfold mbind at 1.
  destruct (process_event_finishes ch Hacc o _ e s1 Hv He Hs1) as (s2 & -> & Hcm & Hem).
  exists s2. simpl. by rewrite Hem.
Qed.

(** * Claims *)

(** A completion is reassembled exactly. For a stream whose events carry
    no error and end with a finish reason, with a consumer that takes the
    chunks, a vendor without inline think tags and anything after the finishing
    line: the delivered text and reasoning are the concatenations of the
    deltas; there is one tool call per index, in order of first appearance,
    with the last id and name given (or the id [call_<index>]) and the argument
    fragments joined in order; the single [Done] chunk comes last, no error
    chunk is sent and [readStream] reports success. *)
Theorem readStream_reassembles ch o decode body be pre fin post err data e :
  (forall n, accepts ch n = true) -> vendor o <> VendorMiniMax ->
  scan_body body (be_readErr be) = (pre ++ fin :: post, err) ->
  Forall not_done_line pre -> Forall (fun e => goes_on e = true) (events_of decode pre) ->
  classify fin = LData data -> decode data = Some e -> finishes e = true ->
  exists s', readStream ch o decode body be rs_init = (s', true, None)
    /\ complete (events_of decode pre ++ [e]) (rs_out s').
Proof. intros Hacc Hv. exact (readStream_completes ch o decode body be rs_init pre fin post err data e Hacc Hv seen_init). Qed.

(** Nothing after the event with the finish reason is read, whatever the
    vendor and the consumer do: two streams that differ only after it leave the
    reader in the same state. The usage event that [stream_options] asks for
    arrives there, so it is never reported. *)
Theorem read_lines_ignores_after_finish ch o decode pre fin post post' data e s :
  classify fin = LData data -> decode data = Some e -> finishes e = true ->
  read_lines ch o decode (pre ++ fin :: post) s = read_lines ch o decode (pre ++ fin :: post') s.
Proof.
  intros Hc Hd He. revert s. induction pre as [|l pre IH]; intros s; simpl.
  - rewrite Hc, Hd. unfold mbind.
    pose proof (processSSEData_finishes ch o e s He) as H.
    destruct (processSSEData ch o (Some e) s) as [s' [?|[]]]; [done|done|]. by destruct H.
  - destruct (classify l); [apply IH|done|]. unfold mbind.
    destruct (processSSEData ch o (decode data0) s) as [s' [?|[]]]; [done|done|]. apply IH.
Qed.

(** ** Witnesses *)

Definition demo_client : OpenAI :=
  mkOpenAI "k" ["k"] 0 "https://x/chat/completions" "m" "m" VendorQwen "" "" reasoningThinking
    (120 * Second) 3 (NewRateLimiter 0 0 0) NewTelemetry None zeroFailover.
Definition all_accepted : schan := mkChan (fun _ => true) ECanceled.

(** Stands for the JSON decoder on four events: two text pieces, two fragments
    of one tool call and the end; then the usage. *)
Definition demo_decode (s : string) : option sse :=
  let d c calls := mkDelta c "" "" calls in
  if s =s "1" then Some (mkSSE [mkChoice (d "Hel" []) None] None None)
  else if s =s "2" then Some (mkSSE [mkChoice (d "lo" [mkSseCall 0 "" "" "ls" "{"]) None] None None)
  else if s =s "3" then Some (mkSSE [mkChoice (d "" [mkSseCall 0 "" "" "" "}"]) (Some "tool_calls")] None None)
  else if s =s "4" then Some (mkSSE [] (Some (mkUsage 1 2 3)) None)
  else None.
Definition demo_body : string :=
  Join ["data: 1"; ""; "data: 2"; ""; "data: 3"; ""; "data: 4"; ""; "data: [DONE]"; ""] nl.
Definition no_faults : body_env := mkBody None None false.

Lemma readStream_reassembles_witness :
  exists s', readStream all_accepted demo_client demo_decode demo_body no_faults rs_init = (s', true, None)
    /\ complete (events_of demo_decode ["data: 1"; ""; "data: 2"; ""]
        ++ [mkSSE [mkChoice (mkDelta "" "" "" [mkSseCall 0 "" "" "" "}"]) (Some "tool_calls")] None None])
        (rs_out s').
Proof.
  eapply (readStream_reassembles all_accepted demo_client demo_decode demo_body no_faults
            ["data: 1"; ""; "data: 2"; ""] "data: 3" [""; "data: 4"; ""; "data: [DONE]"] None "3").
  - intros n. reflexivity.
  - discriminate.
  - vm_compute. reflexivity.
  - repeat (constructor; [unfold not_done_line; vm_compute; discriminate|]). constructor.
  - vm_compute. repeat (constructor; [reflexivity|]). constructor.
  - vm_compute. reflexivity.
  - reflexivity.
  - reflexivity.
Defined.

(** The chunks of that stream: no usage chunk, and the start of the tool call
    carries no id while its completion is [call_0]. *)
Example demo_chunks :
  rs_out (readStream all_accepted demo_client demo_decode demo_body no_faults rs_init).1.1 =
  [text_chunk "Hel"; text_chunk "lo"; tool_start_chunk (mkToolCall "" "" "ls" "");
   tool_call_chunk (mkToolCall "call_0" "" "ls" "{}"); done_chunk].
Proof. vm_compute. reflexivity. Qed.

Lemma read_lines_ignores_after_finish_witness :
  read_lines all_accepted demo_client demo_decode (["data: 1"] ++ "data: 3" :: ["data: 4"]) rs_init
  = read_lines all_accepted demo_client demo_decode (["data: 1"] ++ "data: 3" :: []) rs_init.
Proof.
  eapply (read_lines_ignores_after_finish all_accepted demo_client demo_decode ["data: 1"] "data: 3"
            ["data: 4"] [] "3"); [vm_compute; reflexivity|reflexivity|reflexivity].
Defined.
