(* ===== verification/Client.v ===== *)
(** * The client's streaming calls, with reconnect

    [protocol/openai.go]: [streamWithFailover], [Stream] and
    [recordStreamCall], on top of the retry loop, the stream reader, the rate
    limiter, the telemetry and the lifecycle hooks. The
    network, the clock, the context, the consumer of the channel and JSON
    decoding are arguments for each attempt. *)
From stdpp Require Import base tactics list gmap strings pretty.
From Stdlib Require Import ZArith Lia.
From S2P Require Import Prelude GoStrings Types Think Breaker Retry Vendor Telemetry RateLimit Hooks OpenAI Stream.

Section Client.
Context {W : Type} (hooks : list (LifecycleHook W)).
Context (url_Parse : string -> option URL).

(** A request as it leaves: model, URL, key, and what the consumer had already
    been given when it left. *)
Record sent := mkSent { st_model : string; st_url : string; st_key : string; st_before : list Chunk }.

Record cworld := mkCW {
  cw_o : OpenAI; cw_hw : hworld; cw_out : list Chunk; cw_sends : nat; cw_bus : list Chunk;
  cw_trace : list sent; cw_W : W }.

Definition set_o (o : OpenAI) (c : cworld) : cworld :=
  mkCW o (cw_hw c) (cw_out c) (cw_sends c) (cw_bus c) (cw_trace c) (cw_W c).
Definition set_hw (h : hworld) (c : cworld) : cworld :=
  mkCW (cw_o c) h (cw_out c) (cw_sends c) (cw_bus c) (cw_trace c) (cw_W c).
Definition set_W (w : W) (c : cworld) : cworld :=
  mkCW (cw_o c) (cw_hw c) (cw_out c) (cw_sends c) (cw_bus c) (cw_trace c) w.
Definition publish (ch : Chunk) (c : cworld) : cworld :=
  mkCW (cw_o c) (cw_hw c) (cw_out c) (cw_sends c) (cw_bus c ++ [ch]) (cw_trace c) (cw_W c).
Definition log_sent (c : cworld) : cworld :=
  let o := cw_o c in
  mkCW o (cw_hw c) (cw_out c) (cw_sends c) (cw_bus c)
    (cw_trace c ++ [mkSent (model o) (baseURL o) (currentKey o) (cw_out c)]) (cw_W c).

(** What happens outside during a streaming call. *)
Record stream_env := mkSEnv {
  sv_now : Z; sv_later : Z; sv_waitCtx : option gerror;        (* rate limiter *)
  sv_chan : schan;                                              (* consumer *)
  sv_send : nat -> nat -> attempt_env;                          (* HTTP attempts of each reconnect *)
  sv_body : nat -> body_env;                                    (* how reading each body ends *)
  sv_backoffCtx : nat -> option gerror;                         (* context during each backoff *)
  sv_decode : string -> option sse;
  sv_notify : bool; sv_sid : string; sv_duration : Z }.

Context (env : stream_env).

Definition raw_error (text : string) : Chunk := mkChunk ChunkRawError text None None "" None.
Definition error_chunk_opt (e : option gerror) : Chunk := mkChunk ChunkError "" None None "" e.

(** [sendChunk(ctx, out, ch)] *)
Definition out_chunk (ch : Chunk) (c : cworld) : cworld :=
  mkCW (cw_o c) (cw_hw c) (if accepts (sv_chan env) (cw_sends c) then cw_out c ++ [ch] else cw_out c)
    (S (cw_sends c)) (cw_bus c) (cw_trace c) (cw_W c).

(** [recordStreamCall] *)
Definition recordStreamCall (err : option gerror) (c : cworld) : cworld * option Usage :=
  let o := cw_o c in
  let usage := lastUsage o in
  let o := set_lastUsage None o in
  match err with
  | Some _ => (set_o o c, None)
  | None =>
      let t := (RecordFromContext (telemetry o) (sv_sid env) (model o) (Vendor_String (vendor o))
                  (sv_duration env) usage).1 in
      (set_o (set_telemetry t o) c, usage)
  end.

(** [readStream] on the shared channel, with a fresh reader state. *)
Definition read_attempt (attempt : nat) (resp : http_response) (c : cworld)
  : cworld * bool * option gerror :=
  let s0 := mkRS (cw_out c) (cw_sends c) (cw_bus c) ∅ ∅ [] think_init false (lastUsage (cw_o c)) in
  let '(s, emitted, err) :=
    readStream (sv_chan env) (cw_o c) (sv_decode env) (Body resp) (sv_body env attempt) s0 in
  (mkCW (set_lastUsage (rs_lastUsage s) (cw_o c)) (cw_hw c) (rs_out s) (rs_sends s) (rs_bus s)
        (cw_trace c) (cw_W c), emitted, err).

(** After a stream that ended well. *)
Definition stream_success (req : Request) (c : cworld) : cworld :=
  let '(c, usage) := recordStreamCall None c in
  let '(w, r) := RunAfterProcessHooks hooks (cw_W c) req (mkResponse "" "" [] usage "") in
  let c := set_W (match r with inl e => RunOnErrorHooks hooks w req e | inr _ => w end) c in
  set_hw (vcb_Success (cw_hw c) (vendor (cw_o c))) c.

(** One request with its stream: [inl] ends the call with [lastErr], [inr] goes
    on to the next attempt with [emitted] and [lastErr]. *)
Definition stream_request (attempt : nat) (emitted : bool) (lastErr : option gerror) (req : Request) (c : cworld)
  : cworld * (option gerror + bool * option gerror) :=
  let c := log_sent c in
  let '(hw, _, r) := SendWithRetry (sv_notify env) (cw_hw c) (vendor (cw_o c)) (sv_send env attempt) in
  let c := set_hw hw c in
  match r with
  | inl err =>
      let text := match err with Some e => Error e | None => "" end in
      let c := publish (raw_error ("send_with_retry: " +:+ text)) c in
      let c := match err with
               | Some e => match as_AuthError e with
                           | Some _ => set_o (rotateKey (cw_o c)).1 c
                           | None => c
                           end
               | None => c
               end in
      (c, inr (emitted, err))
  | inr resp =>
      let '(c, emitted, err) := read_attempt attempt resp c in
      match err with
      | Some e =>
          let c := publish (raw_error ("readStream: " +:+ Error e)) c in
          if emitted || negb (IsConnReset (Some e)) then
            (if negb emitted then out_chunk (error_chunk e) c else c, inl (Some e))
          else (c, inr (emitted, Some e))
      | None => (stream_success req c, inl lastErr)
      end
  end.

(** [n] iterations left, from [attempt]. The result carries the [lastErr] the
    deferred hooks see. *)
Fixpoint stream_loop (n attempt : nat) (mr failoverMax : Z) (emitted : bool) (lastErr : option gerror)
    (req : Request) (c : cworld) : cworld * option gerror :=
  match n with
  | 0 =>
      let c := out_chunk (error_chunk_opt lastErr) c in
      ((recordStreamCall lastErr c).1, lastErr)
  | S n' =>
      let try_request c :=
        let '(c, r) := stream_request attempt emitted lastErr req c in
        match r with
        | inl le => (c, le)
        | inr (em, le) => stream_loop n' (S attempt) mr failoverMax em le req c
        end in
      if (0 <? attempt)%nat then
        if emitted then (out_chunk (error_chunk_opt lastErr) c, lastErr)
        else if (0 <? failoverMax)%Z && (mr <? Z.of_nat attempt)%Z then
          let o := cw_o c in
          if negb (shouldFailover (failover o) (model o) (Vendor_String (vendor o)) lastErr)
          then (out_chunk (error_chunk_opt lastErr) c, lastErr)
          else
            let '(m, url, ok) := getFailoverModel (failover o) (model o) (Vendor_String (vendor o)) in
            if negb ok then (out_chunk (error_chunk_opt lastErr) c, lastErr)
            else stream_loop n' (S attempt) mr failoverMax emitted lastErr req (set_o (applyFailover url_Parse o m url) c)
        else match sv_backoffCtx env attempt with
             | Some e => (c, Some e)
             | None => try_request c
             end
      else try_request c
  end.

Definition streamWithFailover (req : Request) (c : cworld) : cworld :=
  let o := cw_o c in
  let '(rl, _, err) := Wait (rateLimiter o)
                         (mkWaitEnv (sv_now env) (sv_later env) (sv_waitCtx env) (estimateTokens req)) in
  let c := set_o (set_rateLimiter rl o) c in
  match err with
  | Some e =>
      let c := set_W (RunOnErrorHooks hooks (cw_W c) req e) c in
      out_chunk (error_chunk e) c
  | None =>
      let mr := maxReconnect (cw_o c) in
      let failoverMax := if (0 <? maxRetries (failover (cw_o c)))%Z
                         then maxRetries (failover (cw_o c)) else 0%Z in
      let totalAttempts := (mr + failoverMax + 1)%Z in
      let '(c, lastErr) := stream_loop (Z.to_nat (totalAttempts + 1)) 0 mr failoverMax false None req c in
      match lastErr with
      | Some e => set_W (RunOnErrorHooks hooks (cw_W c) req e) c
      | None => c
      end
  end.

(** [Stream]: the hooks run before the channel is made. [inr] carries what the
    goroutine does. *)
Definition StreamCall (req : Request) (c : cworld) : cworld * (gerror + unit) :=
  let '(w, r) := RunBeforeProcessHooks hooks (cw_W c) req in
  match r with
  | inl e => (set_W (RunOnErrorHooks hooks w req e) c, inl e)
  | inr req' => (streamWithFailover req' (set_W w c), inr tt)
  end.
End Client.

(** * Properties *)

(** ** What a reader that reports nothing emitted has delivered *)

(** Chunks that are no part of the answer. *)
Definition aside (c : Chunk) : Prop := cType c = ChunkWarn \/ cType c = ChunkError.
Definition quiet (s : rstate) : Prop := rs_emitted s = false -> Forall aside (rs_out s).
Definition keeps {A} (m : M A) : Prop := forall s, quiet s -> quiet (m s).1.

Lemma keeps_ret {A} (x : A) : keeps (mret x).
Proof. by intros s. Qed.
Lemma keeps_throw {A} e : keeps (@mthrow A e).
Proof. by intros s. Qed.
Lemma keeps_bind {A B} (m : M A) (f : A -> M B) :
  keeps m -> (forall x, keeps (f x)) -> keeps (mbind m f).
Proof.
  intros Hm Hf s Hs. unfold mbind. specialize (Hm s Hs). destruct (m s) as [s1 [e|x]]; [done|].
  by apply Hf.
Qed.
Lemma keeps_get : keeps mget.
Proof. by intros s. Qed.
Lemma keeps_send ch c : keeps (send ch c).
Proof. intros s Hs. unfold send. by destruct (accepts ch _). Qed.
Lemma keeps_sendChunk ch c : aside c -> keeps (sendChunk ch c).
Proof.
  intros Hc s Hs. unfold sendChunk, quiet in *. destruct (accepts ch _); simpl; [|done].
  intros He. apply Forall_app. split; [auto|]. constructor; [done|constructor].
Qed.
Lemma keeps_set_think t : keeps (set_think t).
Proof. by intros s. Qed.
Lemma keeps_set_last_usage u : keeps (set_last_usage u).
Proof. by intros s. Qed.
Lemma keeps_set_calls a b c : keeps (set_calls a b c).
Proof. by intros s. Qed.
Lemma keeps_sendErr ch e : keeps (sendErr ch e).
Proof. intros s Hs. by apply keeps_send. Qed.
Lemma keeps_send_or_stop ch c : keeps (send_or_stop ch c).
Proof. apply keeps_bind; [apply keeps_send|]. intros []; [apply keeps_ret|apply keeps_throw]. Qed.

Create HintDb keeps discriminated.
#[local] Hint Resolve keeps_ret keeps_throw keeps_get keeps_send keeps_set_think keeps_set_last_usage
  keeps_set_calls keeps_sendErr keeps_send_or_stop : keeps.
#[local] Hint Extern 2 (keeps (mbind _ _)) => apply keeps_bind : keeps.

Ltac keeps := repeat (intros; first
  [ apply keeps_bind | solve [auto with keeps] | progress case_match ]).

Lemma keeps_flush_calls ch l : keeps (flush_calls ch l).
Proof. induction l as [|i l IH]; simpl; keeps. Qed.
Lemma keeps_process_calls ch l : keeps (process_calls ch l).
Proof.
  induction l as [|i l IH]; simpl; [auto with keeps|]. apply keeps_bind; [|done].
  unfold process_call. cbv zeta. keeps.
Qed.
Lemma keeps_sendContextWarning ch o u : keeps (sendContextWarning ch o u).
Proof.
  unfold sendContextWarning. cbv zeta. repeat case_match; auto with keeps;
    apply keeps_sendChunk; by left.
Qed.

Lemma keeps_processSSEData ch o sr : keeps (processSSEData ch o sr).
Proof.
  unfold processSSEData. destruct sr as [sr|]; [|auto with keeps].
  destruct (s_Error sr); [keeps|]. apply keeps_bind.
  - unfold process_usage. destruct (s_Usage sr); [|auto with keeps].
    apply keeps_bind; [auto with keeps|]. intros []. apply keeps_bind; [auto with keeps|].
    intros _. apply keeps_sendContextWarning.
  - intros []. destruct (s_Choices sr) as [|c cs]; [auto with keeps|]. unfold process_choice.
    apply keeps_bind; [unfold process_reasoning; cbv zeta; keeps|]. intros [].
    apply keeps_bind; [unfold process_content; cbv zeta; keeps|]. intros [].
    apply keeps_bind; [apply keeps_process_calls|]. intros [].
    unfold process_finish. destruct (c_FinishReason c) as [f|]; [|auto with keeps].
    destruct (_ =s ""); [auto with keeps|]. apply keeps_bind; [auto with keeps|]. intros s.
    destruct (flush (rs_think s)) as [[t r] x]. apply keeps_bind; [auto with keeps|]. intros [].
    apply keeps_bind; [keeps|]. intros []. apply keeps_bind; [apply keeps_flush_calls|]. keeps.
Qed.

Lemma keeps_read_lines ch o decode lines : keeps (read_lines ch o decode lines).
Proof.
  induction lines as [|l lines IH]; simpl; [auto with keeps|].
  destruct (classify l); [done|keeps|]. apply keeps_bind; [apply keeps_processSSEData|].
  intros []; [auto with keeps|done].
Qed.

Lemma readStream_quiet ch o decode body be s0 s emitted err :
  quiet s0 -> readStream ch o decode body be s0 = (s, emitted, err) ->
  emitted = false -> Forall aside (rs_out s).
Proof.
  intros Hq H He. unfold readStream in H. destruct (scan_body body (be_readErr be)) as [lines serr].
  pose proof (keeps_read_lines ch o decode lines s0 Hq) as Hk.
  destruct (read_lines ch o decode lines s0) as [s1 [e|r]]; simpl in Hk; [by simplify_eq; auto|].
  assert (quiet (sendChunk ch (error_chunk (EMsg "stream idle timeout")) s1).1) as Hk2.
  { apply keeps_sendChunk; [by right|done]. }
  assert (forall x : option gerror, match x with
    | Some e => (s1, rs_emitted s1, streamErr (rs_emitted s1) (Some (EWrap "scanner error" e)))
    | None => if be_stalled be then
          let s := (sendChunk ch (error_chunk (EMsg "stream idle timeout")) s1).1 in
          (s, rs_emitted s, streamErr (rs_emitted s) (Some (EMsg "stream idle timeout")))
        else (s1, rs_emitted s1, None) end = (s, emitted, err) -> Forall aside (rs_out s)) as Hend.
  { intros [e|] E; [by simplify_eq; auto|]. destruct (be_stalled be).
    - cbv zeta in E. revert E Hk2. generalize (sendChunk ch (error_chunk (EMsg "stream idle timeout")) s1).1.
      intros s2 [= <- E2 <-] Hk2. apply Hk2. congruence.
    - by simplify_eq; auto. }
  destruct r; [by simplify_eq; auto|by eapply Hend|by eapply Hend].
Qed.

(** ** The requests of a streaming call *)

Section Requests.
Context {W : Type} (hooks : list (LifecycleHook W)) (url_Parse : string -> option URL) (env : stream_env).

(** A request to the model and address [o] had, made before any part of an
    answer was delivered. *)
Definition primary (o : OpenAI) (t : sent) : Prop :=
  st_model t = model o /\ st_url t = baseURL o /\ Forall aside (st_before t).

Definition same_target (o o' : OpenAI) : Prop := model o' = model o /\ baseURL o' = baseURL o.

Lemma rotateKey_target o : same_target o (rotateKey o).1.
Proof. unfold rotateKey, same_target. by destruct (_ <=? _)%nat. Qed.

Lemma out_chunk_trace ch (c : @cworld W) : cw_trace (out_chunk env ch c) = cw_trace c.
Proof. done. Qed.

Lemma recordStreamCall_trace err (c : @cworld W) : cw_trace (recordStreamCall env err c).1 = cw_trace c.
Proof. unfold recordStreamCall. by destruct err. Qed.

Lemma stream_success_trace req (c : @cworld W) : cw_trace (stream_success hooks env req c) = cw_trace c.
Proof.
  unfold stream_success. pose proof (recordStreamCall_trace None c) as H.
  destruct (recordStreamCall env None c) as [c1 u].
  by destruct (RunAfterProcessHooks hooks (cw_W c1) req _) as [w [e|r]].
Qed.

(** One request adds itself to the trace; if the loop goes on, nothing of an
    answer was delivered and the target is the same. *)
Lemma stream_request_inv attempt le req (c c' : @cworld W) r :
  Forall aside (cw_out c) -> stream_request hooks env attempt false le req c = (c', r) ->
  cw_trace c' = cw_trace c ++ [mkSent (model (cw_o c)) (baseURL (cw_o c)) (currentKey (cw_o c)) (cw_out c)]
  /\ (forall em le', r = inr (em, le') ->
        em = false /\ Forall aside (cw_out c') /\ same_target (cw_o c) (cw_o c')).
Proof.
  intros Ha. unfold stream_request.
  destruct (SendWithRetry (sv_notify env) (cw_hw (log_sent c)) (vendor (cw_o (log_sent c))) (sv_send env attempt))
    as [[hw ev] [err|resp]].
  - intros [= <- <-]. split.
    + destruct err as [e|]; [|done]. by destruct (as_AuthError e).
    + intros em le' [= <- <-]. split; [done|].
      destruct err as [e|]; [destruct (as_AuthError e)|]; simpl; (split; [done|]);
        [apply rotateKey_target|done..].
  - unfold read_attempt.
    match goal with |- context [readStream ?a ?b ?d ?e ?f ?g] =>
      destruct (readStream a b d e f g) as [[s emitted] err] eqn:E end.
    assert (emitted = false -> Forall aside (rs_out s)) as Hq.
    { eapply readStream_quiet; [|exact E]. by intros _. }
    destruct err as [e|].
    + destruct (emitted || negb (IsConnReset (Some e))) eqn:Eb.
      * intros [= <- <-]. split; [by destruct emitted|done].
      * intros [= <- <-]. split; [done|]. intros em le' [= <- <-].
        apply orb_false_elim in Eb as [-> _]. split; [done|]. split; [by apply Hq|done].
    + intros [= <- <-]. split; [|done]. by rewrite stream_success_trace.
Qed.

Lemma stream_loop_requests n attempt mr fo le req (c c' : @cworld W) le' o :
  (0 < fo)%Z -> (0 <= mr)%Z -> Forall aside (cw_out c) ->
  ((Z.of_nat attempt <= mr)%Z -> same_target o (cw_o c)) ->
  stream_loop hooks url_Parse env n attempt mr fo false le req c = (c', le') ->
  exists new, cw_trace c' = cw_trace c ++ new /\ Forall (primary o) new
    /\ (Z.of_nat (length new) <= Z.max 0 (mr + 1 - Z.of_nat attempt))%Z.
Proof.
  intros Hfo Hmr. revert attempt le c. induction n as [|n IH]; intros attempt le c Ha Ht.
  { simpl. intros [= <- <-]. exists []. rewrite recordStreamCall_trace, app_nil_r.
    split; [done|]. split; [constructor|simpl; lia]. }
  assert (Z.of_nat attempt <= mr -> forall c1 r,
    stream_request hooks env attempt false le req c = (c1, r) ->
    match r with inl l => (c1, l)
    | inr (em, l) => stream_loop hooks url_Parse env n (S attempt) mr fo em l req c1 end = (c', le') ->
    exists new, cw_trace c' = cw_trace c ++ new /\ Forall (primary o) new
      /\ Z.of_nat (length new) <= Z.max 0 (mr + 1 - Z.of_nat attempt))%Z as Hreq.
  { intros Hle c1 r Er Hrest. destruct (Ht Hle) as [Hm Hu].
    destruct (stream_request_inv attempt le req c c1 r Ha Er) as [Htr Hgo].
    destruct r as [l|[em l]].
    - simplify_eq. eexists. split; [exact Htr|]. split; [|simpl; lia].
      constructor; [by repeat split|constructor].
    - destruct (Hgo em l eq_refl) as (-> & Ha1 & [Hm1 Hu1]).
      destruct (IH (S attempt) l c1 Ha1) as (new & Hn1 & Hn2 & Hn3); [|exact Hrest|].
      { intros _. split; congruence. }
      exists (mkSent (model (cw_o c)) (baseURL (cw_o c)) (currentKey (cw_o c)) (cw_out c) :: new).
      rewrite Hn1, Htr, <- app_assoc. split; [done|]. split; [|simpl; lia].
      constructor; [by repeat split|done]. }
  cbn [stream_loop]. destruct (0 <? attempt)%nat eqn:E0; bool_prop.
  - destruct ((0 <? fo) && (mr <? Z.of_nat attempt))%Z eqn:Ef.
    + bool_prop. assert (cw_trace c = cw_trace c ++ []) as Hnil by (by rewrite app_nil_r).
      assert (0 <= Z.max 0 (mr + 1 - Z.of_nat attempt))%Z by lia.
      destruct (negb _).
      { intros [= <- <-]. by exists []. }
      destruct (getFailoverModel _ _ _) as [[m url] ok]. destruct (negb ok).
      { intros [= <- <-]. by exists []. }
      intros Hl. destruct (IH (S attempt) le (set_o (applyFailover url_Parse (cw_o c) m url) c))
        as (new & Hn1 & Hn2 & Hn3); [done| |exact Hl|].
      { intros Hcon. lia. }
      exists new. split; [done|]. split; [done|lia].
    + apply andb_false_iff in Ef as [Ef|Ef]; bool_prop; [lia|].
      destruct (sv_backoffCtx env attempt).
      { intros [= <- <-]. exists []. rewrite app_nil_r. split; [done|]. split; [constructor|simpl; lia]. }
      destruct (stream_request hooks env attempt false le req c) as [c1 r] eqn:Er.
      apply (Hreq Ef c1 r eq_refl).
  - destruct (stream_request hooks env attempt false le req c) as [c1 r] eqn:Er.
    apply (Hreq ltac:(lia) c1 r eq_refl).
Qed.

Lemma maxRetries_pos fc : (0 < maxRetries fc)%Z.
Proof. unfold maxRetries. destruct (_ <=? 0)%Z eqn:E; bool_prop; lia. Qed.

Lemma streamWithFailover_requests req (c : @cworld W) :
  (0 <= maxReconnect (cw_o c))%Z -> Forall aside (cw_out c) ->
  exists new, cw_trace (streamWithFailover hooks url_Parse env req c) = cw_trace c ++ new
    /\ Forall (primary (cw_o c)) new
    /\ (Z.of_nat (length new) <= maxReconnect (cw_o c) + 1)%Z.
Proof.
  intros Hmr Ha. unfold streamWithFailover.
  destruct (Wait _ _) as [[rl slept] [e|]].
  { exists []. simpl. rewrite app_nil_r. split; [done|]. split; [constructor|lia]. }
  pose proof (maxRetries_pos (failover (cw_o c))) as Hp. cbn [set_o cw_o failover set_rateLimiter maxReconnect].
  rewrite (proj2 (Z.ltb_lt _ _) Hp).
  destruct (stream_loop _ _ _ _ _ _ _ _ _ _) as [c1 le] eqn:E.
  eapply (stream_loop_requests _ _ _ _ _ _ _ _ _ (cw_o c)) in E as (new & H1 & H2 & H3); [|done|done|done|done].
  exists new. split; [by destruct le|]. split; [done|]. simpl in H3. lia.
Qed.

(** ** Key rotation *)

(** The server answers the first HTTP attempt with 401 or 403. *)
Definition auth_reply (a : attempt_env) : Prop :=
  a_ctxDone a = None /\ a_newReq a = None
  /\ exists resp, a_do a = inr resp /\ (StatusCode resp = 401 \/ StatusCode resp = 403)%Z.

Lemma SendWithRetry_auth notify w v e :
  no_breaker w v -> not_reported_open w v -> auth_reply (e 0) ->
  exists ev st, SendWithRetry notify w v e = (w, ev, inl (Some (EAuth v st true))).
Proof.
  intros Hb Hr (Hc & Hn & resp & Hd & Hs).
  destruct (send_loop_stops 0 11 0 notify w v e None 0 (inl (Some (EAuth v (StatusCode resp) true))) Hb Hr)
    as (ev & H & _); try done.
  - intros j Hj. lia.
  - simpl. unfold outcome. rewrite Hn, Hd. destruct Hs as [-> | ->]; done.
  - lia.
  - by exists ev, (StatusCode resp).
Qed.

Lemma stream_request_auth attempt em le req (c : @cworld W) :
  no_breaker (cw_hw c) (vendor (cw_o c)) -> not_reported_open (cw_hw c) (vendor (cw_o c)) ->
  auth_reply (sv_send env attempt 0) ->
  exists c' e, stream_request hooks env attempt em le req c = (c', inr (em, Some e))
    /\ cw_o c' = (rotateKey (cw_o c)).1 /\ cw_hw c' = cw_hw c /\ cw_out c' = cw_out c
    /\ cw_trace c' = cw_trace c ++ [mkSent (model (cw_o c)) (baseURL (cw_o c)) (currentKey (cw_o c)) (cw_out c)].
Proof.
  intros Hb Hr Ha. unfold stream_request.
  destruct (SendWithRetry_auth (sv_notify env) _ _ _ Hb Hr Ha) as (ev & st & E).
  cbn [log_sent cw_hw cw_o]. rewrite E. cbn [as_AuthError]. eexists _, _. split; [reflexivity|]. done.
Qed.

Lemma rotateKey_vendor o : vendor (rotateKey o).1 = vendor o.
Proof. unfold rotateKey. by destruct (_ <=? _)%nat. Qed.

Lemma auth_loop m n attempt mr fo le req (c c' : @cworld W) le' :
  (0 < fo)%Z -> (0 <= mr)%Z -> Z.of_nat (attempt + m) = (mr + 1)%Z -> m <= n -> Forall aside (cw_out c) ->
  no_breaker (cw_hw c) (vendor (cw_o c)) -> not_reported_open (cw_hw c) (vendor (cw_o c)) ->
  (forall i, auth_reply (sv_send env i 0)) -> (forall i, sv_backoffCtx env i = None) ->
  stream_loop hooks url_Parse env n attempt mr fo false le req c = (c', le') ->
  st_key <$> cw_trace c' = (st_key <$> cw_trace c) ++ ((fun j => currentKey (rotate_n j (cw_o c))) <$> seq 0 m).
Proof.
  intros Hfo Hmr. revert n attempt le c. induction m as [|m IH]; intros n attempt le c Hm Hn Hq Hb Hr Ha Hctx Hl.
  - destruct (stream_loop_requests n attempt mr fo le req c c' le' (cw_o c)) as (new & -> & _ & Hlen);
      [done|lia|done|lia|done|].
    destruct new; [by rewrite !app_nil_r|simpl in Hlen; lia].
  - destruct n as [|n]; [lia|]. cbn [stream_loop] in Hl.
    destruct (stream_request_auth attempt false le req c Hb Hr (Ha attempt)) as (c1 & e & Er & H1 & H2 & H3 & H4).
    rewrite Er in Hl.
    assert (stream_loop hooks url_Parse env n (S attempt) mr fo false (Some e) req c1 = (c', le')) as Hl1.
    { destruct (0 <? attempt)%nat eqn:E0; [|done].
      rewrite (proj2 (Z.ltb_ge mr (Z.of_nat attempt))) in Hl by lia. rewrite andb_false_r in Hl.
      by rewrite Hctx in Hl. }
    apply IH in Hl1 as ->; [|lia|lia|by rewrite H3|by rewrite H2, H1, rotateKey_vendor
                           |by rewrite H2, H1, rotateKey_vendor|done|done].
    rewrite H4, fmap_app, <- app_assoc. f_equal. rewrite H1. simpl. f_equal.
    rewrite <- fmap_S_seq, <- list_fmap_compose. apply list_fmap_ext. intros _ j _. unfold compose, rotate_n.
    by rewrite Nat.iter_succ_r.
Qed.
End Requests.

Lemma currentKey_rotated o j :
  (2 <= length (apiKeys o))%nat -> (0 <= keyIndex o < Z.of_nat (length (apiKeys o)))%Z ->
  currentKey (rotate_n j o) =
  List.nth (Z.to_nat ((keyIndex o + Z.of_nat j) mod Z.of_nat (length (apiKeys o)))) (apiKeys o) "".
Proof.
  intros Hl Hi. destruct (rotate_n_index j o Hl Hi) as [H1 H2]. unfold currentKey. rewrite H1, H2.
  pose proof (Z.mod_pos_bound (keyIndex o + Z.of_nat j) (Z.of_nat (length (apiKeys o)))) as Hb.
  rewrite (proj2 (Z.leb_le _ _)), (proj2 (Z.ltb_lt _ _)) by lia. done.
Qed.

(** ** A connection lost in the middle of an answer *)

(** The limiter is off. *)
Definition unlimited (o : OpenAI) : Prop := (rpm (rateLimiter o) <= 0 /\ tpm (rateLimiter o) <= 0)%Z.

Lemma streamWithFailover_unlimited {W} (hooks : list (LifecycleHook W)) url_Parse env req (c : @cworld W) :
  unlimited (cw_o c) ->
  streamWithFailover hooks url_Parse env req c =
  let mr := maxReconnect (cw_o c) in
  let fo := maxRetries (failover (cw_o c)) in
  let '(c, le) := stream_loop hooks url_Parse env (Z.to_nat (mr + fo + 1 + 1)) 0 mr fo false None req c in
  match le with Some e => set_W (RunOnErrorHooks hooks (cw_W c) req e) c | None => c end.
Proof.
  intros [H1 H2]. unfold streamWithFailover, Wait.
  rewrite (proj2 (Z.leb_le _ _) H1), (proj2 (Z.leb_le _ _) H2). cbn [andb]. cbv zeta.
  assert (set_o (set_rateLimiter (rateLimiter (cw_o c)) (cw_o c)) c = c) as ->.
  { destruct c as [[]]; done. }
  pose proof (maxRetries_pos (failover (cw_o c))) as Hp. by rewrite (proj2 (Z.ltb_lt _ _) Hp).
Qed.

Lemma text_not_aside l : text_of ChunkText l <> "" -> ~ Forall aside l.
Proof.
  intros H Hf. apply H. unfold text_of, of_type. clear H. induction Hf as [|x l Hx Hf IH]; [done|].
  simpl. rewrite bool_decide_eq_false_2; [exact IH|]. by destruct Hx as [-> | ->].
Qed.

(** What [read_attempt] leaves when the body breaks off after some text. *)
Lemma read_attempt_drop {W} env attempt resp (c : @cworld W) lines e :
  (forall n, accepts (sv_chan env) n = true) -> vendor (cw_o c) <> VendorMiniMax -> cw_out c = [] ->
  scan_body (Body resp) (be_readErr (sv_body env attempt)) = (lines, Some e) ->
  Forall not_done_line lines ->
  Forall (fun ev => goes_on ev = true) (events_of (sv_decode env) lines) ->
  contents (events_of (sv_decode env) lines) <> "" ->
  exists c', read_attempt env attempt resp c = (c', true, Some (EStreamInterrupted true (EWrap "scanner error" e)))
    /\ text_of ChunkText (cw_out c') = contents (events_of (sv_decode env) lines)
    /\ of_type ChunkDone (cw_out c') = [] /\ of_type ChunkError (cw_out c') = []
    /\ cw_trace c' = cw_trace c.
Proof.
  intros Hacc Hv Hout Hb Hnd Hg Hne. unfold read_attempt, readStream. rewrite Hb.
  match goal with |- context [read_lines _ _ _ _ ?s0] => set (st0 := s0) end.
  assert (seen [] st0) as Hs0.
  { split; subst st0; simpl; rewrite ?Hout; try done. }
  destruct (read_lines_goes_on (sv_chan env) (cw_o c) (sv_decode env) lines [] [] st0 Hacc Hv Hnd Hg Hs0)
    as (s' & Hl & Hs'). rewrite app_nil_r in Hl. cbn [read_lines] in Hl. unfold mret in Hl.
  pose proof (keeps_read_lines (sv_chan env) (cw_o c) (sv_decode env) lines st0) as Hk.
  rewrite Hl in *. destruct Hs' as [H1 _ _ H4 H5 _ _]. rewrite app_nil_l in H1.
  assert (rs_emitted s' = true) as Hem.
  { destruct (rs_emitted s') eqn:E; [done|]. exfalso.
    assert (quiet st0) as Hq by (intros _; subst st0; simpl; by rewrite Hout).
    apply (text_not_aside (rs_out s')); [by rewrite H1|]. by apply (Hk Hq). }
  rewrite Hem. simpl. eexists. split; [reflexivity|]. done.
Qed.

(** A connection that breaks off after part of an answer was delivered is
    not reported: the consumer receives the partial text and then the end of
    the channel, with neither an error chunk nor [Done], and the error reaches
    only the hooks. *)
Lemma stream_drop_out {W} (hooks : list (LifecycleHook W)) url_Parse env req (c : @cworld W)
    hw ev resp lines e :
  unlimited (cw_o c) -> (0 <= maxReconnect (cw_o c))%Z -> cw_out c = [] ->
  (forall n, accepts (sv_chan env) n = true) -> vendor (cw_o c) <> VendorMiniMax ->
  SendWithRetry (sv_notify env) (cw_hw c) (vendor (cw_o c)) (sv_send env 0) = (hw, ev, inr resp) ->
  scan_body (Body resp) (be_readErr (sv_body env 0)) = (lines, Some e) ->
  Forall not_done_line lines ->
  Forall (fun x => goes_on x = true) (events_of (sv_decode env) lines) ->
  contents (events_of (sv_decode env) lines) <> "" ->
  let c' := streamWithFailover hooks url_Parse env req c in
  text_of ChunkText (cw_out c') = contents (events_of (sv_decode env) lines)
  /\ of_type ChunkError (cw_out c') = [] /\ of_type ChunkDone (cw_out c') = []
  /\ cw_W c' = RunOnErrorHooks hooks (cw_W c) req (EStreamInterrupted true (EWrap "scanner error" e)).
Proof.
  intros Hu Hmr Ho Hacc Hv Hs Hb Hnd Hg Hne c'. unfold c'. rewrite streamWithFailover_unlimited by done.
  cbv zeta. pose proof (maxRetries_pos (failover (cw_o c))) as Hp.
  destruct (Z.to_nat (maxReconnect (cw_o c) + maxRetries (failover (cw_o c)) + 1 + 1)) as [|n] eqn:En; [lia|].
  cbn [stream_loop Nat.ltb Nat.leb]. unfold stream_request. cbn [log_sent cw_hw cw_o]. rewrite Hs.
  match goal with |- context [read_attempt env 0 resp ?c1] =>
    destruct (read_attempt_drop env 0 resp c1 lines e) as (c2 & E & H1 & H2 & H3 & _); try done end.
  assert (cw_W c2 = cw_W c) as HW.
  { revert E. unfold read_attempt. destruct (readStream _ _ _ _ _ _) as [[s em] er]. by intros [= <- _ _]. }
  rewrite E. cbn [orb negb]. cbn. by rewrite HW.
Qed.

(** * Claims *)

(** C7: Content is never repeated: when a streaming call sends a request,
    nothing of an answer has been delivered yet, whatever the network, the
    breakers, the hooks, the server and the consumer do; and a call sends at
    most [maxReconnect + 1] requests through the retry loop. *)
Theorem stream_no_request_after_output {W} (hooks : list (LifecycleHook W)) url_Parse env req (c : @cworld W) :
  (0 <= maxReconnect (cw_o c))%Z -> cw_out c = [] -> cw_trace c = [] ->
  let c' := streamWithFailover hooks url_Parse env req c in
  Forall (fun t => Forall aside (st_before t)) (cw_trace c')
  /\ (Z.of_nat (length (cw_trace c')) <= maxReconnect (cw_o c) + 1)%Z.
Proof.
  intros Hmr Ho Ht c'. destruct (streamWithFailover_requests hooks url_Parse env req c Hmr) as (new & H1 & H2 & H3).
  { by rewrite Ho. }
  unfold c'. rewrite H1, Ht. split; [|done]. eapply Forall_impl; [exact H2|]. by intros t (_ & _ & ?).
Qed.

(** A streaming call never reaches the fallback model: every request it
    sends goes to the model and address the client had at the start, whatever
    failover is configured and however the requests fail. *)
Theorem stream_failover_never_requests {W} (hooks : list (LifecycleHook W)) url_Parse env req (c : @cworld W) :
  (0 <= maxReconnect (cw_o c))%Z -> cw_out c = [] -> cw_trace c = [] ->
  Forall (fun t => st_model t = model (cw_o c) /\ st_url t = baseURL (cw_o c))
    (cw_trace (streamWithFailover hooks url_Parse env req c)).
Proof.
  intros Hmr Ho Ht. destruct (streamWithFailover_requests hooks url_Parse env req c Hmr) as (new & H1 & H2 & _).
  { by rewrite Ho. }
  rewrite H1, Ht. eapply Forall_impl; [exact H2|]. by intros t (? & ? & _).
Qed.

(** When every request is refused for its key, the call goes through the
    keys in order: request [j] carries key [(keyIndex + j) mod n], for
    [maxReconnect + 1] requests, so every configured key is tried when there
    are at most that many. *)
Theorem stream_rotates_keys {W} (hooks : list (LifecycleHook W)) url_Parse env req (c : @cworld W) :
  let o := cw_o c in let keys := apiKeys o in
  unlimited o -> (0 <= maxReconnect o)%Z -> cw_out c = [] -> cw_trace c = [] ->
  (2 <= length keys)%nat -> (0 <= keyIndex o < Z.of_nat (length keys))%Z ->
  no_breaker (cw_hw c) (vendor o) -> not_reported_open (cw_hw c) (vendor o) ->
  (forall i, auth_reply (sv_send env i 0)) -> (forall i, sv_backoffCtx env i = None) ->
  let used := st_key <$> cw_trace (streamWithFailover hooks url_Parse env req c) in
  used = (fun j => List.nth (Z.to_nat ((keyIndex o + Z.of_nat j) mod Z.of_nat (length keys))) keys "")
           <$> seq 0 (Z.to_nat (maxReconnect o + 1))
  /\ ((Z.of_nat (length keys) <= maxReconnect o + 1)%Z -> forall k, k ∈ keys -> k ∈ used).
Proof.
  intros o keys Hu Hmr Ho Ht Hl Hi Hb Hr Ha Hc used.
  assert (used = (fun j => List.nth (Z.to_nat ((keyIndex o + Z.of_nat j) mod Z.of_nat (length keys))) keys "")
           <$> seq 0 (Z.to_nat (maxReconnect o + 1))) as Hused.
  { unfold used. rewrite streamWithFailover_unlimited by done. cbv zeta. fold o.
    destruct (stream_loop _ _ _ _ _ _ _ _ _ _ c) as [c1 le] eqn:E.
    eapply (auth_loop hooks url_Parse env (Z.to_nat (maxReconnect o + 1))) in E;
      [|apply maxRetries_pos|done|lia|pose proof (maxRetries_pos (failover o)); lia|by rewrite Ho|done..].
    transitivity (st_key <$> cw_trace c1); [by destruct le|]. rewrite E, Ht. simpl.
    apply list_fmap_ext. intros _ j _. by apply currentKey_rotated. }
  split; [done|]. intros Hlen k Hk. rewrite Hused. apply list_elem_of_lookup in Hk as [i Hk].
  pose proof (lookup_lt_Some _ _ _ Hk) as Hlt.
  set (j := ((Z.of_nat i - keyIndex o) mod Z.of_nat (length keys))%Z).
  assert (0 <= j < Z.of_nat (length keys))%Z as Hj by (apply Z.mod_pos_bound; lia).
  apply list_elem_of_fmap. exists (Z.to_nat j). split.
  - rewrite Z2Nat.id by lia. unfold j. rewrite Zplus_mod_idemp_r.
    replace (keyIndex o + (Z.of_nat i - keyIndex o))%Z with (Z.of_nat i) by lia.
    rewrite Z.mod_small by lia. rewrite Nat2Z.id. symmetry. by apply nth_lookup_Some.
  - apply elem_of_seq. lia.
Qed.

(** ** Witnesses *)

(** A hook that counts the errors it is told about. *)
Definition counting_hook : LifecycleHook nat := NewLifecycleHook "count" None None (Some (fun w _ _ => S w)).

Definition reply (code : Z) (body : string) : nat -> nat -> attempt_env :=
  fun _ _ => mkAttempt None 0 0 0 None (inr (mkResp code "" body)).
Definition demo_env (send : nat -> nat -> attempt_env) (be : nat -> body_env) : stream_env :=
  mkSEnv 0 0 None all_accepted send be (fun _ => None) demo_decode false "" 0.
Definition two_keys : OpenAI :=
  mkOpenAI "a" ["a"; "b"] 1 "https://x/chat/completions" "m" "m" VendorQwen "" "" reasoningThinking
    (120 * Second) 3 (NewRateLimiter 0 0 0) NewTelemetry None
    (mkFailover 2 (Some (fun _ _ _ => true)) (Some (fun _ _ => ("fallback", "https://y", true)))).
Definition demo_world : @cworld nat := mkCW two_keys w_plain [] 0 [] [] 0.
Definition demo_req : Request := mkRequest "m" [] [] None None None [].

Lemma stream_no_request_after_output_witness :
  let c' := streamWithFailover [counting_hook] (fun _ => None) (demo_env (reply 401 "") (fun _ => no_faults))
              demo_req demo_world in
  Forall (fun t => Forall aside (st_before t)) (cw_trace c') /\ (Z.of_nat (length (cw_trace c')) <= 3 + 1)%Z.
Proof.
  apply (stream_no_request_after_output [counting_hook] (fun _ => None)
           (demo_env (reply 401 "") (fun _ => no_faults)) demo_req demo_world);
    [discriminate|reflexivity|reflexivity].
Defined.

Lemma stream_failover_never_requests_witness :
  Forall (fun t => st_model t = "m" /\ st_url t = "https://x/chat/completions")
    (cw_trace (streamWithFailover [counting_hook] (fun _ => None)
       (demo_env (reply 401 "") (fun _ => no_faults)) demo_req demo_world)).
Proof.
  apply (stream_failover_never_requests [counting_hook] (fun _ => None)
           (demo_env (reply 401 "") (fun _ => no_faults)) demo_req demo_world);
    [discriminate|reflexivity|reflexivity].
Defined.

Lemma no_breaker_plain v : no_breaker w_plain v /\ not_reported_open w_plain v.
Proof. repeat split. intros p. unfold w_plain. simpl. by rewrite lookup_empty. Qed.

Lemma stream_rotates_keys_witness :
  st_key <$> cw_trace (streamWithFailover [counting_hook] (fun _ => None)
    (demo_env (reply 401 "") (fun _ => no_faults)) demo_req demo_world) = ["b"; "a"; "b"; "a"].
Proof.
  refine (proj1 (stream_rotates_keys [counting_hook] (fun _ => None)
    (demo_env (reply 401 "") (fun _ => no_faults)) demo_req demo_world _ _ _ _ _ _ _ _ _ _)).
  - split; discriminate.
  - discriminate.
  - reflexivity.
  - reflexivity.
  - simpl. lia.
  - simpl. lia.
  - apply no_breaker_plain.
  - apply no_breaker_plain.
  - intros i. split; [reflexivity|]. split; [reflexivity|]. eexists. split; [reflexivity|]. left. reflexivity.
  - reflexivity.
Defined.

(** The failed call left the client switched to the fallback, which received no
    request, and reported the last error. *)
Example demo_failover :
  let c' := streamWithFailover [counting_hook] (fun _ => None)
              (demo_env (reply 401 "") (fun _ => no_faults)) demo_req demo_world in
  (model (cw_o c'), st_model <$> cw_trace c', cw_out c') =
  ("fallback", ["m"; "m"; "m"; "m"], [error_chunk (EAuth VendorQwen 401 true)]).
Proof. vm_compute. reflexivity. Qed.

(** The error hooks also run when a reconnect made the call succeed: the first
    body breaks off before any event, the second is complete. *)
Example success_after_reconnect_runs_error_hooks :
  let c' := streamWithFailover [counting_hook] (fun _ => None)
              (demo_env (reply 200 demo_body) (fun i => if (i =? 0)%nat
                 then mkBody (Some EConnReset) None false else no_faults))
              demo_req (mkCW two_keys w_plain [] 0 [] [] 0%nat) in
  let c'' := streamWithFailover [counting_hook] (fun _ => None)
              (demo_env (fun i => if (i =? 0)%nat then reply 200 "" i else reply 200 demo_body i)
                 (fun i => if (i =? 0)%nat then mkBody (Some EConnReset) None false else no_faults))
              demo_req (mkCW two_keys w_plain [] 0 [] [] 0%nat) in
  (cw_W c', cw_W c'', List.last (cw_out c'') (text_chunk "")) = (0%nat, 1%nat, done_chunk).
Proof. vm_compute. reflexivity. Qed.
