(* ===== verification/StallGuard.v ===== *)
(** * The stall guard

    [startStallGuard] of [protocol/openai.go]: the goroutine that closes the
    body of a streamed response when no line has arrived for a while, with the
    reader that it watches, the context and the clock. The states are those of
    the goroutine's timer and channels; time passes only when the goroutine has
    nothing to do, and never past the expiry of a timer it waits for. *)
From stdpp Require Import base tactics list gmap strings relations.
From Stdlib Require Import ZArith Lia.
From S2P Require Import Prelude GoStrings Types Think Breaker Retry Vendor RateLimit Hooks OpenAI Stream Client.

(** ** States and steps *)

(** [g_deadline]: when [idle] expires. As of Go 1.23 a timer that was stopped
    or reset leaves no stale value in its channel, so the drain after
    [idle.Stop()] finds nothing. [g_activity] is the buffer of the channel that
    [reset] fills; [g_gone] says that the goroutine has returned; [g_last] is
    the time of the last line, or of the start. *)
Record guard := mkG {
  g_now : Z; g_deadline : Z; g_activity : bool; g_gone : bool;
  g_stalled : bool; g_closed : bool; g_done : bool; g_ctx : bool; g_last : Z }.

Definition startStallGuard (timeout now : Z) : guard := mkG now (now + timeout) false false false false false false now.

Inductive glabel :=
| GLine     (* the scanner returns a line, from its buffer if the body is closed, and the reader calls [reset] *)
| GReturn   (* the reader returns: [close(done)] *)
| GCancel   (* the context ends *)
| GOnCtx | GOnIdle | GOnActivity | GOnDone   (* the goroutine's select takes a case *)
| GTick (d : Z).

(** The goroutine can take a step. *)
Definition g_enabled (s : guard) : bool :=
  negb (g_gone s) && (g_ctx s || g_activity s || g_done s || (g_deadline s <=? g_now s)%Z).

Definition guard_step (timeout : Z) (s : guard) (l : glabel) : option guard :=
  let '(mkG now dl act gone st cl dn ctx last) := s in
  match l with
  | GLine => if dn then None else Some (mkG now dl true gone st cl dn ctx now)
  | GReturn => if dn then None else Some (mkG now dl act gone st cl true ctx last)
  | GCancel => Some (mkG now dl act gone st cl dn true last)
  | GOnCtx => if gone || negb ctx then None else Some (mkG now dl act true st true dn ctx last)
  | GOnIdle => if gone || (now <? dl)%Z then None else Some (mkG now dl act true true true dn ctx last)
  | GOnActivity => if gone || negb act then None else Some (mkG now (now + timeout) false gone st cl dn ctx last)
  | GOnDone => if gone || negb dn then None else Some (mkG now dl act true st cl dn ctx last)
  | GTick d =>
      if (d <=? 0)%Z || g_enabled s || (negb gone && (dl <? now + d)%Z) then None
      else Some (mkG (now + d) dl act gone st cl dn ctx last)
  end.

Fixpoint guard_run (timeout : Z) (s : guard) (ls : list glabel) : option guard :=
  match ls with [] => Some s | l :: ls' => s' ← guard_step timeout s l; guard_run timeout s' ls' end.

(** * Properties *)

(** What holds between the goroutine, the reader and the clock. *)
Record guard_inv (timeout : Z) (s : guard) : Prop := mkGInv {
  gi_time : g_gone s = false -> (g_now s <= g_deadline s)%Z;
  gi_last : (g_last s <= g_now s)%Z;
  gi_idle : g_gone s = false -> g_activity s = false -> g_deadline s = (g_last s + timeout)%Z;
  gi_fresh : g_gone s = false -> g_activity s = true -> g_last s = g_now s;
  gi_stalled : g_stalled s = true -> g_closed s = true /\ g_gone s = true;
  gi_closed : g_closed s = true -> g_stalled s = true \/ g_ctx s = true;
  gi_gone : g_gone s = true -> g_closed s = true \/ g_done s = true }.

Lemma guard_inv_init timeout now : (0 <= timeout)%Z -> guard_inv timeout (startStallGuard timeout now).
Proof. intros H. split; cbn; try done; lia. Qed.

Ltac guard_cases H :=
  unfold guard_step, g_enabled in H; cbn in H; repeat (case_match; try done); bool_prop; simplify_eq/=.

Lemma guard_step_inv timeout s l s' : (0 <= timeout)%Z -> guard_inv timeout s -> guard_step timeout s l = Some s' -> guard_inv timeout s'.
Proof.
  intros Ht [H1 H2 H3 H4 H5 H6 H7] H. destruct s as [now dl act gone st cl dn ctx last], l; cbn in *; guard_cases H.
  all: split; cbn; try done; try lia; try naive_solver lia.
Qed.

Lemma guard_run_inv timeout s ls s' : (0 <= timeout)%Z -> guard_inv timeout s -> guard_run timeout s ls = Some s' -> guard_inv timeout s'.
Proof.
  intros Ht. revert s. induction ls as [|l ls IH]; intros s Hi; cbn [guard_run]; [by intros [= <-]|].
  destruct (guard_step timeout s l) as [s1|] eqn:E; [|done]. apply IH. by eapply guard_step_inv.
Qed.

(** C10: The guard does what it is for, in every interleaving of the reader, the
    goroutine, the context and the clock. While the body is open and the reader
    has not returned, the last line (or the start) is at most [timeout] ago.
    The body is closed only for a stall or the end of the context. The timer's
    case is taken exactly [timeout] after the last line, unless a line arrived
    at that very moment. No time passes between the end of the context or the
    return of the reader and the end of the goroutine. And a reader that stays
    silent is cut off: the expiry is always ahead and can be reached. *)
Theorem stall_guard_correct timeout now ls s :
  (0 < timeout)%Z -> guard_run timeout (startStallGuard timeout now) ls = Some s ->
  (g_closed s = false -> g_done s = false -> (g_now s <= g_last s + timeout)%Z)
  /\ (g_stalled s = true -> g_closed s = true)
  /\ (g_closed s = true -> g_stalled s = true \/ g_ctx s = true)
  /\ (forall s', guard_step timeout s GOnIdle = Some s' -> g_now s = (g_last s + timeout)%Z \/ g_last s = g_now s)
  /\ (forall d s', guard_step timeout s (GTick d) = Some s' -> g_gone s = true \/ (g_done s = false /\ g_ctx s = false))
  /\ (g_enabled s = false -> g_gone s = false ->
      exists s', guard_run timeout s [GTick (g_deadline s - g_now s); GOnIdle] = Some s'
        /\ g_now s' = (g_last s + timeout)%Z /\ g_stalled s' = true /\ g_closed s' = true).
Proof.
  intros Ht Hr. pose proof (guard_run_inv timeout _ _ _ ltac:(lia) (guard_inv_init timeout now ltac:(lia)) Hr) as [H1 H2 H3 H4 H5 H6 H7].
  clear Hr. destruct s as [n dl act gone st cl dn ctx last]. cbn in *. split_and!.
  - intros -> ->. destruct gone; [naive_solver|]. specialize (H1 eq_refl). destruct act; [specialize (H4 eq_refl eq_refl)|specialize (H3 eq_refl eq_refl)]; lia.
  - naive_solver.
  - done.
  - intros s' H. guard_cases H. destruct act; [right; auto|left]. rewrite <- H3 by done. specialize (H1 eq_refl). lia.
  - intros d s' H. destruct gone; [by left|]. right. unfold guard_step, g_enabled in H. cbn in H.
    destruct (d <=? 0)%Z; [done|]. by destruct ctx, act, dn.
  - unfold g_enabled. cbn. intros He ->. cbn in He. destruct ctx, act, dn; try done. cbn in He. bool_prop.
    rewrite <- H3 by done. unfold guard_step, g_enabled. cbn.
    replace (n + (dl - n))%Z with dl by lia. rewrite !(proj2 (Z.leb_gt _ _)), Z.ltb_irrefl by lia. cbn. rewrite Z.ltb_irrefl.
    eexists. split; [reflexivity|]. done.
Qed.

(** ** What the reader makes of it *)

(** How reading a body ends under the guard: [closedErr] is what a read of a
    closed body returns, [src] how the body ends by itself. *)
Definition guarded_body (s : guard) (closedErr : gerror) (src : option gerror) : body_env :=
  mkBody (if g_closed s then Some closedErr else src) None (g_stalled s).

(** A stream that stalls after part of the answer was delivered passes for a
    complete one: closing the body makes the scanner fail, so [readStream]
    returns the scanner's error before it looks at [stalled], and the caller
    does not pass the error on once something was delivered. The consumer gets
    the partial text, and neither an error nor [Done]. *)
Theorem stalled_answer_cut {W} (hooks : list (LifecycleHook W)) url_Parse env req (c : @cworld W)
    timeout now ls s closedErr src hw ev resp lines :
  (0 < timeout)%Z -> guard_run timeout (startStallGuard timeout now) ls = Some s -> g_stalled s = true ->
  sv_body env 0 = guarded_body s closedErr src ->
  unlimited (cw_o c) -> (0 <= maxReconnect (cw_o c))%Z -> cw_out c = [] ->
  (forall n, accepts (sv_chan env) n = true) -> vendor (cw_o c) <> VendorMiniMax ->
  SendWithRetry (sv_notify env) (cw_hw c) (vendor (cw_o c)) (sv_send env 0) = (hw, ev, inr resp) ->
  scan_body (Body resp) (Some closedErr) = (lines, Some closedErr) ->
  Forall not_done_line lines -> Forall (fun x => goes_on x = true) (events_of (sv_decode env) lines) ->
  contents (events_of (sv_decode env) lines) <> "" ->
  let c' := streamWithFailover hooks url_Parse env req c in
  text_of ChunkText (cw_out c') = contents (events_of (sv_decode env) lines)
  /\ of_type ChunkError (cw_out c') = [] /\ of_type ChunkDone (cw_out c') = [].
Proof.
  intros Ht Hr Hst Hbe Hu Hm Ho Hacc Hv Hsend Hsc Hnd Hg Hne.
  pose proof (guard_run_inv timeout _ _ _ ltac:(lia) (guard_inv_init timeout now ltac:(lia)) Hr) as Hi.
  destruct (gi_stalled _ _ Hi Hst) as [Hc _].
  destruct (stream_drop_out hooks url_Parse env req c hw ev resp lines closedErr) as (H1 & H2 & H3 & _); try done.
  rewrite Hbe. cbn. by rewrite Hc.
Qed.

(** ** Witnesses *)

(** Two lines, then silence. *)
Definition stalled_run : list glabel :=
  [GTick Second; GLine; GOnActivity; GTick Second; GLine; GOnActivity; GTick (120 * Second); GOnIdle].
Definition stalled_guard : guard := default (startStallGuard 0 0) (guard_run (120 * Second) (startStallGuard (120 * Second) 0) stalled_run).

Lemma stall_guard_correct_witness :
  g_now stalled_guard = (122 * Second)%Z /\ g_stalled stalled_guard = true /\ g_closed stalled_guard = true.
Proof.
  destruct (stall_guard_correct (120 * Second) 0 stalled_run stalled_guard) as (_ & H & _); [vm_compute; reflexivity|vm_compute; reflexivity|].
  split; [vm_compute; reflexivity|]. split; [vm_compute; reflexivity|]. apply H. vm_compute. reflexivity.
Defined.

(** One event of the demonstration stream, and then nothing more. *)
Definition cut_lines : list string := ["data: 1"].
Definition cut_env : stream_env :=
  demo_env (reply 200 (Join (cut_lines ++ [""]) nl)) (fun _ => guarded_body stalled_guard (EMsg "http: read on closed response body") None).

Lemma stalled_answer_cut_witness :
  let c' := streamWithFailover [counting_hook] (fun _ => None) cut_env demo_req demo_world in
  text_of ChunkText (cw_out c') <> "" /\ of_type ChunkError (cw_out c') = [] /\ of_type ChunkDone (cw_out c') = [].
Proof.
  destruct (stalled_answer_cut [counting_hook] (fun _ => None) cut_env demo_req demo_world (120 * Second) 0 stalled_run stalled_guard
    (EMsg "http: read on closed response body") None
    (SendWithRetry false w_plain VendorQwen (sv_send cut_env 0)).1.1 (SendWithRetry false w_plain VendorQwen (sv_send cut_env 0)).1.2
    (mkResp 200 "" (Join (cut_lines ++ [""]) nl)) cut_lines) as (H1 & H2).
  - vm_compute. reflexivity.
  - vm_compute. reflexivity.
  - vm_compute. reflexivity.
  - reflexivity.
  - split; discriminate.
  - discriminate.
  - reflexivity.
  - intros n. reflexivity.
  - discriminate.
  - vm_compute. reflexivity.
  - vm_compute. reflexivity.
  - repeat constructor; vm_compute; congruence.
  - vm_compute. repeat constructor.
  - vm_compute. discriminate.
  - split; [rewrite H1; vm_compute; discriminate|exact H2].
Defined.
