(* ===== verification/Chat.v ===== *)
(** * Non-streaming calls

    [protocol/openai.go]: [chatDirect], [chatWithFailover] and [Chat]. The
    network and JSON decoding are arguments for each attempt. *)
From stdpp Require Import base tactics list gmap strings pretty.
From Stdlib Require Import ZArith Lia.
From S2P Require Import Prelude GoStrings Types Think Breaker Retry Vendor Telemetry RateLimit Hooks OpenAI Stream Client.

(** The decoded reply. *)
Record chat_message := mkChatMsg {
  cm_Content : string; cm_Reasoning : string; cm_ToolCalls : list ToolCall }.
Record chat_reply := mkChatReply {
  cr_Choices : list chat_message; cr_Usage : option Usage; cr_Error : option string }.

(** One attempt: building the request, [client.Do], the redacted body that is
    published, and the time the call took. *)
Record chat_attempt := mkChatAttempt {
  ca_newReq : option gerror; ca_do : gerror + http_response; ca_redacted : string; ca_duration : Z }.

Section Chat.
Context {W : Type} (hooks : list (LifecycleHook W)) (url_Parse : string -> option URL).
Context (decode : string -> gerror + chat_reply) (sid : string).

Definition raw_request (text : string) : Chunk := mkChunk ChunkRawRequest text None None "" None.
Definition raw_response (text : string) : Chunk := mkChunk ChunkRawResponse text None None "" None.

Definition chatDirect (a : chat_attempt) (c : @cworld W) : @cworld W * (gerror + Response) :=
  match ca_newReq a with
  | Some e => (c, inl e)
  | None =>
      let c := publish (raw_request (ca_redacted a)) (log_sent c) in
      match ca_do a with
      | inl e => (publish (raw_error ("request failed: " +:+ Error e)) c, inl (EWrap "request failed" e))
      | inr resp =>
          let body := TrimSpace (Body resp) in
          if negb (StatusCode resp =? 200)%Z then
            (publish (raw_response ("HTTP " +:+ pretty (StatusCode resp) +:+ ": " +:+ body)) c,
             inl (EMsg ("API error (status=" +:+ pretty (StatusCode resp) +:+ "): " +:+ body)))
          else match decode (Body resp) with
               | inl e => (c, inl (EWrap "parse response" e))
               | inr r =>
                   match cr_Error r, cr_Choices r with
                   | Some m, _ => (c, inl (EMsg ("API error: " +:+ m)))
                   | None, [] => (c, inl (EMsg "API returned empty choices"))
                   | None, msg :: _ =>
                       let o := cw_o c in
                       let t := (RecordFromContext (telemetry o) sid (model o) (Vendor_String (vendor o))
                                   (ca_duration a) (cr_Usage r)).1 in
                       (set_o (set_telemetry t o) c,
                        inr (mkResponse (cm_Content msg) (cm_Reasoning msg) (cm_ToolCalls msg) (cr_Usage r) ""))
                   end
               end
      end
  end.

Context (attempts : nat -> chat_attempt).

(** The loop from [attempt] with [n] iterations left. *)
Fixpoint chat_loop (n attempt : nat) (lastErr : gerror) (c : @cworld W) : @cworld W * (gerror + Response) :=
  match n with
  | 0 => (c, inl lastErr)
  | S n' =>
      let direct c :=
        let '(c, r) := chatDirect (attempts attempt) c in
        match r with
        | inr resp => (c, inr resp)
        | inl e => chat_loop n' (S attempt) e c
        end in
      if (0 <? attempt)%nat then
        let o := cw_o c in
        if negb (shouldFailover (failover o) (model o) (Vendor_String (vendor o)) (Some lastErr))
        then (c, inl lastErr)
        else
          let '(m, url, ok) := getFailoverModel (failover o) (model o) (Vendor_String (vendor o)) in
          if negb ok then (c, inl lastErr)
          else direct (set_o (applyFailover url_Parse o m url) c)
      else direct c
  end.

(** [lastErr] starts as nil; it is never read before the first attempt sets it. *)
Definition chatWithFailover (c : @cworld W) : @cworld W * (gerror + Response) :=
  chat_loop (Z.to_nat (maxRetries (failover (cw_o c)) + 1)) 0 (EMsg "") c.

(** [Chat]: rate limiter, hooks before, the call, hooks after; an error on any
    step is told to the error hooks. *)
Definition Chat (w_env : Z * Z * option gerror) (req : Request) (c : @cworld W)
  : @cworld W * (gerror + Response) :=
  let '(now, later, ctxDone) := w_env in
  let fail req e (c : @cworld W) := (set_W (RunOnErrorHooks hooks (cw_W c) req e) c, inl e) in
  let '(rl, _, err) := Wait (rateLimiter (cw_o c)) (mkWaitEnv now later ctxDone (estimateTokens req)) in
  let c := set_o (set_rateLimiter rl (cw_o c)) c in
  match err with
  | Some e => fail req e c
  | None =>
      let '(w, r) := RunBeforeProcessHooks hooks (cw_W c) req in
      let c := set_W w c in
      match r with
      | inl e => fail req e c
      | inr req' =>
          let '(c, r) := chatWithFailover c in
          match r with
          | inl e => fail req' e c
          | inr resp =>
              let '(w, r) := RunAfterProcessHooks hooks (cw_W c) req' resp in
              let c := set_W w c in
              match r with
              | inl e => fail req' e c
              | inr resp' => (c, inr resp')
              end
          end
      end
  end.
End Chat.

(** * Properties *)

Section Failover.
Context {W : Type} (url_Parse : string -> option URL) (decode : string -> gerror + chat_reply) (sid : string).

(** The failover settings always name the same fallback. *)
Definition falls_back_to (fc : FailoverConfig) (m url : string) : Prop :=
  (forall a b e, shouldFailover fc a b e = true) /\ (forall a b, getFailoverModel fc a b = (m, url, true)).

Definition target (o : OpenAI) : string * string := (model o, baseURL o).
Definition fallback_target (m url : string) : string * string := (m, TrimRight url "/" +:+ "/chat/completions").

(** An attempt adds at most its own request to the trace. *)
Lemma chatDirect_trace a (c c' : @cworld W) r :
  chatDirect decode sid a c = (c', r) ->
  (cw_trace c' = cw_trace c \/
   cw_trace c' = cw_trace c ++ [mkSent (model (cw_o c)) (baseURL (cw_o c)) (currentKey (cw_o c)) (cw_out c)])
  /\ target (cw_o c') = target (cw_o c) /\ failover (cw_o c') = failover (cw_o c).
Proof.
  unfold chatDirect. repeat case_match; intros; simplify_eq; simpl; auto.
Qed.

Lemma chat_loop_fallback attempts n attempt le (c c' : @cworld W) r m url :
  falls_back_to (failover (cw_o c)) m url ->
  (0 < attempt)%nat -> chat_loop url_Parse decode sid attempts n attempt le c = (c', r) ->
  exists new, cw_trace c' = cw_trace c ++ new /\ length new <= n
    /\ Forall (fun t => (st_model t, st_url t) = fallback_target m url) new.
Proof.
  revert attempt le c. induction n as [|n IH]; intros attempt le c [Hs Hg] Ha.
  { intros [= <- <-]. exists []. by rewrite app_nil_r. }
  cbn [chat_loop]. rewrite (proj2 (Nat.ltb_lt _ _) Ha), Hs, Hg. cbn [negb].
  set (c0 := set_o (applyFailover url_Parse (cw_o c) m url) c).
  destruct (chatDirect decode sid (attempts attempt) c0) as [c1 r1] eqn:E.
  apply chatDirect_trace in E as (Htr & Ht & Hf).
  assert (exists new, cw_trace c1 = cw_trace c ++ new /\ length new <= 1
            /\ Forall (fun t => (st_model t, st_url t) = fallback_target m url) new) as (n1 & H1 & H2 & H3).
  { destruct Htr as [->| ->]; [exists []; rewrite app_nil_r; simpl; auto with lia|].
    eexists. split; [reflexivity|]. split; [simpl; lia|]. by repeat constructor. }
  destruct r1 as [e|resp].
  - intros Hl. destruct (IH (S attempt) e c1) as (n2 & H4 & H5 & H6); [by rewrite Hf|lia|done|].
    exists (n1 ++ n2). rewrite H4, H1, app_assoc, length_app. split; [done|]. split; [lia|].
    by apply Forall_app.
  - intros [= <- <-]. exists n1. split; [done|]. split; [lia|done].
Qed.

(** Failover of a non-streaming call: with a fallback configured, the
    first request goes to the client's own model; every later one goes to the
    fallback's model and address; there are at most [maxRetries + 1] of them. *)
Theorem chatWithFailover_targets attempts (c c' : @cworld W) r m url :
  falls_back_to (failover (cw_o c)) m url -> cw_trace c = [] ->
  chatWithFailover url_Parse decode sid attempts c = (c', r) ->
  exists own other, cw_trace c' = own ++ other
    /\ length own <= 1 /\ Forall (fun t => (st_model t, st_url t) = target (cw_o c)) own
    /\ Forall (fun t => (st_model t, st_url t) = fallback_target m url) other
    /\ (Z.of_nat (length other) <= maxRetries (failover (cw_o c)))%Z.
Proof.
  intros Hfb Ht. unfold chatWithFailover. pose proof (maxRetries_pos (failover (cw_o c))) as Hp.
  replace (Z.to_nat (maxRetries (failover (cw_o c)) + 1))
    with (S (Z.to_nat (maxRetries (failover (cw_o c))))) by lia.
  cbn [chat_loop Nat.ltb Nat.leb].
  destruct (chatDirect decode sid (attempts 0%nat) c) as [c1 r1] eqn:E.
  apply chatDirect_trace in E as (Htr & Htg & Hf). rewrite Ht in Htr.
  assert (length (cw_trace c1) <= 1 /\ Forall (fun t => (st_model t, st_url t) = target (cw_o c)) (cw_trace c1))
    as [H1 H2].
  { destruct Htr as [->| ->]; simpl; split; try lia; repeat constructor. }
  destruct r1 as [e|resp].
  - intros Hl. apply (chat_loop_fallback attempts _ _ _ _ _ _ m url) in Hl as (new & H3 & H4 & H5);
      [|by rewrite Hf|lia].
    exists (cw_trace c1), new. repeat split; try done. lia.
  - intros [= <- <-]. exists (cw_trace c1), []. rewrite app_nil_r. repeat split; try done. simpl. lia.
Qed.
End Failover.

Definition chat_503_then_ok (i : nat) : chat_attempt :=
  mkChatAttempt None (inr (mkResp (if (i =? 0)%nat then 503 else 200) "" "body")) "" 0.
Definition demo_chat_decode (s : string) : gerror + chat_reply :=
  inr (mkChatReply [mkChatMsg "hi" "" []] None None).

Lemma chatWithFailover_targets_witness :
  exists own other,
    cw_trace (chatWithFailover (fun _ => None) demo_chat_decode "" chat_503_then_ok demo_world).1 = own ++ other
    /\ length own <= 1 /\ Forall (fun t => (st_model t, st_url t) = target two_keys) own
    /\ Forall (fun t => (st_model t, st_url t) = fallback_target "fallback" "https://y") other
    /\ (Z.of_nat (length other) <= 2)%Z.
Proof.
  eapply (chatWithFailover_targets (fun _ => None) demo_chat_decode "" chat_503_then_ok demo_world);
    [split; reflexivity|reflexivity|apply surjective_pairing].
Defined.

Example chat_fallback_answers :
  let '(c', r) := chatWithFailover (fun _ => None) demo_chat_decode "" chat_503_then_ok demo_world in
  (st_model <$> cw_trace c', r) = (["m"; "fallback"], inr (mkResponse "hi" "" [] None "")).
Proof. vm_compute. reflexivity. Qed.
