(* ===== verification/Bridge.v ===== *)
(** * From protocol chunks to agent messages

    [internal/adk/llm/bridge.go] and [internal/adk/convert/convert.go]: the
    messages of the agent framework, the conversions to and from them, and the
    goroutine that turns a stream of chunks into messages. The framework's
    message types are data of the sources' interface to it; its options are an
    argument. *)
From stdpp Require Import base tactics list gmap strings.
From Stdlib Require Import ZArith Lia.
From S2P Require Import Prelude GoStrings Types Think Breaker Retry Vendor Hooks OpenAI Stream Client.

(** ** Messages of the agent framework: [schema.Message] *)

Record image := mkImage { img_URL : option string; img_Base64 : option string; img_MIME : string }.
Record input_part := mkPart { part_Type : string; part_Text : string; part_Image : option image }.
Record eino_message := mkEino {
  e_Role : string; e_Content : string; e_Reasoning : string; e_ToolCalls : list ToolCall;
  e_ToolCallID : string; e_Name : string; e_Multi : list input_part }.

Definition Assistant : string := "assistant".

(** The [map[string]any] of one part: keys in the order they are set. *)
Definition part_item (p : input_part) : list (string * any) :=
  [("type", AStr (part_Type p))]
  ++ (if part_Text p <>s "" then [("text", AStr (part_Text p))] else [])
  ++ match part_Image p with
     | None => []
     | Some img =>
         let url := match img_Base64 img with
                    | Some b => [("url", AStr ("data:" +:+ img_MIME img +:+ ";base64," +:+ b))]
                    | None => match img_URL img with Some u => [("url", AStr u)] | None => [] end
                    end in
         [("image_url", AObj url)]
     end.

(** [toProtoMsg] *)
Definition toProtoMsg (m : eino_message) : Message :=
  mkMessage (e_Role m) (e_Content m) (e_Reasoning m) (e_ToolCalls m) (e_ToolCallID m) (e_Name m)
    (if (0 <? length (e_Multi m))%nat then part_item <$> e_Multi m else []).

Definition toProtoMsgs (l : list eino_message) : list Message := toProtoMsg <$> l.

(** A tool's parameters: [None] when there is no schema or it does not marshal. *)
Record tool_info := mkToolInfo { ti_Name : string; ti_Desc : string; ti_Params : option string }.

Definition default_params : string :=
  let q := String (ascii_of_nat 34) "" in
  "{" +:+ q +:+ "type" +:+ q +:+ ":" +:+ q +:+ "object" +:+ q +:+ "," +:+ q +:+ "properties" +:+ q +:+ ":{}}".

Definition toProtoTools (l : list tool_info) : list ToolSchema :=
  (fun t => mkToolSchema (ti_Name t) (ti_Desc t)
              (match ti_Params t with Some p => p | None => default_params end)) <$> l.

Definition fromProtoResp (r : Response) : eino_message :=
  mkEino Assistant (rContent r) (rReasoning r) (rToolCalls r) "" "" [].

(** The common options of a call, floats as JSON literals. *)
Record options := mkOptions {
  op_MaxTokens : option Z; op_Stop : list string; op_Temperature : option string; op_TopP : option string }.

Definition buildRequest (input : list eino_message) (tools : list tool_info) (op : options) : Request :=
  mkRequest "" (toProtoMsgs input) (toProtoTools tools) (op_Temperature op) (op_TopP op)
    (op_MaxTokens op) (op_Stop op).

(** ** [generate] *)

Definition generate (chat : Request -> gerror + Response) (input : list eino_message)
    (tools : list tool_info) (op : options) : gerror + eino_message :=
  match chat (buildRequest input tools op) with
  | inl e => inl e
  | inr resp =>
      if (rContent resp =s "") && (length (rToolCalls resp) =? 0)%nat
      then inl (EMsg "API returned empty message")
      else inr (fromProtoResp resp)
  end.

(** ** The aggregation goroutine *)

Record agg := mkAgg { fullContent : string; fullReasoning : string; aggCalls : list ToolCall }.
Definition agg_init : agg := mkAgg "" "" [].

Definition agg_message (a : agg) : eino_message :=
  mkEino Assistant (fullContent a) (fullReasoning a) (aggCalls a) "" "" [].

(** The first aggregated call with the id gets the arguments. *)
Fixpoint fill_args (id args : string) (l : list ToolCall) : list ToolCall :=
  match l with
  | [] => []
  | t :: l' => if ID t =s id then set_tc_Arguments args t :: l' else t :: fill_args id args l'
  end.

(** The chunks that only accumulate. *)
Definition agg_step (a : agg) (c : Chunk) : agg :=
  match cType c with
  | ChunkText => mkAgg (fullContent a +:+ cText c) (fullReasoning a) (aggCalls a)
  | ChunkReasoning => mkAgg (fullContent a) (fullReasoning a +:+ cText c) (aggCalls a)
  | ChunkToolCallStart =>
      match cToolCall c with
      | Some t => mkAgg (fullContent a) (fullReasoning a) (aggCalls a ++ [mkToolCall (ID t) "function" (Name t) ""])
      | None => a
      end
  | ChunkToolCall =>
      match cToolCall c with
      | Some t => mkAgg (fullContent a) (fullReasoning a) (fill_args (ID t) (Arguments t) (aggCalls a))
      | None => a
      end
  | _ => a
  end.

(** What the goroutine sees next; the end of the list is the closed channel. *)
Inductive bevent := BChunk (c : Chunk) | BCancel.

(** What the reader of the pipe gets. *)
Definition item : Type := gerror + eino_message.

Definition recovering : string := "[流中断，正在恢复...]".
Definition recovering_message : eino_message := mkEino Assistant recovering "" [] "" "" [].

(** [Bridge.stream]; [chat] is the answer of the recovery call. *)
Fixpoint bridge_loop (chat : gerror + Response) (a : agg) (evs : list bevent) : list item :=
  match evs with
  | [] => [inr (agg_message a)]
  | BCancel :: _ => []
  | BChunk c :: rest =>
      match cType c with
      | ChunkDone => [inr (agg_message a)]
      | ChunkError =>
          match cError c with
          | Some e =>
              if as_StreamInterrupted e then
                inr recovering_message
                :: match chat with inl _ => [] | inr resp => [inr (fromProtoResp resp)] end
              else [inl e]
          | None => [inl (EMsg "stream failed without an error")]
          end
      | _ => bridge_loop chat (agg_step a c) rest
      end
  end.

Definition bridge_stream (chat : gerror + Response) (evs : list bevent) : list item :=
  bridge_loop chat agg_init evs.

(** ** [internal/adk/convert] *)

Definition map_get (k : string) (m : list (string * any)) : option any :=
  option_map snd (List.find (fun p => p.1 =s k) m).

Definition as_string (v : option any) : option string :=
  match v with Some (AStr s) => Some s | _ => None end.

Definition toEinoPart (m : list (string * any)) : input_part :=
  let typ := default "" (as_string (map_get "type" m)) in
  let text := default "" (as_string (map_get "text" m)) in
  let img := match map_get "image_url" m with
             | Some (AObj img) => Some (mkImage (Some (default "" (as_string (map_get "url" img)))) None "")
             | _ => None
             end in
  mkPart typ text img.

Definition toEinoMultiContent (mc : list (list (string * any))) : list input_part := toEinoPart <$> mc.

Definition ToEino (m : option Message) : option eino_message :=
  match m with
  | None => None
  | Some m => Some (mkEino (mRole m) (Content m) (ReasoningContent m) (ToolCalls m) (ToolCallID m) (mName m)
                      (if (0 <? length (MultiContent m))%nat then toEinoMultiContent (MultiContent m) else []))
  end.

Definition fromEinoMultiContent (mc : list input_part) : list (list (string * any)) := part_item <$> mc.

Definition FromEino (m : option eino_message) : option Message :=
  match m with
  | None => None
  | Some m => Some (mkMessage (e_Role m) (e_Content m) (e_Reasoning m) (e_ToolCalls m) (e_ToolCallID m) (e_Name m)
                      (if (0 <? length (e_Multi m))%nat then fromEinoMultiContent (e_Multi m) else []))
  end.

Definition ToEinoSlice (l : list (option Message)) : list (option eino_message) := ToEino <$> l.
Definition FromEinoSlice (l : list (option eino_message)) : list (option Message) := FromEino <$> l.

(** * Properties *)

(** ** Aggregation *)

Definition not_last (c : Chunk) : Prop := cType c <> ChunkDone /\ cType c <> ChunkError.

Definition starts_of (l : list Chunk) : list ToolCall :=
  (fun t => mkToolCall (ID t) "function" (Name t) "") <$> started_calls l.

Lemma bridge_loop_steps chat a l rest :
  Forall not_last l ->
  bridge_loop chat a ((BChunk <$> l) ++ rest) = bridge_loop chat (foldl agg_step a l) rest.
Proof.
  intros H. revert a. induction H as [|c l [H1 H2] Hl IH]; intros a; [done|].
  simpl. destruct (cType c) eqn:E; try done; apply IH.
Qed.

Lemma agg_text a l :
  fullContent (foldl agg_step a l) = fullContent a +:+ text_of ChunkText l
  /\ fullReasoning (foldl agg_step a l) = fullReasoning a +:+ text_of ChunkReasoning l.
Proof.
  revert a. induction l as [|c l IH]; intros a; [by rewrite !str_app_nil_r|].
  change (c :: l) with ([c] ++ l). rewrite !text_of_app. simpl. destruct (IH (agg_step a c)) as [-> ->].
  unfold agg_step, text_of, of_type. simpl.
  destruct (cType c); simpl; rewrite ?str_app_nil_r, ?str_app_assoc; try done; by destruct (cToolCall c).
Qed.

Lemma agg_starts a l : Forall plain l -> aggCalls (foldl agg_step a l) = aggCalls a ++ starts_of l.
Proof.
  intros H. revert a. induction H as [|c l (H1 & H2 & H3) Hl IH]; intros a; [by rewrite app_nil_r|].
  simpl. rewrite IH. unfold agg_step, starts_of, started_calls, of_type. simpl.
  destruct (cType c) eqn:E; simpl; try done. destruct (cToolCall c); simpl; by rewrite <- ?app_assoc.
Qed.

Lemma fill_args_ids id args l : ID <$> fill_args id args l = ID <$> l.
Proof.
  induction l as [|t l IH]; [done|]. simpl. destruct (ID t =s id); [done|]. by rewrite fmap_cons, IH.
Qed.

Definition with_args (s t : ToolCall) : ToolCall := set_tc_Arguments (Arguments t) s.

Lemma fill_args_skip id args a l : id ∉ ID <$> a -> fill_args id args (a ++ l) = a ++ fill_args id args l.
Proof.
  induction a as [|t a IH]; [done|]. rewrite fmap_cons, not_elem_of_cons. intros [H1 H2]. simpl.
  rewrite (proj2 (String.eqb_neq _ _)) by congruence. by rewrite IH.
Qed.

(** Calls that come back in the order they started are each filled in. *)
Lemma agg_calls x y done_ starts tcs :
  ID <$> starts = ID <$> tcs -> NoDup (ID <$> done_ ++ starts) ->
  foldl agg_step (mkAgg x y (done_ ++ starts)) (tool_call_chunk <$> tcs)
  = mkAgg x y (done_ ++ zip_with with_args starts tcs).
Proof.
  intros Hid Hnd. revert done_ starts Hid Hnd. induction tcs as [|t tcs IH]; intros done_ [|s starts] Hid Hnd; try done.
  rewrite !fmap_cons in Hid. injection Hid as Hs Hid. rewrite fmap_cons. cbn [foldl].
  unfold agg_step at 2. cbn [tool_call_chunk cType cToolCall fullContent fullReasoning aggCalls].
  assert (ID t ∉ ID <$> done_) as Hn.
  { rewrite fmap_app, NoDup_app in Hnd. destruct Hnd as (_ & Hd & _). intros Hin. apply (Hd _ Hin).
    rewrite fmap_cons, <- Hs. by left. }
  rewrite fill_args_skip by done. cbn [fill_args]. rewrite Hs, String.eqb_refl.
  specialize (IH (done_ ++ [with_args s t]) starts Hid). rewrite <- !app_assoc in IH. apply IH.
  rewrite !fmap_app in *. exact Hnd.
Qed.

(** ** Conversions *)

(** An item of a stored message: a type, a text that is not empty if present,
    and an image given by a URL. *)
Definition canonical_item (it : list (string * any)) : Prop :=
  exists typ text url, it = part_item (mkPart typ text ((fun u => mkImage (Some u) None "") <$> url)).

Lemma toEinoPart_item typ text url :
  toEinoPart (part_item (mkPart typ text ((fun u => mkImage (Some u) None "") <$> url)))
  = mkPart typ text ((fun u => mkImage (Some u) None "") <$> url).
Proof.
  unfold toEinoPart, part_item, map_get. simpl.
  destruct (text =s "") eqn:E; [apply String.eqb_eq in E as ->|]; by destruct url.
Qed.

Lemma canonical_roundtrip it : canonical_item it -> part_item (toEinoPart it) = it.
Proof. intros (typ & text & url & ->). by rewrite toEinoPart_item. Qed.

(** The image has an address or data. *)
Definition has_source (p : input_part) : Prop :=
  match part_Image p with Some i => img_URL i <> None \/ img_Base64 i <> None | None => True end.

Lemma part_item_canonical p : has_source p -> canonical_item (part_item p).
Proof.
  destruct p as [typ text [[u b mime]|]]; unfold has_source; simpl; intros H.
  - destruct b as [b|].
    + exists typ, text, (Some ("data:" +:+ mime +:+ ";base64," +:+ b)). done.
    + destruct u as [u|]; [by exists typ, text, (Some u)|naive_solver].
  - by exists typ, text, None.
Qed.

Lemma map_id_Forall {A} (f : A -> A) l : Forall (fun x => f x = x) l -> f <$> l = l.
Proof. induction 1 as [|x l Hx Hl IH]; [done|]. by rewrite fmap_cons, Hx, IH. Qed.

(** The loop over a stream whose calls come back in order. *)
Lemma bridge_assembled chat body tcs :
  Forall plain body ->
  starts_of body = (fun t => mkToolCall (ID t) "function" (Name t) "") <$> tcs -> NoDup (ID <$> tcs) ->
  bridge_stream chat (BChunk <$> body ++ (tool_call_chunk <$> tcs) ++ [done_chunk])
  = [inr (mkEino Assistant (text_of ChunkText body) (text_of ChunkReasoning body)
            ((fun t => mkToolCall (ID t) "function" (Name t) (Arguments t)) <$> tcs) "" "" [])].
Proof.
  intros Hp Hs Hnd. unfold bridge_stream. rewrite app_assoc, fmap_app, bridge_loop_steps.
  2:{ apply Forall_app. split; [eapply Forall_impl; [exact Hp|]; by intros c (?&?&?)|].
      by apply Forall_fmap, Forall_true. }
  cbn [bridge_loop fmap list_fmap cType done_chunk]. rewrite foldl_app.
  destruct (agg_text agg_init body) as [H1 H2]. pose proof (agg_starts agg_init body Hp) as H3.
  destruct (foldl agg_step agg_init body) as [x y l]. simpl in H1, H2, H3. subst x y l.
  pose proof (agg_calls (text_of ChunkText body) (text_of ChunkReasoning body) [] (starts_of body) tcs) as Hc.
  rewrite !app_nil_l in Hc. rewrite Hc.
  - unfold agg_message. simpl. rewrite Hs. do 2 f_equal. f_equal.
    clear. induction tcs as [|t tcs IH]; [done|]. rewrite !fmap_cons. cbn [zip_with]. rewrite IH. done.
  - rewrite Hs, <- list_fmap_compose. done.
  - rewrite Hs, <- list_fmap_compose. done.
Qed.

(** * Claims *)

(** The bridge hands the agent exactly one message, with the whole text
    and reasoning and every tool call complete, when the calls come back in the
    order they started under distinct ids. *)
Theorem bridge_assembles chat body tcs :
  Forall plain body ->
  starts_of body = (fun t => mkToolCall (ID t) "function" (Name t) "") <$> tcs -> NoDup (ID <$> tcs) ->
  bridge_stream chat (BChunk <$> body ++ (tool_call_chunk <$> tcs) ++ [done_chunk])
  = [inr (mkEino Assistant (text_of ChunkText body) (text_of ChunkReasoning body)
            ((fun t => mkToolCall (ID t) "function" (Name t) (Arguments t)) <$> tcs) "" "" [])].
Proof. apply bridge_assembled. Qed.

(** End to end, a connection lost in the middle of an answer reaches the
    agent as one complete message with the part of the text that had arrived:
    neither the recovery call nor an error happens. *)
Theorem truncated_answer_passes_as_complete {W} (hooks : list (LifecycleHook W)) url_Parse env req
    (c : @cworld W) hw ev resp lines e chat :
  unlimited (cw_o c) -> (0 <= maxReconnect (cw_o c))%Z -> cw_out c = [] ->
  (forall n, accepts (sv_chan env) n = true) -> vendor (cw_o c) <> VendorMiniMax ->
  SendWithRetry (sv_notify env) (cw_hw c) (vendor (cw_o c)) (sv_send env 0) = (hw, ev, inr resp) ->
  scan_body (Body resp) (be_readErr (sv_body env 0)) = (lines, Some e) ->
  Forall not_done_line lines ->
  Forall (fun x => goes_on x = true) (events_of (sv_decode env) lines) ->
  contents (events_of (sv_decode env) lines) <> "" ->
  exists m, bridge_stream chat (BChunk <$> cw_out (streamWithFailover hooks url_Parse env req c)) = [inr m]
    /\ e_Content m = contents (events_of (sv_decode env) lines).
Proof.
  intros. destruct (stream_drop_out hooks url_Parse env req c hw ev resp lines e) as (H1' & H2' & H3' & _); try done.
  revert H1' H2' H3'. generalize (cw_out (streamWithFailover hooks url_Parse env req c)). intros out Ht He Hd.
  assert (Forall not_last out) as Hl.
  { clear -He Hd. induction out as [|x out IH]; [constructor|]. unfold of_type in He, Hd. simpl in *.
    unfold not_last. destruct (bool_decide (cType x = ChunkError)) eqn:E1; [done|].
    destruct (bool_decide (cType x = ChunkDone)) eqn:E2; [done|].
    apply bool_decide_eq_false in E1, E2. constructor; [done|]. by apply IH. }
  unfold bridge_stream. pose proof (bridge_loop_steps chat agg_init out [] Hl) as Hb.
  rewrite app_nil_r in Hb. rewrite Hb. eexists. split; [reflexivity|].
  simpl. rewrite (proj1 (agg_text agg_init out)). simpl. exact Ht.
Qed.

(** Converting a message to the agent framework and back loses nothing,
    and a message of the framework that went through the stored form is sent to
    the model as if it had not. *)
Theorem convert_roundtrip :
  (forall m, Forall canonical_item (MultiContent m) -> FromEino (ToEino (Some m)) = Some m)
  /\ (forall x, Forall has_source (e_Multi x) ->
        toProtoMsg <$> ToEino (FromEino (Some x)) = Some (toProtoMsg x)).
Proof.
  split.
  - intros [r c rc tcs id nm mc] H. simpl in *. do 2 f_equal.
    destruct mc as [|it mc]; [done|]. cbn [length Nat.ltb Nat.leb]. unfold toEinoMultiContent, fromEinoMultiContent.
    rewrite fmap_cons. cbn [length Nat.ltb Nat.leb]. rewrite <- fmap_cons, <- list_fmap_compose.
    apply map_id_Forall. eapply Forall_impl; [exact H|]. intros x Hx. by apply canonical_roundtrip.
  - intros [r c rc tcs id nm mc] H. simpl in *. f_equal. unfold toProtoMsg. simpl. f_equal.
    destruct mc as [|p mc]; [done|]. cbn [length Nat.ltb Nat.leb]. unfold toEinoMultiContent, fromEinoMultiContent.
    rewrite !fmap_cons. cbn [length Nat.ltb Nat.leb]. rewrite <- !fmap_cons, <- !list_fmap_compose.
    clear r c rc tcs id nm. induction H as [|y l Hy Hl IH]; [done|]. rewrite !fmap_cons, IH. f_equal.
    unfold compose. by apply canonical_roundtrip, part_item_canonical.
Qed.

(** ** Witnesses and examples *)

Lemma bridge_assembles_witness :
  bridge_stream (inl EEOF)
    (BChunk <$> [text_chunk "Hi"; tool_start_chunk (mkToolCall "1" "" "ls" "")]
      ++ (tool_call_chunk <$> [mkToolCall "1" "" "ls" "{}"]) ++ [done_chunk])
  = [inr (mkEino Assistant "Hi" "" [mkToolCall "1" "function" "ls" "{}"] "" "" [])].
Proof.
  apply (bridge_assembles (inl EEOF) [text_chunk "Hi"; tool_start_chunk (mkToolCall "1" "" "ls" "")]
           [mkToolCall "1" "" "ls" "{}"]).
  - repeat (constructor; [repeat split; discriminate|]). constructor.
  - reflexivity.
  - apply NoDup_singleton.
Defined.

Lemma truncated_answer_passes_as_complete_witness :
  exists m, bridge_stream (inl EEOF)
    (BChunk <$> cw_out (streamWithFailover [counting_hook] (fun _ => None)
              (demo_env (reply 200 ("data: 1" +:+ nl)) (fun _ => mkBody (Some EConnReset) None false))
              demo_req demo_world)) = [inr m] /\ e_Content m = "Hel".
Proof.
  eapply (truncated_answer_passes_as_complete [counting_hook] (fun _ => None)
    (demo_env (reply 200 ("data: 1" +:+ nl)) (fun _ => mkBody (Some EConnReset) None false))
    demo_req demo_world w_plain [EvSend] (mkResp 200 "" ("data: 1" +:+ nl)) ["data: 1"] EConnReset).
  - split; discriminate.
  - discriminate.
  - reflexivity.
  - intros n. reflexivity.
  - discriminate.
  - vm_compute. reflexivity.
  - vm_compute. reflexivity.
  - constructor; [unfold not_done_line; vm_compute; discriminate|constructor].
  - vm_compute. constructor; [reflexivity|constructor].
  - vm_compute. discriminate.
Defined.

(** A call the provider sends without an id starts under the empty id and
    completes as [call_0]: its arguments are lost. *)
Example missing_id_loses_arguments :
  bridge_stream (inl EEOF)
    (BChunk <$> rs_out (readStream all_accepted demo_client demo_decode demo_body no_faults rs_init).1.1)
  = [inr (mkEino Assistant "Hello" "" [mkToolCall "" "function" "ls" ""] "" "" [])].
Proof. vm_compute. reflexivity. Qed.

Definition stored_user : Message :=
  mkMessage "user" "look" "" [] "" "" [[("type", AStr "text"); ("text", AStr "look")];
    [("type", AStr "image_url"); ("image_url", AObj [("url", AStr "https://x/y.png")])]].

Lemma convert_roundtrip_witness : FromEino (ToEino (Some stored_user)) = Some stored_user.
Proof.
  apply (proj1 convert_roundtrip stored_user). constructor; [|constructor; [|constructor]].
  - exists "text", "look", None. reflexivity.
  - exists "image_url", "", (Some "https://x/y.png"). reflexivity.
Defined.
