(* ===== verification/ChatModel.v ===== *)
(** * The server's chat model

    [internal/server/chatmodel.go]: the chat model that the server had before
    the bridge, with conversions of its own, written here statement by
    statement, and how it compares with the bridge of
    [internal/adk/llm/bridge.go]. *)
From stdpp Require Import base tactics list gmap strings.
From Stdlib Require Import ZArith Lia.
From S2P Require Import Prelude GoStrings Types GoJSONText Think Breaker Retry Vendor Hooks OpenAI Stream Client Bridge.

(** ** Conversions *)

(** [img["url"] = ...], twice when the image has both an address and data. *)
Definition image_map (img : image) : list (string * any) :=
  let m := [] in
  let m := match img_URL img with Some u => put_field "url" (AStr u) m | None => m end in
  match img_Base64 img with
  | Some b => put_field "url" (AStr ("data:" +:+ img_MIME img +:+ ";base64," +:+ b)) m
  | None => m
  end.

Definition part_map (p : input_part) : list (string * any) :=
  let item := [("type", AStr (part_Type p))] in
  let item := if part_Text p <>s "" then put_field "text" (AStr (part_Text p)) item else item in
  match part_Image p with Some img => put_field "image_url" (AObj (image_map img)) item | None => item end.

(** [append] in a loop. *)
Definition collect {A B} (f : A -> B) (l : list A) : list B := foldl (fun out x => out ++ [f x]) [] l.

Definition ToProtoMsg (m : eino_message) : Message :=
  let multi := if (0 <? length (e_Multi m))%nat then collect part_map (e_Multi m) else [] in
  let calls := collect (fun tc => mkToolCall (ID tc) (Type_ tc) (Name tc) (Arguments tc)) (e_ToolCalls m) in
  mkMessage (e_Role m) (e_Content m) (e_Reasoning m) calls (e_ToolCallID m) (e_Name m) multi.

Definition ToProtoMsgs (msgs : list eino_message) : list Message := collect ToProtoMsg msgs.

Definition ToProtoTools (tools : list tool_info) : list ToolSchema :=
  collect (fun t => mkToolSchema (ti_Name t) (ti_Desc t) (default default_params (ti_Params t))) tools.

Definition FromProtoResp (resp : Response) : eino_message :=
  mkEino Assistant (rContent resp) (rReasoning resp)
    (collect (fun tc => mkToolCall (ID tc) (Type_ tc) (Name tc) (Arguments tc)) (rToolCalls resp)) "" "" [].

(** ** The goroutine of [Stream] *)

(** [toolCalls[i].Function.Arguments = ...] for the first call with the id of
    the chunk's call; a chunk without one is dereferenced as soon as there is
    a call to compare it with: [None] is that panic. *)
Fixpoint assign_arguments (tc : option ToolCall) (toolCalls : list ToolCall) : option (list ToolCall) :=
  match toolCalls with
  | [] => Some []
  | t :: rest =>
      match tc with
      | None => None
      | Some c => if ID t =s ID c then Some (mkToolCall (ID t) (Type_ t) (Name t) (Arguments c) :: rest)
                  else cons t <$> assign_arguments tc rest
      end
  end.

(** How the goroutine ends: it closes the pipe, or its panic ends the process. *)
Inductive cm_end := CMClosed | CMPanic.

Definition chatmodel_message (fullContent fullReasoning : string) (toolCalls : list ToolCall) : eino_message :=
  mkEino Assistant fullContent fullReasoning toolCalls "" "" [].

(** The loop over the channel with its three variables; [chat] is the answer of
    the recovery call. It goes on after [Done] and sends once more at the end,
    which an interruption never reaches. *)
Fixpoint chatmodel_loop (chat : gerror + Response) (fullContent fullReasoning : string) (toolCalls : list ToolCall)
    (ch : list Chunk) : list item * cm_end :=
  match ch with
  | [] => ([inr (chatmodel_message fullContent fullReasoning toolCalls)], CMClosed)
  | chunk :: ch' =>
      match cType chunk with
      | ChunkText => chatmodel_loop chat (fullContent +:+ cText chunk) fullReasoning toolCalls ch'
      | ChunkReasoning => chatmodel_loop chat fullContent (fullReasoning +:+ cText chunk) toolCalls ch'
      | ChunkToolCallStart =>
          match cToolCall chunk with
          | Some tc => chatmodel_loop chat fullContent fullReasoning (toolCalls ++ [mkToolCall (ID tc) "function" (Name tc) ""]) ch'
          | None => chatmodel_loop chat fullContent fullReasoning toolCalls ch'
          end
      | ChunkToolCall =>
          match assign_arguments (cToolCall chunk) toolCalls with
          | Some toolCalls' => chatmodel_loop chat fullContent fullReasoning toolCalls' ch'
          | None => ([], CMPanic)
          end
      | ChunkDone =>
          let '(out, fin) := chatmodel_loop chat "" "" [] ch' in
          (inr (chatmodel_message fullContent fullReasoning toolCalls) :: out, fin)
      | ChunkError =>
          (match cError chunk with
           | Some e =>
               if as_StreamInterrupted e
               then inr recovering_message :: match chat with inl e' => [inl e'] | inr resp => [inr (FromProtoResp resp)] end
               else []
           | None => []
           end, CMClosed)
      | _ => chatmodel_loop chat fullContent fullReasoning toolCalls ch'
      end
  end.

Definition chatmodel_stream (chat : gerror + Response) (ch : list Chunk) : list item * cm_end := chatmodel_loop chat "" "" [] ch.

(** ** The model *)

Section ChatModel.
(** The protocol: what its two calls return. *)
Context (proto_Chat : Request -> gerror + Response) (proto_Stream : Request -> gerror + list Chunk).

Record ChatModel := mkChatModel { cm_tools : list tool_info; cm_model : string }.
Definition NewChatModel (model : string) : ChatModel := mkChatModel [] model.
Definition WithTools (m : ChatModel) (tools : list tool_info) : ChatModel := mkChatModel tools (cm_model m).

(** The request, built in the same way by both calls. *)
Definition chat_request (m : ChatModel) (input : list eino_message) (op : options) : Request :=
  mkRequest "" (ToProtoMsgs input) (ToProtoTools (cm_tools m)) (op_Temperature op) (op_TopP op) (op_MaxTokens op) (op_Stop op).

Definition chatmodel_Generate (m : ChatModel) (input : list eino_message) (op : options) : gerror + eino_message :=
  match proto_Chat (chat_request m input op) with
  | inl e => inl e
  | inr resp =>
      if (rContent resp =s "") && (length (rToolCalls resp) =? 0)%nat then inl (EMsg "API返回空消息")
      else inr (FromProtoResp resp)
  end.

Definition chatmodel_Stream (m : ChatModel) (input : list eino_message) (op : options) : gerror + list item * cm_end :=
  let req := chat_request m input op in
  match proto_Stream req with
  | inl e => inl e
  | inr chunks => inr (chatmodel_stream (proto_Chat req) chunks)
  end.

(** [Bridge.generate] and [Bridge.stream] on the same protocol. *)
Definition bridge_Stream (tools : list tool_info) (input : list eino_message) (op : options) : gerror + list item :=
  let req := buildRequest input tools op in
  match proto_Stream req with
  | inl e => inl e
  | inr chunks => inr (bridge_stream (proto_Chat req) (BChunk <$> chunks))
  end.
End ChatModel.

(** * Properties *)

Lemma collect_fmap {A B} (f : A -> B) l : collect f l = f <$> l.
Proof.
  unfold collect. cut (forall acc, foldl (fun out x => out ++ [f x]) acc l = acc ++ (f <$> l)); [intros H; by rewrite H|].
  induction l as [|x l IH]; intros acc; [by rewrite app_nil_r|]. cbn [foldl]. rewrite IH, fmap_cons. by rewrite <- app_assoc.
Qed.

Lemma part_map_item p : part_map p = part_item p.
Proof.
  destruct p as [typ text [[[u|] [b|] mime]|]]; unfold part_map, part_item, image_map; cbn; destruct (text =s ""); done.
Qed.

Lemma ToProtoMsg_bridge m : ToProtoMsg m = toProtoMsg m.
Proof.
  unfold ToProtoMsg, toProtoMsg. rewrite !collect_fmap. f_equal.
  - apply map_id_Forall, Forall_forall. by intros [] _.
  - case_match; [|done]. apply list_fmap_ext. intros. apply part_map_item.
Qed.

Lemma chat_request_bridge m input op : chat_request m input op = buildRequest input (cm_tools m) op.
Proof.
  unfold chat_request, buildRequest, ToProtoMsgs, ToProtoTools, toProtoMsgs, toProtoTools. rewrite !collect_fmap. f_equal.
  apply list_fmap_ext. intros. apply ToProtoMsg_bridge.
Qed.

Lemma FromProtoResp_bridge r : FromProtoResp r = fromProtoResp r.
Proof.
  unfold FromProtoResp, fromProtoResp. rewrite collect_fmap. f_equal. apply map_id_Forall, Forall_forall. by intros [] _.
Qed.

(** Every tool-call chunk carries its call. *)
Definition carries_call (c : Chunk) : Prop := cType c = ChunkToolCall -> cToolCall c <> None.

Lemma assign_fill tc l : assign_arguments (Some tc) l = Some (fill_args (ID tc) (Arguments tc) l).
Proof. induction l as [|t l IH]; [done|]. cbn [assign_arguments fill_args]. rewrite IH. by destruct (ID t =s ID tc). Qed.

(** On such chunks the two aggregations agree. *)
Lemma chatmodel_loop_steps chat a l rest : Forall not_last l -> Forall carries_call l ->
  chatmodel_loop chat (fullContent a) (fullReasoning a) (aggCalls a) (l ++ rest)
  = let b := foldl agg_step a l in chatmodel_loop chat (fullContent b) (fullReasoning b) (aggCalls b) rest.
Proof.
  intros H. revert a. induction H as [|c l [H1 H2] Hl IH]; intros a Hc; [done|]. apply Forall_cons in Hc as [Hc Hcl].
  specialize (IH (agg_step a c) Hcl). cbv zeta in IH |- *. cbn [app chatmodel_loop foldl]. rewrite <- IH. unfold agg_step, carries_call in *.
  destruct (cType c) eqn:E; try done; destruct (cToolCall c) as [tc|] eqn:Et; try done; [|by destruct (Hc eq_refl)].
  by rewrite assign_fill.
Qed.

Lemma starts_cons c l : starts_of (c :: l)
  = match cType c, cToolCall c with ChunkToolCallStart, Some t => [mkToolCall (ID t) "function" (Name t) ""] | _, _ => [] end ++ starts_of l.
Proof. unfold starts_of, started_calls, of_type. simpl. destruct (cType c); simpl; try done. by destruct (cToolCall c). Qed.

(** Arguments are filled into the calls that were started. *)
Lemma agg_calls_length a l : length (aggCalls (foldl agg_step a l)) = length (aggCalls a) + length (starts_of l).
Proof.
  revert a. induction l as [|c l IH]; intros a; [cbn; lia|]. cbn [foldl]. rewrite IH, starts_cons, length_app. unfold agg_step.
  destruct (cType c), (cToolCall c); cbn [aggCalls length]; rewrite ?length_app; cbn [length]; try lia.
  rewrite <- (length_fmap ID (fill_args _ _ _)), fill_args_ids, length_fmap. lia.
Qed.

Lemma aggregated_no_start l : (aggCalls (foldl agg_step agg_init l) = [] <-> starts_of l = []).
Proof. rewrite <- !length_zero_iff_nil, agg_calls_length. done. Qed.

(** What the bridge makes of an error chunk that is no interruption. *)
Definition bridge_error (c : Chunk) : gerror := default (EMsg "stream failed without an error") (cError c).

Section Compare.
Context (chat : gerror + Response).
Abbreviation cm := (chatmodel_stream chat).
Abbreviation br := (bridge_stream chat).
Abbreviation chunks := (fmap (M:=list) BChunk).

(** Both goroutines on a stream whose chunks up to the first that ends it (or
    lacks its call) are [l]: every way the stream can go on. *)
Lemma streams_compare l last rest : Forall not_last l -> Forall carries_call l ->
  cm l = (br (chunks l), CMClosed)
  /\ (cType last = ChunkDone ->
       cm (l ++ last :: rest) = (br (chunks (l ++ last :: rest)) ++ (cm rest).1, (cm rest).2))
  /\ (cType last = ChunkError ->
       if from_option as_StreamInterrupted false (cError last)
       then cm (l ++ last :: rest)
            = (br (chunks (l ++ last :: rest)) ++ match chat with inl e => [inl e] | inr _ => [] end, CMClosed)
       else cm (l ++ last :: rest) = ([], CMClosed) /\ br (chunks (l ++ last :: rest)) = [inl (bridge_error last)])
  /\ (cType last = ChunkToolCall -> cToolCall last = None ->
       br (chunks (l ++ last :: rest)) = br (chunks (l ++ rest))
       /\ cm (l ++ last :: rest) = if starts_of l is [] then cm (l ++ rest) else ([], CMPanic))
  /\ (forall evs, br (chunks l ++ BCancel :: evs) = []).
Proof.
  intros Hl Hc. unfold chatmodel_stream, bridge_stream.
  assert (forall rest, chatmodel_loop chat "" "" [] (l ++ rest)
    = let b := foldl agg_step agg_init l in chatmodel_loop chat (fullContent b) (fullReasoning b) (aggCalls b) rest) as Hcm
    by (intros r; by apply (chatmodel_loop_steps chat agg_init l r)).
  assert (forall r, bridge_loop chat agg_init (chunks l ++ r) = bridge_loop chat (foldl agg_step agg_init l) r) as Hbr
    by (intros r; by apply bridge_loop_steps).
  split_and!.
  - specialize (Hcm []). specialize (Hbr []). rewrite app_nil_r in Hcm, Hbr. by rewrite Hcm, Hbr.
  - intros Ed. rewrite fmap_app, Hbr, Hcm, fmap_cons. cbn [chatmodel_loop bridge_loop]. rewrite Ed.
    by destruct (chatmodel_loop chat "" "" [] rest).
  - intros Ee. rewrite fmap_app, Hbr, Hcm, fmap_cons. cbn [chatmodel_loop bridge_loop]. rewrite Ee. unfold bridge_error.
    destruct (cError last) as [e|]; cbn [from_option default]; [|done]. destruct (as_StreamInterrupted e); [|done].
    destruct chat as [e'|resp]; [done|]. by rewrite FromProtoResp_bridge.
  - intros Et En. rewrite !fmap_app, !Hbr, !Hcm, fmap_cons. cbn [chatmodel_loop bridge_loop]. rewrite Et, En.
    unfold agg_step at 1. rewrite Et, En. split; [done|]. pose proof (aggregated_no_start l) as Hs.
    destruct (aggCalls (foldl agg_step agg_init l)) as [|t ts] eqn:Ea; cbn [assign_arguments].
    + by rewrite (proj1 Hs eq_refl).
    + destruct (starts_of l); [|done]. discriminate (proj2 Hs eq_refl).
  - intros evs. by rewrite Hbr.
Qed.
End Compare.

(** C27: the server's chat model compared with the bridge on the same protocol,
    every difference included. Both send the same request, and a reply gives
    the same message or the same error, up to the text that refuses an empty
    one. On a stream, let [l] be the chunks before the first that is a [Done],
    an error or a tool call without its call. If the stream ends with [l] both
    send the same message. At a [Done] the bridge stops and the chat model goes
    on with the rest of the channel. At an interruption both announce a
    recovery and send its answer, but when that call fails only the chat model
    passes the error on. Any other error reaches only the bridge's reader, also
    an error chunk without an error. A tool call without its call is skipped by
    the bridge and ends the process in the chat model, unless no call has
    started. And only the bridge stops when the context is cancelled. *)
Theorem chatmodel_bridge m input op proto_Chat proto_Stream :
  let req := buildRequest input (cm_tools m) op in
  let cm := chatmodel_stream (proto_Chat req) in let br := bridge_stream (proto_Chat req) in
  chat_request m input op = req
  /\ match generate proto_Chat input (cm_tools m) op with
     | inr msg => chatmodel_Generate proto_Chat m input op = inr msg
     | inl e => exists e', chatmodel_Generate proto_Chat m input op = inl e' /\ (e' = e \/ e = EMsg "API returned empty message")
     end
  /\ chatmodel_Stream proto_Chat proto_Stream m input op = match proto_Stream req with inl e => inl e | inr chunks => inr (cm chunks) end
  /\ bridge_Stream proto_Chat proto_Stream (cm_tools m) input op
     = match proto_Stream req with inl e => inl e | inr chunks => inr (br (BChunk <$> chunks)) end
  /\ forall l last rest, Forall not_last l -> Forall carries_call l ->
       cm l = (br (BChunk <$> l), CMClosed)
       /\ (cType last = ChunkDone -> cm (l ++ last :: rest) = (br (BChunk <$> l ++ last :: rest) ++ (cm rest).1, (cm rest).2))
       /\ (cType last = ChunkError ->
            if from_option as_StreamInterrupted false (cError last)
            then cm (l ++ last :: rest)
                 = (br (BChunk <$> l ++ last :: rest) ++ match proto_Chat req with inl e => [inl e] | inr _ => [] end, CMClosed)
            else cm (l ++ last :: rest) = ([], CMClosed) /\ br (BChunk <$> l ++ last :: rest) = [inl (bridge_error last)])
       /\ (cType last = ChunkToolCall -> cToolCall last = None ->
            br (BChunk <$> l ++ last :: rest) = br (BChunk <$> l ++ rest)
            /\ cm (l ++ last :: rest) = if starts_of l is [] then cm (l ++ rest) else ([], CMPanic))
       /\ (forall evs, br ((BChunk <$> l) ++ BCancel :: evs) = []).
Proof.
  intros req cm br. split; [apply chat_request_bridge|]. split; [|split; [|split; [done|]]].
  - unfold generate, chatmodel_Generate. rewrite chat_request_bridge. destruct (proto_Chat _) as [e|r]; [eauto|].
    destruct (_ && _); [eauto|]. by rewrite FromProtoResp_bridge.
  - unfold chatmodel_Stream. by rewrite chat_request_bridge.
  - intros l last rest Hl Hc. by apply streams_compare.
Qed.

(** A recovery call that fails after an interruption: the chat model passes the
    error on, the bridge does not. *)
Example recovery_failure chat_err : let e := EStreamInterrupted true EConnReset in
  chatmodel_stream (inl chat_err) [error_chunk e] = ([inr recovering_message; inl chat_err], CMClosed)
  /\ bridge_stream (inl chat_err) [BChunk (error_chunk e)] = [inr recovering_message].
Proof. done. Qed.

(** [ChatModel.Stream] sends an empty message after the complete one, and ends
    without a word after an ordinary error. *)
Example chatmodel_extra_message :
  chatmodel_stream (inl EEOF) [text_chunk "Hi"; done_chunk]
  = ([inr (mkEino Assistant "Hi" "" [] "" "" []); inr (mkEino Assistant "" "" [] "" "" [])], CMClosed).
Proof. reflexivity. Qed.
Example chatmodel_swallows_error :
  chatmodel_stream (inl EEOF) [text_chunk "Hi"; error_chunk (EMsg "boom")] = ([], CMClosed).
Proof. reflexivity. Qed.

Lemma chatmodel_bridge_witness :
  chatmodel_Stream (fun _ => inl EEOF) (fun _ => inr ([text_chunk "Hi"] ++ done_chunk :: [])) (NewChatModel "m") [] (mkOptions None [] None None)
  = inr ([inr (mkEino Assistant "Hi" "" [] "" "" []); inr (mkEino Assistant "" "" [] "" "" [])], CMClosed).
Proof.
  destruct (chatmodel_bridge (NewChatModel "m") [] (mkOptions None [] None None) (fun _ => inl EEOF)
    (fun _ => inr ([text_chunk "Hi"] ++ done_chunk :: []))) as (_ & _ & Hs & _ & H).
  destruct (H [text_chunk "Hi"] done_chunk []) as (_ & H2 & _).
  - repeat constructor; discriminate.
  - repeat constructor; discriminate.
  - rewrite Hs, (H2 eq_refl). reflexivity.
Defined.
