(* ===== verification/Wire.v ===== *)
(** * The completion API on the wire

    [protocol/openai.go]: the structs into which [processSSEData] and
    [chatDirect] decode what a vendor sends, down to the bytes. With the
    encoding of events and bodies by a server, the stream reader is run on the
    bytes of a response. *)
From stdpp Require Import base tactics list gmap strings pretty.
From Stdlib Require Import ZArith NArith Lia.
From S2P Require Import Prelude GoStrings GoRegex Types GoJSONText GoJSONStruct Think Breaker Retry Vendor Telemetry RateLimit Hooks OpenAI Stream Client Chat Bridge.

(** ** Decoding *)

(** [Function struct { Name; Arguments }] *)
Definition function_fields : list (string * into (string * string)) :=
  [("name", field_into fst (fun s p => (s, p.2)) str_into);
   ("arguments", field_into snd (fun s p => (p.1, s)) str_into)].

Definition zero_sse_call : sse_call := mkSseCall 0 "" "" "" "".
Definition sse_call_fields : list (string * into sse_call) :=
  [("index", field_into sc_Index (fun z c => mkSseCall z (sc_ID c) (sc_Type c) (sc_Name c) (sc_Arguments c)) int_into);
   ("id", field_into sc_ID (fun s c => mkSseCall (sc_Index c) s (sc_Type c) (sc_Name c) (sc_Arguments c)) str_into);
   ("type", field_into sc_Type (fun s c => mkSseCall (sc_Index c) (sc_ID c) s (sc_Name c) (sc_Arguments c)) str_into);
   ("function", field_into (fun c => (sc_Name c, sc_Arguments c))
                  (fun p c => mkSseCall (sc_Index c) (sc_ID c) (sc_Type c) p.1 p.2) (struct_into function_fields))].

Definition zero_delta : sse_delta := mkDelta "" "" "" [].
Definition delta_fields : list (string * into sse_delta) :=
  [("content", field_into d_Content (fun s d => mkDelta s (d_ReasoningContent d) (d_Reasoning d) (d_ToolCalls d)) str_into);
   ("reasoning_content", field_into d_ReasoningContent (fun s d => mkDelta (d_Content d) s (d_Reasoning d) (d_ToolCalls d)) str_into);
   ("reasoning", field_into d_Reasoning (fun s d => mkDelta (d_Content d) (d_ReasoningContent d) s (d_ToolCalls d)) str_into);
   ("tool_calls", field_into d_ToolCalls (fun l d => mkDelta (d_Content d) (d_ReasoningContent d) (d_Reasoning d) l)
                    (slice_into zero_sse_call (struct_into sse_call_fields)))].

Definition zero_choice : sse_choice := mkChoice zero_delta None.
Definition choice_fields : list (string * into sse_choice) :=
  [("delta", field_into c_Delta (fun d c => mkChoice d (c_FinishReason c)) (struct_into delta_fields));
   ("finish_reason", field_into c_FinishReason (fun f c => mkChoice (c_Delta c) f) (ptr_into "" str_into))].

Definition usage_fields : list (string * into Usage) :=
  [("prompt_tokens", field_into PromptTokens (fun z u => mkUsage z (CompletionTokens u) (TotalTokens u)) int_into);
   ("completion_tokens", field_into CompletionTokens (fun z u => mkUsage (PromptTokens u) z (TotalTokens u)) int_into);
   ("total_tokens", field_into TotalTokens (fun z u => mkUsage (PromptTokens u) (CompletionTokens u) z) int_into)].

(** [Error *struct{ Message string }]: the field has no tag, its name is
    matched without regard to case. *)
Definition error_fields : list (string * into string) := [("message", field_into (fun s => s) (fun s _ => s) str_into)].

Definition zero_sse : sse := mkSSE [] None None.
Definition sse_fields : list (string * into sse) :=
  [("choices", field_into s_Choices (fun l e => mkSSE l (s_Usage e) (s_Error e)) (slice_into zero_choice (struct_into choice_fields)));
   ("usage", field_into s_Usage (fun u e => mkSSE (s_Choices e) u (s_Error e)) (ptr_into (mkUsage 0 0 0) (struct_into usage_fields)));
   ("error", field_into s_Error (fun m e => mkSSE (s_Choices e) (s_Usage e) m) (ptr_into "" (struct_into error_fields)))].

(** [json.Unmarshal([]byte(data), &sr)] *)
Definition decode_event : string -> option sse := UnmarshalInto zero_sse (struct_into sse_fields).

(** ** The answer of a call without streaming *)

Definition zero_tool_call : ToolCall := mkToolCall "" "" "" "".
Definition tool_call_fields : list (string * into ToolCall) :=
  [("id", field_into ID (fun s t => mkToolCall s (Type_ t) (Name t) (Arguments t)) str_into);
   ("type", field_into Type_ (fun s t => mkToolCall (ID t) s (Name t) (Arguments t)) str_into);
   ("function", field_into (fun t => (Name t, Arguments t)) (fun p t => mkToolCall (ID t) (Type_ t) p.1 p.2) (struct_into function_fields))].

Definition zero_chat_message : chat_message := mkChatMsg "" "" [].
Definition chat_message_fields : list (string * into chat_message) :=
  [("content", field_into cm_Content (fun s m => mkChatMsg s (cm_Reasoning m) (cm_ToolCalls m)) str_into);
   ("reasoning_content", field_into cm_Reasoning (fun s m => mkChatMsg (cm_Content m) s (cm_ToolCalls m)) str_into);
   ("tool_calls", field_into cm_ToolCalls (fun l m => mkChatMsg (cm_Content m) (cm_Reasoning m) l)
                    (slice_into zero_tool_call (struct_into tool_call_fields)))].

(** A choice: its message, and the finish reason, which is decoded and never
    read. *)
Definition chat_choice_fields : list (string * into (chat_message * string)) :=
  [("message", field_into fst (fun m c => (m, c.2)) (struct_into chat_message_fields));
   ("finish_reason", field_into snd (fun s c => (c.1, s)) str_into)].

Record chat_result := mkChatResult { res_Choices : list (chat_message * string); res_Usage : option Usage; res_Error : option string }.
Definition chat_fields : list (string * into chat_result) :=
  [("choices", field_into res_Choices (fun l r => mkChatResult l (res_Usage r) (res_Error r))
                 (slice_into (zero_chat_message, "") (struct_into chat_choice_fields)));
   ("usage", field_into res_Usage (fun u r => mkChatResult (res_Choices r) u (res_Error r)) (ptr_into (mkUsage 0 0 0) (struct_into usage_fields)));
   ("error", field_into res_Error (fun m r => mkChatResult (res_Choices r) (res_Usage r) m) (ptr_into "" (struct_into error_fields)))].

(** [json.Unmarshal(bodyData, &result)]; [err] is the decoder's error. *)
Definition decode_reply (err : string -> gerror) (body : string) : gerror + chat_reply :=
  match UnmarshalInto (mkChatResult [] None None) (struct_into chat_fields) body with
  | Some r => inr (mkChatReply (res_Choices r).*1 (res_Usage r) (res_Error r))
  | None => inl (err body)
  end.

(** What a server may send: field names in any case, unknown fields, [null],
    and a field that is repeated. *)
Definition q (s : string) : string :=
  String.string_of_list_ascii (map (fun c => if Ascii.eqb c "'" then byte 34 else c) (String.list_ascii_of_string s)).

Example decode_event_ex :
  decode_event (q "{'id':1e999,'choices':[{'index':0,'delta':{'Content':'hi','tool_calls':null},'finish_reason':null}],'usage':null}")
    = Some (mkSSE [mkChoice (mkDelta "hi" "" "" []) None] None None)
  /\ decode_event (q "{'choices':[{'delta':{'tool_calls':[{'index':1,'function':{'name':'ls'}}]},'delta':{'tool_calls':[{'function':{'arguments':'{}'}}]}}]}")
    = Some (mkSSE [mkChoice (mkDelta "" "" "" [mkSseCall 1 "" "" "ls" "{}"]) None] None None)
  /\ decode_event (q "{'choices':[{'delta':{'content':7}}]}") = None
  /\ decode_event (q "{'choices':[{'delta':{'tool_calls':[{'index':1.5}]}}]}") = None
  /\ decode_event (q "{'error':{'message':'quota'}}") = Some (mkSSE [] None (Some "quota")).
Proof. vm_compute. repeat split; reflexivity. Qed.

(** ** What a server sends *)

Definition function_tree (name args : string) : any := AObj [("name", AStr name); ("arguments", AStr args)].
Definition sse_call_tree (c : sse_call) : any :=
  AObj [("index", int_tree (sc_Index c)); ("id", AStr (sc_ID c)); ("type", AStr (sc_Type c));
        ("function", function_tree (sc_Name c) (sc_Arguments c))].
Definition delta_tree (d : sse_delta) : any :=
  AObj [("content", AStr (d_Content d)); ("reasoning_content", AStr (d_ReasoningContent d)); ("reasoning", AStr (d_Reasoning d));
        ("tool_calls", AArr (map sse_call_tree (d_ToolCalls d)))].
Definition choice_tree (c : sse_choice) : any :=
  AObj [("delta", delta_tree (c_Delta c));
        ("finish_reason", match c_FinishReason c with Some f => AStr f | None => ANull end)].
Definition usage_tree (u : Usage) : any :=
  AObj [("prompt_tokens", int_tree (PromptTokens u)); ("completion_tokens", int_tree (CompletionTokens u));
        ("total_tokens", int_tree (TotalTokens u))].
Definition event_tree (e : sse) : any :=
  AObj [("choices", AArr (map choice_tree (s_Choices e)));
        ("usage", match s_Usage e with Some u => usage_tree u | None => ANull end);
        ("error", match s_Error e with Some m => AObj [("message", AStr m)] | None => ANull end)].

(** Events that can be sent: valid UTF-8 and 64-bit integers. *)
Definition call_sendable (c : sse_call) : bool :=
  in_int64 (sc_Index c) && utf8b (sc_ID c) && utf8b (sc_Type c) && utf8b (sc_Name c) && utf8b (sc_Arguments c).
Definition delta_sendable (d : sse_delta) : bool :=
  utf8b (d_Content d) && utf8b (d_ReasoningContent d) && utf8b (d_Reasoning d) && forallb call_sendable (d_ToolCalls d).
Definition choice_sendable (c : sse_choice) : bool :=
  delta_sendable (c_Delta c) && match c_FinishReason c with Some f => utf8b f | None => true end.
Definition usage_sendable (u : Usage) : bool :=
  in_int64 (PromptTokens u) && in_int64 (CompletionTokens u) && in_int64 (TotalTokens u).
Definition sendable (e : sse) : bool :=
  forallb choice_sendable (s_Choices e) && match s_Usage e with Some u => usage_sendable u | None => true end
  && match s_Error e with Some m => utf8b m | None => true end.

(** *** Decoding undoes encoding *)

Lemma sse_call_decode c : call_sendable c = true -> struct_into sse_call_fields zero_sse_call (sse_call_tree c) = Some c.
Proof.
  destruct c as [i id typ nm args]. unfold call_sendable. cbn [sc_Index sc_ID sc_Type sc_Name sc_Arguments]. intros H. bool_prop.
  transitivity (foldl (set_field sse_call_fields) ((fun z => mkSseCall z "" "" "" "") <$> int_into 0%Z (int_tree i))
    [("id", AStr id); ("type", AStr typ); ("function", function_tree nm args)]); [reflexivity|].
  by rewrite (proj2 (int_tree_fine i ltac:(done))).
Qed.

Lemma delta_decode d : delta_sendable d = true -> struct_into delta_fields zero_delta (delta_tree d) = Some d.
Proof.
  destruct d as [c rc r tcs]. unfold delta_sendable. cbn [d_Content d_ReasoningContent d_Reasoning d_ToolCalls]. intros H. bool_prop.
  transitivity ((fun l => mkDelta c rc r l) <$> elems_into zero_sse_call (struct_into sse_call_fields) [] (map sse_call_tree tcs)); [reflexivity|].
  rewrite elems_fresh, mapM_map_id; [done|]. match goal with H : forallb _ _ = true |- _ => apply forallb_Forall in H; eapply Forall_impl; [exact H|] end.
  apply sse_call_decode.
Qed.

Lemma choice_decode c : choice_sendable c = true -> struct_into choice_fields zero_choice (choice_tree c) = Some c.
Proof.
  destruct c as [d f]. unfold choice_sendable. cbn [c_Delta c_FinishReason]. intros [Hd Hf]%andb_prop.
  transitivity (foldl (set_field choice_fields) ((fun d => mkChoice d None) <$> struct_into delta_fields zero_delta (delta_tree d))
    [("finish_reason", match f with Some f => AStr f | None => ANull end)]); [reflexivity|].
  rewrite delta_decode by done. by destruct f.
Qed.

Lemma usage_decode u : usage_sendable u = true -> struct_into usage_fields (mkUsage 0 0 0) (usage_tree u) = Some u.
Proof.
  destruct u as [p c t]. unfold usage_sendable. cbn [PromptTokens CompletionTokens TotalTokens]. intros H. bool_prop.
  transitivity (match int_into 0%Z (int_tree p), int_into 0%Z (int_tree c), int_into 0%Z (int_tree t) with
                | Some p, Some c, Some t => Some (mkUsage p c t) | _, _, _ => None end).
  - change (struct_into usage_fields (mkUsage 0 0 0) (usage_tree (mkUsage p c t))) with
      (foldl (set_field usage_fields) ((fun z => mkUsage z 0 0) <$> int_into 0%Z (int_tree p))
        [("completion_tokens", int_tree c); ("total_tokens", int_tree t)]).
    destruct (int_into 0%Z (int_tree p)) as [p'|]; [|done]. cbn [fmap option_fmap option_map foldl].
    change (set_field usage_fields (Some (mkUsage p' 0 0)) ("completion_tokens", int_tree c))
      with ((fun z => mkUsage p' z 0) <$> int_into 0%Z (int_tree c)).
    destruct (int_into 0%Z (int_tree c)) as [c'|]; [|done]. cbn [fmap option_fmap option_map].
    change (set_field usage_fields (Some (mkUsage p' c' 0)) ("total_tokens", int_tree t))
      with ((fun z => mkUsage p' c' z) <$> int_into 0%Z (int_tree t)). by destruct (int_into 0%Z (int_tree t)).
  - by rewrite !(fun z H => proj2 (int_tree_fine z H)).
Qed.

Lemma event_decode e : sendable e = true -> struct_into sse_fields zero_sse (event_tree e) = Some e.
Proof.
  destruct e as [cs u m]. unfold sendable. cbn [s_Choices s_Usage s_Error]. intros H. bool_prop.
  transitivity (foldl (set_field sse_fields)
    ((fun l => mkSSE l None None) <$> elems_into zero_choice (struct_into choice_fields) [] (map choice_tree cs))
    [("usage", match u with Some u => usage_tree u | None => ANull end);
     ("error", match m with Some m => AObj [("message", AStr m)] | None => ANull end)]); [reflexivity|].
  rewrite elems_fresh, mapM_map_id.
  2:{ match goal with H : forallb _ _ = true |- _ => apply forallb_Forall in H; eapply Forall_impl; [exact H|] end. apply choice_decode. }
  cbn [fmap option_fmap option_map foldl]. destruct u as [u|]; [|by destruct m].
  change (set_field sse_fields (Some (mkSSE cs None None)) ("usage", usage_tree u))
    with ((fun u => mkSSE cs u None) <$> (Some <$> struct_into usage_fields (mkUsage 0 0 0) (usage_tree u))).
  rewrite usage_decode by done. by destruct m.
Qed.

Lemma sse_call_fine c : call_sendable c = true -> fine Some 2 (sse_call_tree c).
Proof. unfold call_sendable. intros H. bool_prop. fine_fields; auto with fine. fine_fields; auto with fine. Qed.

Lemma delta_fine d : delta_sendable d = true -> fine Some 4 (delta_tree d).
Proof.
  unfold delta_sendable. intros H. bool_prop. fine_fields; auto with fine. apply fine_arr, List.Forall_map.
  match goal with H : forallb _ _ = true |- _ => apply forallb_Forall in H; eapply Forall_impl; [exact H|] end. apply sse_call_fine.
Qed.

Lemma event_fine e : sendable e = true -> fine Some 7 (event_tree e).
Proof.
  unfold sendable. intros H. bool_prop. fine_fields.
  - apply fine_arr, List.Forall_map. match goal with H : forallb _ _ = true |- _ => apply forallb_Forall in H; eapply Forall_impl; [exact H|] end.
    intros c [Hd Hf]%andb_prop. fine_fields; [by apply delta_fine|]. destruct (c_FinishReason c); auto with fine.
  - destruct (s_Usage e) as [u|]; [|auto with fine]. unfold usage_sendable in *. bool_prop. apply (fine_more _ 1); [lia|]. fine_fields; auto with fine.
  - destruct (s_Error e) as [m|]; [|auto with fine]. apply (fine_more _ 1); [lia|]. fine_fields; auto with fine.
Qed.

(** The text of an event is decoded to the event. *)
Lemma decode_event_text e : sendable e = true -> decode_event (text (event_tree e)) = Some e.
Proof.
  intros H. destruct (event_fine e H) as [H1 H2]. unfold decode_event, UnmarshalInto.
  rewrite Parse_text by (done || (unfold maxNestingDepth; lia)). by apply event_decode.
Qed.

(** ** The body of a streamed response *)

Definition data_line (e : sse) : string := "data: " +:+ text (event_tree e).
Definition stream_lines (evs : list sse) : list string :=
  concat ((fun e => [data_line e; ""]) <$> evs) ++ ["data: [DONE]"; ""].
Definition stream_body (evs : list sse) : string := Join (stream_lines evs ++ [""]) nl.

Definition short_line (e : sse) : Prop := (Z.of_nat (String.length (data_line e)) < maxLine)%Z.

(** *** Its lines *)

Lemma drop_cr_absent s : absent CR s = true -> drop_cr s = s.
Proof.
  intros H. unfold drop_cr. destruct (HasSuffix s (String CR "")) eqn:E; [|done]. exfalso.
  unfold HasSuffix in E. apply andb_prop in E as [_ E%String.eqb_eq]. set (n := _ - _) in E.
  rewrite <- (str_take_drop n s), E, absent_app in H. cbn [absent] in H. by rewrite Ascii.eqb_refl, andb_false_r in H.
Qed.

Lemma tokens_terminated l : tokens_of (l ++ [""]) = drop_cr <$> l.
Proof. induction l as [|x l IH]; [done|]. cbn [app tokens_of]. destruct (l ++ [""]) eqn:E; [by destruct l|]. by rewrite <- E, IH in *. Qed.

Lemma cut_long_none l : Forall (fun s => (Z.of_nat (String.length s) < maxLine)%Z) l -> cut_long l = (l, false).
Proof. induction 1 as [|x l Hx Hl IH]; [done|]. cbn [cut_long]. rewrite (proj2 (Z.leb_gt _ _) Hx), IH. done. Qed.

Lemma scan_lines l err :
  Forall (fun s => absent LF s = true /\ absent CR s = true /\ (Z.of_nat (String.length s) < maxLine)%Z) l ->
  scan_body (Join (l ++ [""]) nl) err = (l, err).
Proof.
  intros H. unfold scan_body, SplitLines. rewrite (split_Join LF).
  - rewrite cut_long_none; [|apply Forall_app; split; [eapply Forall_impl; [exact H|]; naive_solver|by repeat constructor]].
    rewrite tokens_terminated. f_equal. induction H as [|x l (_ & Hx & _) Hl IH]; [done|]. rewrite fmap_cons, drop_cr_absent, IH; done.
  - by destruct l.
  - apply Forall_app. split; [eapply Forall_impl; [exact H|]; naive_solver|by repeat constructor].
Qed.

Lemma event_text e : exists t, text (event_tree e) = "{" +:+ t +:+ "}".
Proof. eexists. unfold event_tree. cbn [text]. rewrite obj_text_fields. reflexivity. Qed.

Lemma data_line_clean e : sendable e = true -> absent LF (data_line e) = true /\ absent CR (data_line e) = true.
Proof.
  intros H%event_fine. destruct H as [H _]. apply text_control in H.
  assert (no_control (data_line e) = true) as Hc by (unfold data_line; by rewrite no_control_app, H).
  split; (apply no_control_absent; [vm_compute; lia|done]).
Qed.

(** A line with an event is a data line with its text. *)
Lemma classify_data e : classify (data_line e) = LData (text (event_tree e)).
Proof.
  destruct (event_text e) as [t Ht]. unfold data_line, classify. rewrite Ht.
  assert (forall s, TrimSpace ("data: {" +:+ s +:+ "}") = "data: {" +:+ s +:+ "}") as H1.
  { intros s. rewrite <- str_app_assoc. apply trim_fixed; [reflexivity|]. apply space_suffix_none. vm_compute. reflexivity. }
  assert (forall s, TrimSpace (" {" +:+ s +:+ "}") = "{" +:+ s +:+ "}") as H2.
  { intros s. unfold TrimSpace. change (" {" +:+ s +:+ "}") with (String " " ("{" +:+ s +:+ "}")).
    cbn [String.length trim_space_left]. change (space_prefix (String " " ("{" +:+ s +:+ "}"))) with (Some 1). cbn [str_drop].
    change (str_drop 0 ("{" +:+ s +:+ "}")) with ("{" +:+ s +:+ "}").
    apply (trim_fixed ("{" +:+ s +:+ "}")); [reflexivity|]. rewrite <- str_app_assoc. apply space_suffix_none. vm_compute. reflexivity. }
  change ("data: " +:+ "{" +:+ t +:+ "}") with ("data: {" +:+ t +:+ "}"). rewrite H1.
  change (("data: {" +:+ t +:+ "}" =s "") || negb (HasPrefix ("data: {" +:+ t +:+ "}") "data:")) with false. cbv iota.
  change (TrimPrefix ("data: {" +:+ t +:+ "}") "data:") with (" {" +:+ t +:+ "}"). by rewrite H2.
Qed.

Lemma event_lines_events es : Forall (fun e => sendable e = true) es ->
  events_of decode_event (concat ((fun e => [data_line e; ""]) <$> es)) = es.
Proof.
  induction 1 as [|e es He Hes IH]; [done|]. rewrite fmap_cons. cbn [concat app]. unfold events_of in *. cbn [omap list_omap].
  rewrite classify_data, decode_event_text by done. change (classify "") with LSkip. cbv iota. by rewrite IH.
Qed.

Lemma event_lines_not_done es : Forall not_done_line (concat ((fun e => [data_line e; ""]) <$> es)).
Proof.
  induction es as [|e es IH]; [constructor|]. rewrite fmap_cons. cbn [concat app]. constructor; [unfold not_done_line; by rewrite classify_data|].
  constructor; [unfold not_done_line; vm_compute; discriminate|done].
Qed.

Lemma stream_body_lines evs err : Forall (fun e => sendable e = true /\ short_line e) evs ->
  scan_body (stream_body evs) err = (stream_lines evs, err).
Proof.
  intros H. apply scan_lines. unfold stream_lines. apply Forall_app. split; [|repeat constructor; vm_compute; congruence].
  induction H as [|e evs [He Hl] Hevs IH]; [constructor|]. rewrite fmap_cons. cbn [concat app].
  destruct (data_line_clean e He). constructor; [done|]. constructor; [by repeat constructor|done].
Qed.

(** The reader on the bytes of a completion, whatever follows it. *)
Lemma wire_completes ch o be s0 es fin rest :
  (forall n, accepts ch n = true) -> vendor o <> VendorMiniMax -> seen [] s0 ->
  Forall (fun e => sendable e = true /\ short_line e) (es ++ fin :: rest) ->
  Forall (fun e => goes_on e = true) es -> finishes fin = true ->
  exists s', readStream ch o decode_event (stream_body (es ++ fin :: rest)) be s0 = (s', true, None)
    /\ complete (es ++ [fin]) (rs_out s').
Proof.
  intros Hacc Hv H0 Hs Hg Hf. pose proof (stream_body_lines _ (be_readErr be) Hs) as Hb.
  unfold stream_lines in Hb. rewrite fmap_app, fmap_cons, concat_app in Hb. cbn [concat app] in Hb. rewrite <- !app_assoc in Hb. cbn [app] in Hb.
  apply Forall_app in Hs as [Hs [[Hfin _] _]%Forall_cons].
  assert (Forall (fun e => sendable e = true) es) as Hes by (eapply Forall_impl; [exact Hs|]; naive_solver).
  destruct (readStream_completes ch o decode_event _ be s0 _ _ _ _ (text (event_tree fin)) fin Hacc Hv H0 Hb) as (s' & E & Hc).
  - apply event_lines_not_done.
  - by rewrite event_lines_events.
  - apply classify_data.
  - by apply decode_event_text.
  - done.
  - exists s'. by rewrite event_lines_events in Hc.
Qed.

(** ** A whole call *)

Lemma stream_success_out {W} (hooks : list (LifecycleHook W)) env req (c : @cworld W) : cw_out (stream_success hooks env req c) = cw_out c.
Proof. unfold stream_success, recordStreamCall. cbn. destruct (RunAfterProcessHooks _ _ _ _) as [w [e|r]]; done. Qed.

(** A streaming call whose first request is answered with such a body delivers
    the completion and nothing else. *)
Lemma stream_call_completes {W} (hooks : list (LifecycleHook W)) url_Parse env req (c : @cworld W) hw ev resp es fin rest :
  unlimited (cw_o c) -> (0 <= maxReconnect (cw_o c))%Z -> cw_out c = [] ->
  (forall n, accepts (sv_chan env) n = true) -> vendor (cw_o c) <> VendorMiniMax -> sv_decode env = decode_event ->
  SendWithRetry (sv_notify env) (cw_hw c) (vendor (cw_o c)) (sv_send env 0) = (hw, ev, inr resp) ->
  Body resp = stream_body (es ++ fin :: rest) ->
  Forall (fun e => sendable e = true /\ short_line e) (es ++ fin :: rest) ->
  Forall (fun e => goes_on e = true) es -> finishes fin = true ->
  complete (es ++ [fin]) (cw_out (streamWithFailover hooks url_Parse env req c)).
Proof.
  intros Hu Hmr Ho Hacc Hv Hd Hsend Hb Hs Hg Hf. rewrite streamWithFailover_unlimited by done. cbv zeta.
  pose proof (maxRetries_pos (failover (cw_o c))) as Hp.
  destruct (Z.to_nat (maxReconnect (cw_o c) + maxRetries (failover (cw_o c)) + 1 + 1)) as [|n] eqn:En; [lia|].
  cbn [stream_loop Nat.ltb Nat.leb]. unfold stream_request. cbn [log_sent cw_hw cw_o]. rewrite Hsend.
  unfold read_attempt. rewrite Hd, Hb. cbn [set_hw cw_o cw_out log_sent].
  match goal with |- context [readStream _ _ _ _ ?be ?s0] =>
    destruct (wire_completes (sv_chan env) (cw_o c) be s0 es fin rest Hacc Hv) as (s' & E & Hc); try done end.
  { split; simpl; rewrite ?Ho; done. }
  rewrite E. cbn [fst snd]. by rewrite stream_success_out.
Qed.

(** ** From the wire to the agent *)

(** The protocol of tool calls: the first fragment of an index carries the id
    and the name, the later ones neither. *)
Definition well_announced (F : list sse_call) (f : sse_call) : bool :=
  if bool_decide (sc_Index f ∈ indices F) then (sc_ID f =s "") && (sc_Name f =s "")
  else (sc_ID f <>s "") && (sc_Name f <>s "").
Fixpoint announced (F l : list sse_call) : bool :=
  match l with [] => true | f :: l' => well_announced F f && announced (F ++ [f]) l' end.

Lemma announced_app F a b : announced F (a ++ b) = announced F a && announced (F ++ a) b.
Proof.
  revert F. induction a as [|f a IH]; intros F; cbn [app announced]; [by rewrite app_nil_r|].
  by rewrite IH, <- andb_assoc, <- app_assoc.
Qed.

Lemma assemble_first F f : sc_Index f ∉ indices F -> sc_ID f <> "" -> sc_Name f <> "" ->
  assemble (sc_Index f) (F ++ [f]) = mkToolCall (sc_ID f) "" (sc_Name f) (sc_Arguments f).
Proof.
  intros Hi Hd Hn. rewrite assemble_snoc_same, (assemble_absent _ F Hi). unfold merge_call. cbn [ID Name Arguments Type_].
  by rewrite (proj2 (String.eqb_neq (sc_ID f) "")), (proj2 (String.eqb_neq (sc_Name f) "")).
Qed.

Definition start_of (t : ToolCall) : ToolCall := mkToolCall (ID t) "" (Name t) "".

(** Every call is announced once, in order, with its id and name. *)
Lemma announced_openings F : announced [] F = true ->
  openings [] F = (fun i => start_of (assemble i F)) <$> indices F
  /\ Forall (fun i => ID (assemble i F) <> "" /\ Name (assemble i F) <> "") (indices F).
Proof.
  induction F as [|f F IH] using rev_ind; [done|]. rewrite announced_app, app_nil_l. cbn [announced]. rewrite andb_true_r.
  intros [HF Hf]%andb_prop. destruct (IH HF) as [Ho Hn]. clear IH HF. rewrite openings_app, app_nil_l, Ho, indices_app_one.
  cbn [openings]. rewrite app_nil_r. unfold well_announced in Hf. unfold add_new, opening. case_bool_decide as Hi.
  - assert (forall i, start_of (assemble i (F ++ [f])) = start_of (assemble i F)) as Hs.
    { intros i. destruct (decide (sc_Index f = i)) as [<-|Hne]; [|by rewrite assemble_snoc_other]. bool_prop.
      rewrite assemble_snoc_same. unfold merge_call, start_of. cbn [ID Name]. by rewrite H, H0. }
    assert (Name (assemble (sc_Index f) F) =s "" = false) as ->.
    { rewrite Forall_forall in Hn. apply String.eqb_neq. by apply Hn. }
    cbn [andb]. rewrite app_nil_r. split; [apply list_fmap_ext; intros; by rewrite Hs|].
    eapply Forall_impl; [exact Hn|]. intros i.
    assert (ID (assemble i (F ++ [f])) = ID (assemble i F)) as -> by exact (f_equal ID (Hs i)).
    by assert (Name (assemble i (F ++ [f])) = Name (assemble i F)) as -> by exact (f_equal Name (Hs i)).
  - bool_prop. rewrite (assemble_absent _ F Hi), (assemble_first F f) by done. cbn [ID Name].
    rewrite (proj2 (String.eqb_neq (sc_Name f) "")) by done. cbn [String.eqb negb andb].
    assert (forall i, i ∈ indices F -> assemble i (F ++ [f]) = assemble i F) as Hs
      by (intros i Hj; apply assemble_snoc_other; intros E; by rewrite E in Hi).
    rewrite fmap_app. split.
    + f_equal; [apply list_fmap_ext; intros k i Hj%list_elem_of_lookup_2; by rewrite Hs|]. cbn. unfold start_of. by rewrite (assemble_first F f).
    + apply Forall_app. split; [apply Forall_forall; intros i Hj; rewrite Hs by done; rewrite Forall_forall in Hn; auto|].
      apply Forall_singleton. by rewrite (assemble_first F f).
Qed.

Lemma complete_body es out body calls : complete es out -> out = body ++ (tool_call_chunk <$> calls) ++ [done_chunk] ->
  text_of ChunkText body = contents es /\ text_of ChunkReasoning body = reasonings es.
Proof.
  intros [Ht Hr _ _ _ _] ->. rewrite !text_of_app in Ht, Hr.
  assert (forall ty, ty <> ChunkToolCall -> text_of ty (tool_call_chunk <$> calls) = "") as Hc.
  { intros ty Hty. clear Ht Hr. unfold text_of, of_type. induction calls as [|t l IH]; [done|]. rewrite fmap_cons. cbn [List.filter].
    by destruct (bool_decide_reflect (cType (tool_call_chunk t) = ty)) as [E|_]; [by subst|]. }
  rewrite !Hc in Ht, Hr by done. by rewrite !str_app_nil_r in Ht, Hr.
Qed.

(** The message that the events of a completion stand for. *)
Definition completion_message (es : list sse) : eino_message :=
  mkEino Assistant (contents es) (reasonings es)
    ((fun i => let t := assemble i (fragments es) in mkToolCall (ID t) "function" (Name t) (Arguments t)) <$> indices (fragments es)) "" "" [].

Definition call_ids (F : list sse_call) : list string := (fun i => ID (assemble i F)) <$> indices F.

(** The bridge on the chunks of a completion. *)
Lemma bridge_complete chat es out : complete es out ->
  announced [] (fragments es) = true -> NoDup (call_ids (fragments es)) ->
  bridge_stream chat (BChunk <$> out) = [inr (completion_message es)].
Proof.
  intros Hc Han Hnd. destruct (announced_openings _ Han) as [Ho Hn]. set (F := fragments es) in *.
  pose proof Hc as [_ _ Hcalls _ _ (body & Hout & Hpl & Hst)]. fold F in Hcalls, Hst.
  assert (calls_of out = (fun i => assemble i F) <$> indices F) as Hcs.
  { rewrite Hcalls. apply list_fmap_ext. intros k i Hi%list_elem_of_lookup_2. rewrite Forall_forall in Hn. unfold finish_id.
    by rewrite (proj2 (String.eqb_neq _ _) (proj1 (Hn i Hi))). }
  rewrite Hcs in Hout. destruct (complete_body _ _ _ _ Hc Hout) as [Ht Hr]. rewrite Hout, bridge_assembled.
  - unfold completion_message. fold F. rewrite Ht, Hr. do 3 f_equal. by rewrite <- list_fmap_compose.
  - done.
  - unfold starts_of. by rewrite Hst, Ho, <- !list_fmap_compose.
  - by rewrite <- list_fmap_compose.
Qed.

(** C2: what a server puts on the wire reaches the agent: the bytes of a
    stream of events, read line by line, decoded, delivered as chunks and
    aggregated by the bridge, become exactly one message with the joined text
    and reasoning and every tool call with its id, name and whole arguments,
    whatever events follow the one with the finish reason. The events are valid
    UTF-8 with 64-bit integers, their lines below the scanner's limit, and the
    calls announce distinct ids and names in their first fragments. *)
Theorem wire_to_agent ch o be chat es fin rest :
  (forall n, accepts ch n = true) -> vendor o <> VendorMiniMax ->
  Forall (fun e => sendable e = true /\ short_line e) (es ++ fin :: rest) ->
  Forall (fun e => goes_on e = true) es -> finishes fin = true ->
  announced [] (fragments (es ++ [fin])) = true -> NoDup (call_ids (fragments (es ++ [fin]))) ->
  exists s', readStream ch o decode_event (stream_body (es ++ fin :: rest)) be rs_init = (s', true, None)
    /\ bridge_stream chat (BChunk <$> rs_out s') = [inr (completion_message (es ++ [fin]))].
Proof.
  intros Hacc Hv Hs Hg Hf Han Hnd. destruct (wire_completes ch o be rs_init es fin rest Hacc Hv seen_init Hs Hg Hf) as (s' & E & Hc).
  exists s'. split; [done|]. by apply bridge_complete.
Qed.

Definition sample_events : list sse :=
  [mkSSE [mkChoice (mkDelta "Hel" "" "think" []) None] None None;
   mkSSE [mkChoice (mkDelta "lo" "" "" [mkSseCall 0 "c1" "function" "ls" "{"]) None] (Some (mkUsage 1 2 3)) None].
Definition sample_finish : sse := mkSSE [mkChoice (mkDelta "" "" "" [mkSseCall 0 "" "" "" "}"]) (Some "tool_calls")] None None.

Lemma wire_to_agent_witness :
  exists s', readStream all_accepted demo_client decode_event (stream_body (sample_events ++ sample_finish :: [mkSSE [] (Some (mkUsage 5 6 11)) None])) no_faults rs_init = (s', true, None)
    /\ bridge_stream (inl EEOF) (BChunk <$> rs_out s')
       = [inr (mkEino Assistant "Hello" "think" [mkToolCall "c1" "function" "ls" "{}"] "" "" [])].
Proof.
  apply (wire_to_agent all_accepted demo_client no_faults (inl EEOF) sample_events sample_finish [mkSSE [] (Some (mkUsage 5 6 11)) None]).
  - intros n. reflexivity.
  - discriminate.
  - repeat (constructor; [split; vm_compute; reflexivity|]). constructor.
  - repeat (constructor; [reflexivity|]). constructor.
  - reflexivity.
  - vm_compute. reflexivity.
  - apply (bool_decide_unpack _). vm_compute. exact I.
Defined.
