(* ===== verification/EnvConfig.v ===== *)
(** * Configuration and start-up

    [internal/config/config.go]: the [.env] file, the environment and the
    settings read from it; the provider registry of [protocol/types.go];
    [internal/adk/llm/resolution.go], which makes a client from the settings;
    and the checks with which [main.go] starts. The environment is a map from
    names to values; [os.ReadFile], [time.ParseDuration], [url.Parse] and
    [net.ParseIP] are arguments. *)
From stdpp Require Import base tactics list gmap strings.
From Stdlib Require Import ZArith Lia.
From S2P Require Import Prelude GoStrings Types Breaker Vendor Telemetry RateLimit Bridge OpenAI.

(** ** The environment *)

Definition environ : Type := gmap string string.

Definition Getenv (env : environ) (key : string) : string := default "" (env !! key).

Definition NUL : string := String (byte 0) "".

(** [os.Setenv] refuses an empty name, a [=] or a NUL in the name and a NUL in
    the value; the callers drop the error. *)
Definition Setenv (env : environ) (key value : string) : environ :=
  if (key =s "") || Contains key "=" || Contains key NUL || Contains value NUL then env else <[key := value]> env.

Definition GetEnv (env : environ) (key fallback : string) : string :=
  if Getenv env key <>s "" then Getenv env key else fallback.

Definition GetEnvInt (env : environ) (key : string) (fallback : Z) : Z :=
  let v := Getenv env key in
  if v =s "" then fallback else match Atoi v with None => fallback | Some n => n end.

(** A nil slice and an empty one are read alike by the callers. *)
Definition SplitEnv (env : environ) (key : string) : list string :=
  let v := Getenv env key in
  if v =s "" then [] else filter (fun p => p <> "") (map TrimSpace (split_byte "," v)).

(** The body of the loop over the lines of the file. *)
Definition load_line (env : environ) (line : string) : environ :=
  let line := TrimSpace line in
  if (line =s "") || HasPrefix line "#" then env
  else let '(k, v, ok) := Cut line "=" in
       if ok : bool then Setenv env (TrimSpace k) (TrimSpace v) else env.

(** [None] is a file that cannot be read. *)
Definition LoadEnvFile (data : option string) (env : environ) : environ :=
  match data with
  | None => env
  | Some data => foldl load_line env (split_byte LF (ReplaceAll data (String CR "") ""))
  end.

(** ** The settings *)

Record OpenAIConfig := mkOpenAIConfig {
  oc_APIKey : string; oc_APIKeys : list string; oc_BaseURL : string; oc_Model : string; oc_FallbackModel : string;
  oc_FallbackBaseURL : string; oc_StreamTimeout : Z; oc_RateLimitRPM : Z; oc_RateLimitTPM : Z }.
Record ServerConfig := mkServerConfig { sc_Port : string; sc_WorkspaceRoot : string }.
Record AgentConfig := mkAgentConfig {
  ac_MaxStep : Z; ac_ContextWarnPct : Z; ac_ContextCompressPct : Z; ac_MaxReconnect : Z }.
Record RawConfig := mkRawConfig { rc_RawLog : bool; rc_RawLogDir : string; rc_UsageDB : bool; rc_UsageDBPath : string }.
Record AppConfig := mkAppConfig {
  c_OpenAI : OpenAIConfig; c_Server : ServerConfig; c_Agent : AgentConfig; c_Raw : RawConfig;
  c_AllowPrivateURLs : bool }.

(** [strings.EqualFold(s, "true")]: no rune outside ASCII folds to one of these
    letters. *)
Definition fold_true (s : string) : bool :=
  String.string_of_list_ascii (map lower_byte (String.list_ascii_of_string s)) =s "true".

Section Load.
Context (ParseDuration : string -> option Z).

(** The settings in an environment; [Load] reads them after the [.env] file. *)
Definition from_env (env : environ) : AppConfig :=
  let streamTimeout := match ParseDuration (GetEnv env "STREAM_TIMEOUT" "120s") with
                       | Some d => d
                       | None => (120 * Second)%Z
                       end in
  mkAppConfig
    (mkOpenAIConfig (Getenv env "OPENAI_API_KEY") (SplitEnv env "OPENAI_API_KEYS") (Getenv env "OPENAI_BASE_URL")
       (GetEnv env "OPENAI_MODEL" "deepseek-v4-flash") (GetEnv env "OPENAI_FALLBACK_MODEL" "")
       (GetEnv env "OPENAI_FALLBACK_BASE_URL" "") streamTimeout
       (GetEnvInt env "RATE_LIMIT_RPM" 0) (GetEnvInt env "RATE_LIMIT_TPM" 0))
    (mkServerConfig (GetEnv env "PORT" "8080") (GetEnv env "WORKSPACE_ROOT" "."))
    (mkAgentConfig (GetEnvInt env "AGENT_MAX_STEP" 12) (GetEnvInt env "CONTEXT_WARN_PCT" 40)
       (GetEnvInt env "CONTEXT_COMPRESS_PCT" 50) (GetEnvInt env "MAX_RECONNECT_ATTEMPTS" 3))
    (mkRawConfig (GetEnv env "RAW_LOG" "" =s "1") (GetEnv env "RAW_LOG_DIR" "logs/raw")
       (GetEnv env "USAGE_DB" "" =s "1") (GetEnv env "USAGE_DB_PATH" "logs/raw/usage.db"))
    (fold_true (GetEnv env "ALLOW_PRIVATE_URLS" "false")).

(** The environment is left as the file made it. *)
Definition Load (dotenv : option string) (env : environ) : environ * AppConfig :=
  let env := LoadEnvFile dotenv env in (env, from_env env).
End Load.

(** ** The registry of providers *)

Section Registry.
Context {P E : Type}.

Definition Factory : Type := Config -> E + P.

Definition Register (registry : gmap string Factory) (kind : string) (f : Factory) : gmap string Factory :=
  <[kind := f]> registry.

Inductive new_error := UnknownKind (kind : string) | FactoryError (e : E).

Definition New (registry : gmap string Factory) (kind : string) (cfg : Config) : new_error + P :=
  match registry !! kind with
  | None => inl (UnknownKind kind)
  | Some f => match f cfg with inl e => inl (FactoryError e) | inr p => inr p end
  end.
End Registry.
Arguments Factory P E : clear implicits.
Arguments new_error E : clear implicits.

(** ** Resolving a model *)

Record ModelRef := mkModelRef { ref_Model : string; ref_BaseURL : string; ref_Provider : string }.

Record Bridge := mkBridge { br_proto : OpenAI; br_model : string; br_tools : list tool_info }.
Definition NewBridge (proto : OpenAI) (m : string) : Bridge := mkBridge proto m [].
Definition WithTools (b : Bridge) (tools : list tool_info) : Bridge := mkBridge (br_proto b) (br_model b) tools.

Inductive resolve_error :=
| KeyAndURLRequired                              (* API key and base URL are required *)
| BaseURLInvalid (r : url_reason)                (* base URL validation failed *)
| CreateProtocol (e : new_error url_reason)      (* create protocol failed *).

Section Resolve.
Context (url_Parse : string -> option URL) (ParseIP : string -> option IP).
(** The package registry, filled by the [init] of [openai.go]; [zero] is the
    zero time, [w] the health manager's world. *)
Context (allowPrivate : bool) (zero : Z).

(** The factory registered for openai, and the world it leaves. *)
Definition openai_factory (w : hworld) : Factory (hworld * OpenAI) url_reason :=
  fun cfg => match NewOpenAI url_Parse ParseIP allowPrivate zero w cfg with
             | (_, inl e) => inl e
             | (w', inr o) => inr (w', o)
             end.

Definition registry (w : hworld) : gmap string (Factory (hworld * OpenAI) url_reason) :=
  Register ∅ "openai" (openai_factory w).

Definition protocol_config (key base m : string) (cfg : AppConfig) : Config :=
  mkConfig key (oc_APIKeys (c_OpenAI cfg)) base m (oc_StreamTimeout (c_OpenAI cfg)) (oc_RateLimitRPM (c_OpenAI cfg))
    (oc_RateLimitTPM (c_OpenAI cfg)) (ac_ContextWarnPct (c_Agent cfg)) (ac_ContextCompressPct (c_Agent cfg))
    (ac_MaxReconnect (c_Agent cfg)) "" (oc_FallbackModel (c_OpenAI cfg)) (oc_FallbackBaseURL (c_OpenAI cfg)).

Definition Resolve (w : hworld) (ref : ModelRef) (cfg : AppConfig) : hworld * (resolve_error + Bridge) :=
  let apiKey := oc_APIKey (c_OpenAI cfg) in
  let baseURL := if ref_BaseURL ref =s "" then oc_BaseURL (c_OpenAI cfg) else ref_BaseURL ref in
  let model := if ref_Model ref =s "" then oc_Model (c_OpenAI cfg) else ref_Model ref in
  if (apiKey =s "") || (baseURL =s "") then (w, inl KeyAndURLRequired)
  else match ValidateBaseURL url_Parse ParseIP allowPrivate baseURL with
       | Some r => (w, inl (BaseURLInvalid r))
       | None =>
           match New (registry w) "openai" (protocol_config apiKey baseURL model cfg) with
           | inl e => (w, inl (CreateProtocol e))
           | inr (w', proto) => (w', inr (NewBridge proto model))
           end
       end.

Definition NewBridgeFromConfig (w : hworld) (cfg : AppConfig) : hworld * (resolve_error + Bridge) :=
  Resolve w (mkModelRef (oc_Model (c_OpenAI cfg)) (oc_BaseURL (c_OpenAI cfg)) "") cfg.
End Resolve.

(** ** The start of [main] *)

(** How [main] ends early, or what it goes on with. *)
Inductive boot_fatal := NoKeyOrURL | BadBaseURL (r : url_reason) | NoBridge (e : resolve_error).

Section Main.
Context (ParseDuration : string -> option Z) (url_Parse : string -> option URL) (ParseIP : string -> option IP) (zero : Z).

(** The warnings are the proxy variable refused, if one is. *)
Definition main_start (dotenv : option string) (env : environ) (w : hworld)
  : hworld * (boot_fatal + AppConfig * option (string * string) * Bridge) :=
  let '(env, cfg) := Load ParseDuration dotenv env in
  let allowPrivate := Getenv env "ALLOW_PRIVATE_URLS" =s "true" in
  let apiKey := oc_APIKey (c_OpenAI cfg) in
  let baseURL := oc_BaseURL (c_OpenAI cfg) in
  if (apiKey =s "") || (baseURL =s "") then (w, inl NoKeyOrURL)
  else match ValidateBaseURL url_Parse ParseIP allowPrivate baseURL with
       | Some r => (w, inl (BadBaseURL r))
       | None =>
           let warn := ValidateProxyEnv (Getenv env) in
           match NewBridgeFromConfig url_Parse ParseIP allowPrivate zero w cfg with
           | (w', inl e) => (w', inl (NoBridge e))
           | (w', inr br) => (w', inr (cfg, warn, br))
           end
       end.
End Main.

(** ** Settings *)

Lemma Atoi_range s n : Atoi s = Some n -> (- 2 ^ 63 <= n < 2 ^ 63)%Z.
Proof.
  unfold Atoi. destruct (match s with EmptyString => _ | _ => _ end) as [neg body]. destruct (body =s ""); [done|].
  destruct (parse_digits 0 body) as [m|]; [|done]. case_match eqn:E; [|done]. intros [= <-]. apply andb_prop in E as [H1 H2].
  apply Z.leb_le in H1. apply Z.ltb_lt in H2. lia.
Qed.

Lemma GetEnvInt_range env k d : (- 2 ^ 63 <= d < 2 ^ 63)%Z -> (- 2 ^ 63 <= GetEnvInt env k d < 2 ^ 63)%Z.
Proof. intros Hd. unfold GetEnvInt. case_match; [done|]. destruct (Atoi _) eqn:E; [by apply Atoi_range in E|done]. Qed.

Lemma GetEnv_nonempty env k d : d <> "" -> GetEnv env k d <> "".
Proof. intros Hd. unfold GetEnv. case_match; bool_prop; done. Qed.

(** ** The [.env] file *)

(** What can be written in the file and read back: a trimmed, non-empty name
    without [=], not a comment; a trimmed value; no line break or NUL. *)
Definition env_line (p : string * string) : string := p.1 +:+ "=" +:+ p.2.
Definition env_ok (p : string * string) : bool :=
  negb (p.1 =s "") && (TrimSpace p.1 =s p.1) && (TrimSpace p.2 =s p.2) && (TrimSpace (env_line p) =s env_line p)
  && negb (HasPrefix p.1 "#") && negb (Contains p.1 "=") && negb (Contains p.1 NUL) && negb (Contains p.2 NUL)
  && negb (Contains (env_line p) nl) && negb (Contains (env_line p) (String CR "")).

Lemma absent_Index c s : absent c s = true -> Index s (String c "") = None.
Proof.
  induction s as [|d s IH]; [done|]. cbn [absent Index HasPrefix]. intros [H1 H2]%andb_prop. apply negb_true_iff in H1.
  by rewrite H1, (IH H2).
Qed.

Lemma ReplaceAll_absent c s new : absent c s = true -> ReplaceAll s (String c "") new = s.
Proof.
  intros H. unfold ReplaceAll. cbn [String.eqb]. destruct (String.length s) eqn:E; cbn [replace_go]; [done|].
  by rewrite (absent_Index c s H).
Qed.

Lemma load_line_ok env p : env_ok p = true -> load_line env (env_line p) = <[p.1 := p.2]> env.
Proof.
  destruct p as [k v]. unfold env_ok, load_line, env_line. cbn [fst snd]. intros H. bool_prop.
  match goal with H : TrimSpace (_ +:+ _) = _ |- _ => rewrite H end.
  rewrite (proj2 (String.eqb_neq _ _)) by (by destruct k). cbn [orb].
  assert (HasPrefix (k +:+ "=" +:+ v) "#" = false) as ->.
  { destruct k as [|c k]; [done|]. by cbn [String.append HasPrefix] in *; destruct (Ascii.eqb "#" c), k. }
  rewrite Cut_at_absent by (by apply Contains_absent).
  do 2 match goal with H : TrimSpace _ = _ |- _ => rewrite H; clear H end. unfold Setenv.
  rewrite (proj2 (String.eqb_neq k "")) by done. repeat match goal with H : Contains _ _ = false |- _ => rewrite H; clear H end.
  done.
Qed.

(** a file that lists variables one per line is read back: each variable
    gets its value, in order, so that the last line for a name wins, and
    whatever the environment held under other names stays. *)
Theorem env_roundtrip l env : l <> [] -> forallb env_ok l = true ->
  LoadEnvFile (Some (Join (map env_line l) nl)) env = foldl (fun e p => <[p.1 := p.2]> e) env l.
Proof.
  intros Hne H. rewrite forallb_Forall in H.
  assert (Forall (fun p => absent LF (env_line p) = true /\ absent CR (env_line p) = true) l) as [H1 H2]%Forall_and.
  { eapply Forall_impl; [exact H|]. intros p Hp. unfold env_ok in Hp. bool_prop. split; by apply Contains_absent. }
  cbn [LoadEnvFile]. rewrite ReplaceAll_absent by (apply absent_Join; [done|by apply List.Forall_map]).
  unfold nl. rewrite split_Join by first [by destruct l | by apply List.Forall_map]. clear H1 H2 Hne.
  revert env. induction H as [|p l Hp Hl IH]; intros env; [done|]. cbn [map foldl]. rewrite load_line_ok by done. apply IH.
Qed.

Lemma env_roundtrip_witness :
  LoadEnvFile (Some (Join (map env_line [("A", "1"); ("B", "x y"); ("A", "")]) nl)) {["C" := "z"]}
  = <["A" := ""]> (<["B" := "x y"]> (<["A" := "1"]> {["C" := "z"]})).
Proof.
  apply (env_roundtrip [("A", "1"); ("B", "x y"); ("A", "")]); [discriminate|vm_compute; reflexivity].
Defined.

(** whatever the environment and the file hold, malformed numbers and
    durations included, the settings that are read are usable: the integers
    fit 64 bits, the names and directories with a default are not empty, and
    the keys of the rotation are not empty and carry no surrounding space. *)
Theorem Load_wf ParseDuration dotenv env : let cfg := (Load ParseDuration dotenv env).2 in
  let in64 z := (- 2 ^ 63 <= z < 2 ^ 63)%Z in
  in64 (oc_RateLimitRPM (c_OpenAI cfg)) /\ in64 (oc_RateLimitTPM (c_OpenAI cfg)) /\ in64 (ac_MaxStep (c_Agent cfg))
  /\ in64 (ac_ContextWarnPct (c_Agent cfg)) /\ in64 (ac_ContextCompressPct (c_Agent cfg))
  /\ in64 (ac_MaxReconnect (c_Agent cfg))
  /\ oc_Model (c_OpenAI cfg) <> "" /\ sc_Port (c_Server cfg) <> "" /\ sc_WorkspaceRoot (c_Server cfg) <> ""
  /\ rc_RawLogDir (c_Raw cfg) <> "" /\ rc_UsageDBPath (c_Raw cfg) <> ""
  /\ Forall (fun k => k <> "" /\ TrimSpace k = k) (oc_APIKeys (c_OpenAI cfg)).
Proof.
  cbn. repeat match goal with |- _ /\ _ => split end;
    try (apply GetEnvInt_range; lia); try (by apply GetEnv_nonempty). unfold SplitEnv. case_match; [constructor|].
  apply Forall_forall. intros k [Hk Hin]%list_elem_of_filter. split; [done|].
  apply list_elem_of_In, in_map_iff in Hin as (x & <- & _). apply TrimSpace_idem.
Qed.

(** ** Resolving and starting *)

Section Outcomes.
Context (url_Parse : string -> option URL) (ParseIP : string -> option IP) (allowPrivate : bool) (zero : Z).
Abbreviation Validate := (ValidateBaseURL url_Parse ParseIP allowPrivate).
Abbreviation Resolve := (Resolve url_Parse ParseIP allowPrivate zero).

Lemma NewOpenAI_ok w cfg :
  let base := TrimRight (cfg_BaseURL cfg) "/" in
  match Validate base with
  | Some r => NewOpenAI url_Parse ParseIP allowPrivate zero w cfg = (w, inl r)
  | None => exists w' o, NewOpenAI url_Parse ParseIP allowPrivate zero w cfg = (w', inr o)
      /\ baseURL o = base +:+ "/chat/completions" /\ model o = cfg_Model cfg
      /\ currentKey o = match cfg_APIKeys cfg with [] => cfg_APIKey cfg | k :: _ => k end
  end.
Proof.
  cbv zeta. unfold NewOpenAI. destruct (Validate _) as [r|]; [done|]. eexists _, _. split; [reflexivity|].
  split; [done|]. split; [done|]. unfold currentKey. cbn [keyIndex apiKeys apiKey].
  destruct (cfg_APIKeys cfg) as [|k ks]; [|done]. cbn [length Nat.eqb andb]. by destruct (cfg_APIKey cfg).
Qed.

Lemma Resolve_cases w ref cfg :
  let base := if ref_BaseURL ref =s "" then oc_BaseURL (c_OpenAI cfg) else ref_BaseURL ref in
  let m := if ref_Model ref =s "" then oc_Model (c_OpenAI cfg) else ref_Model ref in
  let key := oc_APIKey (c_OpenAI cfg) in
  if (key =s "") || (base =s "") then Resolve w ref cfg = (w, inl KeyAndURLRequired)
  else match Validate base, Validate (TrimRight base "/") with
       | Some r, _ => Resolve w ref cfg = (w, inl (BaseURLInvalid r))
       | None, Some r => Resolve w ref cfg = (w, inl (CreateProtocol (FactoryError r)))
       | None, None => exists w' br, Resolve w ref cfg = (w', inr br) /\ br_model br = m /\ br_tools br = []
           /\ baseURL (br_proto br) = TrimRight base "/" +:+ "/chat/completions" /\ model (br_proto br) = m
           /\ currentKey (br_proto br) = match oc_APIKeys (c_OpenAI cfg) with [] => key | k :: _ => k end
       end.
Proof.
  cbv zeta. unfold EnvConfig.Resolve. set (base := if ref_BaseURL ref =s "" then _ else _).
  set (m := if ref_Model ref =s "" then _ else _). set (key := oc_APIKey _).
  destruct ((key =s "") || (base =s "")); [done|]. destruct (Validate base) as [r|]; [done|].
  pose proof (NewOpenAI_ok w (protocol_config key base m cfg)) as H. cbv zeta in H.
  cbn [cfg_BaseURL cfg_Model cfg_APIKeys cfg_APIKey protocol_config] in H.
  unfold New, registry, Register. rewrite lookup_insert_eq. unfold openai_factory.
  destruct (Validate (TrimRight base "/")) as [r|]; [by rewrite H|]. destruct H as (w' & o & -> & H1 & H2 & H3).
  eexists _, _. split; [reflexivity|]. by cbn [br_model br_tools br_proto NewBridge].
Qed.
(** C36: resolving a model fails in exactly three ways, each leaving the world
    as it was: no key or no base URL (the reference's, else the configured
    one), a base URL that is refused as given, or one that is refused once its
    trailing slashes are gone. Otherwise the bridge carries the chosen model,
    its client posts to the completions endpoint under the base URL and starts
    with the first key of the rotation, or the single key when there is none. *)
Theorem Resolve_outcome w ref cfg :
  let base := if ref_BaseURL ref =s "" then oc_BaseURL (c_OpenAI cfg) else ref_BaseURL ref in
  let m := if ref_Model ref =s "" then oc_Model (c_OpenAI cfg) else ref_Model ref in
  let key := oc_APIKey (c_OpenAI cfg) in
  if (key =s "") || (base =s "") then Resolve w ref cfg = (w, inl KeyAndURLRequired)
  else match Validate base, Validate (TrimRight base "/") with
       | Some r, _ => Resolve w ref cfg = (w, inl (BaseURLInvalid r))
       | None, Some r => Resolve w ref cfg = (w, inl (CreateProtocol (FactoryError r)))
       | None, None => exists w' br, Resolve w ref cfg = (w', inr br) /\ br_model br = m /\ br_tools br = []
           /\ baseURL (br_proto br) = TrimRight base "/" +:+ "/chat/completions" /\ model (br_proto br) = m
           /\ currentKey (br_proto br) = match oc_APIKeys (c_OpenAI cfg) with [] => key | k :: _ => k end
       end.
Proof. exact (Resolve_cases w ref cfg). Qed.
End Outcomes.

Lemma if_same {A} (b : bool) (x : A) : (if b then x else x) = x.
Proof. by destruct b. Qed.

Section Start.
Context (ParseDuration : string -> option Z) (url_Parse : string -> option URL) (ParseIP : string -> option IP) (zero : Z).

(** C23: when the program starts, it has a key and a base URL, and, unless
    ALLOW_PRIVATE_URLS is exactly true, the host its client talks to is not a
    private one. *)
Theorem main_start_safe dotenv env w w' cfg warn br :
  main_start ParseDuration url_Parse ParseIP zero dotenv env w = (w', inr (cfg, warn, br)) ->
  let base := oc_BaseURL (c_OpenAI cfg) in
  oc_APIKey (c_OpenAI cfg) <> "" /\ base <> ""
  /\ baseURL (br_proto br) = TrimRight base "/" +:+ "/chat/completions"
  /\ (Getenv (LoadEnvFile dotenv env) "ALLOW_PRIVATE_URLS" <> "true" -> TrimRight base "/" <> "" ->
      exists u, url_Parse (TrimRight base "/") = Some u /\ isPrivateHost ParseIP (Hostname u) = false).
Proof.
  unfold main_start, Load. cbv zeta.
  set (e := LoadEnvFile dotenv env). set (c := from_env ParseDuration e). set (allow := Getenv e _ =s "true").
  destruct ((oc_APIKey (c_OpenAI c) =s "") || _) eqn:E; [done|]. destruct (ValidateBaseURL url_Parse ParseIP allow _) eqn:Ev; [done|].
  pose proof (Resolve_cases url_Parse ParseIP allow zero w (mkModelRef (oc_Model (c_OpenAI c)) (oc_BaseURL (c_OpenAI c)) "") c) as H.
  unfold NewBridgeFromConfig. cbv zeta in H. cbn [ref_BaseURL ref_Model] in H.
  rewrite !if_same, E, Ev in H.
  destruct (ValidateBaseURL url_Parse ParseIP allow (TrimRight _ _)) as [r|] eqn:Ev2; [by rewrite H|].
  destruct H as (w1 & b & -> & _ & _ & Hu & _). intros [= <- <- <- <-]. apply orb_false_elim in E as [E1 E2]. bool_prop.
  split; [done|]. split; [done|]. split; [done|]. intros Ha Hne. unfold ValidateBaseURL in Ev2.
  rewrite (proj2 (String.eqb_neq _ _) Hne) in Ev2. destruct (url_Parse _) as [u|]; [|done]. exists u. split; [done|].
  unfold allow in Ev2. rewrite (proj2 (String.eqb_neq _ _) Ha) in Ev2. repeat case_match; try done.
Qed.
End Start.

(** A world with no vendor state, and a resolver that knows two hosts. *)
Definition quiet : hworld := mkW ∅ ∅ ∅ ∅.
Definition two_hosts (s : string) : option URL :=
  if HasPrefix s "https://api.example.com" then Some (mkURL "https" "api.example.com")
  else if HasPrefix s "http://169.254.169.254" then Some (mkURL "http" "169.254.169.254") else None.
Definition two_ips (s : string) : option IP := if s =s "169.254.169.254" then Some (V4 169 254 169 254) else None.

Definition demo_env : environ :=
  <["OPENAI_API_KEY" := "k"]> (<["OPENAI_BASE_URL" := "https://api.example.com/"]>
  (<["OPENAI_FALLBACK_MODEL" := "m2"]> {["OPENAI_FALLBACK_BASE_URL" := "http://169.254.169.254/"]})).

Definition demo_start : hworld * (boot_fatal + AppConfig * option (string * string) * Bridge) :=
  main_start (fun _ => None) two_hosts two_ips 0 None demo_env quiet.

Lemma main_start_safe_witness : exists u, two_hosts "https://api.example.com" = Some u /\ isPrivateHost two_ips (Hostname u) = false.
Proof.
  destruct demo_start as [w' [f|[[cfg warn] br]]] eqn:E; [exfalso; vm_compute in E; discriminate E|].
  assert (oc_BaseURL (c_OpenAI cfg) = "https://api.example.com/") as Hb by (vm_compute in E; by injection E as <- <- <- <-).
  destruct (main_start_safe (fun _ => None) two_hosts two_ips 0 None demo_env quiet w' cfg warn br E) as (_ & _ & _ & H).
  rewrite Hb in H. apply H; vm_compute; discriminate.
Defined.

(** The failover URL is not validated: with private hosts blocked, a start
    succeeds whose client, once it fails over, posts to a link-local host that
    would be refused as a base URL. *)
Example fallback_unchecked :
  ValidateBaseURL two_hosts two_ips false "http://169.254.169.254/" = Some PrivateBlocked
  /\ match demo_start with
     | (_, inr (cfg, _, br)) =>
         match getFailoverModel (failover (br_proto br)) "m" "v" with
         | (m2, url2, true) => baseURL (applyFailover two_hosts (br_proto br) m2 url2) = "http://169.254.169.254/chat/completions"
         | _ => False
         end
     | _ => False
     end.
Proof. vm_compute. split; reflexivity. Qed.

(** The parsed setting and the check disagree about case: with [True] the
    configuration says that private URLs are allowed, and they are refused. *)
Example allow_private_case :
  let env := <["ALLOW_PRIVATE_URLS" := "True"]> (<["OPENAI_BASE_URL" := "http://169.254.169.254/"]> demo_env) in
  c_AllowPrivateURLs (from_env (fun _ => None) env) = true
  /\ (main_start (fun _ => None) two_hosts two_ips 0 None env quiet).2 = inl (BadBaseURL PrivateBlocked).
Proof. vm_compute. split; reflexivity. Qed.
