(* ===== verification/Tools.v ===== *)
(** * Tools of the agent

    [internal/adk/tool]: the registry with its cached availability checks, the
    guardrails, and the executor, sequential and concurrent. A tool is reached
    through a pointer, so the registry's tools live in a heap; running a tool
    is an argument of the tool. *)
From stdpp Require Import base tactics list gmap fin_maps strings relations.
From Stdlib Require Import ZArith Lia.
From S2P Require Import Prelude GoStrings Types.

(** ** Tools *)

Inductive run_outcome := ROk (result : string) | RErr (e : gerror) | RPanic (msg : string).

(** [Tool]: what its [InvokableTool] does with arguments, and the check
    function, which may read the clock. *)
Record Tool := mkTool { invokable : string -> run_outcome; checkFn : option (Z -> bool) }.

Definition tool_Check (t : Tool) (now : Z) : bool :=
  match checkFn t with None => true | Some f => f now end.

Definition WithCheck (f : Z -> bool) (t : Tool) : Tool := mkTool (invokable t) (Some f).

Definition ErrToolNotFound : gerror := EMsg "tool not found".

(** ** Registry *)

Module Registry.
Definition checkFnTTL : Z := (30 * Second)%Z.
Definition checkFnFailureGrace : Z := (60 * Second)%Z.

Record checkCacheEntry := mkEntry { available : bool; expiresAt : Z }.

Record ToolRegistry := mkReg {
  theap : gmap nat Tool; tools : gmap string nat;
  checkCache : gmap string checkCacheEntry; lastSuccessTime : gmap string Z }.

Definition NewToolRegistry : ToolRegistry := mkReg ∅ ∅ ∅ ∅.

(** [NewFromFn] / [NewFromInvokable]: a new tool at a fresh address. *)
Definition new_tool (r : ToolRegistry) (p : nat) (t : Tool) : ToolRegistry :=
  mkReg (<[p := t]> (theap r)) (tools r) (checkCache r) (lastSuccessTime r).

Definition Register (r : ToolRegistry) (name : string) (t : nat) : ToolRegistry :=
  mkReg (theap r) (<[name := t]> (tools r)) (checkCache r) (lastSuccessTime r).

Definition Unregister (r : ToolRegistry) (name : string) : ToolRegistry :=
  mkReg (theap r) (delete name (tools r)) (delete name (checkCache r)) (delete name (lastSuccessTime r)).

Definition Get (r : ToolRegistry) (name : string) : option Tool :=
  p ← tools r !! name; theap r !! p.

Definition Dispatch (r : ToolRegistry) (name args : string) : run_outcome :=
  match Get r name with None => RErr ErrToolNotFound | Some t => invokable t args end.

(** [Check]: [t0] is the clock when the cache is read, [now] after the tool's
    own check. *)
Definition Check (r : ToolRegistry) (name : string) (t0 now : Z) : ToolRegistry * bool :=
  let probe :=
    match Get r name with
    | None => (r, false)
    | Some t =>
        if tool_Check t now then
          (mkReg (theap r) (tools r) (<[name := mkEntry true (now + checkFnTTL)]> (checkCache r))
                 (<[name := now]> (lastSuccessTime r)), true)
        else if match lastSuccessTime r !! name with
                | Some last => (now - last <? checkFnFailureGrace)%Z
                | None => false
                end
        then (r, true)
        else (mkReg (theap r) (tools r) (<[name := mkEntry false (now + checkFnTTL)]> (checkCache r))
                    (lastSuccessTime r), false)
    end in
  match checkCache r !! name with
  | Some cached => if (t0 <? expiresAt cached)%Z then (r, available cached) else probe
  | None => probe
  end.

Definition InvalidateCache (r : ToolRegistry) (name : string) : ToolRegistry :=
  mkReg (theap r) (tools r) (delete name (checkCache r)) (lastSuccessTime r).

Definition ClearCache (r : ToolRegistry) : ToolRegistry := mkReg (theap r) (tools r) ∅ ∅.

(** [RegisterCheckFn] writes through the tool's pointer: every name of the
    tool sees it. *)
Definition RegisterCheckFn (r : ToolRegistry) (name : string) (f : Z -> bool) : ToolRegistry :=
  match tools r !! name with
  | None => r
  | Some p => mkReg (alter (WithCheck f) p (theap r)) (tools r) (checkCache r) (lastSuccessTime r)
  end.

(** The registry's listings range over the map of tools, in an order [ps] that
    the runtime chooses; [Info] is the tool's own. *)
Definition listing (r : ToolRegistry) (ps : list (string * nat)) : Prop := ps ≡ₚ map_to_list (tools r).
Definition Names (ps : list (string * nat)) : list string := ps.*1.
Definition GetEinoTools (r : ToolRegistry) (ps : list (string * nat)) : list Tool := omap (fun p => theap r !! p.2) ps.
Definition GetDefinitions {I} (Info : Tool -> gerror + I) (r : ToolRegistry) (ps : list (string * nat)) : list I :=
  omap (fun t => match Info t with inl _ => None | inr i => Some i end) (GetEinoTools r ps).

(** Two listings differ in the order only, and name each tool once. *)
Lemma listings_perm {I} (Info : Tool -> gerror + I) r ps ps' : listing r ps -> listing r ps' ->
  Names ps ≡ₚ Names ps' /\ NoDup (Names ps) /\ GetDefinitions Info r ps ≡ₚ GetDefinitions Info r ps'.
Proof.
  unfold listing. intros H H'. assert (ps ≡ₚ ps') as Hp by by rewrite H, H'. unfold Names, GetDefinitions, GetEinoTools. split_and!.
  - by rewrite Hp.
  - rewrite H. apply NoDup_fst_map_to_list.
  - by rewrite Hp.
Qed.

Lemma Names_registered r ps name : listing r ps -> name ∈ Names ps <-> is_Some (tools r !! name).
Proof.
  unfold listing, Names. intros ->. rewrite list_elem_of_fmap. split.
  - intros ([n p] & -> & H%elem_of_map_to_list). by eexists.
  - intros [p H]. exists (name, p). split; [done|]. by apply elem_of_map_to_list.
Qed.

(** ** Freshness of a positive answer *)

Inductive reg_op :=
| OpNew (p : nat) (t : Tool) | OpRegister (name : string) (t : nat) | OpUnregister (name : string)
| OpCheck (name : string) (t0 now : Z) | OpInvalidate (name : string) | OpClear
| OpCheckFn (name : string) (f : Z -> bool).

Definition reg_step (r : ToolRegistry) (op : reg_op) : ToolRegistry :=
  match op with
  | OpNew p t => new_tool r p t
  | OpRegister n t => Register r n t
  | OpUnregister n => Unregister r n
  | OpCheck n t0 now => (Check r n t0 now).1
  | OpInvalidate n => InvalidateCache r n
  | OpClear => ClearCache r
  | OpCheckFn n f => RegisterCheckFn r n f
  end.

(** The times at which the tool's own check answered yes to a probe. *)
Definition success_of (r : ToolRegistry) (op : reg_op) : list (string * Z) :=
  match op with
  | OpCheck n t0 now =>
      match checkCache r !! n with
      | Some c => if (t0 <? expiresAt c)%Z then []
                  else match Get r n with Some t => if tool_Check t now then [(n, now)] else [] | None => [] end
      | None => match Get r n with Some t => if tool_Check t now then [(n, now)] else [] | None => [] end
      end
  | _ => []
  end.

(** Histories: registry and successful probes. *)
Fixpoint reg_run (r : ToolRegistry) (log : list (string * Z)) (ops : list reg_op)
  : ToolRegistry * list (string * Z) :=
  match ops with [] => (r, log) | op :: ops' => reg_run (reg_step r op) (log ++ success_of r op) ops' end.

Record reg_inv (log : list (string * Z)) (r : ToolRegistry) : Prop := mkRegInv {
  ri_cache : forall n c, checkCache r !! n = Some c -> available c = true ->
               (n, expiresAt c - checkFnTTL)%Z ∈ log;
  ri_last : forall n t, lastSuccessTime r !! n = Some t -> (n, t) ∈ log }.

Lemma reg_inv_mono log x r : reg_inv log r -> reg_inv (log ++ x) r.
Proof. intros [H1 H2]. split; intros; apply elem_of_app; left; eauto. Qed.

Lemma Check_inv log r n t0 now :
  reg_inv log r -> reg_inv (log ++ success_of r (OpCheck n t0 now)) (Check r n t0 now).1.
Proof.
  intros Hi. unfold Check, success_of.
  set (probe := match Get r n with None => (r, false) | Some t => _ end).
  assert (reg_inv (log ++ match Get r n with Some t => if tool_Check t now then [(n, now)] else [] | None => [] end) probe.1) as Hp.
  { subst probe. destruct (Get r n) as [t|]; [|by apply reg_inv_mono].
    destruct (tool_Check t now).
    - destruct Hi as [H1 H2]. split; simpl; intros m x; rewrite lookup_insert_Some; intros [[<- <-]|[_ Hx]].
      + intros _. simpl. apply elem_of_app. right. rewrite Z.add_simpl_r. by left.
      + intros Ha. apply elem_of_app. left. eauto.
      + apply elem_of_app. right. by left.
      + apply elem_of_app. left. eauto.
    - rewrite app_nil_r. destruct (match lastSuccessTime r !! n with Some _ => _ | None => _ end); [done|].
      destruct Hi as [H1 H2]. split; simpl; [|done]. intros m x. rewrite lookup_insert_Some.
      intros [[<- <-]|[_ Hx]]; [done|]. eauto. }
  destruct (checkCache r !! n) as [c|]; [|done].
  destruct (t0 <? expiresAt c)%Z; [|done]. by rewrite app_nil_r.
Qed.

Lemma reg_step_inv log r op : reg_inv log r -> reg_inv (log ++ success_of r op) (reg_step r op).
Proof.
  intros Hi. destruct op; simpl; try (rewrite app_nil_r); [| | |by apply Check_inv| | |].
  all: try (destruct Hi as [H1 H2]; split; simpl; intros m x; rewrite ?lookup_delete_Some, ?lookup_empty; naive_solver).
  unfold RegisterCheckFn. destruct (tools r !! name); [|done]. destruct Hi as [H1 H2]. by split.
Qed.

Lemma reg_run_inv ops log r r' log' :
  reg_inv log r -> reg_run r log ops = (r', log') -> reg_inv log' r'.
Proof.
  revert log r. induction ops as [|op ops IH]; intros log r Hi; simpl; [by intros [= <- <-]|].
  apply IH. by apply reg_step_inv.
Qed.

(** An availability answer is never stale by more than a minute: after any
    history of registrations, checks and invalidations, a [Check] that answers
    yes either just saw the tool's own check succeed or follows a success that
    is less than [checkFnFailureGrace] (60 s) old. *)
Theorem Check_fresh ops r log n t0 now r' :
  reg_run NewToolRegistry [] ops = (r, log) -> Check r n t0 now = (r', true) -> (t0 <= now)%Z ->
  (exists t, Get r n = Some t /\ tool_Check t now = true)
  \/ (exists s, (n, s) ∈ log /\ (t0 - s < checkFnFailureGrace)%Z).
Proof.
  intros Hr Hc Hle.
  assert (reg_inv log r) as [H1 H2].
  { eapply reg_run_inv; [|exact Hr]. split; intros ? ?; simpl; by rewrite lookup_empty. }
  assert (match Get r n with
    | None => (r, false)
    | Some t =>
        if tool_Check t now then
          (mkReg (theap r) (tools r) (<[n := mkEntry true (now + checkFnTTL)]> (checkCache r))
                 (<[n := now]> (lastSuccessTime r)), true)
        else if match lastSuccessTime r !! n with
                | Some last => (now - last <? checkFnFailureGrace)%Z | None => false end
        then (r, true)
        else (mkReg (theap r) (tools r) (<[n := mkEntry false (now + checkFnTTL)]> (checkCache r))
                    (lastSuccessTime r), false)
    end = (r', true) ->
    (exists t, Get r n = Some t /\ tool_Check t now = true)
    \/ (exists s, (n, s) ∈ log /\ (t0 - s < checkFnFailureGrace)%Z)) as Hp.
  { destruct (Get r n) as [t|]; [|done]. destruct (tool_Check t now) eqn:Et; [by eauto|].
    destruct (lastSuccessTime r !! n) as [s|] eqn:El; [|done].
    destruct (now - s <? checkFnFailureGrace)%Z eqn:Eg; [|done]. bool_prop. intros _. right.
    exists s. split; [by apply H2|lia]. }
  unfold Check in Hc. destruct (checkCache r !! n) as [c|] eqn:Ec; [|by apply Hp].
  destruct (t0 <? expiresAt c)%Z eqn:Et; [|by apply Hp]. injection Hc as <- Hav.
  right. exists (expiresAt c - checkFnTTL)%Z. split; [by eapply H1|]. bool_prop.
  unfold checkFnTTL, checkFnFailureGrace, Second, Millisecond in *. lia.
Qed.

(** A tool that is available until time 10, registered and found available at
    time 5. At time 36 s the cached answer has expired and the tool's check
    fails, but the grace period still answers yes. *)
Definition flaky : Tool := mkTool ROk (Some (fun t => (t <? 10)%Z)).
Definition flaky_ops : list reg_op := [OpNew 0 flaky; OpRegister "x" 0; OpCheck "x" 5 5].

Lemma Check_fresh_witness :
  (exists t, Get (reg_run NewToolRegistry [] flaky_ops).1 "x" = Some t /\ tool_Check t (36 * Second) = true)
  \/ (exists s, ("x", s) ∈ [("x", 5%Z)] /\ (36 * Second - s < checkFnFailureGrace)%Z).
Proof.
  eapply (Check_fresh flaky_ops (reg_run NewToolRegistry [] flaky_ops).1 [("x", 5%Z)] "x"
           (36 * Second) (36 * Second)); [vm_compute; reflexivity|vm_compute; reflexivity|lia].
Defined.
End Registry.

(** ** Guardrails *)

Module Guard.
Import Registry.

Record GuardrailResult := mkGR { Allowed : bool; Reason : string }.

(** Rules are functions of the tool's name and arguments. The registry the
    guardrails point to is passed to [Check]. *)
Record Guardrails := mkGuard {
  allowList : gset string; denyList : gset string; rules : list (string -> string -> GuardrailResult) }.

Definition NewGuardrails : Guardrails := mkGuard ∅ ∅ [].

Definition Allow (g : Guardrails) (name : string) : Guardrails :=
  mkGuard ({[name]} ∪ allowList g) (denyList g ∖ {[name]}) (rules g).
Definition Deny (g : Guardrails) (name : string) : Guardrails :=
  mkGuard (allowList g ∖ {[name]}) ({[name]} ∪ denyList g) (rules g).
Definition AllowAll (g : Guardrails) (names : list string) : Guardrails := foldl Allow g names.
Definition DenyAll (g : Guardrails) (names : list string) : Guardrails := foldl Deny g names.
Definition AddRule (g : Guardrails) (rule : string -> string -> GuardrailResult) : Guardrails :=
  mkGuard (allowList g) (denyList g) (rules g ++ [rule]).
Definition Clear (g : Guardrails) : Guardrails := mkGuard ∅ ∅ [].

Fixpoint run_rules (rs : list (string -> string -> GuardrailResult)) (name args : string)
  : option GuardrailResult :=
  match rs with
  | [] => None
  | rule :: rs' => let r := rule name args in if negb (Allowed r) then Some r else run_rules rs' name args
  end.

(** [Check]; [reg] is [g.registry], [None] when nil. *)
Definition guard_Check (g : Guardrails) (reg : option ToolRegistry) (name args : string) (t0 now : Z)
  : option ToolRegistry * GuardrailResult :=
  if bool_decide (name ∈ denyList g) then (reg, mkGR false "tool is denied")
  else if bool_decide (allowList g <> ∅) && bool_decide (name ∉ allowList g)
  then (reg, mkGR false "tool not in allow list")
  else match run_rules (rules g) name args with
       | Some r => (reg, r)
       | None =>
           match reg with
           | None => (reg, mkGR true "")
           | Some r =>
               match Get r name with
               | None => (reg, mkGR true "")
               | Some _ =>
                   let '(r', ok) := Check r name t0 now in
                   (Some r', if ok then mkGR true "" else mkGR false "tool is unavailable")
               end
           end
       end.

(** *** Properties *)

Inductive guard_op := GAllow (n : string) | GDeny (n : string) | GRule (r : string -> string -> GuardrailResult).
Definition guard_step (g : Guardrails) (op : guard_op) : Guardrails :=
  match op with GAllow n => Allow g n | GDeny n => Deny g n | GRule r => AddRule g r end.

Definition mentions (n : string) (op : guard_op) : bool :=
  match op with GAllow m | GDeny m => m =s n | GRule _ => false end.

(** A name is on at most one list, and the lists say what was last said of it. *)
Lemma guard_last n ops g :
  denyList g ## allowList g ->
  denyList (foldl guard_step g ops) ## allowList (foldl guard_step g ops)
  /\ (n ∈ denyList (foldl guard_step g ops) <->
      match List.find (mentions n) (reverse ops) with
      | Some (GDeny _) => True | Some _ => False | None => n ∈ denyList g end).
Proof.
  intros Hd. induction ops as [|op ops IH] using rev_ind; [done|].
  rewrite foldl_app, reverse_app. simpl. destruct IH as [H1 H2].
  destruct op as [m|m|r]; simpl.
  - split; [set_solver|]. destruct (m =s n) eqn:E; bool_prop; [set_solver|]. rewrite <- H2. set_solver.
  - split; [set_solver|]. destruct (m =s n) eqn:E; bool_prop; [set_solver|]. rewrite <- H2. set_solver.
  - split; [done|]. exact H2.
Qed.

(** The last word on a tool counts: after any sequence of allow, deny and
    rule calls, a tool whose last mention was a denial is refused, whatever the
    rules and the registry say; and a tool that a rule refuses is refused. *)
Theorem guard_denied_refused ops name args reg t0 now :
  (match List.find (mentions name) (reverse ops) with Some (GDeny _) => true | _ => false end = true
   \/ exists rule, rule ∈ rules (foldl guard_step NewGuardrails ops) /\ Allowed (rule name args) = false) ->
  Allowed (guard_Check (foldl guard_step NewGuardrails ops) reg name args t0 now).2 = false.
Proof.
  destruct (guard_last name ops NewGuardrails) as [_ Hl]; [set_solver|].
  unfold guard_Check. case_bool_decide as Hd; [done|]. intros [Hden|(rule & Hin & Hf)].
  - exfalso. apply Hd, Hl. by destruct (List.find _ _) as [[]|].
  - destruct (bool_decide _ && _); [done|].
    assert (exists r, run_rules (rules (foldl guard_step NewGuardrails ops)) name args = Some r
              /\ Allowed r = false) as (r & -> & Hr); [|done].
    revert Hin. generalize (rules (foldl guard_step NewGuardrails ops)). intros rs Hin.
    induction rs as [|x rs IH]; [by apply not_elem_of_nil in Hin|]. simpl.
    destruct (Allowed (x name args)) eqn:E; simpl; [|by eauto].
    apply IH. apply elem_of_cons in Hin as [->|Hin]; [congruence|done].
Qed.

Lemma guard_denied_refused_witness :
  Allowed (guard_Check (foldl guard_step NewGuardrails [GAllow "rm"; GDeny "rm"]) None "rm" "{}" 0 0).2 = false.
Proof.
  apply (guard_denied_refused [GAllow "rm"; GDeny "rm"] "rm" "{}" None 0 0). left. reflexivity.
Defined.

(** Denying the only allowed tool empties the allow list, and an empty
    list restricts nothing: every other tool that was not denied becomes
    allowed. *)
Theorem deny_last_allowed_opens_all n m args t0 now :
  n <> m ->
  Allowed (guard_Check (Allow NewGuardrails n) None m args t0 now).2 = false
  /\ Allowed (guard_Check (Deny (Allow NewGuardrails n) n) None m args t0 now).2 = true.
Proof.
  intros Hnm. unfold guard_Check, Allow, Deny, NewGuardrails. simpl. split.
  - rewrite bool_decide_eq_false_2 by set_solver. rewrite !bool_decide_eq_true_2 by set_solver. done.
  - rewrite (bool_decide_eq_false_2 (m ∈ _)) by set_solver.
    rewrite (bool_decide_eq_false_2 (_ <> ∅)); [done|]. intros H. apply H. set_solver.
Qed.

Lemma deny_last_allowed_opens_all_witness :
  Allowed (guard_Check (Allow NewGuardrails "read") None "shell" "" 0 0).2 = false
  /\ Allowed (guard_Check (Deny (Allow NewGuardrails "read") "read") None "shell" "" 0 0).2 = true.
Proof. apply (deny_last_allowed_opens_all "read" "shell" "" 0 0). discriminate. Defined.
End Guard.

(** ** Executor *)

Module Executor.
Import Registry.

Record ToolCall := mkCall { tcName : string; tcArguments : string; tcToolID : string }.
Record ToolResult := mkResult {
  trName : string; trResult : string; trErr : option gerror; trToolID : string; trFailed : bool }.

Definition failed (c : ToolCall) (e : gerror) : ToolResult := mkResult (tcName c) "" (Some e) (tcToolID c) true.

(** [runOne]: [None] is a panic with its message on the right. *)
Definition runOne (r : ToolRegistry) (c : ToolCall) : ToolResult + string :=
  match Get r (tcName c) with
  | None => inl (failed c ErrToolNotFound)
  | Some t =>
      match invokable t (tcArguments c) with
      | RErr e => inl (failed c e)
      | ROk s => inl (mkResult (tcName c) s None (tcToolID c) false)
      | RPanic msg => inr msg
      end
  end.

(** [safeRunOne]: a panic becomes a failed result. *)
Definition safeRunOne (r : ToolRegistry) (c : ToolCall) : ToolResult :=
  match runOne r c with
  | inl res => res
  | inr msg => failed c (EMsg ("tool panic: " +:+ msg))
  end.

(** [executeSequential]: [ctxDone i] is the context's error before call [i]. *)
Fixpoint seq_loop (r : ToolRegistry) (ctxDone : nat -> option gerror) (i : nat) (calls : list ToolCall)
  : list ToolResult :=
  match calls with
  | [] => []
  | c :: rest =>
      match ctxDone i with
      | Some e => [failed c e]
      | None => let res := safeRunOne r c in
                if trFailed res then [res] else res :: seq_loop r ctxDone (S i) rest
      end
  end.
Definition executeSequential (r : ToolRegistry) (ctxDone : nat -> option gerror) (calls : list ToolCall)
  : list ToolResult := seq_loop r ctxDone 0 calls.

Definition maxConcurrency (numCPU : nat) : nat := if (4 <? numCPU)%nat then numCPU else 4.

(** [executeConcurrent] as a transition system. [launched]: how many calls the
    loop has started; [running]: the goroutines between the semaphore and their
    end; [results]: the slice, zero values first. *)
Record cstate := mkCS { launched : nat; running : gset nat; results : list ToolResult }.

Definition zero_result : ToolResult := mkResult "" "" None "" false.
Definition c_init (n : nat) : cstate := mkCS 0 ∅ (replicate n zero_result).

Section Concurrent.
Context (r : ToolRegistry) (cap : nat) (calls : list ToolCall).

Inductive cstep : cstate -> cstate -> Prop :=
| step_launch s :
    launched s < length calls -> size (running s) < cap ->
    cstep s (mkCS (S (launched s)) ({[launched s]} ∪ running s) (results s))
| step_finish s i c :
    i ∈ running s -> calls !! i = Some c ->
    cstep s (mkCS (launched s) (running s ∖ {[i]}) (<[i := safeRunOne r c]> (results s))).

(** [wg.Wait()] has returned. *)
Definition c_done (s : cstate) : Prop := launched s = length calls /\ running s = ∅.

(** *** Invariant *)

Record c_inv (s : cstate) : Prop := mkCInv {
  ci_len : length (results s) = length calls;
  ci_launched : launched s <= length calls;
  ci_running : forall i, i ∈ running s -> i < launched s;
  ci_cap : size (running s) <= cap;
  ci_results : forall i c, calls !! i = Some c -> i < launched s -> i ∉ running s ->
                 results s !! i = Some (safeRunOne r c) }.

Lemma c_init_inv : c_inv (c_init (length calls)).
Proof.
  split; cbn [c_init launched running results].
  - apply length_replicate.
  - lia.
  - set_solver.
  - rewrite size_empty. lia.
  - lia.
Qed.

Lemma cstep_inv s s' : c_inv s -> cstep s s' -> c_inv s'.
Proof.
  intros [H1 H2 H3 H4 H5] Hst. destruct Hst as [s Hl Hc|s i c Hi Hc]; split; simpl; auto.
  - intros i. rewrite elem_of_union, elem_of_singleton. intros [->|Hi]; [lia|]. specialize (H3 i Hi). lia.
  - rewrite size_union by (intros x; rewrite elem_of_singleton; intros -> Hx; specialize (H3 _ Hx); lia).
    rewrite size_singleton. lia.
  - intros i c Hi Hlt Hn. rewrite not_elem_of_union, not_elem_of_singleton in Hn. apply H5; [done|lia|set_solver].
  - by rewrite length_insert.
  - intros j Hj. apply H3. set_solver.
  - etransitivity; [apply subseteq_size|exact H4]. set_solver.
  - intros j c' Hj Hlt Hn. destruct (decide (j = i)) as [->|Hne].
    + rewrite list_lookup_insert_eq; [by simplify_eq|]. rewrite H1. by apply lookup_lt_Some in Hc.
    + rewrite list_lookup_insert_ne by done. apply H5; [done|done|set_solver].
Qed.

(** Each call is launched once and finished once. *)
Definition c_left (s : cstate) : nat := 2 * (length calls - launched s) + size (running s).

Lemma cstep_left s s' : c_inv s -> cstep s s' -> c_left s' < c_left s.
Proof.
  intros [H1 H2 H3 H4 H5] Hst. unfold c_left. destruct Hst as [s Hl Hc|s i c Hi Hc]; simpl.
  - rewrite size_union by (intros x; rewrite elem_of_singleton; intros -> Hx; specialize (H3 _ Hx); lia).
    rewrite size_singleton. lia.
  - rewrite size_difference, size_singleton by set_solver.
    assert (size (running s) <> 0); [|lia]. intros H0. apply size_empty_inv in H0. set_solver.
Qed.

Lemma cstep_progress s : 0 < cap -> c_inv s -> ~ c_done s -> exists s', cstep s s'.
Proof.
  intros Hcap [H1 H2 H3 H4 H5] Hnd. destruct (decide (running s = ∅)) as [He|Hne].
  - eexists. apply step_launch; [|by rewrite He, size_empty].
    assert (launched s <> length calls); [|lia]. intros H. by apply Hnd.
  - apply set_choose_L in Hne as [i Hi]. destruct (calls !! i) as [c|] eqn:E.
    + eexists. by apply (step_finish s i c).
    + exfalso. apply lookup_ge_None in E. specialize (H3 i Hi). lia.
Qed.

Lemma c_done_results s : c_inv s -> c_done s -> results s = safeRunOne r <$> calls.
Proof.
  intros [H1 H2 H3 H4 H5] [Hl Hr]. apply list_eq. intros i. rewrite list_lookup_fmap.
  destruct (calls !! i) as [c|] eqn:E; simpl.
  - apply H5; [done| |set_solver]. rewrite Hl. by apply lookup_lt_Some in E.
  - apply lookup_ge_None in E. apply lookup_ge_None. lia.
Qed.

Lemma reach_inv s : rtc cstep (c_init (length calls)) s -> c_inv s.
Proof.
  intros H. remember (c_init (length calls)) as s0 eqn:E.
  assert (c_inv s0) as Hi by (subst; apply c_init_inv). clear E.
  induction H as [|x y z Hxy _ IH]; [done|]. apply IH. by eapply cstep_inv.
Qed.
End Concurrent.

(** [Execute]'s choice. *)
Definition uses_concurrent (concurrent : bool) (calls : list ToolCall) : bool :=
  concurrent && (1 <? length calls)%nat.

(** *** Claims *)

(** C6: Concurrent execution is deterministic, bounded and ends. In every
    interleaving: at most [maxConcurrency] tools run at once; while the
    executor has not returned some step is possible, and every step brings the
    end nearer; and when it returns, result [i] is that of call [i], panics
    included, whatever the order in which the goroutines finished. *)
Theorem executeConcurrent_correct r numCPU calls s :
  rtc (cstep r (maxConcurrency numCPU) calls) (c_init (length calls)) s ->
  size (running s) <= maxConcurrency numCPU
  /\ (c_done calls s -> results s = safeRunOne r <$> calls)
  /\ (~ c_done calls s -> exists s', cstep r (maxConcurrency numCPU) calls s s')
  /\ (forall s', cstep r (maxConcurrency numCPU) calls s s' -> c_left calls s' < c_left calls s).
Proof.
  intros Hr. apply reach_inv in Hr as Hi. split; [apply Hi|]. split; [by eapply c_done_results|]. split.
  - apply cstep_progress; [|done]. unfold maxConcurrency. destruct (4 <? numCPU)%nat eqn:E; bool_prop; lia.
  - intros s' Hs. by eapply cstep_left.
Qed.

(** Sequential execution stops at the first failure and otherwise agrees
    with the concurrent one: the results are those of the calls in order, up to
    and including the first that failed. *)
Theorem executeSequential_prefix r calls :
  let all := safeRunOne r <$> calls in
  let res := executeSequential r (fun _ => None) calls in
  (Forall (fun x => trFailed x = false) all -> res = all)
  /\ (forall a x b, all = a ++ x :: b -> Forall (fun y => trFailed y = false) a -> trFailed x = true ->
        res = a ++ [x]).
Proof.
  intros all res. subst all res. unfold executeSequential. generalize 0 as i. intros i.
  split.
  - revert i. induction calls as [|c calls IH]; intros i H; [done|]. simpl. rewrite fmap_cons in *.
    inversion_clear H as [|? ? Hc Hl]. rewrite Hc. by rewrite IH.
  - revert i. induction calls as [|c calls IH]; intros i a x b Hall Ha Hx.
    + by destruct a.
    + simpl. destruct a as [|y a]; rewrite fmap_cons in Hall; injection Hall as Hc Hall.
      * subst x. by rewrite Hx.
      * inversion_clear Ha as [|? ? Hy Ha']. subst y. rewrite Hy. simpl. f_equal. by eapply IH.
Qed.

(** ** Witnesses *)

Definition demo_reg : ToolRegistry :=
  mkReg {[ 0%nat := mkTool (fun a => ROk ("ran " +:+ a)) None; 1%nat := mkTool (fun _ => RPanic "oops") None ]}
        {[ "good" := 0%nat; "bad" := 1%nat ]} ∅ ∅.
Definition demo_calls : list ToolCall := [mkCall "good" "x" "1"; mkCall "bad" "" "2"; mkCall "none" "" "3"].

(** One interleaving: the second call finishes first. *)
Lemma demo_reach :
  rtc (cstep demo_reg (maxConcurrency 2) demo_calls) (c_init 3)
    (mkCS 2 ({[0%nat]} ∪ ∅) (<[1%nat := safeRunOne demo_reg (mkCall "bad" "" "2")]> (replicate 3 zero_result))).
Proof.
  eapply rtc_l; [apply step_launch; [simpl; lia|vm_compute; lia]|].
  eapply rtc_l; [apply step_launch; [simpl; lia|vm_compute; lia]|]. simpl.
  eapply rtc_l; [apply (step_finish _ _ _ _ 1 (mkCall "bad" "" "2")); [set_solver|reflexivity]|]. simpl.
  replace (({[1%nat]} ∪ ({[0%nat]} ∪ ∅)) ∖ {[1%nat]} : gset nat) with ({[0%nat]} ∪ ∅ : gset nat) by set_solver.
  apply rtc_refl.
Qed.

Lemma executeConcurrent_correct_witness :
  size ({[0%nat]} ∪ ∅ : gset nat) <= 4.
Proof. exact (proj1 (executeConcurrent_correct demo_reg 2 demo_calls _ demo_reach)). Defined.

Lemma executeSequential_prefix_witness :
  executeSequential demo_reg (fun _ => None) demo_calls
  = [mkResult "good" "ran x" None "1" false; failed (mkCall "bad" "" "2") (EMsg "tool panic: oops")].
Proof.
  apply (proj2 (executeSequential_prefix demo_reg demo_calls)
           [mkResult "good" "ran x" None "1" false] (failed (mkCall "bad" "" "2") (EMsg "tool panic: oops"))
           [failed (mkCall "none" "" "3") ErrToolNotFound]).
  - vm_compute. reflexivity.
  - constructor; [reflexivity|constructor].
  - reflexivity.
Defined.
End Executor.
