(* ===== verification/Session.v ===== *)
(** * Sessions

    [internal/session/manager.go]: the conversation store of the server, its
    clean-up and its history file; [internal/adk/session/adapter.go]: the view
    the agent's runner has of it. A nil message pointer is [None]. The JSON
    encoding of the history is an argument. *)
From stdpp Require Import base tactics list gmap fin_maps strings.
From Stdlib Require Import ZArith Lia.
From S2P Require Import Prelude GoStrings Types Bridge ChatModel.

(** ** Manager *)

Record Manager := mkManager {
  sessions : gmap string (list (option eino_message));
  lastAccess : gmap string Z;
  defaultSession : string }.

Definition NewManager (d : string) : Manager := mkManager ∅ ∅ (if d =s "" then "default" else d).

(** [m.sessions[sid]]: nil when absent. *)
Definition msgs_of (m : Manager) (sid : string) : list (option eino_message) :=
  default [] (sessions m !! sid).

Definition SnapshotWith (m : Manager) (now : Z) (sid : string) (extra : list (option eino_message))
  : Manager * list (option eino_message) :=
  (mkManager (sessions m) (<[sid := now]> (lastAccess m)) (defaultSession m), msgs_of m sid ++ extra).

Definition Append (m : Manager) (now : Z) (sid : string) (msgs : list (option eino_message)) : Manager :=
  mkManager (<[sid := msgs_of m sid ++ msgs]> (sessions m)) (<[sid := now]> (lastAccess m)) (defaultSession m).

Definition Count (m : Manager) : nat := size (sessions m).

(** [Cleanup]: every session whose last access is too old goes. *)
Definition expired (now maxAge : Z) (p : string * Z) : Prop := (maxAge < now - p.2)%Z.
#[export] Instance expired_dec now maxAge p : Decision (expired now maxAge p).
Proof. unfold expired. apply _. Defined.

Definition Cleanup (m : Manager) (now maxAge : Z) : Manager * nat :=
  let old := filter (expired now maxAge) (lastAccess m) in
  (mkManager (sessions m ∖ (const [] <$> old)) (lastAccess m ∖ old) (defaultSession m), size old).

(** ** History file *)

Record historyToolCall := mkHTC { htc_ID : string; htc_Type : string; htc_Name : string; htc_Arguments : string }.
Record historyMessage := mkHM {
  hm_Role : string; hm_Content : string; hm_Reasoning : string; hm_ToolCalls : list historyToolCall;
  hm_ToolCallID : string; hm_Name : string; hm_Multi : list (list (string * any)) }.

(** The package's own conversions of message parts, loops over the parts. *)
Definition history_part (item : list (string * any)) : input_part :=
  let part := mkPart (default "" (as_string (map_get "type" item))) "" None in
  let part := match as_string (map_get "text" item) with Some text => mkPart (part_Type part) text (part_Image part) | None => part end in
  match map_get "image_url" item with
  | Some (AObj img) => mkPart (part_Type part) (part_Text part) (Some (mkImage (Some (default "" (as_string (map_get "url" img)))) None ""))
  | _ => part
  end.
Definition history_toEino (mc : list (list (string * any))) : list input_part := collect history_part mc.
Definition history_fromEino (mc : list input_part) : list (list (string * any)) := collect part_map mc.

(** Parts of the deprecated field [MultiContent] of a message, which no source
    sets. *)
Record ChatMessagePart := mkCPart { cp_Type : string; cp_Text : string; cp_ImageURL : option string }.
Definition chatMessagePartsToMaps (parts : list ChatMessagePart) : list (list (string * any)) :=
  collect (fun p => [("type", AStr (cp_Type p))] ++ (if cp_Text p <>s "" then [("text", AStr (cp_Text p))] else [])
                    ++ match cp_ImageURL p with Some u => [("image_url", AObj [("url", AStr u)])] | None => [] end) parts.
Definition history_multi (user : list input_part) (parts : list ChatMessagePart) : list (list (string * any)) :=
  if (0 <? length user)%nat then history_fromEino user
  else if (0 <? length parts)%nat then chatMessagePartsToMaps parts else [].

(** They are those of [internal/adk/convert]. *)
Lemma history_toEino_convert mc : history_toEino mc = toEinoMultiContent mc.
Proof.
  unfold history_toEino, toEinoMultiContent. rewrite collect_fmap. apply list_fmap_ext. intros _ item _.
  unfold history_part, toEinoPart. destruct (as_string (map_get "text" item)); cbn; by repeat case_match.
Qed.
Lemma history_multi_convert user : history_multi user [] = if (0 <? length user)%nat then fromEinoMultiContent user else [].
Proof.
  unfold history_multi, history_fromEino, fromEinoMultiContent. case_match; [|done]. rewrite collect_fmap.
  apply list_fmap_ext. intros. apply part_map_item.
Qed.

(** [toHistoryMsg] of a message with these parts in the deprecated field. *)
Definition history_message (parts : list ChatMessagePart) (m : eino_message) : historyMessage :=
  mkHM (e_Role m) (e_Content m) (e_Reasoning m)
    ((fun t => mkHTC (ID t) (Type_ t) (Name t) (Arguments t)) <$> e_ToolCalls m)
    (e_ToolCallID m) (e_Name m) (history_multi (e_Multi m) parts).

(** [toHistoryMsg] of the messages a manager holds, which have no such parts; a
    nil message panics ([None]). *)
Definition toHistoryMsg (m : option eino_message) : option historyMessage := history_message [] <$> m.

Lemma toHistoryMsg_convert m : toHistoryMsg (Some m)
  = Some (mkHM (e_Role m) (e_Content m) (e_Reasoning m)
            ((fun t => mkHTC (ID t) (Type_ t) (Name t) (Arguments t)) <$> e_ToolCalls m)
            (e_ToolCallID m) (e_Name m)
            (if (0 <? length (e_Multi m))%nat then fromEinoMultiContent (e_Multi m) else [])).
Proof. unfold toHistoryMsg, history_message. cbn [fmap option_fmap option_map]. by rewrite history_multi_convert. Qed.

Definition fromHistoryMsg (h : historyMessage) : eino_message :=
  mkEino (hm_Role h) (hm_Content h) (hm_Reasoning h)
    ((fun t => mkToolCall (htc_ID t) (htc_Type t) (htc_Name t) (htc_Arguments t)) <$> hm_ToolCalls h)
    (hm_ToolCallID h) (hm_Name h)
    (if (0 <? length (hm_Multi h))%nat then toEinoMultiContent (hm_Multi h) else []).

Definition from_history (hs : list historyMessage) : list (option eino_message) :=
  (fun h => Some (fromHistoryMsg h)) <$> hs.
Definition to_dto (s : gmap string (list (option eino_message))) : gmap string (option (list historyMessage)) :=
  mapM toHistoryMsg <$> s.

Section History.
(** [json.Marshal] and [json.Unmarshal] on the map of histories. *)
Context {bytes : Type} (json_enc : gmap string (list historyMessage) -> bytes)
        (json_dec : bytes -> option (gmap string (list historyMessage))).

(** [Marshal]; [None] is a panic. *)
Definition Marshal (s : gmap string (list (option eino_message))) : option bytes :=
  if bool_decide (map_Forall (fun _ o => is_Some o) (to_dto s))
  then Some (json_enc (omap id (to_dto s))) else None.

Definition Unmarshal (b : bytes) : option (gmap string (list (option eino_message))) :=
  match json_dec b with Some dto => Some (from_history <$> dto) | None => None end.

(** [Save]: nothing is written without sessions; the file's new contents, or a
    panic. *)
Inductive save_result := SaveNothing | SaveWritten (b : bytes) | SavePanic.
Definition Save (m : Manager) : save_result :=
  if (size (sessions m) =? 0)%nat then SaveNothing
  else match Marshal (sessions m) with Some b => SaveWritten b | None => SavePanic end.

(** [Load] of a file that could be read: loaded sessions replace those of the
    same id; the number loaded. *)
Definition Load (m : Manager) (b : bytes) : Manager * option nat :=
  match Unmarshal b with
  | None => (m, None)
  | Some s => (mkManager (s ∪ sessions m) (lastAccess m) (defaultSession m), Some (size s))
  end.
End History.

(** ** [ManagerAdapter]: the store of the agent's runner *)

(** [session.Store]: what the runner needs of a store, with its laws. Both
    operations may fail. Reading changes no contents and, when it succeeds,
    gives those of the session; appending that succeeds adds at the end of one
    session; no operation changes another session. Nothing is assumed of the
    session whose append failed. *)
Class Store (S : Type) := {
  store_get : S -> string -> S * (gerror + list (option Message));
  store_append : S -> string -> list (option Message) -> S * option gerror;
  store_view : S -> string -> list (option Message);
  store_get_view : forall s sid s' l, store_get s sid = (s', inr l) -> l = store_view s sid;
  store_get_keeps : forall s sid sid', store_view (store_get s sid).1 sid' = store_view s sid';
  store_append_view : forall s sid msgs s', store_append s sid msgs = (s', None) ->
    store_view s' sid = store_view s sid ++ (FromEino ∘ ToEino <$> msgs);
  store_append_other : forall s sid msgs sid', sid' <> sid -> store_view (store_append s sid msgs).1 sid' = store_view s sid' }.

(** The manager with the clock reading of its next operation. *)
Record ManagerAdapter := mkAdapter { ad_inner : Manager; ad_now : Z }.

(** Neither operation of the adapter fails. *)
Definition adapter_Get (a : ManagerAdapter) (sid : string) : ManagerAdapter * (gerror + list (option Message)) :=
  let '(m, msgs) := SnapshotWith (ad_inner a) (ad_now a) sid [] in
  (mkAdapter m (ad_now a), inr (FromEinoSlice msgs)).
Definition adapter_Append (a : ManagerAdapter) (sid : string) (msgs : list (option Message)) : ManagerAdapter * option gerror :=
  (mkAdapter (Append (ad_inner a) (ad_now a) sid (ToEinoSlice msgs)) (ad_now a), None).

#[export] Program Instance adapter_store : Store ManagerAdapter := {|
  store_get := adapter_Get;
  store_append := adapter_Append;
  store_view a sid := FromEinoSlice (msgs_of (ad_inner a) sid) |}.
Next Obligation. intros a sid s' l. unfold adapter_Get. simpl. intros [= _ <-]. by rewrite app_nil_r. Qed.
Next Obligation. done. Qed.
Next Obligation.
  intros a sid msgs s'. unfold adapter_Append. intros [= <-]. unfold msgs_of, Append. simpl.
  rewrite lookup_insert_eq. simpl. unfold FromEinoSlice, ToEinoSlice. by rewrite fmap_app, <- list_fmap_compose.
Qed.
Next Obligation. intros a sid msgs sid' H. unfold adapter_Append, msgs_of, Append. simpl. by rewrite lookup_insert_ne. Qed.

(** * Properties *)

(** ** Clean-up *)

(** Clean-up removes exactly the sessions whose last access is older than
    the limit, counts them, and keeps the others untouched; a session that was
    loaded from the history file and never accessed has no access time and is
    never removed, however old. *)
Theorem Cleanup_spec m now maxAge m' n :
  Cleanup m now maxAge = (m', n) ->
  (forall sid, sessions m' !! sid =
     match lastAccess m !! sid with
     | Some t => if bool_decide (maxAge < now - t)%Z then None else sessions m !! sid
     | None => sessions m !! sid
     end)
  /\ n = size (filter (expired now maxAge) (lastAccess m))
  /\ (forall sid, lastAccess m !! sid = None -> sessions m' !! sid = sessions m !! sid).
Proof.
  intros [= <- <-].
  assert (forall sid, (sessions m ∖ (const [] <$> filter (expired now maxAge) (lastAccess m))) !! sid =
     match lastAccess m !! sid with
     | Some t => if bool_decide (maxAge < now - t)%Z then None else sessions m !! sid
     | None => sessions m !! sid
     end) as H.
  { intros sid. rewrite lookup_difference, lookup_fmap, map_lookup_filter.
    destruct (lastAccess m !! sid) as [t|] eqn:E; simpl; [|done].
    case_bool_decide as Hb; case_guard as Hg; simpl; try done; unfold expired in Hg; simpl in Hg; lia. }
  simpl. split; [exact H|]. split; [done|]. intros sid Hn. by rewrite H, Hn.
Qed.

(** ** History *)

(** What survives a save: messages are present, and images have a source. *)
Definition storable (m : option eino_message) : Prop :=
  match m with Some m => Forall (fun p => exists u, part_Image p = Some (mkImage (Some u) None "") \/ part_Image p = None) (e_Multi m)
             | None => False end.

Lemma toEinoPart_plain p :
  (exists u, part_Image p = Some (mkImage (Some u) None "") \/ part_Image p = None) ->
  toEinoPart (part_item p) = p.
Proof.
  destruct p as [typ text img]. simpl. intros [u [->| ->]].
  - exact (toEinoPart_item typ text (Some u)).
  - exact (toEinoPart_item typ text None).
Qed.

Lemma history_roundtrip m h :
  storable m -> toHistoryMsg m = Some h -> Some (fromHistoryMsg h) = m.
Proof.
  destruct m as [[r c rc tcs id nm mc]|]; [|done]. rewrite toHistoryMsg_convert. simpl. intros Hm [= <-]. unfold fromHistoryMsg. simpl.
  f_equal. f_equal.
  - rewrite <- list_fmap_compose. apply map_id_Forall, Forall_forall. by intros [] _.
  - destruct mc as [|p mc]; [done|]. cbn [length Nat.ltb Nat.leb]. unfold fromEinoMultiContent, toEinoMultiContent.
    rewrite fmap_cons. cbn [length Nat.ltb Nat.leb]. rewrite <- fmap_cons, <- list_fmap_compose.
    apply map_id_Forall. eapply Forall_impl; [exact Hm|]. intros x Hx. by apply toEinoPart_plain.
Qed.

(** Parts of the deprecated field come back as parts of the user's input. *)
Lemma history_parts_moved parts m : e_Multi m = [] -> parts <> [] ->
  e_Multi (fromHistoryMsg (history_message parts m))
  = (fun p => mkPart (cp_Type p) (cp_Text p) ((fun u => mkImage (Some u) None "") <$> cp_ImageURL p)) <$> parts.
Proof.
  intros Hm Hp. unfold fromHistoryMsg, history_message. cbn [hm_Multi e_Multi]. unfold history_multi. rewrite Hm.
  change (0 <? length (@nil input_part))%nat with false. cbv iota.
  assert ((0 <? length parts)%nat = true) as -> by (destruct parts; [done|by apply Nat.ltb_lt; cbn; lia]).
  unfold chatMessagePartsToMaps. rewrite collect_fmap, length_fmap.
  assert ((0 <? length parts)%nat = true) as -> by (destruct parts; [done|by apply Nat.ltb_lt; cbn; lia]).
  unfold toEinoMultiContent. rewrite <- list_fmap_compose. apply list_fmap_ext. intros _ [typ text [u|]] _.
  - exact (toEinoPart_item typ text (Some u)).
  - exact (toEinoPart_item typ text None).
Qed.

Lemma mapM_history_roundtrip msgs hs :
  Forall storable msgs -> mapM toHistoryMsg msgs = Some hs -> from_history hs = msgs.
Proof.
  intros Hs H. apply mapM_Some in H. induction H as [|m h msgs hs Hm H IH]; [done|].
  inversion_clear Hs as [|? ? H1 H2]. unfold from_history in *. rewrite fmap_cons, IH by done. f_equal.
  by apply history_roundtrip.
Qed.

(** Saving and loading the history brings every session back: for sessions
    of present messages (texts, tool calls, images by URL), loading what was
    saved into an empty manager yields the same conversations; a manager with a
    nil message panics instead of saving. JSON is assumed to give back the
    values it encoded, for those that satisfy [json_ok] (valid UTF-8 texts). *)
Theorem Save_Load_roundtrip {bytes} json_enc (json_dec : bytes -> option _) json_ok m d :
  (forall dto, json_ok dto -> json_dec (json_enc dto) = Some dto) ->
  json_ok (omap id (to_dto (sessions m))) -> sessions m <> ∅ -> map_Forall (fun _ msgs => Forall storable msgs) (sessions m) ->
  exists b, Save json_enc m = SaveWritten b
    /\ sessions (Load json_dec (NewManager d) b).1 = sessions m
    /\ (Load json_dec (NewManager d) b).2 = Some (size (sessions m))
    /\ (forall m' sid msgs, sessions m' !! sid = Some msgs -> None ∈ msgs -> Save json_enc m' = SavePanic).
Proof.
  intros Hj Hok Hne Hs. unfold Save.
  assert (size (sessions m) <> 0) as Hsz by (by apply map_size_ne_0_lookup; apply map_choose in Hne as (k & v & Hk); eauto).
  rewrite (proj2 (Nat.eqb_neq _ _) Hsz). unfold Marshal at 1.
  assert (map_Forall (fun _ o => is_Some o) (to_dto (sessions m))) as Hall.
  { intros k o. unfold to_dto. rewrite lookup_fmap_Some. intros (msgs & <- & Hk). apply mapM_is_Some.
    specialize (Hs k msgs Hk). eapply Forall_impl; [exact Hs|]. intros [x|] Hx; [by eexists|done]. }
  rewrite bool_decide_eq_true_2 by done.
  assert (forall k, from_history <$> (omap id (to_dto (sessions m)) : gmap string (list historyMessage)) !! k
      = sessions m !! k) as Hlk.
  { intros k. unfold to_dto. rewrite lookup_omap, lookup_fmap. destruct (sessions m !! k) as [msgs|] eqn:E; [|done]. simpl.
    destruct (Hall k (mapM toHistoryMsg msgs)) as [hs Hhs]; [unfold to_dto; by rewrite lookup_fmap, E|].
    rewrite Hhs. simpl. f_equal. apply mapM_history_roundtrip; [by apply (Hs k)|done]. }
  eexists. split; [reflexivity|]. unfold Load, Unmarshal. rewrite Hj by done. simpl.
  assert (from_history <$> (omap id (to_dto (sessions m)) : gmap string (list historyMessage)) = sessions m) as ->.
  { apply map_eq. intros k. by rewrite lookup_fmap, Hlk. }
  split; [by rewrite map_union_empty|]. split; [done|].
  intros m' sid msgs Hm' Hnil.
  rewrite (proj2 (Nat.eqb_neq _ _)) by (apply map_size_ne_0_lookup; by exists sid, msgs).
  unfold Marshal. rewrite bool_decide_eq_false_2; [done|]. intros Hf.
  specialize (Hf sid (mapM toHistoryMsg msgs)). unfold to_dto in Hf. rewrite lookup_fmap, Hm' in Hf. specialize (Hf eq_refl).
  apply mapM_is_Some in Hf. rewrite Forall_forall in Hf. destruct (Hf None Hnil) as [? [=]].
Qed.

(** ** Witnesses *)

Definition old_manager : Manager := mkManager {[ "a" := [] ]} {[ "a" := 0%Z ]} "default".

Lemma Cleanup_spec_witness :
  sessions old_manager !! "a" = Some [] /\ sessions (Cleanup old_manager 100 10).1 !! "a" = None
  /\ (Cleanup old_manager 100 10).2 = 1.
Proof.
  split; [reflexivity|].
  destruct (Cleanup_spec old_manager 100 10 _ _ (surjective_pairing (Cleanup old_manager 100 10))) as (H1 & H2 & _).
  split; [exact (H1 "a")|exact H2].
Defined.

Definition one_session : Manager :=
  mkManager {[ "a" := [Some (mkEino "user" "hi" "" [] "" "" [])] ]} ∅ "default".

Lemma Save_Load_roundtrip_witness :
  exists b, Save (fun x => x) one_session = SaveWritten b
    /\ sessions (Load Some (NewManager "") b).1 = sessions one_session.
Proof.
  destruct (Save_Load_roundtrip (fun x => x) Some (fun _ => True) one_session "") as (b & H1 & H2 & _).
  - reflexivity.
  - exact I.
  - apply map_non_empty_singleton.
  - apply map_Forall_singleton. constructor; [constructor|constructor].
  - exists b. split; [exact H1|exact H2].
Defined.
