(* ===== verification/History.v ===== *)
(** * The history file

    [internal/session/manager.go] (Save, Load, Marshal, Unmarshal) down to the
    bytes of the file: the structs of the history are written with their fields
    in the order of their declaration, maps with sorted keys, and read back by
    the decoder of [encoding/json] into the same structs. With
    [internal/server/server.go], SaveHistory and LoadHistory. *)
From stdpp Require Import base tactics list gmap fin_maps strings.
From Stdlib Require Import ZArith NArith Lia.
From S2P Require Import Prelude GoStrings GoRegex Types GoJSONText GoJSONStruct Bridge Session.

(** ** Encoding *)

Definition tool_call_tree (t : historyToolCall) : any :=
  AObj [("id", AStr (htc_ID t)); ("type", AStr (htc_Type t)); ("name", AStr (htc_Name t)); ("arguments", AStr (htc_Arguments t))].

(** [omitempty] *)
Definition opt_str (k v : string) : list (string * any) := if v <>s "" then [(k, AStr v)] else [].
Definition opt_arr {A} (k : string) (f : A -> any) (l : list A) : list (string * any) :=
  match l with [] => [] | _ => [(k, AArr (map f l))] end.

Definition message_tree (h : historyMessage) : any :=
  AObj ([("role", AStr (hm_Role h)); ("content", AStr (hm_Content h))]
        ++ opt_str "reasoning_content" (hm_Reasoning h) ++ opt_arr "tool_calls" tool_call_tree (hm_ToolCalls h)
        ++ opt_str "tool_call_id" (hm_ToolCallID h) ++ opt_str "name" (hm_Name h)
        ++ opt_arr "multi_content" (fun m => canon (AObj m)) (hm_Multi h)).

Definition session_tree (msgs : list historyMessage) : any := AArr (map message_tree msgs).

Definition history_tree (dto : gmap string (list historyMessage)) : any :=
  AObj (sort_fields (map_vals session_tree (map_to_list dto))).

(** [json.Marshal(dto)] *)
Definition history_enc (dto : gmap string (list historyMessage)) : string := text (history_tree dto).

(** ** Decoding *)

Definition zero_call : historyToolCall := mkHTC "" "" "" "".
Definition call_fields : list (string * into historyToolCall) :=
  [("id", field_into htc_ID (fun s t => mkHTC s (htc_Type t) (htc_Name t) (htc_Arguments t)) str_into);
   ("type", field_into htc_Type (fun s t => mkHTC (htc_ID t) s (htc_Name t) (htc_Arguments t)) str_into);
   ("name", field_into htc_Name (fun s t => mkHTC (htc_ID t) (htc_Type t) s (htc_Arguments t)) str_into);
   ("arguments", field_into htc_Arguments (fun s t => mkHTC (htc_ID t) (htc_Type t) (htc_Name t) s) str_into)].
Definition decode_call : into historyToolCall := struct_into call_fields.

Section Decoding.
(** How a number literal becomes a [float64]. *)
Context (num : string -> option string).

Definition zero_message : historyMessage := mkHM "" "" "" [] "" "" [].
Definition message_fields : list (string * into historyMessage) :=
  [("role", field_into hm_Role (fun s h => mkHM s (hm_Content h) (hm_Reasoning h) (hm_ToolCalls h) (hm_ToolCallID h) (hm_Name h) (hm_Multi h)) str_into);
   ("content", field_into hm_Content (fun s h => mkHM (hm_Role h) s (hm_Reasoning h) (hm_ToolCalls h) (hm_ToolCallID h) (hm_Name h) (hm_Multi h)) str_into);
   ("reasoning_content", field_into hm_Reasoning (fun s h => mkHM (hm_Role h) (hm_Content h) s (hm_ToolCalls h) (hm_ToolCallID h) (hm_Name h) (hm_Multi h)) str_into);
   ("tool_calls", field_into hm_ToolCalls (fun l h => mkHM (hm_Role h) (hm_Content h) (hm_Reasoning h) l (hm_ToolCallID h) (hm_Name h) (hm_Multi h)) (slice_into zero_call decode_call));
   ("tool_call_id", field_into hm_ToolCallID (fun s h => mkHM (hm_Role h) (hm_Content h) (hm_Reasoning h) (hm_ToolCalls h) s (hm_Name h) (hm_Multi h)) str_into);
   ("name", field_into hm_Name (fun s h => mkHM (hm_Role h) (hm_Content h) (hm_Reasoning h) (hm_ToolCalls h) (hm_ToolCallID h) s (hm_Multi h)) str_into);
   ("multi_content", field_into hm_Multi (fun l h => mkHM (hm_Role h) (hm_Content h) (hm_Reasoning h) (hm_ToolCalls h) (hm_ToolCallID h) (hm_Name h) l)
      (slice_into [] (anymap_into num)))].
Definition decode_message : into historyMessage := struct_into message_fields.

Definition decode_history : into (gmap string (list historyMessage)) := map_into [] (slice_into zero_message decode_message).

(** [json.Unmarshal(data, &dto)] *)
Definition history_dec (data : string) : option (gmap string (list historyMessage)) := UnmarshalInto ∅ decode_history data.
End Decoding.

(** ** The server's save and load *)

(** [SaveHistory] with the contents of the file before; [None] is a panic. A
    failed write leaves what [broken] says. *)
Definition SaveHistory (write_ok : bool) (broken : option string) (m : Manager) (file : option string) : option (option string) :=
  match Save history_enc m with
  | SaveNothing => Some file
  | SavePanic => None
  | SaveWritten b => Some (if write_ok then Some b else broken)
  end.

(** [LoadHistory]: a file that is missing or cannot be decoded is only
    reported. *)
Definition LoadHistory (num : string -> option string) (m : Manager) (file : option string) : Manager :=
  match file with None => m | Some b => (Load (history_dec num) m b).1 end.

(** ** What is read back *)

(** The items of a message with their fields sorted, as they are read. *)
Definition norm_item (m : list (string * any)) : list (string * any) := match canon (AObj m) with AObj l => l | _ => [] end.
Definition norm_hm (h : historyMessage) : historyMessage :=
  mkHM (hm_Role h) (hm_Content h) (hm_Reasoning h) (hm_ToolCalls h) (hm_ToolCallID h) (hm_Name h) (map norm_item (hm_Multi h)).

Lemma decode_call_tree t : decode_call zero_call (tool_call_tree t) = Some t.
Proof. by destruct t. Qed.

Lemma decode_item num m : wf_any num (AObj m) = true -> anymap_into num [] (canon (AObj m)) = Some (norm_item m).
Proof.
  intros H%canon_wf. unfold norm_item. cbn [canon] in *. cbn [anymap_into wf_any] in *. apply andb_prop in H as [Hnd%bool_decide_eq_true_1 H%forallb_Forall].
  apply (settle_fields_wf num []); [done|]. eapply Forall_impl; [exact H|]. intros p [_ Hp]%andb_prop. by apply settle_wf.
Qed.

Section Feed.
Context (num : string -> option string).

Definition feed (acc : option historyMessage) (l : list (string * any)) : option historyMessage :=
  foldl (set_field (message_fields num)) acc l.

(** The segments of a message: a field that was left out keeps its zero value. *)
Lemma feed_reasoning r c tcs id nm mc v :
  feed (Some (mkHM r c "" tcs id nm mc)) (opt_str "reasoning_content" v) = Some (mkHM r c v tcs id nm mc).
Proof. unfold opt_str. destruct (String.eqb_spec v "") as [->|]; reflexivity. Qed.
Lemma feed_call_id r c rc tcs nm mc v :
  feed (Some (mkHM r c rc tcs "" nm mc)) (opt_str "tool_call_id" v) = Some (mkHM r c rc tcs v nm mc).
Proof. unfold opt_str. destruct (String.eqb_spec v "") as [->|]; reflexivity. Qed.
Lemma feed_name r c rc tcs id mc v :
  feed (Some (mkHM r c rc tcs id "" mc)) (opt_str "name" v) = Some (mkHM r c rc tcs id v mc).
Proof. unfold opt_str. destruct (String.eqb_spec v "") as [->|]; reflexivity. Qed.
Lemma feed_calls r c rc id nm mc v :
  feed (Some (mkHM r c rc [] id nm mc)) (opt_arr "tool_calls" tool_call_tree v) = Some (mkHM r c rc v id nm mc).
Proof.
  destruct v as [|t v]; [done|].
  transitivity ((fun l => mkHM r c rc l id nm mc) <$> elems_into zero_call decode_call [] (map tool_call_tree (t :: v))); [reflexivity|].
  rewrite elems_fresh, mapM_map_id; [done|]. apply Forall_forall. intros. apply decode_call_tree.
Qed.
Lemma feed_multi r c rc tcs id nm v : Forall (fun m => wf_any num (AObj m) = true) v ->
  feed (Some (mkHM r c rc tcs id nm [])) (opt_arr "multi_content" (fun m => canon (AObj m)) v) = Some (mkHM r c rc tcs id nm (map norm_item v)).
Proof.
  destruct v as [|t v]; [done|]. intros Hv.
  transitivity ((fun l => mkHM r c rc tcs id nm l) <$> elems_into [] (anymap_into num) [] (map (fun m => canon (AObj m)) (t :: v))); [reflexivity|].
  rewrite elems_fresh, (mapM_map_norm _ _ norm_item); [done|]. eapply Forall_impl; [exact Hv|]. intros m. apply decode_item.
Qed.

Lemma feed_app acc a b : feed acc (a ++ b) = feed (feed acc a) b.
Proof. apply foldl_app. Qed.

Lemma decode_message_tree h : Forall (fun m => wf_any num (AObj m) = true) (hm_Multi h) ->
  decode_message num zero_message (message_tree h) = Some (norm_hm h).
Proof.
  destruct h as [r c rc tcs id nm mc]. unfold decode_message, message_tree, norm_hm. cbn [struct_into].
  cbn [hm_Role hm_Content hm_Reasoning hm_ToolCalls hm_ToolCallID hm_Name hm_Multi]. intros Hmc.
  match goal with |- foldl _ ?a ?l = _ => change (feed a l = Some (mkHM r c rc tcs id nm (map norm_item mc))) end.
  rewrite feed_app. change (feed (Some zero_message) [("role", AStr r); ("content", AStr c)]) with (Some (mkHM r c "" [] "" "" [])).
  by rewrite feed_app, feed_reasoning, feed_app, feed_calls, feed_app, feed_call_id, feed_app, feed_name, feed_multi.
Qed.

Lemma decode_history_tree dto :
  map_Forall (fun _ ms => Forall (fun h => Forall (fun m => wf_any num (AObj m) = true) (hm_Multi h)) ms) dto ->
  decode_history num ∅ (history_tree dto) = Some (map norm_hm <$> dto).
Proof.
  intros H. unfold decode_history, history_tree. rewrite sort_fields_map by apply NoDup_fst_map_to_list.
  apply map_into_map; [apply sort_fields_perm|]. rewrite sort_fields_perm. apply Forall_forall. intros [k ms] Hk%elem_of_map_to_list.
  cbn [snd slice_into session_tree]. rewrite elems_fresh. apply mapM_map_norm. eapply Forall_impl; [exact (H k ms Hk)|]. apply decode_message_tree.
Qed.
End Feed.

(** ** Histories that can be written *)

Section Writable.
Context (num : string -> option string).

Definition call_ok (t : historyToolCall) : bool :=
  utf8b (htc_ID t) && utf8b (htc_Type t) && utf8b (htc_Name t) && utf8b (htc_Arguments t).
Definition item_ok (m : list (string * any)) : bool := wf_any num (AObj m) && (depth (AObj m) <=? 2).
Definition hm_ok (h : historyMessage) : bool :=
  utf8b (hm_Role h) && utf8b (hm_Content h) && utf8b (hm_Reasoning h) && forallb call_ok (hm_ToolCalls h)
  && utf8b (hm_ToolCallID h) && utf8b (hm_Name h) && forallb item_ok (hm_Multi h).

Lemma tool_call_fine t : call_ok t = true -> fine num 1 (tool_call_tree t).
Proof.
  unfold call_ok. intros H. bool_prop. apply fine_obj.
  - apply (bool_decide_unpack _). vm_compute. exact I.
  - repeat (apply Forall_cons; split; [split; [done|by apply fine_str]|]). constructor.
Qed.

Definition message_keys : list string :=
  ["role"; "content"; "reasoning_content"; "tool_calls"; "tool_call_id"; "name"; "multi_content"].

Lemma message_fine h : hm_ok h = true -> fine num 4 (message_tree h).
Proof.
  unfold hm_ok. intros H. bool_prop. repeat match goal with H : forallb _ _ = true |- _ => apply forallb_Forall in H end.
  unfold message_tree. apply fine_obj.
  - apply (sublist_NoDup _ message_keys); [apply (bool_decide_unpack _); vm_compute; exact I|].
    rewrite !fmap_app. unfold opt_str, opt_arr. destruct (hm_Reasoning h =s ""), (hm_ToolCalls h), (hm_ToolCallID h =s ""), (hm_Name h =s ""), (hm_Multi h);
      cbn; unfold message_keys; repeat constructor.
  - apply Forall_app; split; [repeat (apply Forall_cons; split; [split; [done|by apply fine_str]|]); constructor|].
    assert (forall k v, utf8b k = true -> utf8b v = true -> Forall (fun p => utf8b p.1 = true /\ fine num 3 p.2) (opt_str k v)) as Hs.
    { intros k v Hk Hv. unfold opt_str. destruct (v =s ""); [constructor|]. apply Forall_cons; split; [split; [done|by apply fine_str]|constructor]. }
    assert (forall A k (f : A -> any) l, utf8b k = true -> Forall (fun x => fine num 2 (f x)) l ->
      Forall (fun p => utf8b p.1 = true /\ fine num 3 p.2) (opt_arr k f l)) as Ha.
    { intros A k f l Hk Hl. destruct l as [|x l]; [constructor|]. constructor; [|constructor]. split; [done|]. apply fine_arr.
      by apply List.Forall_map. }
    repeat (apply Forall_app; split); try (apply Hs; [by vm_compute|done]); apply Ha; try (by vm_compute).
    + eapply Forall_impl; [eassumption|]. intros t Ht. apply (fine_more _ 1); [lia|]. by apply tool_call_fine.
    + eapply Forall_impl; [eassumption|]. intros m [Hm1 Hm2%Nat.leb_le]%andb_prop. by apply fine_canon.
Qed.

Lemma history_fine dto : map_Forall (fun k ms => utf8b k = true /\ Forall (fun h => hm_ok h = true) ms) dto -> fine num 6 (history_tree dto).
Proof.
  intros H. unfold history_tree. apply fine_obj.
  - rewrite sort_fields_perm, map_vals_keys. apply NoDup_fst_map_to_list.
  - rewrite sort_fields_perm. unfold map_vals. apply Forall_fmap, Forall_forall. intros [k ms] Hk%elem_of_map_to_list.
    destruct (H k ms Hk) as [Hu Hms]. cbn [compose fst snd]. split; [done|]. apply fine_arr, List.Forall_map.
    eapply Forall_impl; [exact Hms|]. apply message_fine.
Qed.

(** The bytes of a history decode to the history. *)
Lemma history_codec dto : map_Forall (fun k ms => utf8b k = true /\ Forall (fun h => hm_ok h = true) ms) dto ->
  history_dec num (history_enc dto) = Some (map norm_hm <$> dto).
Proof.
  intros Hd. pose proof (history_fine dto Hd) as [H1 H2]. unfold history_dec, history_enc, UnmarshalInto.
  rewrite Parse_text; [|by eapply wf_any_some|unfold maxNestingDepth; lia]. apply decode_history_tree.
  intros k ms Hk. destruct (Hd k ms Hk) as [_ Hms]. eapply Forall_impl; [exact Hms|]. intros h Hh. unfold hm_ok in Hh. bool_prop.
  match goal with H : forallb item_ok _ = true |- _ => apply forallb_Forall in H; eapply Forall_impl; [exact H|] end.
  intros m Hm. unfold item_ok in Hm. by bool_prop.
Qed.
End Writable.

(** ** Saving and loading *)

(** A part that can be written: valid UTF-8, and an image by its address. *)
Definition part_ok (p : input_part) : bool :=
  utf8b (part_Type p) && utf8b (part_Text p)
  && match part_Image p with
     | None => true
     | Some i => match img_URL i, img_Base64 i with Some u, None => utf8b u && (img_MIME i =s "") | _, _ => false end
     end.
Definition eino_ok (m : option eino_message) : bool :=
  match m with
  | None => false
  | Some m =>
      utf8b (e_Role m) && utf8b (e_Content m) && utf8b (e_Reasoning m)
      && forallb (fun t => utf8b (ID t) && utf8b (Type_ t) && utf8b (Name t) && utf8b (Arguments t)) (e_ToolCalls m)
      && utf8b (e_ToolCallID m) && utf8b (e_Name m) && forallb part_ok (e_Multi m)
  end.

Lemma part_item_fine num p : part_ok p = true -> item_ok num (part_item p) = true /\ toEinoPart (norm_item (part_item p)) = p.
Proof.
  destruct p as [typ text [[u b mime]|]]; unfold part_ok; cbn [part_Type part_Text part_Image img_URL img_Base64 img_MIME]; intros H.
  - destruct u as [u|]; [|by rewrite andb_false_r in H]. destruct b as [b|]; [by rewrite andb_false_r in H|]. bool_prop. subst mime.
    unfold item_ok, part_item. cbn [part_Type part_Text part_Image img_Base64 img_URL].
    destruct (String.eqb_spec text "") as [->|]; cbn [negb app];
      (split; [cbn [wf_any forallb fst snd]|reflexivity]);
      repeat match goal with H : utf8b _ = true |- _ => rewrite H; clear H end; reflexivity.
  - bool_prop. unfold item_ok, part_item. cbn [part_Type part_Text part_Image].
    destruct (String.eqb_spec text "") as [->|]; cbn [negb app];
      (split; [cbn [wf_any forallb fst snd]|reflexivity]);
      repeat match goal with H : utf8b _ = true |- _ => rewrite H; clear H end; reflexivity.
Qed.

Lemma history_message_fine num m : eino_ok m = true -> exists h, toHistoryMsg m = Some h /\ hm_ok num h = true
  /\ Some (fromHistoryMsg (norm_hm h)) = m.
Proof.
  destruct m as [m|]; [|done]. rewrite toHistoryMsg_convert. destruct m as [r c rc tcs id nm mc]. cbn [eino_ok].
  cbn [e_Role e_Content e_Reasoning e_ToolCalls e_ToolCallID e_Name e_Multi]. intros H. bool_prop.
  eexists. split; [reflexivity|].
  assert ((if 0 <? length mc then fromEinoMultiContent mc else []) = map part_item mc) as -> by (by destruct mc).
  match goal with H : forallb part_ok _ = true |- _ => apply forallb_Forall in H; rename H into Hmc end.
  match goal with H : forallb _ tcs = true |- _ => rename H into Htc end. split.
  - unfold hm_ok. cbn [hm_Role hm_Content hm_Reasoning hm_ToolCalls hm_ToolCallID hm_Name hm_Multi].
    repeat match goal with H : utf8b _ = true |- _ => rewrite H; clear H end. cbn [andb].
    apply andb_true_intro. split.
    + rewrite andb_true_r, andb_true_r. apply forallb_Forall. change (@fmap list list_fmap) with (@map). apply List.Forall_map, forallb_Forall. exact Htc.
    + apply forallb_Forall, List.Forall_map. eapply Forall_impl; [exact Hmc|]. intros p Hp. by apply part_item_fine.
  - unfold norm_hm, fromHistoryMsg. cbn [hm_Role hm_Content hm_Reasoning hm_ToolCalls hm_ToolCallID hm_Name hm_Multi]. f_equal. f_equal.
    + rewrite <- list_fmap_compose. apply map_id_Forall, Forall_forall. by intros [] _.
    + assert (toEinoMultiContent (map norm_item (map part_item mc)) = mc) as E.
      { unfold toEinoMultiContent. change (@fmap list list_fmap) with (@map). rewrite !map_map.
        rewrite (Forall_map_eq _ (fun p => p)); [apply map_id|]. eapply Forall_impl; [exact Hmc|]. intros p Hp. by apply (part_item_fine (fun _ => None)). }
      destruct mc; [done|]. exact E.
Qed.

Lemma history_messages_fine num msgs : forallb eino_ok msgs = true -> exists hs, mapM toHistoryMsg msgs = Some hs
  /\ Forall (fun h => hm_ok num h = true) hs /\ from_history (map norm_hm hs) = msgs.
Proof.
  induction msgs as [|m msgs IH]; [by exists []|]. intros [Hm Hms]%andb_prop.
  destruct (history_message_fine num m Hm) as (h & H1 & H2 & H3). destruct (IH Hms) as (hs & H4 & H5 & H6).
  exists (h :: hs). cbn. rewrite H1. cbn. rewrite H4. split; [done|]. split; [by constructor|]. cbn. by rewrite H3, <- H6 at 1.
Qed.

(** The file that is written, and what loading it gives. *)
Lemma history_saved num m m0 file broken :
  sessions m <> ∅ -> map_Forall (fun sid msgs => utf8b sid = true /\ forallb eino_ok msgs = true) (sessions m) ->
  exists b, SaveHistory true broken m file = Some (Some b)
    /\ forall sid, sessions (LoadHistory num m0 (Some b)) !! sid
         = match sessions m !! sid with Some msgs => Some msgs | None => sessions m0 !! sid end.
Proof.
  intros Hne Hok. set (dto := omap id (to_dto (sessions m)) : gmap string (list historyMessage)).
  assert (forall k msgs, sessions m !! k = Some msgs -> exists hs, mapM toHistoryMsg msgs = Some hs
    /\ Forall (fun h => hm_ok num h = true) hs /\ from_history (map norm_hm hs) = msgs) as Hs
    by (intros k msgs Hk; apply history_messages_fine, (Hok k msgs Hk)).
  assert (map_Forall (fun _ o => is_Some o) (to_dto (sessions m))) as Hall.
  { intros k o. unfold to_dto. rewrite lookup_fmap_Some. intros (msgs & <- & Hk). destruct (Hs k msgs Hk) as (hs & -> & _). by eexists. }
  assert (map_Forall (fun k ms => utf8b k = true /\ Forall (fun h => hm_ok num h = true) ms) dto) as Hdto.
  { intros k ms. unfold dto, to_dto. rewrite lookup_omap, lookup_fmap. destruct (sessions m !! k) as [msgs|] eqn:E; [|done].
    destruct (Hs k msgs E) as (hs & H1 & H2 & _). cbn. rewrite H1. intros [= <-]. split; [apply (Hok k msgs E)|done]. }
  exists (history_enc dto). split.
  - unfold SaveHistory, Save. rewrite (proj2 (Nat.eqb_neq _ _)); [|by apply map_size_ne_0_lookup; apply map_choose in Hne as (k & v & Hk); eauto].
    unfold Session.Marshal. by rewrite bool_decide_eq_true_2.
  - intros sid. cbn [LoadHistory]. unfold Load, Session.Unmarshal. rewrite (history_codec num dto Hdto). cbn [sessions fst].
    rewrite lookup_union, !lookup_fmap. unfold dto, to_dto. rewrite lookup_omap, lookup_fmap.
    destruct (sessions m !! sid) as [msgs|] eqn:E; cbn; [|by destruct (sessions m0 !! sid)].
    destruct (Hs sid msgs E) as (hs & H1 & _ & H3). rewrite H1. cbn. rewrite H3. by destruct (sessions m0 !! sid).
Qed.

(** C12: the history file brings every conversation back, byte for byte: saving
    sessions of valid UTF-8 text with their reasoning, tool calls and images by
    address writes JSON from which loading, whatever the program held under
    those names before, restores exactly those sessions. *)
Theorem history_file_roundtrip num m m0 file broken :
  sessions m <> ∅ -> map_Forall (fun sid msgs => utf8b sid = true /\ forallb eino_ok msgs = true) (sessions m) ->
  exists b, SaveHistory true broken m file = Some (Some b)
    /\ forall sid, sessions (LoadHistory num m0 (Some b)) !! sid
         = match sessions m !! sid with Some msgs => Some msgs | None => sessions m0 !! sid end.
Proof. apply history_saved. Qed.

Definition rich_message : eino_message :=
  mkEino "assistant" ("a " +:+ dq +:+ "quote" +:+ dq) "why" [mkToolCall "c1" "function" "ls" "{}"] "" "" [mkPart "image_url" "" (Some (mkImage (Some "http://x/y") None ""))].
Definition rich_manager : Manager := mkManager {["s" := [Some rich_message]]} ∅ "default".

Lemma history_file_roundtrip_witness : exists b, SaveHistory true None rich_manager None = Some (Some b)
  /\ sessions (LoadHistory Some (NewManager "") (Some b)) !! "s" = Some [Some rich_message].
Proof.
  destruct (history_file_roundtrip Some rich_manager (NewManager "") None None) as (b & H1 & H2).
  - discriminate.
  - intros k msgs Hk. cbn [sessions rich_manager] in Hk. apply lookup_singleton_Some in Hk as [<- <-]. split; vm_compute; reflexivity.
  - exists b. split; [exact H1|exact (H2 "s")].
Defined.

(** A file that is not a history changes nothing. *)
Example load_garbage m : LoadHistory Some m (Some "not json") = m /\ LoadHistory Some m (Some "[1]") = m.
Proof. split; reflexivity. Qed.
