(* ===== verification/Agent.v ===== *)
(** * The agent's runner

    [internal/adk/middleware], [internal/adk/runner.go] and the parts of
    [internal/adk/react.go] around the agent framework: the middleware chain,
    the guarded tool, the preparation of a request from the session, and the
    two ways of running a turn. The framework's agent is an argument; a store
    is anything with the laws of the class [Store]. *)
From stdpp Require Import base tactics list gmap strings.
From Stdlib Require Import ZArith Lia.
From S2P Require Import Prelude GoStrings GoJSONText Types Tools Bridge Session.

(** The verb [%q] on a string; runes above ASCII are taken to be printable. *)
Definition quote_byte (c : ascii) : string :=
  let n := nat_of_ascii c in
  let esc (k : nat) := bytes [92; k] in
  if (n =? 34) || (n =? 92) then esc n
  else if n =? 7 then esc 97 else if n =? 8 then esc 98 else if n =? 12 then esc 102 else if n =? 10 then esc 110
  else if n =? 13 then esc 114 else if n =? 9 then esc 116 else if n =? 11 then esc 118
  else if (n <? 32) || (n =? 127) then bytes [92; 120] +:+ String (hex_digit (n / 16)) (String (hex_digit (n mod 16)) "")
  else String c "".
Fixpoint quote_bytes (s : string) : string := match s with EmptyString => "" | String c s' => quote_byte c +:+ quote_bytes s' end.
Definition Quote (s : string) : string := bytes [34] +:+ quote_bytes s +:+ bytes [34].

(** ** Middleware *)

Section Middleware.
Context {W : Type}.

Record ModelRequest := mkMReq { mr_Messages : list (option Message); mr_Tools : list string; mr_SessionID : string }.
Record ModelResponse := mkMResp { mp_Messages : list (option Message); mp_Stats : string }.
Record mwToolCall := mkMCall { mc_Name : string; mc_Arguments : string; mc_ToolID : string }.
Record mwToolResult := mkMRes { mx_Name : string; mx_Result : string; mx_Error : option gerror; mx_ToolID : string }.

Record Middleware := mkMW {
  BeforeModel : W -> ModelRequest -> W * (gerror + ModelRequest);
  AfterModel : W -> ModelRequest -> ModelResponse -> W * (gerror + ModelResponse);
  BeforeTool : W -> mwToolCall -> W * (gerror + mwToolCall);
  AfterTool : W -> mwToolCall -> mwToolResult -> W * (gerror + mwToolResult) }.

(** The loops of [AroundModel] and [AroundTool]; [around]: the first loop, the
    call, and the second loop from the last middleware to the first. *)
Section Around.
Context {Req Resp : Type}.

Fixpoint run_before (l : list (W -> Req -> W * (gerror + Req))) (w : W) (req : Req) : W * (gerror + Req) :=
  match l with
  | [] => (w, inr req)
  | f :: l' => let '(w1, r) := f w req in
               match r with inl e => (w1, inl e) | inr req' => run_before l' w1 req' end
  end.

Fixpoint run_after (l : list (W -> Req -> Resp -> W * (gerror + Resp))) (w : W) (req : Req) (resp : Resp)
  : W * (gerror + Resp) :=
  match l with
  | [] => (w, inr resp)
  | f :: l' => let '(w1, r) := f w req resp in
               match r with inl e => (w1, inl e) | inr resp' => run_after l' w1 req resp' end
  end.

Definition around (befores : list (W -> Req -> W * (gerror + Req)))
    (afters : list (W -> Req -> Resp -> W * (gerror + Resp)))
    (next : W -> Req -> W * (gerror + Resp)) (w : W) (req : Req) : W * (gerror + Resp) :=
  let '(w1, r) := run_before befores w req in
  match r with
  | inl e => (w1, inl e)
  | inr req' =>
      let '(w2, r2) := next w1 req' in
      match r2 with inl e => (w2, inl e) | inr resp => run_after (reverse afters) w2 req' resp end
  end.
End Around.

(** [AroundModel] is the same with a call that may panic ([None]), which ends
    the chain. *)
Definition AroundModel (mws : list Middleware) (next : W -> ModelRequest -> W * option (gerror + ModelResponse))
    (w : W) (req : ModelRequest) : W * option (gerror + ModelResponse) :=
  let '(w1, r) := run_before (BeforeModel <$> mws) w req in
  match r with
  | inl e => (w1, Some (inl e))
  | inr req' =>
      let '(w2, r2) := next w1 req' in
      match r2 with
      | None => (w2, None)
      | Some (inl e) => (w2, Some (inl e))
      | Some (inr resp) => let '(w3, r3) := run_after (reverse (AfterModel <$> mws)) w2 req' resp in (w3, Some r3)
      end
  end.
Definition AroundTool (mws : list Middleware) := around (BeforeTool <$> mws) (AfterTool <$> mws).
Definition BeforeModelChain (mws : list Middleware) := run_before (BeforeModel <$> mws).

(** [MiddlewareFuncs]: optional functions with pass-through defaults. *)
Definition MiddlewareFuncs
    (bm : option (W -> ModelRequest -> W * (gerror + ModelRequest)))
    (am : option (W -> ModelRequest -> ModelResponse -> W * (gerror + ModelResponse)))
    (bt : option (W -> mwToolCall -> W * (gerror + mwToolCall)))
    (at_ : option (W -> mwToolCall -> mwToolResult -> W * (gerror + mwToolResult))) : Middleware :=
  mkMW (fun w r => match bm with Some f => f w r | None => (w, inr r) end)
       (fun w r x => match am with Some f => f w r x | None => (w, inr x) end)
       (fun w c => match bt with Some f => f w c | None => (w, inr c) end)
       (fun w c x => match at_ with Some f => f w c x | None => (w, inr x) end).

(** [Guardrails.Check] on a name and arguments, in a world that it may change
    (it looks at the registry's cached availability): the reason for a refusal,
    if it refuses. *)
Definition guard_fn : Type := W -> string -> string -> W * option string.

(** What a tool does when it is run, if it can be run. *)
Definition tool_fn : Type := W -> string -> W * (string * option gerror).

(** [middlewareWrappedTool.InvokableRun]: a tool that cannot be run is an error;
    then guardrails on the name and arguments as received, then the chain
    around the tool. *)
Definition wrapped_run (mws : option (list Middleware)) (guards : option guard_fn) (name : string) (inner : option tool_fn)
    (w : W) (args : string) : W * (string * option gerror) :=
  match inner with
  | None => (w, ("", Some (EMsg ("tool " +:+ name +:+ " is not invokable"))))
  | Some tool =>
      let '(w0, refused) := match guards with Some g => g w name args | None => (w, None) end in
      match refused with
      | Some reason => (w0, ("", Some (EMsg ("tool " +:+ name +:+ " blocked by guardrails: " +:+ reason))))
      | None =>
          match mws with
          | None => tool w0 args
          | Some mws =>
              let next w (call : mwToolCall) :=
                let '(w1, (res, err)) := tool w (mc_Arguments call) in
                (w1, inr (mkMRes (mc_Name call) res err "")) in
              let '(w1, r) := AroundTool mws next w0 (mkMCall name args "") in
              match r with
              | inl e => (w1, ("", Some e))
              | inr res => (w1, (mx_Result res, mx_Error res))
              end
          end
      end
  end.
End Middleware.
Arguments Middleware : clear implicits.
Arguments guard_fn : clear implicits.
Arguments tool_fn : clear implicits.

(** The next choice of a [select] between going on and the end of the context;
    when the list is used up the context does not end any more. *)
Definition ask (fs : list bool) : bool * list bool :=
  match fs with [] => (true, []) | b :: fs' => (b, fs') end.

(** The last six messages: the agent's [MessageRewriter]. *)
Definition MessageRewriter {A} (msgs : list A) : list A :=
  if (length msgs <=? 6)%nat then msgs else drop (length msgs - 6) msgs.

(** ** Runner *)

Record agent_request := mkAReq { ar_Messages : list (option Message); ar_SessionID : string; ar_ToolNames : list string }.
Record agent_response := mkAResp { ap_Messages : list (option Message); ap_Stats : string }.

(** Events on the runner's bus. *)
Inductive run_event := EvAgentStart (sid : string) | EvAgentEnd (sid : string) | EvError (e : gerror).

Section Runner.
Context {W S : Type} `{Store S}.
Context (guard : option (guard_fn W)).
Context (mws : option (list (Middleware W))).
(** The agent: what [r.agent.Run] does; the response may be nil. *)
Context (agent : W -> agent_request -> W * (gerror + option agent_response)).

Record rworld := mkRW { rw_W : W; rw_store : option S; rw_bus : list run_event }.

Definition emit (e : run_event) (w : rworld) : rworld := mkRW (rw_W w) (rw_store w) (rw_bus w ++ [e]).

Definition set_rw_W (x : W) (w : rworld) : rworld := mkRW x (rw_store w) (rw_bus w).

(** Tool calls already in the request must pass the guardrails: the first that
    does not, with the reason. *)
Fixpoint check_calls (g : guard_fn W) (x : W) (tcs : list ToolCall) : W * option (string * string) :=
  match tcs with
  | [] => (x, None)
  | tc :: rest =>
      let '(x1, refused) := g x (Name tc) (Arguments tc) in
      match refused with Some reason => (x1, Some (Name tc, reason)) | None => check_calls g x1 rest end
  end.

Definition blocked_call (x : W) (msgs : list (option Message)) : W * option (string * string) :=
  match guard with
  | None => (x, None)
  | Some g => check_calls g x (concat ((fun m => match m with Some m => ToolCalls m | None => [] end) <$> msgs))
  end.

(** [prepareRequest] *)
Definition prepareRequest (w : rworld) (req : option agent_request) : rworld * (gerror + agent_request) :=
  match req with
  | None => (w, inl (EMsg "agent request is nil"))
  | Some req =>
      let '(x, blocked) := blocked_call (rw_W w) (ar_Messages req) in
      let w0 := set_rw_W x w in
      match blocked with
      | Some (name, reason) =>
          (w0, inl (EMsg ("tool " +:+ name +:+ " blocked by guardrails: " +:+ reason)))
      | None =>
          match rw_store w0 with
          | Some st =>
              if ar_SessionID req <>s "" then
                let '(st', r) := store_get st (ar_SessionID req) in
                let w1 := mkRW x (Some st') (rw_bus w0) in
                match r with
                | inl e => (w1, inl (EWrap ("load session " +:+ Quote (ar_SessionID req)) e))
                | inr existing => (w1, inr (mkAReq (existing ++ ar_Messages req) (ar_SessionID req) (ar_ToolNames req)))
                end
              else (w0, inr req)
          | None => (w0, inr req)
          end
      end
  end.

Definition appendConversation (w : rworld) (sid : string) (input output : list (option Message)) : rworld * option gerror :=
  match rw_store w with
  | Some st =>
      if sid =s "" then (w, None)
      else let '(st', err) := store_append st sid (input ++ output) in
           (mkRW (rw_W w) (Some st') (rw_bus w), EWrap ("append session " +:+ Quote sid) <$> err)
  | None => (w, None)
  end.

(** The model call, inside the middleware chain if there is one. [None] is a
    panic: in the chain a nil response is dereferenced. *)
Definition run_agent (w : rworld) (req : agent_request) : rworld * option (gerror + option agent_response) :=
  match mws with
  | Some mws =>
      let next x (mreq : ModelRequest) :=
        let '(x1, r) := agent x (mkAReq (mr_Messages mreq) (mr_SessionID mreq) (mr_Tools mreq)) in
        (x1, match r with
             | inl e => Some (inl e)
             | inr (Some resp) => Some (inr (mkMResp (ap_Messages resp) (ap_Stats resp)))
             | inr None => None
             end) in
      let '(x, r) := AroundModel mws next (rw_W w)
                       (mkMReq (ar_Messages req) (ar_ToolNames req) (ar_SessionID req)) in
      (set_rw_W x w, match r with
                     | None => None
                     | Some (inl e) => Some (inl e)
                     | Some (inr mresp) => Some (inr (Some (mkAResp (mp_Messages mresp) (mp_Stats mresp))))
                     end)
  | None => let '(x, r) := agent (rw_W w) req in (set_rw_W x w, Some r)
  end.

(** [Run]; [None] is a panic. *)
Definition Run (w : rworld) (req : option agent_request) : rworld * option (gerror + agent_response) :=
  let input := match req with Some r => ar_Messages r | None => [] end in
  let '(w1, p) := prepareRequest w req in
  match p with
  | inl e => (emit (EvError e) w1, Some (inl e))
  | inr preq =>
      let w2 := emit (EvAgentStart (ar_SessionID preq)) w1 in
      let '(w3, r) := run_agent w2 preq in
      match r with
      | None => (w3, None)
      | Some (inl e) => (emit (EvError e) w3, Some (inl e))
      | Some (inr resp) =>
          let resp := default (mkAResp [] "") resp in
          let '(w4, err) := appendConversation w3 (ar_SessionID preq) input (ap_Messages resp) in
          match err with
          | Some e => (emit (EvError e) w4, Some (inl e))
          | None => (emit (EvAgentEnd (ar_SessionID preq)) w4, Some (inr resp))
          end
      end
  end.

(** ** The goroutine of [Stream] *)

Inductive ev_type := EventText | EventReasoning | EventToolCall | EventToolResult | EventError | EventDone.
Record agent_event := mkEv { ae_Type : ev_type; ae_Content : string }.

(** What the goroutine meets: an event that is forwarded, an event whose
    forwarding loses to the end of the context, or the end of the context. The
    end of the list is the closed channel. *)
Inductive sevent := SEv (e : agent_event) (forwarded : bool) | SCtxDone.

(** The events forwarded, and the reply to record when the turn completed. *)
Fixpoint stream_turn (content reasoning : string) (evs : list sevent)
  : list agent_event * option Message :=
  match evs with
  | [] => ([], Some (mkMessage RoleAssistant content reasoning [] "" "" []))
  | SCtxDone :: _ => ([], None)
  | SEv e fwd :: rest =>
      let content := match ae_Type e with EventText => content +:+ ae_Content e | _ => content end in
      let reasoning := match ae_Type e with EventReasoning => reasoning +:+ ae_Content e | _ => reasoning end in
      match ae_Type e with
      | EventError => (if fwd then [e] else [], None)
      | _ => if fwd then let '(out, m) := stream_turn content reasoning rest in (e :: out, m)
             else ([], None)
      end
  end.

(** The whole goroutine; [told] says whether the error of the append is still
    delivered or loses to the end of the context. *)
Definition stream_run (w : rworld) (sid : string) (input : list (option Message)) (evs : list sevent) (told : bool)
  : rworld * list agent_event :=
  let '(out, m) := stream_turn "" "" evs in
  match m with
  | None => (emit (EvAgentEnd sid) w, out)
  | Some m =>
      let '(w1, err) := appendConversation w sid input [Some m] in
      match err with
      | None => (emit (EvAgentEnd sid) w1, out)
      | Some e => (emit (EvAgentEnd sid) (emit (EvError e) w1), out ++ if told then [mkEv EventError (Error e)] else [])
      end
  end.

(** The goroutine's two selects on the agent's events [raw]: [fs] says of each
    whether it goes on. It uses two choices for each event and one at the end. *)
Fixpoint runner_feed (fs : list bool) (raw : list agent_event) : list sevent :=
  let '(go, fs1) := ask fs in
  if negb go then [SCtxDone]
  else match raw with
       | [] => []
       | e :: rest => let '(fwd, fs2) := ask fs1 in SEv e fwd :: runner_feed fs2 rest
       end.

(** The [BeforeModel] part of the chain, the only one a streamed turn runs. *)
Definition before_model (w : rworld) (req : agent_request) : rworld * (gerror + agent_request) :=
  match mws with
  | None => (w, inr req)
  | Some mws =>
      let '(x, r) := BeforeModelChain mws (rw_W w) (mkMReq (ar_Messages req) (ar_ToolNames req) (ar_SessionID req)) in
      (set_rw_W x w, match r with
                     | inl e => inl e
                     | inr m => inr (mkAReq (mr_Messages m) (ar_SessionID req) (mr_Tools m))
                     end)
  end.

(** [Stream] with its goroutine: [agent_Stream] is what [r.agent.Stream] does,
    a list of events up to the closing of its channel. *)
Definition runner_Stream (agent_Stream : W -> agent_request -> W * (gerror + list agent_event)) (fs : list bool)
    (w : rworld) (req : option agent_request) : rworld * (gerror + list agent_event) :=
  let input := match req with Some r => ar_Messages r | None => [] end in
  let '(w1, p) := prepareRequest w req in
  match p with
  | inl e => (emit (EvError e) w1, inl e)
  | inr preq =>
      let '(w2, m) := before_model (emit (EvAgentStart (ar_SessionID preq)) w1) preq in
      match m with
      | inl e => (emit (EvError e) w2, inl e)
      | inr areq =>
          let '(x, r) := agent_Stream (rw_W w2) areq in
          let w3 := set_rw_W x w2 in
          match r with
          | inl e => (emit (EvError e) w3, inl e)
          | inr raw =>
              let told := (ask (drop (2 * length raw + 1) fs)).1 in
              let '(w4, out) := stream_run w3 (ar_SessionID areq) input (runner_feed fs raw) told in (w4, inr out)
          end
      end
  end.
End Runner.

(** * Properties *)

(** ** Order of the middlewares *)

(** Middlewares that write to a log and pass everything on. *)
Definition log_mw {A} (before after : A) : Middleware (list A) :=
  mkMW (fun w r => (w ++ [before], inr r)) (fun w _ x => (w ++ [after], inr x))
       (fun w c => (w ++ [before], inr c)) (fun w _ x => (w ++ [after], inr x)).

Lemma run_before_log {A Req} (bs : list A) w (req : Req) :
  run_before ((fun b w r => (w ++ [b], inr r)) <$> bs) w req = (w ++ bs, inr req).
Proof.
  revert w. induction bs as [|b bs IH]; intros w; simpl; [by rewrite app_nil_r|].
  rewrite IH, <- app_assoc. done.
Qed.

Lemma run_after_log {A Req Resp} (bs : list A) w (req : Req) (resp : Resp) :
  run_after ((fun b w _ x => (w ++ [b], inr x)) <$> bs) w req resp = (w ++ bs, inr resp).
Proof.
  revert w. induction bs as [|b bs IH]; intros w; simpl; [by rewrite app_nil_r|].
  rewrite IH, <- app_assoc. done.
Qed.

(** A failing first loop never calls the tool or the model. *)
Lemma around_before_fails {W Req Resp} bs (afs : list (W -> Req -> Resp -> W * (gerror + Resp))) next w req w1 e :
  run_before bs w req = (w1, inl e) -> around bs afs next w req = (w1, inl e).
Proof. intros H. unfold around. by rewrite H. Qed.

(** The chain is an onion: the before hooks run in registration order, then
    the call once, then the after hooks in reverse order; if a before hook fails
    the call does not happen. *)
Theorem AroundTool_onion {A} (l : list (A * A)) (call : A) c res :
  let mws := (fun p => log_mw p.1 p.2) <$> l in
  AroundTool mws (fun w c => (w ++ [call], inr res)) [] c
  = ((l.*1) ++ [call] ++ reverse (l.*2), inr res)
  /\ (forall mws' next (w w1 : list A) e, run_before (BeforeTool <$> mws') w c = (w1, inl e) ->
        AroundTool mws' next w c = (w1, inl e)).
Proof.
  intros mws. split.
  - unfold AroundTool, around.
    assert (BeforeTool <$> mws = (fun b w r => (w ++ [b], inr r)) <$> l.*1) as ->.
    { unfold mws. by rewrite <- !list_fmap_compose. }
    assert (AfterTool <$> mws = (fun b w _ x => (w ++ [b], inr x)) <$> l.*2) as ->.
    { unfold mws. by rewrite <- !list_fmap_compose. }
    rewrite run_before_log, <- fmap_reverse, run_after_log. by rewrite app_assoc.
  - intros. by apply around_before_fails.
Qed.

Lemma AroundTool_onion_witness :
  AroundTool [log_mw 1 10; log_mw 2 20] (fun w c => (w ++ [5], inr (mkMRes "t" "" None ""))) []
    (mkMCall "t" "" "") = ([1; 2; 5; 20; 10], inr (mkMRes "t" "" None "")).
Proof. exact (proj1 (AroundTool_onion [(1, 10); (2, 20)] 5 (mkMCall "t" "" "") (mkMRes "t" "" None ""))). Defined.

(** ** What a turn records *)

Section RunnerProperties.
Context {W S : Type} `{Store S}.
Context (guard : option (guard_fn W)) (mws : option (list (Middleware W)))
        (agent : W -> agent_request -> W * (gerror + option agent_response)).

(** The messages of a session, none without a store. *)
Definition view (w : @rworld W S) (sid : string) : list (option Message) :=
  match rw_store w with Some st => store_view st sid | None => [] end.

(** Preparing a request changes no session; when it succeeds the request is for
    the same session, with the session's messages in front. *)
Lemma prepareRequest_spec (w : @rworld W S) req w1 p : prepareRequest guard w (Some req) = (w1, p) ->
  (forall sid, view w1 sid = view w sid) /\ (rw_store w1 = None <-> rw_store w = None)
  /\ forall preq, p = inr preq -> ar_SessionID preq = ar_SessionID req
       /\ ar_Messages preq = (if ar_SessionID req =s "" then [] else view w (ar_SessionID req)) ++ ar_Messages req.
Proof.
  unfold prepareRequest. destruct (blocked_call guard (rw_W w) (ar_Messages req)) as [x [[n r]|]]; [by intros [= <- <-]|].
  unfold view. cbn [set_rw_W rw_store rw_bus].
  destruct (rw_store w) as [st|] eqn:Es; [|intros [= <- <-]; cbn [set_rw_W rw_store]; rewrite Es; split_and!; try done; intros preq [= <-]; by case_match].
  destruct (ar_SessionID req =s "") eqn:E; cbn [negb].
  { intros [= <- <-]. cbn [set_rw_W rw_store]. rewrite Es. split_and!; try done. by intros preq [= <-]. }
  pose proof (store_get_keeps st (ar_SessionID req)) as Hk. destruct (store_get st (ar_SessionID req)) as [st' [e|ex]] eqn:Eg;
    intros [= <- <-]; cbn [rw_store fst] in *; split_and!; try done.
  intros preq [= <-]. cbn [ar_SessionID ar_Messages]. by rewrite (store_get_view _ _ _ _ Eg).
Qed.

Lemma run_agent_store (w : @rworld W S) req w1 r : run_agent mws agent w req = (w1, r) -> rw_store w1 = rw_store w.
Proof.
  unfold run_agent. destruct mws as [l|].
  - destruct (AroundModel l _ _ _) as [x y]. by intros [= <- <-].
  - destruct (agent (rw_W w) req) as [x y]. by intros [= <- <-].
Qed.

(** A panic means that the agent returned nil under a middleware chain. *)
Lemma run_agent_panics (w : @rworld W S) req w1 : run_agent mws agent w req = (w1, None) ->
  mws <> None /\ exists x areq x1, agent x areq = (x1, inr None).
Proof.
  unfold run_agent. destruct mws as [l|]; [|by destruct (agent (rw_W w) req)]. intros Hr. split; [done|]. unfold AroundModel in Hr.
  destruct (run_before _ _ _) as [w2 [e|req']]; [done|].
  match type of Hr with context [agent ?x ?q] => destruct (agent x q) as [x1 [e|[resp|]]] eqn:Ea end; [done| |eauto].
  by destruct (run_after _ _ _ _) as [w3 [e|m]].
Qed.

(** What an append leaves, and how it fails. *)
Definition append_failed (w w' : @rworld W S) (sid : string) (msgs : list (option Message)) (e : gerror) : Prop :=
  exists st st' e', rw_store w = Some st /\ store_append st sid msgs = (st', Some e') /\ rw_store w' = Some st'
    /\ e = EWrap ("append session " +:+ Quote sid) e' /\ forall sid', sid' <> sid -> view w' sid' = view w sid'.

Lemma appendConversation_spec (w w' : @rworld W S) sid a b err : appendConversation w sid a b = (w', err) ->
  match err with
  | Some e => append_failed w w' sid (a ++ b) e
  | None => forall sid', view w' sid' =
      if bool_decide (sid' = sid) && (sid <>s "") then
        match rw_store w with Some st => view w sid ++ (FromEino ∘ ToEino <$> a ++ b) | None => [] end
      else view w sid'
  end.
Proof.
  unfold appendConversation, append_failed, view. destruct (rw_store w) as [st|] eqn:Es; [|intros [= <- <-]; rewrite Es; by intros; case_match].
  destruct (sid =s "") eqn:E; cbn [negb]; [intros [= <- <-]; rewrite Es; intros; by rewrite andb_false_r|].
  pose proof (fun sid' => store_append_other st sid (a ++ b) sid') as Ho. destruct (store_append st sid (a ++ b)) as [st' [e|]] eqn:Ea;
    intros [= <- <-]; cbn [rw_store fst fmap option_fmap option_map] in *.
  - exists st, st', e. split_and!; done.
  - intros sid'. rewrite andb_true_r. case_bool_decide as Hs; [subst; by apply store_append_view|by apply Ho].
Qed.

Lemma appendConversation_bus (w : @rworld W S) sid a b : rw_bus (appendConversation w sid a b).1 = rw_bus w.
Proof.
  unfold appendConversation. destruct (rw_store w); [|done]. destruct (sid =s ""); [done|]. by destruct (store_append _ _ _).
Qed.

End RunnerProperties.

(** ** Streamed turns *)

Definition texts (ty : ev_type -> bool) (evs : list sevent) : string :=
  foldr (fun x acc => match x with
                      | SEv e _ => if ty (ae_Type e) then ae_Content e +:+ acc else acc
                      | SCtxDone => acc end) "" evs.
Definition is_text (t : ev_type) : bool := match t with EventText => true | _ => false end.
Definition is_reasoning (t : ev_type) : bool := match t with EventReasoning => true | _ => false end.

(** The turn completed: every event was forwarded and none was an error. *)
Definition completed (x : sevent) : bool :=
  match x with SEv e fwd => fwd && match ae_Type e with EventError => false | _ => true end | SCtxDone => false end.

Definition forwarded_events (evs : list sevent) : list agent_event :=
  omap (fun x => match x with SEv e _ => Some e | SCtxDone => None end) evs.

Lemma stream_turn_completed c r evs :
  forallb completed evs = true ->
  stream_turn c r evs =
  (forwarded_events evs,
   Some (mkMessage RoleAssistant (c +:+ texts is_text evs) (r +:+ texts is_reasoning evs) [] "" "" [])).
Proof.
  revert c r. induction evs as [|[e fwd|] evs IH]; intros c r Hc; simpl in *; [by rewrite !str_app_nil_r| |done].
  apply andb_prop in Hc as [He Hc]. apply andb_prop in He as [-> He].
  destruct e as [[] txt]; simpl in *; try done; rewrite IH by done; by rewrite ?str_app_assoc.
Qed.

Lemma stream_turn_broken c r evs :
  forallb completed evs = false -> (stream_turn c r evs).2 = None.
Proof.
  revert c r. induction evs as [|[e fwd|] evs IH]; intros c r Hc; simpl in *; [done| |done].
  destruct fwd; simpl in Hc; [|by destruct (ae_Type e)].
  destruct e as [[] txt]; simpl in *; try done;
    match goal with |- context [stream_turn ?a ?b evs] =>
      specialize (IH a b Hc); destruct (stream_turn a b evs) as [o m] end; done.
Qed.

(** A streamed turn is recorded whole or not at all: when every event was
    forwarded and none was an error, the caller's messages and one reply with
    the concatenated texts are appended to the session, unless the store fails,
    which the client is told; after an error event, a cancelled context or a
    lost event, every session is as it was. *)
Theorem stream_run_records {W S : Type} `{Store S} (w : @rworld W S) sid input evs told w' out :
  stream_run w sid input evs told = (w', out) ->
  let reply := Some (mkMessage RoleAssistant (texts is_text evs) (texts is_reasoning evs) [] "" "" []) in
  if forallb completed evs then
    (out = forwarded_events evs
     /\ forall sid', view w' sid' =
         if bool_decide (sid' = sid) && (sid <>s "") then
           match rw_store w with Some _ => view w sid ++ (FromEino ∘ ToEino <$> input ++ [reply]) | None => [] end
         else view w sid')
    \/ exists e, append_failed w w' sid (input ++ [reply]) e
         /\ out = forwarded_events evs ++ if told then [mkEv EventError (Error e)] else []
  else forall sid', view w' sid' = view w sid'.
Proof.
  unfold stream_run. destruct (forallb completed evs) eqn:E.
  - rewrite stream_turn_completed by done. cbn [String.append].
    destruct (appendConversation w sid input _) as [w1 err] eqn:Ea. apply appendConversation_spec in Ea.
    destruct err as [e|]; intros [= <- <-]; [right; by exists e|by left].
  - pose proof (stream_turn_broken "" "" evs E) as Hb. destruct (stream_turn "" "" evs) as [o m].
    simpl in Hb. subst m. by intros [= <- <-].
Qed.

(** ** Witnesses *)

Definition adapter0 : ManagerAdapter := mkAdapter (NewManager "") 0.
Definition rw0 : @rworld unit ManagerAdapter := mkRW tt (Some adapter0) [].
Definition user_msg (s : string) : option Message := Some (mkMessage RoleUser s "" [] "" "" []).
Definition echo_agent (w : unit) (r : agent_request) : unit * (gerror + option agent_response) :=
  (w, inr (Some (mkAResp [Some (mkMessage RoleAssistant "hi" "" [] "" "" [])] ""))).


(** A store of which nothing can be read, or nothing written. *)
Record broken_store := mkBroken { bs_unreadable : bool }.
#[export] Program Instance broken_is_store : Store broken_store := {|
  store_get s _ := (s, if bs_unreadable s then inl EEOF else inr []);
  store_append s _ _ := (s, Some EEOF);
  store_view _ _ := [] |}.
Next Obligation. cbn. intros s sid s' l. destruct (bs_unreadable s); by intros [= _ <-]. Qed.
Next Obligation. done. Qed.
Next Obligation. done. Qed.
Next Obligation. done. Qed.

Example Run_store_errors : forall b,
  (Run None None echo_agent (mkRW tt (Some (mkBroken b)) []) (Some (mkAReq [user_msg "hello"] "s" []))).2
  = Some (inl (EWrap (if b then "load session " +:+ Quote "s" else "append session " +:+ Quote "s") EEOF)).
Proof. by intros []. Qed.

(** An agent that returns nil: an empty answer without middlewares, a panic with them. *)
Definition nil_agent (w : unit) (r : agent_request) : unit * (gerror + option agent_response) := (w, inr None).
Example Run_nil_response :
  (Run None None nil_agent rw0 (Some (mkAReq [] "s" []))).2 = Some (inr (mkAResp [] ""))
  /\ (Run None (Some []) nil_agent rw0 (Some (mkAReq [] "s" []))).2 = None.
Proof. done. Qed.

Lemma stream_run_records_witness :
  view (stream_run rw0 "s" [user_msg "hello"] [SEv (mkEv EventText "h") true; SEv (mkEv EventText "i") true] true).1 "s"
  = [user_msg "hello"; Some (mkMessage RoleAssistant "hi" "" [] "" "" [])].
Proof.
  destruct (stream_run_records rw0 "s" [user_msg "hello"]
    [SEv (mkEv EventText "h") true; SEv (mkEv EventText "i") true] true _ _
    (surjective_pairing _)) as [[_ E]|(e & (st & st' & e' & [= <-] & [=] & _) & _)].
  exact (E "s").
Defined.
