(* ===== verification/React.v ===== *)
(** * The agent and its assembly

    [internal/adk/react.go] and the constructors of [internal/adk/runner.go]:
    the tools handed to the agent framework, plain or behind guardrails and
    middlewares, the two functions that shape the model's input, and the loops
    that turn the framework's stream into a response or into events. The
    framework's own agent is an argument: a function of its configuration. *)
From stdpp Require Import base tactics list gmap strings.
From Stdlib Require Import ZArith Lia.
From S2P Require Import Prelude GoStrings Types Think Tools Bridge Session Agent.

Section React.
Context {W : Type}.

(** ** What the framework is given *)

(** A tool: what it tells the model about itself, and how it is run if it can be
    ([einotool.InvokableTool]). *)
Record base_tool := mkBase { bt_Info : tool_info; bt_invoke : option (tool_fn W) }.

(** Running it; a tool that cannot be run fails. *)
Definition bt_run (t : base_tool) (w : W) (args : string) : W * (string * option gerror) :=
  match bt_invoke t with Some f => f w args | None => (w, ("", Some (EMsg "tool is not invokable"))) end.

(** A chat model: the bridge's [Stream], on messages that are there (the bridge
    panics on a nil message). *)
Definition chat_model : Type := W -> list eino_message -> W * (gerror + list item).

(** [react.AgentConfig]. *)
Record react_config := mkRC {
  rc_Model : chat_model; rc_Tools : list base_tool; rc_MaxStep : Z;
  rc_Rewriter : list (option eino_message) -> list (option eino_message);
  rc_Modifier : list (option eino_message) -> list (option eino_message) }.

(** [react.Agent]: what its [Stream] does. The end of the list is [io.EOF]. *)
Definition fw_agent : Type := W -> list (option eino_message) -> W * (gerror + list item).
Context (react_NewAgent : react_config -> gerror + fw_agent).

(** ** Configuration *)

(** [reg.Get(name)] and [ToEinoTool]. *)
Definition registry : Type := string -> option base_tool.

Record AgentConfig := mkAC {
  ac_Bridge : option chat_model; ac_Tools : registry; ac_ToolNames : list string; ac_Prompt : string;
  ac_MaxSteps : Z; ac_Middleware : option (list (Middleware W)); ac_Guardrails : option (guard_fn W) }.

(** [einoTools]: names the registry does not know are passed over. *)
Definition einoTools (reg : registry) (names : list string) : list base_tool := omap reg names.

(** [middlewareWrappedTool]: the information of the inner tool, and a guarded run. *)
Definition middlewareWrappedTool (name : string) (inner : base_tool) (chain : option (list (Middleware W)))
    (guards : option (guard_fn W)) : base_tool :=
  mkBase (bt_Info inner) (Some (wrapped_run chain guards name (bt_invoke inner))).

Definition einoToolsWrapped (reg : registry) (names : list string) (chain : option (list (Middleware W)))
    (guards : option (guard_fn W)) : list base_tool :=
  omap (fun name => (fun t => middlewareWrappedTool name t chain guards) <$> reg name) names.

Definition SystemMessage (content : string) : eino_message := mkEino "system" content "" [] "" "" [].
Definition MessageModifier (prompt : string) (input : list (option eino_message)) : list (option eino_message) :=
  Some (SystemMessage prompt) :: input.

Definition agent_tools (cfg : AgentConfig) : list base_tool :=
  match ac_Middleware cfg, ac_Guardrails cfg with
  | None, None => einoTools (ac_Tools cfg) (ac_ToolNames cfg)
  | _, _ => einoToolsWrapped (ac_Tools cfg) (ac_ToolNames cfg) (ac_Middleware cfg) (ac_Guardrails cfg)
  end.

Definition agent_config (cfg : AgentConfig) (br : chat_model) : react_config :=
  mkRC br (agent_tools cfg) (ac_MaxSteps cfg) MessageRewriter (MessageModifier (ac_Prompt cfg)).

Definition NewReactAgent (cfg : option AgentConfig) : gerror + fw_agent :=
  match cfg with
  | None => inl (EMsg "agent config is nil")
  | Some cfg =>
      match ac_Bridge cfg with
      | None => inl (EMsg "bridge is required for ReactAgent")
      | Some br =>
          match react_NewAgent (agent_config cfg br) with
          | inl e => inl (EWrap "create react agent" e)
          | inr a => inr a
          end
      end
  end.

(** ** [ReactAgent.Run] *)

Fixpoint recv_all (l : list item) : gerror + list eino_message :=
  match l with
  | [] => inr []
  | inl e :: _ => inl (EWrap "agent stream recv" e)
  | inr m :: rest => match recv_all rest with inl e => inl e | inr ms => inr (m :: ms) end
  end.

(** [stats] is the bridge's [StatsLine]. *)
Definition react_Run (stats : W -> string) (a : fw_agent) (w : W) (req : agent_request)
  : W * (gerror + option agent_response) :=
  let '(w1, r) := a w (ToEinoSlice (ar_Messages req)) in
  (w1, match r with
       | inl e => inl (EWrap "agent stream" e)
       | inr l =>
           match recv_all l with
           | inl e => inl e
           | inr [] => inl (EMsg "agent returned no messages")
           | inr ms => inr (Some (mkAResp (FromEinoSlice (Some <$> ms)) (stats w1)))
           end
       end).

(** ** [ReactAgent.Stream] *)

(** A select that sends an event unless the context ends; empty text is not
    sent. What was sent, whether to go on, and the remaining choices. *)
Definition offer_text (ty : ev_type) (s : string) (fs : list bool) : list agent_event * bool * list bool :=
  if s =s "" then ([], true, fs)
  else let '(go, fs') := ask fs in (if go then [mkEv ty s] else [], go, fs').

(** The goroutine. *)
Fixpoint react_events (fs : list bool) (l : list item) : list agent_event :=
  let '(go, fs1) := ask fs in
  if negb go then []
  else match l with
       | [] => []
       | inl e :: _ => if (ask fs1).1 then [mkEv EventError (Error e)] else []
       | inr m :: rest =>
           let '(out1, go1, fs2) := offer_text EventText (e_Content m) fs1 in
           if negb go1 then out1
           else let '(out2, go2, fs3) := offer_text EventReasoning (e_Reasoning m) fs2 in
                if negb go2 then out1 ++ out2 else out1 ++ out2 ++ react_events fs3 rest
       end.

Definition react_Stream (fs : list bool) (a : fw_agent) (w : W) (req : agent_request) : W * (gerror + list agent_event) :=
  let '(w1, r) := a w (ToEinoSlice (ar_Messages req)) in
  (w1, match r with inl e => inl e | inr l => inr (react_events fs l) end).

(** ** The runner's constructors *)

Record Runner {S : Type} := mkRunner {
  rn_agent : fw_agent; rn_store : option S; rn_guards : option (guard_fn W);
  rn_mw : option (list (Middleware W)) }.
Arguments Runner : clear implicits.
Arguments mkRunner {S}.

(** [RunnerConfig]; the prompt provider is its answer. *)
Record RunnerConfig {S : Type} := mkRCfg {
  rf_AgentConfig : option AgentConfig; rf_Bridge : option chat_model; rf_Tools : registry; rf_Store : option S;
  rf_Prompt : option string; rf_Guardrails : option (guard_fn W);
  rf_Middleware : option (list (Middleware W)) }.
Arguments RunnerConfig : clear implicits.

(** Of the agent's configuration only the tool names and the number of steps
    are used; everything else comes from the runner's. *)
Definition NewRunner {S} (cfg : option (RunnerConfig S)) : gerror + Runner S :=
  match cfg with
  | None => inl (EMsg "runner config is nil")
  | Some cfg =>
      match rf_AgentConfig cfg with
      | None => inl (EMsg "runner agent config is nil")
      | Some ac =>
          let agentCfg := mkAC (rf_Bridge cfg) (rf_Tools cfg) (ac_ToolNames ac) (default "" (rf_Prompt cfg))
                            (ac_MaxSteps ac) (rf_Middleware cfg) (rf_Guardrails cfg) in
          match NewReactAgent (Some agentCfg) with
          | inl e => inl (EWrap "create agent" e)
          | inr a => inr (mkRunner a (rf_Store cfg) (rf_Guardrails cfg) (rf_Middleware cfg))
          end
      end
  end.

Definition NewRunnerWithAgent {S} (a : fw_agent) (store : option S) (guards : option (guard_fn W))
    (mw : option (list (Middleware W))) : Runner S := mkRunner a store guards mw.
End React.
Arguments base_tool : clear implicits. Arguments chat_model : clear implicits.
Arguments react_config : clear implicits. Arguments fw_agent : clear implicits.
Arguments registry : clear implicits. Arguments AgentConfig : clear implicits.

(** * Properties *)

(** ** Tools behind guardrails *)

Section Assembly.
Context {W : Type} (react_NewAgent : react_config W -> gerror + fw_agent W).

(** A run that the guardrails refuse: nothing happens but their check and the
    error; a tool that cannot be run is not even checked. *)
Definition refuses (guards : guard_fn W) (name : string) (inner t : base_tool W) : Prop :=
  forall w args w1 reason, guards w name args = (w1, Some reason) ->
    bt_run t w args = match bt_invoke inner with
                      | Some _ => (w1, ("", Some (EMsg ("tool " +:+ name +:+ " blocked by guardrails: " +:+ reason))))
                      | None => (w, ("", Some (EMsg ("tool " +:+ name +:+ " is not invokable"))))
                      end.

Lemma wrapped_refuses name t (chain : option (list (Middleware W))) g : refuses g name t (middlewareWrappedTool name t chain (Some g)).
Proof.
  intros w args w1 reason Hr. unfold bt_run, middlewareWrappedTool, wrapped_run. cbn [bt_invoke].
  destruct (bt_invoke t) as [f|]; [|done]. by rewrite Hr.
Qed.

(** Without a middleware, a run that the guardrails let pass is the tool's. *)
Lemma wrapped_transparent name (t : base_tool W) g w args w1 f :
  g w name args = (w1, None) -> bt_invoke t = Some f -> bt_run (middlewareWrappedTool name t None (Some g)) w args = f w1 args.
Proof. intros Hg Hf. unfold bt_run, middlewareWrappedTool, wrapped_run. cbn [bt_invoke]. by rewrite Hf, Hg. Qed.

Lemma einoToolsWrapped_elem (reg : registry W) names chain guards t :
  t ∈ einoToolsWrapped reg names chain guards ->
  exists name inner, name ∈ names /\ reg name = Some inner /\ t = middlewareWrappedTool name inner chain guards.
Proof.
  unfold einoToolsWrapped. rewrite list_elem_of_omap. intros (name & Hn & Ht).
  destruct (reg name) as [inner|] eqn:E; [|done]. simpl in Ht. injection Ht as <-. eauto.
Qed.

(** The tools keep their information and their order, wrapped or not. *)
Lemma agent_tools_info (cfg : AgentConfig W) :
  bt_Info <$> agent_tools cfg = bt_Info <$> einoTools (ac_Tools cfg) (ac_ToolNames cfg).
Proof.
  assert (forall chain guards, bt_Info <$> einoToolsWrapped (ac_Tools cfg) (ac_ToolNames cfg) chain guards
    = bt_Info <$> einoTools (ac_Tools cfg) (ac_ToolNames cfg)) as Hw.
  { intros chain guards. unfold einoToolsWrapped, einoTools. induction (ac_ToolNames cfg) as [|n l IH]; [done|]. simpl.
    destruct (ac_Tools cfg n); simpl; [by f_equal|done]. }
  unfold agent_tools. destruct (ac_Middleware cfg), (ac_Guardrails cfg); auto.
Qed.

(** C15: No tool of an agent built with guardrails runs past them: every tool that
    the framework was configured with refuses what the guardrails refuse under
    the name it was registered with, doing nothing but their check; and the
    configuration shows the model the system prompt followed by at most the
    last six messages. *)
Theorem agent_guarded cfg g a :
  NewReactAgent react_NewAgent (Some cfg) = inr a -> ac_Guardrails cfg = Some g ->
  exists rc, react_NewAgent rc = inr a
    /\ Forall (fun t => exists name inner, name ∈ ac_ToolNames cfg /\ ac_Tools cfg name = Some inner
                 /\ bt_Info t = bt_Info inner /\ refuses g name inner t) (rc_Tools rc)
    /\ bt_Info <$> rc_Tools rc = bt_Info <$> omap (ac_Tools cfg) (ac_ToolNames cfg)
    /\ (forall msgs, exists k, rc_Modifier rc (rc_Rewriter rc msgs) = Some (SystemMessage (ac_Prompt cfg)) :: drop k msgs
                     /\ length (drop k msgs) = Nat.min 6 (length msgs)).
Proof.
  unfold NewReactAgent. destruct (ac_Bridge cfg) as [br|]; [|done].
  destruct (react_NewAgent (agent_config cfg br)) as [e|a'] eqn:E; [done|]. intros [= ->] Hg.
  exists (agent_config cfg br). split; [done|]. unfold agent_config. cbn [rc_Tools rc_Modifier rc_Rewriter]. split_and!.
  - apply Forall_forall. intros t Ht.
    assert (t ∈ einoToolsWrapped (ac_Tools cfg) (ac_ToolNames cfg) (ac_Middleware cfg) (Some g)) as Hw
      by (unfold agent_tools in Ht; rewrite Hg in Ht; by destruct (ac_Middleware cfg)).
    apply einoToolsWrapped_elem in Hw as (name & inner & Hn & Hr & ->). exists name, inner. split_and!; auto using wrapped_refuses.
  - apply agent_tools_info.
  - intros msgs. unfold MessageModifier, MessageRewriter. destruct (length msgs <=? 6)%nat eqn:El; bool_prop.
    + exists 0. rewrite drop_0. split; [done|lia].
    + exists (length msgs - 6). split; [done|]. rewrite length_drop. lia.
Qed.
End Assembly.

(** ** Streams *)

(** The events of one message of the framework. *)
Definition text_event (ty : ev_type) (s : string) : list agent_event := if s =s "" then [] else [mkEv ty s].
Definition message_events (m : eino_message) : list agent_event :=
  text_event EventText (e_Content m) ++ text_event EventReasoning (e_Reasoning m).

Lemma offer_text_open ty s : offer_text ty s [] = (text_event ty s, true, []).
Proof. unfold offer_text, text_event. by destruct (s =s ""). Qed.

(** What an offer delivers, and that it delivers all when it goes on. *)
Lemma offer_text_cases ty s fs out go fs' : offer_text ty s fs = (out, go, fs') ->
  (go = true /\ out = text_event ty s) \/ (go = false /\ out = []).
Proof.
  unfold offer_text, text_event. destruct (s =s ""); [intros [= <- <- _]; auto|].
  destruct (ask fs) as [[] fs1]; intros [= <- <- _]; auto.
Qed.

Lemma react_events_open m rest : react_events [] (inr m :: rest) = message_events m ++ react_events [] rest.
Proof. cbn [react_events ask negb]. rewrite !offer_text_open. unfold message_events. by rewrite <- app_assoc. Qed.

Lemma react_events_error e rest : react_events [] (inl e :: rest) = [mkEv EventError (Error e)].
Proof. done. Qed.

(** The end of the context cuts the events short and changes none. *)
Lemma react_events_prefix fs l : react_events fs l `prefix_of` react_events [] l.
Proof.
  revert fs. induction l as [|[e|m] l IH]; intros fs.
  - cbn [react_events]. destruct (ask fs) as [[] ?]; apply prefix_nil.
  - rewrite react_events_error. cbn [react_events]. destruct (ask fs) as [[] fs1]; [|apply prefix_nil]. cbn [negb].
    destruct (ask fs1).1; [done|apply prefix_nil].
  - rewrite react_events_open. cbn [react_events]. destruct (ask fs) as [[] fs1]; [|apply prefix_nil]. cbn [negb].
    destruct (offer_text EventText _ fs1) as [[out1 go1] fs2] eqn:E1.
    destruct (offer_text_cases _ _ _ _ _ _ E1) as [[-> ->]|[-> ->]]; [|apply prefix_nil]. cbn [negb].
    destruct (offer_text EventReasoning _ fs2) as [[out2 go2] fs3] eqn:E2. unfold message_events. rewrite <- app_assoc.
    destruct (offer_text_cases _ _ _ _ _ _ E2) as [[-> ->]|[-> ->]]; cbn [negb]; do 2 try apply prefix_app; [apply IH|apply prefix_nil].
Qed.

(** A stream of messages without an error. *)
Definition messages (ms : list eino_message) : list item := inr <$> ms.

Lemma recv_all_ok ms : recv_all (messages ms) = inr ms.
Proof. unfold messages. induction ms as [|m ms IH]; [done|]. rewrite fmap_cons. cbn [recv_all]. by rewrite IH. Qed.

Lemma react_events_ok ms : react_events [] (messages ms) = concat (message_events <$> ms).
Proof.
  unfold messages. induction ms as [|m ms IH]; [done|]. rewrite !fmap_cons, react_events_open. cbn [concat]. by rewrite IH.
Qed.

(** The text that a client of the events puts together: up to the first error. *)
Fixpoint ev_text (l : list agent_event) : string :=
  match l with
  | [] => ""
  | e :: l' => match ae_Type e with EventText => ae_Content e +:+ ev_text l' | EventError => "" | _ => ev_text l' end
  end.

(** The text of the framework's messages, up to the first error. *)
Fixpoint answer_text (l : list item) : string :=
  match l with inr m :: l' => e_Content m +:+ answer_text l' | _ => "" end.

Lemma answer_text_messages ms : answer_text (messages ms) = str_concat (e_Content <$> ms).
Proof. unfold messages. induction ms as [|m ms IH]; [done|]. rewrite !fmap_cons. cbn [answer_text]. by rewrite IH. Qed.

Lemma ev_text_events m l : ev_text (message_events m ++ l) = e_Content m +:+ ev_text l.
Proof.
  unfold message_events, text_event. destruct (String.eqb_spec (e_Content m) "") as [->|]; destruct (e_Reasoning m =s ""); done.
Qed.

Lemma react_events_text l : ev_text (react_events [] l) = answer_text l.
Proof.
  induction l as [|[e|m] l IH]; [done|done|]. rewrite react_events_open, ev_text_events. cbn [answer_text]. by rewrite IH.
Qed.

(** ** Witness *)

(** A counting tool behind guardrails that refuse the argument [rm]. *)
Definition count_tool : base_tool nat := mkBase (mkToolInfo "count" "counts" None) (Some (fun w args => (S w, (args, None)))).
Definition count_registry : registry nat := fun name => if name =s "count" then Some count_tool else None.
Definition no_rm : guard_fn nat := fun w _ args => (w, if args =s "rm" then Some "forbidden" else None).
Definition count_cfg : AgentConfig nat :=
  mkAC (Some (fun w _ => (w, inr []))) count_registry ["count"; "missing"] "p" 10 None (Some no_rm).
Definition count_fw (rc : react_config nat) : gerror + fw_agent nat := inr (fun w _ =>
  match rc_Tools rc with t :: _ => ((bt_run t w "rm").1, inr []) | [] => (w, inr []) end).

Lemma agent_guarded_witness : exists a, NewReactAgent count_fw (Some count_cfg) = inr a
  /\ exists rc, count_fw rc = inr a /\ bt_Info <$> rc_Tools rc = [mkToolInfo "count" "counts" None]
  /\ Forall (fun t => exists name inner, name ∈ ac_ToolNames count_cfg /\ ac_Tools count_cfg name = Some inner
               /\ bt_Info t = bt_Info inner /\ refuses no_rm name inner t) (rc_Tools rc).
Proof.
  eexists. split; [reflexivity|].
  destruct (agent_guarded count_fw count_cfg no_rm _ eq_refl eq_refl) as (rc & H1 & H2 & H3 & _). exists rc. split; [exact H1|].
  split; [exact H3|exact H2].
Defined.
