(* ===== verification/FileOps.v ===== *)
(** * File tools

    [tools/fileops.go]: the check that keeps the tools inside the workspace,
    and the tools that read, write, edit and search files. Paths follow the
    Unix rules of [path/filepath]. The file system is a class with the laws the
    code relies on; the working directory, directory creation, the glob and
    regular-expression engines and the order of a directory walk are
    arguments. *)
From stdpp Require Import base tactics list gmap strings pretty.
From Stdlib Require Import ZArith Lia.
From S2P Require Import Prelude GoStrings Types.

(** ** Paths *)

Definition slash : ascii := "/"%char.

(** One element of a path, on the stack of those kept. *)
Definition clean_step (rooted : bool) (st : list string) (c : string) : list string :=
  if (c =s "") || (c =s ".") then st
  else if c =s ".." then
    match st with
    | [] => if rooted then [] else [".."]
    | t :: st' => if t =s ".." then ".." :: st else st'
    end
  else c :: st.

Definition clean_parts (rooted : bool) (l : list string) : list string := rev (foldl (clean_step rooted) [] l).

(** [filepath.Clean] *)
Definition Clean (path : string) : string :=
  if path =s "" then "."
  else
    let rooted := HasPrefix path "/" in
    let out := Join (clean_parts rooted (split_byte slash path)) "/" in
    if rooted then "/" +:+ out else if out =s "" then "." else out.

(** [filepath.Join] of two elements. *)
Definition JoinPath (a b : string) : string :=
  if a =s "" then (if b =s "" then "" else Clean b)
  else if b =s "" then Clean a else Clean (a +:+ "/" +:+ b).

(** [filepath.Abs]; [wd] is what [os.Getwd] returns. *)
Definition Abs (wd : gerror + string) (path : string) : gerror + string :=
  if HasPrefix path "/" then inr (Clean path)
  else match wd with inl e => inl e | inr d => inr (JoinPath d path) end.

(** ** The workspace *)

Definition SetWorkspaceRoot (wd : gerror + string) (root : string) : string :=
  Clean (match Abs wd root with inl _ => root | inr a => a end).

Definition ValidatePath (wd : gerror + string) (workspaceRoot path : string) : gerror + string :=
  if path =s "" then inl (EMsg "path is empty")
  else
    match Abs wd path with
    | inl e => inl (EWrap "invalid path" e)
    | inr abs =>
        let cleaned := Clean abs in
        if negb (workspaceRoot =s "") && negb (HasPrefix cleaned workspaceRoot)
        then inl (EMsg ("path " +:+ cleaned +:+ " is outside workspace root " +:+ workspaceRoot))
        else inr cleaned
    end.

(** ** The file system *)

(** [os.ReadFile] and [os.WriteFile]: what a successful write leaves behind. *)
Class FileSystem (F : Type) := {
  fs_read : F -> string -> gerror + string;
  fs_write : F -> string -> string -> F * option gerror;
  fs_read_written fs p c fs' : fs_write fs p c = (fs', None) -> fs_read fs' p = inr c;
  fs_read_other fs p c fs' q : fs_write fs p c = (fs', None) -> q <> p -> fs_read fs' q = fs_read fs q }.

(** A tool's answer: an error, the text, or a panic. *)
Inductive tool_out := TErr (e : gerror) | TText (s : string) | TPanic.

(** [%d] *)
Definition showZ (z : Z) : string := pretty z.

Section Tools.
Context {F : Type} `{FileSystem F}.
Context (wd : gerror + string) (workspaceRoot : string).

Record ReadFileInput := mkRead { rPath : string; rOffset : Z; rLimit : Z }.

(** The numbered lines; [i] is the number of the first. *)
Fixpoint number_lines (i : Z) (l : list string) : string :=
  match l with
  | [] => ""
  | line :: l' => showZ i +:+ ": " +:+ line +:+ nl +:+ number_lines (i + 1) l'
  end.

Definition ReadFile (fs : F) (input : ReadFileInput) : tool_out :=
  match ValidatePath wd workspaceRoot (rPath input) with
  | inl e => TErr e
  | inr path =>
      match fs_read fs path with
      | inl e => TErr (EWrap "读取文件失败" e)
      | inr data =>
          let lines := SplitLines data in
          let start := (if 1 <? rOffset input then rOffset input - 1 else 0)%Z in
          if (Z.of_nat (length lines) <=? start)%Z
          then TErr (EMsg ("起始行 " +:+ showZ (rOffset input) +:+ " 超出文件长度 " +:+ showZ (Z.of_nat (length lines))))
          else
            let stop := wrap64 (start + rLimit input) in
            if (0 <? rLimit input)%Z && (stop <? Z.of_nat (length lines))%Z then
              if (start <=? stop)%Z
              then TText (number_lines (start + 1) (take (Z.to_nat (stop - start)) (drop (Z.to_nat start) lines)))
              else TPanic (* slice bounds out of range *)
            else TText (number_lines (start + 1) (drop (Z.to_nat start) lines))
      end
  end.

Record WriteFileInput := mkWrite { wPath : string; wContent : string }.

(** [mkdir p] is the result of [os.MkdirAll(filepath.Dir(p))]. *)
Definition WriteFile (mkdir : string -> option gerror) (fs : F) (input : WriteFileInput) : F * tool_out :=
  match ValidatePath wd workspaceRoot (wPath input) with
  | inl e => (fs, TErr e)
  | inr path =>
      match mkdir path with
      | Some e => (fs, TErr (EWrap "创建目录失败" e))
      | None =>
          match fs_write fs path (wContent input) with
          | (fs', Some e) => (fs', TErr (EWrap "写入文件失败" e))
          | (fs', None) =>
              (fs', TText ("已写入 " +:+ showZ (Z.of_nat (String.length (wContent input))) +:+ " 字节到 " +:+ path))
          end
      end
  end.

Record EditFileInput := mkEdit { ePath : string; OldText : string; NewText : string }.

Definition EditFile (fs : F) (input : EditFileInput) : F * tool_out :=
  match ValidatePath wd workspaceRoot (ePath input) with
  | inl e => (fs, TErr e)
  | inr path =>
      match fs_read fs path with
      | inl e => (fs, TErr (EWrap "读取文件失败" e))
      | inr content =>
          let n := Count content (OldText input) in
          if n =? 0 then (fs, TErr (EMsg ("在 " +:+ ePath input +:+ " 中未找到匹配的原文")))
          else
            match fs_write fs path (ReplaceAll content (OldText input) (NewText input)) with
            | (fs', Some e) => (fs', TErr (EWrap "写入文件失败" e))
            | (fs', None) =>
                (fs', TText ("已在 " +:+ ePath input +:+ " 中替换 " +:+ showZ (Z.of_nat n) +:+ " 处"))
            end
      end
  end.

(** The pattern [GlobFiles] hands to [filepath.Glob], or its error. *)
Record GlobInput := mkGlob { gPattern : string; gRoot : string }.

Definition glob_pattern (input : GlobInput) : gerror + (string * string) :=
  match ValidatePath wd workspaceRoot (if gRoot input =s "" then "." else gRoot input) with
  | inl e => inl e
  | inr root => inr (root, JoinPath root (gPattern input))
  end.

(** [glob] and [rel] are [filepath.Glob] and the path of [filepath.Rel]. *)
Definition GlobFiles (glob : string -> gerror + list string) (rel : string -> string -> string) (input : GlobInput)
  : gerror + string :=
  match glob_pattern input with
  | inl e => inl e
  | inr (root, pat) =>
      match glob pat with
      | inl e => inl (EWrap "glob 匹配失败" e)
      | inr [] => inr "未匹配到任何文件"
      | inr matches =>
          inr ("找到 " +:+ showZ (Z.of_nat (length matches)) +:+ " 个文件:" +:+ nl
               +:+ Join ((fun m => "  " +:+ rel root m +:+ nl) <$> matches) "")
      end
  end.

Record GrepInput := mkGrep { grPattern : string; grRoot : string; grInclude : string }.

(** An entry of the walk: the path, whether it is a directory, the error the
    walk met, and whether the context is done when it is visited. *)
Record walk_entry := mkWalk { weDir : bool; wePath : string; weErr : bool; weCtx : option gerror }.

(** The lines of one file that match; [i] is the number of the first line. *)
Fixpoint grep_lines (re : string -> bool) (relp : string) (i : Z) (l : list string) : list string :=
  match l with
  | [] => []
  | line :: l' =>
      (if re line then [relp +:+ ":" +:+ showZ i +:+ ": " +:+ TrimSpace line] else [])
      ++ grep_lines re relp (i + 1) l'
  end.

Definition too_many : gerror := EMsg "结果太多，已截断".

(** The walk with the callback's accumulated results. *)
Fixpoint grep_walk (fs : F) (re : string -> bool) (rel : string -> string) (include : string)
  (results : list string) (l : list walk_entry) : list string * option gerror :=
  match l with
  | [] => (results, None)
  | e :: l' =>
      match weCtx e with
      | Some err => (results, Some err)
      | None =>
          if weErr e || weDir e then grep_walk fs re rel include results l'
          else if negb (include =s "") && negb (HasSuffix (wePath e) include) then grep_walk fs re rel include results l'
          else match fs_read fs (wePath e) with
               | inl _ => grep_walk fs re rel include results l'
               | inr data =>
                   let results' := results ++ grep_lines re (rel (wePath e)) 1 (SplitLines data) in
                   if 200 <? length results' then (results', Some too_many)
                   else grep_walk fs re rel include results' l'
               end
      end
  end.

(** [compile] is [regexp.Compile]; [walk] the entries of [filepath.Walk]. *)
Definition GrepFiles (compile : string -> gerror + (string -> bool)) (walk : string -> list walk_entry)
  (rel : string -> string -> string) (fs : F) (input : GrepInput) : gerror + string :=
  match ValidatePath wd workspaceRoot (if grRoot input =s "" then "." else grRoot input) with
  | inl e => inl e
  | inr root =>
      match compile (grPattern input) with
      | inl e => inl (EWrap "正则表达式无效" e)
      | inr re =>
          match grep_walk fs re (rel root) (grInclude input) [] (walk root) with
          | ([], Some e) => inl e
          | ([], None) => inr "未找到匹配"
          | (results, _) =>
              inr ("找到 " +:+ showZ (Z.of_nat (length results)) +:+ " 处匹配:" +:+ nl
                   +:+ Join ((fun r => "  " +:+ r +:+ nl) <$> results) "")
          end
      end
  end.

End Tools.

(** A file system of paths and contents in which writes succeed. *)
#[export, refine] Instance map_fs : FileSystem (gmap string string) := {|
  fs_read fs p := match fs !! p with Some c => inr c | None => inl (EMsg "no such file or directory") end;
  fs_write fs p c := (<[p := c]> fs, None) |}.
Proof.
  - intros fs p c fs' [= <-]. by rewrite lookup_insert_eq.
  - intros fs p c fs' q [= <-] Hq. by rewrite lookup_insert_ne.
Defined.

Example Clean_ex : Clean "/a//b/./../c/" = "/a/c" /\ Clean "../a/.." = ".." /\ Clean "/.." = "/" /\ Clean "" = ".".
Proof. repeat split; reflexivity. Qed.

(** ** Paths as lists of names *)

(** No slash in it. *)
Fixpoint noslash (s : string) : bool :=
  match s with EmptyString => true | String c s' => negb (Ascii.eqb c slash) && noslash s' end.

(** A name a cleaned absolute path may contain. *)
Definition proper (c : string) : Prop := noslash c = true /\ c <> "" /\ c <> "." /\ c <> "..".

Lemma split_noslash s : Forall (fun c => noslash c = true) (split_byte slash s).
Proof.
  induction s as [|c s IH]; cbn [split_byte]; [by repeat constructor|].
  destruct (Ascii.eqb c slash) eqn:E; [by constructor|].
  destruct (split_byte slash s) as [|w ws]; [constructor; [|done]; cbn; by rewrite E|].
  apply Forall_cons in IH as [H1 H2]. constructor; [|done]. cbn. by rewrite E.
Qed.

Lemma noslash_absent s : noslash s = absent slash s.
Proof. induction s as [|c s IH]; [done|]. cbn [noslash absent]. by rewrite IH, Ascii.eqb_sym. Qed.

Lemma split_noslash_id a : noslash a = true -> split_byte slash a = [a].
Proof. rewrite noslash_absent. apply split_absent. Qed.

Lemma split_join l : l <> [] -> Forall (fun c => noslash c = true) l -> split_byte slash (Join l "/") = l.
Proof.
  intros Hl H. apply (split_Join slash); [done|]. eapply Forall_impl; [exact H|]. intros c. cbn. by rewrite noslash_absent.
Qed.

(** The names of the absolute path [p] once cleaned. *)
Definition parts (p : string) : list string := clean_parts true (split_byte slash p).

(** The absolute path with these names. *)
Definition abs_path (l : list string) : string := "/" +:+ Join l "/".

Lemma clean_step_proper st c : noslash c = true -> Forall proper st -> Forall proper (clean_step true st c).
Proof.
  intros Hc Hst. unfold clean_step. destruct (c =s "") eqn:E1; [done|]. destruct (c =s ".") eqn:E2; [done|].
  cbn [orb]. destruct (c =s "..") eqn:E3; bool_prop.
  - destruct st as [|t st]; [done|]. apply Forall_cons in Hst as [Ht Hst].
    destruct (t =s "..") eqn:E4; [bool_prop; by destruct Ht as (_ & _ & _ & Ht)|done].
  - by constructor.
Qed.

Lemma parts_proper p : Forall proper (parts p).
Proof.
  unfold parts, clean_parts. apply Forall_rev. pose proof (split_noslash p) as Hl.
  assert (Forall proper []) as Hst by done. revert Hst. generalize (@nil string) as st.
  induction Hl as [|c l Hc _ IH]; intros st Hst; [done|]. cbn [foldl]. apply IH. by apply clean_step_proper.
Qed.

Lemma clean_step_push st c : proper c -> clean_step true st c = c :: st.
Proof.
  intros (_ & H1 & H2 & H3). unfold clean_step. by rewrite !(proj2 (String.eqb_neq _ _)).
Qed.

Lemma clean_parts_id l : Forall proper l -> clean_parts true l = l.
Proof.
  intros Hl. unfold clean_parts. rewrite <- (rev_involutive l) at 2. f_equal. rewrite <- (app_nil_r (rev l)).
  generalize (@nil string) as st. induction Hl as [|c l Hc _ IH]; intros st; [done|].
  cbn [foldl]. rewrite clean_step_push, IH by done. cbn [rev]. by rewrite <- app_assoc.
Qed.

Lemma split_rooted p : split_byte slash (String slash p) = "" :: split_byte slash p.
Proof. done. Qed.

Lemma parts_abs_path l : Forall proper l -> parts (abs_path l) = l.
Proof.
  intros Hl. unfold parts, abs_path. cbn [String.append]. change (String "/" (Join l "/")) with (String slash (Join l "/")).
  rewrite split_rooted. destruct l as [|a l]; [done|].
  rewrite split_join; [|done|eapply Forall_impl; [exact Hl|by intros x [Hx _]]].
  by apply (clean_parts_id (a :: l)).
Qed.

Lemma Clean_rooted p : HasPrefix p "/" = true -> Clean p = abs_path (parts p).
Proof. intros Hp. unfold Clean, abs_path, parts. rewrite Hp. destruct p; done. Qed.

Lemma HasPrefix_abs_path l : HasPrefix (abs_path l) "/" = true.
Proof. unfold abs_path. by destruct (Join l "/"). Qed.

Lemma Clean_abs_path l : Forall proper l -> Clean (abs_path l) = abs_path l.
Proof. intros Hl. rewrite Clean_rooted, parts_abs_path by (done || apply HasPrefix_abs_path). done. Qed.

(** A prefix without a slash lies in the first name. *)
Lemma prefix_first r p t : noslash r = true -> HasPrefix (p +:+ String slash t) r = HasPrefix p r.
Proof.
  revert p. induction r as [|c r IH]; intros p Hr; [by destruct p|].
  cbn [noslash] in Hr. apply andb_prop in Hr as [Hc Hr]. destruct p as [|d p]; cbn [String.append HasPrefix].
  - apply negb_true_iff in Hc. by rewrite Hc.
  - by rewrite IH.
Qed.

(** A prefix that goes past a slash fixes the first name. *)
Lemma prefix_past r p s t : noslash r = true -> noslash p = true ->
  HasPrefix (p +:+ String slash t) (r +:+ String slash s) = (p =s r) && HasPrefix t s.
Proof.
  revert p. induction r as [|c r IH]; intros p Hr Hp; cbn [noslash] in Hr.
  - destruct p as [|d p]; [done|]. cbn [noslash] in Hp. apply andb_prop in Hp as [Hd _]. apply negb_true_iff in Hd.
    cbn [String.append HasPrefix String.eqb]. rewrite Ascii.eqb_sym, Hd. done.
  - apply andb_prop in Hr as [Hc Hr]. apply negb_true_iff in Hc. destruct p as [|d p].
    + cbn [String.append HasPrefix String.eqb]. by rewrite Hc.
    + cbn [noslash] in Hp. apply andb_prop in Hp as [Hd Hp]. cbn [String.append HasPrefix String.eqb].
      rewrite IH, (Ascii.eqb_sym c d) by done. by destruct (Ascii.eqb d c).
Qed.

(** String prefixes of joined names: all names but the last agree, the last
    one of the prefix only has to begin its counterpart. *)
Lemma prefix_join R r P : Forall proper (R ++ [r]) -> Forall proper P ->
  HasPrefix (Join P "/") (Join (R ++ [r]) "/") = true <-> exists x rest, P = R ++ (r +:+ x) :: rest.
Proof.
  revert P. induction R as [|a R IH]; intros P HR HP.
  - apply Forall_cons in HR as [(Hr & Hne & _) _]. destruct P as [|p P].
    + split; [destruct r; [done|done]|]. by intros (x & rest & [=]).
    + assert (HasPrefix (Join (p :: P) "/") (Join ([] ++ [r]) "/") = HasPrefix p r) as ->
        by (destruct P; [done|]; rewrite Join_step; apply (prefix_first r p (Join (s :: P) "/") Hr)).
      split; [intros Hp; apply HasPrefix_spec in Hp; eexists _, P; simpl; by f_equal|].
      intros (x & rest & [= -> ->]). apply HasPrefix_app.
  - apply Forall_cons in HR as [Ha HR]. 
    assert (Join ((a :: R) ++ [r]) "/" = a +:+ String slash (Join (R ++ [r]) "/")) as -> by by destruct R.
    assert (a +:+ String slash (Join (R ++ [r]) "/") <> "") as Hne by by destruct a.
    destruct P as [|p [|q P]].
    + split; [by destruct (a +:+ _)|]. by intros (x & rest & [=]).
    + split; [|by intros (x & rest & [= -> Hn]); destruct R]. intros Hp. exfalso.
      apply HasPrefix_spec in Hp. apply Forall_cons in HP as [(Hs & _) _]. cbn [Join String.concat] in Hp.
      rewrite Hp in Hs. clear -Hs. revert Hs. rewrite str_app_assoc. generalize (String.length (a +:+ String slash (Join (R ++ [r]) "/"))). intros n Hs. induction a as [|c a IH]; [done|].
      cbn [String.append noslash] in Hs. apply andb_prop in Hs as [_ Hs]. auto.
    + apply Forall_cons in HP as [Hp HP]. rewrite Join_step.
      change ("/" +:+ Join (q :: P) "/") with (String slash (Join (q :: P) "/")).
      rewrite prefix_past by (apply Ha || apply Hp). rewrite andb_true_iff, IH by done. split.
      * intros [E (x & rest & ->)]. bool_prop. subst. by exists x, rest.
      * intros (x & rest & [= -> ->]). split; [apply str_eqb_refl|]. by exists x, rest.
Qed.

(** * Properties *)

(** The absolute path a tool's argument names, seen from directory [d]. *)
Definition target (d path : string) : string := if HasPrefix path "/" then path else d +:+ "/" +:+ path.

Lemma HasPrefix_slash_app d s : HasPrefix d "/" = true -> HasPrefix (d +:+ s) "/" = true.
Proof. destruct d as [|c d]; [done|]. cbn. by destruct d, s. Qed.

Lemma Abs_target d path : HasPrefix d "/" = true -> path <> "" -> Abs (inr d) path = inr (abs_path (parts (target d path))).
Proof.
  intros Hd Hp. unfold Abs, target. destruct (HasPrefix path "/") eqn:E; [by rewrite Clean_rooted|].
  unfold JoinPath. rewrite !(proj2 (String.eqb_neq _ _)) by (done || by intros ->).
  by rewrite Clean_rooted by by apply HasPrefix_slash_app.
Qed.

Lemma HasPrefix_abs P R : HasPrefix (abs_path P) (abs_path R) = HasPrefix (Join P "/") (Join R "/").
Proof. done. Qed.

(** A path with the names [P] lies in the directory with the names [root]. *)
Definition inside (root P : list string) : Prop := exists rest, P = root ++ rest.

(** It lies in a sibling of [R ++ [r]] whose name is longer and begins with [r]. *)
Definition in_extension (R : list string) (r : string) (P : list string) : Prop :=
  exists x rest, x <> "" /\ P = R ++ (r +:+ x) :: rest.

Lemma prefix_cases R r P : Forall proper (R ++ [r]) -> Forall proper P ->
  HasPrefix (Join P "/") (Join (R ++ [r]) "/") = true <-> inside (R ++ [r]) P \/ in_extension R r P.
Proof.
  intros HR HP. rewrite prefix_join by done. split.
  - intros (x & rest & ->). destruct (decide (x = "")) as [->|Hx]; [left|right; by exists x, rest].
    exists rest. by rewrite str_app_nil_r, <- app_assoc.
  - intros [[rest ->]|(x & rest & _ & ->)]; [exists "", rest|by exists x, rest]. by rewrite str_app_nil_r, <- app_assoc.
Qed.

(** C22: where the workspace boundary holds and where it does not. The absolute
    path an argument names is first cleaned, so that no [..] is left in it. A
    path inside the workspace root is accepted and returned cleaned. A path
    outside it is refused, with one exception against the documented
    boundary: because strings are compared and not names, a path in a sibling
    directory whose name extends the root's is accepted as well. So what is
    accepted is inside the root exactly when it is not in such a sibling. *)
Theorem ValidatePath_boundary d R r path :
  HasPrefix d "/" = true -> Forall proper (R ++ [r]) -> path <> "" ->
  let root := R ++ [r] in let P := parts (target d path) in
  Forall proper P
  /\ (inside root P -> ValidatePath (inr d) (abs_path root) path = inr (abs_path P))
  /\ (~ inside root P -> ~ in_extension R r P ->
       ValidatePath (inr d) (abs_path root) path
       = inl (EMsg ("path " +:+ abs_path P +:+ " is outside workspace root " +:+ abs_path root)))
  /\ (in_extension R r P -> ~ inside root P /\ ValidatePath (inr d) (abs_path root) path = inr (abs_path P)).
Proof.
  intros Hd HR Hp root P. pose proof (parts_proper (target d path)) as HP. fold P in HP.
  assert (ValidatePath (inr d) (abs_path root) path =
    if HasPrefix (Join P "/") (Join root "/") then inr (abs_path P)
    else inl (EMsg ("path " +:+ abs_path P +:+ " is outside workspace root " +:+ abs_path root))) as ->.
  { unfold ValidatePath. rewrite (proj2 (String.eqb_neq _ _) Hp), Abs_target by done. fold P. rewrite Clean_abs_path by done.
    assert ((abs_path root =s "") = false) as -> by done. cbn [negb andb]. rewrite HasPrefix_abs. by destruct (HasPrefix (Join P _) _). }
  pose proof (prefix_cases R r P HR HP) as Hc. fold root in Hc. destruct (HasPrefix (Join P _) (Join root _)).
  - split; [done|]. split; [done|]. split; [intros H1 H2; by destruct (proj1 Hc eq_refl)|].
    intros (x & rest & Hx & E). split; [|done]. intros [rest' E']. unfold root in E'. rewrite E, <- app_assoc in E'.
    apply app_inv_head in E' as [= E2 _]. apply Hx. apply (inj (String.append r)). by rewrite str_app_nil_r.
  - assert (~ (inside root P \/ in_extension R r P)) as Hn by (rewrite <- Hc; done).
    split; [done|]. split; [intros H; destruct Hn; auto|]. split; [done|]. intros H. destruct Hn. auto.
Qed.

(** C38: The lines [ReadFile] returns when the sum of the offset and the limit
    does not leave the 64-bit range: from line [max 1 offset], at most [limit]
    of them (all when it is not positive), each with its number; an offset past
    the end is an error; and the only other outcome, when the sum overflows, is
    a panic. *)
Theorem ReadFile_window {F} `{FileSystem F} wd root (fs : F) input path data :
  ValidatePath wd root (rPath input) = inr path -> fs_read fs path = inr data ->
  int64_range (rOffset input) -> int64_range (rLimit input) ->
  let lines := SplitLines data in
  let start := Z.max 0 (rOffset input - 1) in
  let count := if (0 <? rLimit input)%Z then Z.to_nat (rLimit input) else length lines in
  ((start < Z.of_nat (length lines))%Z -> (start + rLimit input < 2 ^ 63)%Z ->
     ReadFile wd root fs input = TText (number_lines (start + 1) (take count (drop (Z.to_nat start) lines))))
  /\ ((start < Z.of_nat (length lines))%Z -> (2 ^ 63 <= start + rLimit input)%Z -> ReadFile wd root fs input = TPanic)
  /\ ((Z.of_nat (length lines) <= start)%Z -> exists e, ReadFile wd root fs input = TErr e).
Proof.
  intros Hv Hr Ho Hl lines start count. unfold ReadFile. rewrite Hv, Hr. fold lines.
  assert ((if 1 <? rOffset input then rOffset input - 1 else 0)%Z = start) as ->
    by (unfold start; destruct (Z.ltb_spec 1 (rOffset input)); lia).
  unfold int64_range in *. split; [|split].
  - intros H1 H2. rewrite (proj2 (Z.leb_gt _ _)) by lia.
    destruct (Z.ltb_spec 0 (rLimit input)) as [Hp|Hp]; cbn [andb]; subst count.
    + rewrite wrap64_id by (unfold int64_range; lia).
      destruct (Z.ltb_spec (start + rLimit input) (Z.of_nat (length lines))).
      * rewrite (proj2 (Z.leb_le _ _)) by lia. by replace (start + rLimit input - start)%Z with (rLimit input) by lia.
      * rewrite take_ge; [done|]. rewrite length_drop. lia.
    + rewrite take_ge; [done|]. rewrite length_drop. lia.
  - intros H1 H2. rewrite (proj2 (Z.leb_gt _ _)) by lia.
    assert (wrap64 (start + rLimit input) = start + rLimit input - 2 ^ 64)%Z as ->.
    { unfold wrap64. rewrite <- (Z.mod_unique (start + rLimit input + 2 ^ 63) (2 ^ 64) 1 (start + rLimit input - 2 ^ 63)); lia. }
    rewrite (proj2 (Z.ltb_lt 0 (rLimit input))), (proj2 (Z.ltb_lt _ (Z.of_nat (length lines)))) by lia. cbn [andb].
    by rewrite (proj2 (Z.leb_gt start _)) by lia.
  - intros H1. rewrite (proj2 (Z.leb_le _ _)) by lia. eauto.
Qed.

(** An edit replaces every occurrence or changes nothing. When it reports
    success the file reads as the text with all occurrences replaced, its
    length accounts for every one of them, and other files are untouched; when
    the text to replace does not occur, nothing is written. *)
Theorem EditFile_replaces {F} `{FileSystem F} wd root (fs fs' : F) input path content out :
  ValidatePath wd root (ePath input) = inr path -> fs_read fs path = inr content ->
  EditFile wd root fs input = (fs', TText out) ->
  fs_read fs' path = inr (ReplaceAll content (OldText input) (NewText input))
  /\ (forall q, q <> path -> fs_read fs' q = fs_read fs q)
  /\ 1 <= Count content (OldText input)
  /\ (OldText input <> "" ->
      String.length (ReplaceAll content (OldText input) (NewText input)) + Count content (OldText input) * String.length (OldText input)
      = String.length content + Count content (OldText input) * String.length (NewText input)).
Proof.
  intros Hv Hr. unfold EditFile. rewrite Hv, Hr.
  destruct (Nat.eqb_spec (Count content (OldText input)) 0) as [E|E]; [done|].
  destruct (fs_write fs path _) as [fs1 [e|]] eqn:Hw; intros [= -> _].
  split; [by eapply fs_read_written|]. split; [intros q Hq; by eapply fs_read_other|]. split; [lia|].
  intros Hne. by apply ReplaceAll_length.
Qed.

(** The matches of one entry of the walk. *)
Definition entry_matches {F} `{FileSystem F} (fs : F) re (rel : string -> string) include (e : walk_entry) : list string :=
  if weErr e || weDir e || (negb (include =s "") && negb (HasSuffix (wePath e) include)) then []
  else match fs_read fs (wePath e) with
       | inl _ => []
       | inr data => grep_lines re (rel (wePath e)) 1 (SplitLines data)
       end.

(** A search whose context stays alive returns the matches of the files in
    the order of the walk: of all of them, or, once more than 200 were found, of
    the files visited up to there. *)
Theorem grep_walk_prefix {F} `{FileSystem F} (fs : F) re rel include l r e :
  Forall (fun x => weCtx x = None) l -> grep_walk fs re rel include [] l = (r, e) ->
  exists k, r = concat (entry_matches fs re rel include <$> take k l)
    /\ (e = None /\ k = length l \/ e = Some too_many /\ 200 < length r).
Proof.
  intros Hl. assert (forall results, grep_walk fs re rel include results l = (r, e) ->
    exists k, r = results ++ concat (entry_matches fs re rel include <$> take k l)
      /\ (e = None /\ k = length l \/ e = Some too_many /\ 200 < length r)) as Hgen; [|by apply (Hgen [])].
  induction Hl as [|x l Hx _ IH]; intros results; cbn [grep_walk].
  { intros [= <- <-]. exists 0. split; [by rewrite app_nil_r|by left]. }
  assert (forall results', results' = results ++ entry_matches fs re rel include x ->
    grep_walk fs re rel include results' l = (r, e) ->
    exists k, r = results ++ concat (entry_matches fs re rel include <$> take k (x :: l))
      /\ (e = None /\ k = length (x :: l) \/ e = Some too_many /\ 200 < length r)) as Hnext.
  { intros results' -> Hw. destruct (IH _ Hw) as (k & -> & Hk). exists (S k). cbn [take fmap list_fmap concat length].
    split; [by rewrite <- app_assoc|]. destruct Hk as [[-> ->]|Hk]; [by left|by right]. }
  rewrite Hx. unfold entry_matches in Hnext at 1.
  destruct (weErr x || weDir x) eqn:E1; [apply Hnext; by rewrite app_nil_r|].
  destruct (negb (include =s "") && negb (HasSuffix (wePath x) include)) eqn:E2; [apply Hnext; by rewrite app_nil_r|].
  cbn [orb] in Hnext. destruct (fs_read fs (wePath x)) as [err|data] eqn:E3; [apply Hnext; by rewrite app_nil_r|].
  destruct (Nat.ltb_spec 200 (length (results ++ grep_lines re (rel (wePath x)) 1 (SplitLines data)))); [|by apply Hnext].
  intros [= <- <-]. exists 1. cbn [take fmap list_fmap concat]. unfold entry_matches.
  rewrite E1, E2, E3, app_nil_r. cbn [orb]. split; [done|by right].
Qed.

(** A search that was cut off reads like a complete one. *)
Example grep_truncation_is_silent {F} `{FileSystem F} (fs : F) wd root compile walk rel input path re r e :
  ValidatePath wd root (if grRoot input =s "" then "." else grRoot input) = inr path ->
  compile (grPattern input) = inr re -> grep_walk fs re (rel path) (grInclude input) [] (walk path) = (r, Some e) ->
  r <> [] ->
  exists s, GrepFiles wd root compile walk rel fs input = inr s
    /\ HasPrefix s ("找到 " +:+ showZ (Z.of_nat (length r)) +:+ " 处匹配:") = true.
Proof.
  intros Hv Hc Hw Hr. unfold GrepFiles. rewrite Hv, Hc, Hw. destruct r as [|x r]; [done|].
  eexists. split; [reflexivity|]. rewrite <- !str_app_assoc. rewrite str_app_assoc. rewrite HasPrefix_app. done.
Qed.

(** ** Examples and witnesses *)

(** A sibling directory passes the check, and a glob pattern is not checked. *)
Example ValidatePath_sibling : ValidatePath (inr "/work") "/work" "/work-private/key" = inr "/work-private/key".
Proof. reflexivity. Qed.

Example glob_escapes : glob_pattern (inr "/work") "/work" (mkGlob "../../etc/*" "") = inr ("/work", "/etc/*").
Proof. reflexivity. Qed.

(** A huge limit with an offset panics. *)
Example ReadFile_overflow :
  ReadFile (inr "/work") "/work" ({[ "/work/f" := "a" +:+ nl +:+ "b" ]} : gmap string string) (mkRead "f" 2 (2 ^ 63 - 1)) = TPanic.
Proof. vm_compute. reflexivity. Qed.

Lemma ValidatePath_boundary_witness :
  ValidatePath (inr "/work") (abs_path ([] ++ ["work"])) "a/../b" = inr (abs_path ["work"; "b"])
  /\ ValidatePath (inr "/work") (abs_path ([] ++ ["work"])) "../etc/passwd"
     = inl (EMsg "path /etc/passwd is outside workspace root /work").
Proof.
  assert (Forall proper ([] ++ ["work"])) as Hr by (constructor; [split; [reflexivity|done]|constructor]). split.
  - apply (proj1 (proj2 (ValidatePath_boundary "/work" [] "work" "a/../b" eq_refl Hr ltac:(done)))). exists ["b"]. reflexivity.
  - apply (proj1 (proj2 (proj2 (ValidatePath_boundary "/work" [] "work" "../etc/passwd" eq_refl Hr ltac:(done))))).
    + intros [rest E]. discriminate E.
    + intros (x & rest & _ & E). discriminate E.
Defined.

Definition sample_fs : gmap string string := {[ "/work/f" := "a" +:+ nl +:+ "b" +:+ nl +:+ "c" ]}.

Lemma ReadFile_window_witness :
  ReadFile (inr "/work") "/work" sample_fs (mkRead "f" 2 1) = TText ("2: b" +:+ nl).
Proof.
  etransitivity; [refine (proj1 (ReadFile_window (inr "/work") "/work" sample_fs (mkRead "f" 2 1) "/work/f"
                    ("a" +:+ nl +:+ "b" +:+ nl +:+ "c") _ _ _ _) _ _)|vm_compute; reflexivity].
  all: vm_compute; try reflexivity; split; discriminate || reflexivity.
Defined.

Lemma EditFile_replaces_witness :
  fs_read (EditFile (inr "/work") "/work" sample_fs (mkEdit "f" "b" "xy")).1 "/work/f"
  = inr (ReplaceAll ("a" +:+ nl +:+ "b" +:+ nl +:+ "c") "b" "xy").
Proof.
  refine (proj1 (EditFile_replaces (inr "/work") "/work" sample_fs _ (mkEdit "f" "b" "xy") "/work/f" _
                   ("已在 " +:+ "f" +:+ " 中替换 " +:+ "1" +:+ " 处") _ _ _)); vm_compute; reflexivity.
Defined.

Lemma grep_walk_prefix_witness :
  exists k, (grep_walk sample_fs (fun l => l =s "b") (fun p => p) "" [] [mkWalk false "/work/f" false None]).1
    = concat (entry_matches sample_fs (fun l => l =s "b") (fun p => p) "" <$> take k [mkWalk false "/work/f" false None]).
Proof.
  destruct (grep_walk_prefix sample_fs (fun l => l =s "b") (fun p => p) "" [mkWalk false "/work/f" false None] _ _
    ltac:(constructor; [reflexivity|constructor]) (surjective_pairing _)) as (k & Hk & _).
  exists k. exact Hk.
Defined.
