(* ===== verification/Logs.v ===== *)
(** * Log files

    [protocol/raw_log.go]: the raw exchange log, a JSON line per event in a
    file per day. [tools/log/log.go]: the program's own log. And
    [tools/sessionlog/sessionlog.go]: a Markdown table per session and the
    registry of open loggers. Files are their contents by path; the clock,
    whether a file opens and whether a write succeeds are arguments. *)
From stdpp Require Import base tactics list gmap strings pretty.
From Stdlib Require Import ZArith NArith Lia.
From S2P Require Import Prelude GoStrings GoRegex Types GoJSONText FileOps.

(** Contents by path, as the pieces that were appended. *)
Abbreviation files := (gmap string (list string)).
Definition file_contents (fs : files) (path : string) : list string := default [] (fs !! path).
Definition append_file (fs : files) (path piece : string) : files := <[path := file_contents fs path ++ [piece]]> fs.

(** An open or closed [os.File]. *)
Record logfile := mkLogfile { h_path : string; h_closed : bool }.

(** One moment: the date, the time stamp, and what the calls will do. *)
Record moment := mkMoment { now_date : string; now_ts : string; open_ok : bool; write_ok : bool; lock_ok : bool }.

(** [file.Write]: a closed file refuses. *)
Definition write_file (m : moment) (h : logfile) (piece : string) (fs : files) : files * bool :=
  if h_closed h || negb (write_ok m) then (fs, false) else (append_file fs (h_path h) piece, true).

Definition log_path (dir date : string) : string := JoinPath dir (date +:+ ".log").

(** ** The raw log *)

Record RawLogProcessor := mkRaw { rp_dir : string; rp_file : option logfile; rp_date : string; rp_enabled : bool }.

Definition NewRawLogProcessor (mkdir_ok : bool) (dir : string) : RawLogProcessor :=
  if mkdir_ok then mkRaw dir None "" true else mkRaw "" None "" false.

(** The constants, and [ChunkType.String] over the registered names. *)
Definition chunk_num (t : ChunkType) : Z :=
  match t with
  | ChunkText => 0 | ChunkReasoning => 1 | ChunkToolCallStart => 2 | ChunkToolCall => 3 | ChunkUsage => 4 | ChunkWarn => 5
  | ChunkDone => 6 | ChunkError => 7 | ChunkRawRequest => 8 | ChunkRawResponse => 9 | ChunkRawError => 10
  end%Z.
Definition RegisterChunkType (names : gmap Z string) (t : ChunkType) (name : string) : gmap Z string := <[chunk_num t := name]> names.
Definition ChunkType_String (names : gmap Z string) (t : ChunkType) : string :=
  match names !! chunk_num t with Some name => name | None => "ChunkType(" +:+ pretty (chunk_num t) +:+ ")" end.
Definition init_names : gmap Z string :=
  RegisterChunkType (RegisterChunkType (RegisterChunkType ∅ ChunkRawRequest "raw_request") ChunkRawResponse "raw_response")
    ChunkRawError "raw_error".

(** The names registered by [init]. *)
Definition raw_kind (t : ChunkType) : option string :=
  match t with
  | ChunkRawRequest => Some "raw_request" | ChunkRawResponse => Some "raw_response" | ChunkRawError => Some "raw_error"
  | _ => None
  end.

Lemma raw_kind_registered t : raw_kind t = init_names !! chunk_num t.
Proof. by destruct t. Qed.
Lemma ChunkType_String_distinct t t' : ChunkType_String init_names t = ChunkType_String init_names t' -> t = t'.
Proof. destruct t, t'; vm_compute; congruence. Qed.

(** A file that cannot be opened leaves the old one in place, closed. *)
Definition rotate (m : moment) (p : RawLogProcessor) : RawLogProcessor :=
  let closed := match rp_file p with Some h => Some (mkLogfile (h_path h) true) | None => None end in
  if open_ok m then mkRaw (rp_dir p) (Some (mkLogfile (log_path (rp_dir p) (now_date m)) false)) (now_date m) (rp_enabled p)
  else mkRaw (rp_dir p) closed (rp_date p) false.

Definition raw_line (ts kind data : string) : string :=
  Marshal (AObj [("ts", AStr ts); ("kind", AStr kind); ("data", AStr data)]) +:+ nl.

Definition tryWrite (m : moment) (kind data : string) (p : RawLogProcessor) (fs : files) : RawLogProcessor * files * bool :=
  if negb (lock_ok m) then (p, fs, false)
  else
    let p := if bool_decide (rp_file p = None) || (rp_date p <>s now_date m) then rotate m p else p in
    match rp_file p with
    | None => (p, fs, false)
    | Some h =>
        let '(fs', ok) := write_file m h (raw_line (now_ts m) kind data) fs in
        if ok : bool then (p, fs', true) else (mkRaw (rp_dir p) (rp_file p) (rp_date p) false, fs', false)
    end.

(** [Process]; the flag is whether a line was written, and a chunk that is
    dropped is only reported. *)
Definition Process (m : moment) (c : Chunk) (p : RawLogProcessor) (fs : files) : RawLogProcessor * files * bool :=
  if negb (rp_enabled p) then (p, fs, false)
  else match raw_kind (cType c) with
       | None => (p, fs, false)
       | Some kind => tryWrite m kind (cText c) p fs
       end.

Definition Stop (p : RawLogProcessor) : RawLogProcessor :=
  match rp_file p with Some _ => mkRaw (rp_dir p) None "" (rp_enabled p) | None => p end.

(** ** The program's log *)

Inductive Level := DEBUG | INFO | WARN | ERROR | FATAL.
#[export] Instance Level_eq_dec : EqDecision Level.
Proof. solve_decision. Defined.

Definition level_num (l : Level) : nat := match l with DEBUG => 0 | INFO => 1 | WARN => 2 | ERROR => 3 | FATAL => 4 end.
Definition levelNames (l : Level) : string :=
  match l with DEBUG => "DEBUG" | INFO => "INFO" | WARN => "WARN" | ERROR => "ERROR" | FATAL => "FATAL" end.

(** [init]: an unknown name keeps INFO. *)
Definition init_level (env : string) : Level :=
  let l := ToLower env in
  if l =s "debug" then DEBUG else if l =s "info" then INFO else if l =s "warn" then WARN else if l =s "error" then ERROR else INFO.

Record fileWriter := mkFW { fw_dir : string; fw_file : option logfile; fw_date : string }.

Definition fw_rotate (m : moment) (w : fileWriter) : fileWriter :=
  let closed := match fw_file w with Some h => Some (mkLogfile (h_path h) true) | None => None end in
  if open_ok m then mkFW (fw_dir w) (Some (mkLogfile (log_path (fw_dir w) (now_date m)) false)) (now_date m)
  else mkFW (fw_dir w) closed (fw_date w).

(** [Write] on a nil file fails without a panic. *)
Definition fw_Write (m : moment) (piece : string) (w : fileWriter) (fs : files) : fileWriter * files * bool :=
  let w := if now_date m <>s fw_date w then fw_rotate m w else w in
  match fw_file w with
  | None => (w, fs, false)
  | Some h => let '(fs', ok) := write_file m h piece fs in (w, fs', ok)
  end.

(** [os.Stdout] and file writers. *)
Inductive writer := Stdout | ToFile (w : fileWriter).
Record Logger := mkLogger { lg_level : Level; lg_writers : list writer; lg_stdout : list string; lg_exited : bool }.

Definition SetLevel (l : Level) (g : Logger) : Logger := mkLogger l (lg_writers g) (lg_stdout g) (lg_exited g).
Definition AddWriter (w : writer) (g : Logger) : Logger := mkLogger (lg_level g) (lg_writers g ++ [w]) (lg_stdout g) (lg_exited g).

(** [caller] is the base name of the calling file with its line, when known. *)
Definition out_line (m : moment) (lvl : Level) (caller : option (string * string)) (msg : string) : string :=
  (match caller with
   | Some (short, line) => if short <>s "" then now_ts m +:+ " [" +:+ levelNames lvl +:+ "] " +:+ short +:+ ":" +:+ line +:+ " "
                           else now_ts m +:+ " [" +:+ levelNames lvl +:+ "] "
   | None => now_ts m +:+ " [" +:+ levelNames lvl +:+ "] "
   end) +:+ msg +:+ nl.

Fixpoint write_all_writers (m : moment) (line : string) (ws : list writer) (out : list string) (fs : files)
  : list writer * list string * files :=
  match ws with
  | [] => ([], out, fs)
  | Stdout :: ws' => let '(ws2, out2, fs2) := write_all_writers m line ws' (out ++ [line]) fs in (Stdout :: ws2, out2, fs2)
  | ToFile w :: ws' =>
      let '(w', fs', _) := fw_Write m line w fs in
      let '(ws2, out2, fs2) := write_all_writers m line ws' out fs' in (ToFile w' :: ws2, out2, fs2)
  end.

Definition output (m : moment) (lvl : Level) (caller : option (string * string)) (msg : string) (g : Logger) (fs : files)
  : Logger * files :=
  if level_num lvl <? level_num (lg_level g) then (g, fs)
  else
    let '(ws, out, fs') := write_all_writers m (out_line m lvl caller msg) (lg_writers g) (lg_stdout g) fs in
    (mkLogger (lg_level g) ws out (lg_exited g || bool_decide (lvl = FATAL)), fs').

(** [init] with the values of LOG_LEVEL and LOG_DIR. *)
Definition init_logger (m : moment) (level dir : string) : Logger :=
  let g := mkLogger (init_level level) [Stdout] [] false in
  if dir <>s "" then AddWriter (ToFile (fw_rotate m (mkFW dir None ""))) g else g.

(** Without LOG_DIR nothing is written to files. *)
Example log_dir_unset m : lg_writers (init_logger m "" "") = [Stdout].
Proof. reflexivity. Qed.

(** ** Session logs *)

Inductive EntryType := EntryUser | EntryAssistant | EntryToolCall | EntryToolResult | EntrySystem.

Definition entry_label (t : EntryType) : string :=
  match t with
  | EntryUser => "User" | EntryAssistant => "Assistant" | EntryToolCall => "ToolCall" | EntryToolResult => "ToolResult"
  | EntrySystem => "System"
  end.

Definition safe_byte (c : ascii) : bool := is_word c || Ascii.eqb c "-".

Fixpoint sanitize (s : string) : string :=
  match s with EmptyString => "" | String c s' => String (if safe_byte c then c else "_") (sanitize s') end.

(** [filepath.Join(logDir, "sessions", sanitize(sessionID))] *)
Definition session_dir (logDir sessionID : string) : string :=
  let rest := if sanitize sessionID =s "" then "sessions" else "sessions/" +:+ sanitize sessionID in JoinPath logDir rest.

Definition backslash : ascii := byte 92.
Definition bar : ascii := "|".

Fixpoint escape_bytes (s : string) : string :=
  match s with
  | EmptyString => ""
  | String c s' => (if Ascii.eqb c bar then String backslash (String bar "")
                    else if Ascii.eqb c LF then " ... " else String c "") +:+ escape_bytes s'
  end.
Definition escapeMarkdown (s : string) : string :=
  escape_bytes (if 200 <? String.length s then str_take 200 s +:+ "..." else s).

(** A session's logger: the file is its path while it is open. *)
Record SLogger := mkSLogger { sl_session : string; sl_file : option string; sl_seq : nat }.

Definition num_text (n : nat) : string := pretty (N.of_nat n).

Definition header_pieces (m : moment) (sessionID : string) : list string :=
  ["# Session: " +:+ sessionID +:+ nl; "Started: " +:+ now_ts m +:+ nl +:+ nl;
   "| # | Time | Type | Content |" +:+ nl; "|---|---|---|---|" +:+ nl].

Definition row (n : nat) (ts label content : string) : string :=
  "| " +:+ num_text n +:+ " | " +:+ ts +:+ " | **" +:+ label +:+ "** | " +:+ content +:+ " |" +:+ nl.

(** What the operations write under number [n]; [LogToolCall] and
    [LogToolResult] put their text in a second row. *)
Definition fence (lang s : string) : string := "```" +:+ lang +:+ nl +:+ s +:+ nl +:+ "```".
Definition extra_row (extra : string) : list string := if extra <>s "" then ["| | | | " +:+ extra +:+ " |" +:+ nl] else [].
Definition log_pieces (n : nat) (ts : string) (t : EntryType) (content extra : string) : list string :=
  row n ts (entry_label t) (escapeMarkdown content) :: extra_row extra.

(** The operations of a logger. [OpResponse] is [WriteAssistantResponse], with
    the second stamp it puts in the name of the detail file. *)
Inductive sop :=
| OpUser (content : string) | OpAssistant (content stats : string) | OpToolCall (name args result : string)
| OpToolResult (name result : string) | OpSystem (msg : string) | OpRaw (msg : string)
| OpResponse (snippet full stats stamp : string).

Definition pad4 (n : nat) : string := let t := num_text n in Repeat "0" (4 - String.length t) +:+ t.
Definition detail_file (stamp : string) (n : nat) : string := "response_" +:+ stamp +:+ "_" +:+ pad4 n +:+ ".md".

Definition response_text (n : nat) (snippet full stamp : string) : string :=
  if 200 <? String.length full then snippet +:+ " — [full response](" +:+ detail_file stamp n +:+ ")" else snippet.

Definition op_pieces (n : nat) (ts : string) (o : sop) : list string :=
  match o with
  | OpUser c => log_pieces n ts EntryUser c ""
  | OpAssistant c stats => log_pieces n ts EntryAssistant c stats
  | OpToolCall name args result =>
      log_pieces n ts EntryToolCall "" ("**" +:+ name +:+ "**" +:+ nl +:+ fence "json" args +:+ nl +:+ "→" +:+ nl +:+ fence "" result)
  | OpToolResult name result => log_pieces n ts EntryToolResult "" ("**" +:+ name +:+ "** result:" +:+ nl +:+ fence "" result)
  | OpSystem msg => log_pieces n ts EntrySystem msg ""
  | OpRaw msg => ["| " +:+ num_text n +:+ " | " +:+ ts +:+ " | **RAW** | `" +:+ escapeMarkdown msg +:+ "` |" +:+ nl]
  | OpResponse snippet full stats stamp =>
      row n ts "Assistant" (escapeMarkdown (response_text n snippet full stamp))
      :: (if stats <>s "" then ["| | | _stats_ | " +:+ stats +:+ " |" +:+ nl] else [])
  end.

Definition append_files (fs : files) (path : string) (pieces : list string) : files := foldl (fun f p => append_file f path p) fs pieces.

(** The whole response goes to a file of its own, beside the log. *)
Definition op_detail (dir : string) (n : nat) (o : sop) (fs : files) : files :=
  match o with
  | OpResponse snippet full stats stamp =>
      if 200 <? String.length full then <[JoinPath dir (detail_file stamp n) := [full]]> fs else fs
  | _ => fs
  end.

(** [dir] is [filepath.Dir] of the file's name. *)
Definition run_sop (dir ts : string) (o : sop) (l : SLogger) (fs : files) : SLogger * files :=
  match sl_file l with
  | None => (l, fs)
  | Some path =>
      let n := S (sl_seq l) in
      (mkSLogger (sl_session l) (Some path) n, append_files (op_detail dir n o fs) path (op_pieces n ts o))
  end.

Definition sl_Close (m : moment) (l : SLogger) (fs : files) : SLogger * files :=
  match sl_file l with
  | None => (l, fs)
  | Some path => (mkSLogger (sl_session l) None (sl_seq l), append_file fs path (nl +:+ "---" +:+ nl +:+ "Ended: " +:+ now_ts m +:+ nl))
  end.

(** [New]; the file is named by the second. *)
Definition sl_New (m : moment) (mkdir_ok : bool) (stamp sessionID logDir : string) (fs : files) : option (SLogger * files) :=
  let path := JoinPath (session_dir logDir sessionID) (stamp +:+ ".md") in
  if mkdir_ok && open_ok m then Some (mkSLogger sessionID (Some path) 0, append_files fs path (header_pieces m sessionID)) else None.

(** ** The registry of sessions *)

(** [global.loggers] points into a heap of loggers. *)
Record loggers := mkReg { rg_heap : gmap nat SLogger; rg_next : nat; rg_map : gmap string nat; rg_files : files }.

Definition sl_Get (g : loggers) (sid : string) : option nat := rg_map g !! sid.

Definition sl_Open (m : moment) (mkdir_ok : bool) (stamp logDir sid : string) (g : loggers) : loggers * option nat :=
  match rg_map g !! sid with
  | Some p => (g, Some p)
  | None =>
      match sl_New m mkdir_ok stamp sid logDir (rg_files g) with
      | None => (g, None)
      | Some (l, fs) => (mkReg (<[rg_next g := l]> (rg_heap g)) (S (rg_next g)) (<[sid := rg_next g]> (rg_map g)) fs, Some (rg_next g))
      end
  end.

(** [l.Close()] through a pointer. *)
Definition close_at (m : moment) (p : nat) (g : loggers) : loggers :=
  match rg_heap g !! p with
  | None => g
  | Some l => let '(l', fs) := sl_Close m l (rg_files g) in mkReg (<[p := l']> (rg_heap g)) (rg_next g) (rg_map g) fs
  end.

Definition sl_CloseSession (m : moment) (sid : string) (g : loggers) : loggers :=
  match rg_map g !! sid with
  | None => g
  | Some p => let g := close_at m p g in mkReg (rg_heap g) (rg_next g) (delete sid (rg_map g)) (rg_files g)
  end.

Definition CloseAll (m : moment) (g : loggers) : loggers :=
  foldl (fun g sid => sl_CloseSession m sid g) g (map_to_list (rg_map g)).*1.

(** ** The raw log as a list of accepted events *)

Definition event : Type := moment * Chunk.

(** One event: what is written, if anything. *)
Definition accepted_line (e : event) : string :=
  raw_line (now_ts e.1) (default "" (raw_kind (cType e.2))) (cText e.2).

(** The processor over a sequence of events, with those that were written. *)
Fixpoint run_raw (evs : list event) (p : RawLogProcessor) (fs : files) : RawLogProcessor * files * list event :=
  match evs with
  | [] => (p, fs, [])
  | e :: evs' =>
      let '(p', fs', ok) := Process e.1 e.2 p fs in
      let '(p2, fs2, acc) := run_raw evs' p' fs' in (p2, fs2, if ok : bool then e :: acc else acc)
  end.

(** An open file is that of the day it was opened. *)
Definition raw_inv (dir : string) (p : RawLogProcessor) : Prop :=
  rp_dir p = dir /\ forall h, rp_file p = Some h -> h_closed h = false -> h_path h = log_path dir (rp_date p).

Lemma rotate_inv dir m p : raw_inv dir p -> raw_inv dir (rotate m p).
Proof.
  intros [Hd Hf]. unfold rotate. destruct (open_ok m); (split; [done|]); intros h; cbn [rp_file rp_date].
  - intros [= <-] _. by rewrite Hd.
  - destruct (rp_file p); [intros [= <-]; done|done].
Qed.

Lemma rotate_dir m p : rp_dir (rotate m p) = rp_dir p.
Proof. unfold rotate. by destruct (open_ok m). Qed.

Lemma contents_append fs path piece q : file_contents (append_file fs path piece) q = file_contents fs q ++ (if decide (q = path) then [piece] else []).
Proof.
  unfold append_file, file_contents. destruct (decide (q = path)) as [->|Hn]; [by rewrite lookup_insert_eq|].
  rewrite lookup_insert_ne by done. by rewrite app_nil_r.
Qed.

(** A write goes to the file of the day, or nothing changes. *)
Lemma Process_step dir e p fs p' fs' ok : raw_inv dir p -> Process e.1 e.2 p fs = (p', fs', ok) ->
  raw_inv dir p' /\ fs' = (if ok then append_file fs (log_path dir (now_date e.1)) (accepted_line e) else fs)
  /\ (rp_enabled p = false -> ok = false /\ p' = p) /\ (ok = true -> is_Some (raw_kind (cType e.2))).
Proof.
  intros Hinv. unfold Process, accepted_line. destruct (rp_enabled p) eqn:Een; cbn [negb]; [|by intros [= <- <- <-]].
  destruct (raw_kind (cType e.2)) as [kind|] eqn:Ek; [|by intros [= <- <- <-]]. cbn [default]. unfold tryWrite.
  destruct (lock_ok e.1); cbn [negb]; [|by intros [= <- <- <-]].
  set (p1 := if bool_decide (rp_file p = None) || (rp_date p <>s now_date e.1) then rotate e.1 p else p).
  assert (raw_inv dir p1 /\ (forall h, rp_file p1 = Some h -> h_closed h = false -> rp_date p1 = now_date e.1)) as [Hi1 Hdate].
  { unfold p1. destruct (bool_decide (rp_file p = None) || (rp_date p <>s now_date e.1)) eqn:E.
    - split; [by apply rotate_inv|]. unfold rotate. intros h. destruct (open_ok e.1); [done|]. cbn. destruct (rp_file p); [intros [= <-]; done|done].
    - split; [done|]. apply orb_false_elim in E as [_ E]. bool_prop. done. }
  pose proof Hi1 as [Hd Hp]. destruct (rp_file p1) as [h|] eqn:Eh; [|intros [= <- <- <-]; by split_and!]. unfold write_file.
  assert (raw_inv dir (mkRaw (rp_dir p1) (rp_file p1) (rp_date p1) false)) as Hi2 by (split; [done|]; cbn; by rewrite Eh).
  destruct (h_closed h) eqn:Ec; cbn [orb]; [intros [= <- <- <-]; rewrite Eh in Hi2; by split_and!|].
  destruct (write_ok e.1); cbn [negb]; intros [= <- <- <-]; [|rewrite Eh in Hi2; by split_and!].
  split_and!; try done. by rewrite (Hp h), (Hdate h) by done.
Qed.

(** C11: the raw log refines an append-only log: whatever the clock, the lock
    and the disk do, the files hold what they held before followed by the line
    of every event that was accepted, in order and in the file of its day, and
    only raw events are ever accepted. *)
Theorem raw_log_refines dir evs p fs p' fs' acc : raw_inv dir p -> run_raw evs p fs = (p', fs', acc) ->
  acc `sublist_of` evs /\ Forall (fun e => is_Some (raw_kind (cType e.2))) acc
  /\ forall path, file_contents fs' path = file_contents fs path
       ++ (accepted_line <$> filter (fun e => log_path dir (now_date e.1) = path) acc).
Proof.
  revert p fs p' fs' acc. induction evs as [|e evs IH]; intros p fs p' fs' acc Hinv; cbn [run_raw].
  - intros [= <- <- <-]. split; [done|]. split; [done|]. intros path. by rewrite app_nil_r.
  - destruct (Process e.1 e.2 p fs) as [[p1 fs1] ok] eqn:E. apply (Process_step dir) in E as (Hinv1 & -> & _ & Hk); [|done].
    destruct (run_raw evs p1 _) as [[p2 fs2] acc2] eqn:E2. apply IH in E2 as (Hs & Hf & Hc); [|done]. intros [= <- <- <-].
    destruct ok; [|by split; [apply sublist_cons|]]. split; [by apply sublist_skip|]. split; [by constructor; [apply Hk|]|].
    intros path. rewrite Hc, contents_append, <- app_assoc. f_equal.
    destruct (decide (path = log_path dir (now_date e.1))) as [->|Hn].
    + by rewrite filter_cons_True.
    + by rewrite filter_cons_False by congruence.
Qed.

(** ** One line per event *)

Lemma no_control_LF s : no_control s = true -> absent LF s = true.
Proof. apply no_control_absent. vm_compute. lia. Qed.

Lemma raw_fields_sorted ts kind data : sort_fields [("ts", ts); ("kind", kind); ("data", data)]
  = [("data", data); ("kind", kind); ("ts", ts)] :> list (string * string).
Proof. reflexivity. Qed.

Lemma raw_line_text ts kind data : raw_line ts kind data
  = "{" +:+ MarshalString "data" +:+ ":" +:+ MarshalString data +:+ "," +:+ MarshalString "kind" +:+ ":" +:+ MarshalString kind
    +:+ "," +:+ MarshalString "ts" +:+ ":" +:+ MarshalString ts +:+ "}" +:+ nl.
Proof.
  unfold raw_line. cbn [Marshal map fst snd]. rewrite raw_fields_sorted. unfold obj_text, Join.
  cbn [fmap list_fmap fst snd String.concat]. by rewrite !str_app_assoc.
Qed.

(** an entry of the raw log is one line, and a reader who decodes the line
    finds the time, the kind and the text of the event, whatever quotes, line
    breaks or control characters the text holds. *)
Theorem raw_line_roundtrip num ts kind data : utf8b ts = true -> utf8b kind = true -> utf8b data = true ->
  exists line, raw_line ts kind data = line +:+ nl /\ absent LF line = true
    /\ Unmarshal num line = Some (AObj [("data", AStr data); ("kind", AStr kind); ("ts", AStr ts)]).
Proof.
  intros Ht Hk Hd. eexists. split; [reflexivity|]. split.
  - pose proof (raw_line_text ts kind data) as H. unfold raw_line in H.
    assert (forall a b, a +:+ nl = b +:+ nl -> a = b) as Hinj.
    { intros a b E. apply (f_equal (fun s => str_take (String.length s - 1) s)) in E. rewrite !str_length_app in E.
      cbn [nl String.length] in E. by rewrite !Nat.add_sub, !str_take_app in E. }
    rewrite <- !str_app_assoc in H. apply Hinj in H. rewrite H.
    apply no_control_LF. by rewrite !no_control_app, !MarshalString_control.
  - rewrite Unmarshal_Marshal; [done| |vm_compute; discriminate]. cbn [wf_any forallb fst snd]. by rewrite Ht, Hk, Hd.
Qed.

(** ** Session directories *)

Lemma sanitize_safe s : forallb safe_byte (String.list_ascii_of_string (sanitize s)) = true /\ String.length (sanitize s) = String.length s.
Proof.
  induction s as [|c s [IH1 IH2]]; [done|]. cbn [sanitize String.list_ascii_of_string forallb String.length]. rewrite IH1, IH2.
  split; [|done]. destruct (safe_byte c) eqn:E; [by rewrite E|done].
Qed.

Lemma split_not_nil a : split_byte slash a <> [].
Proof. destruct a as [|c a]; [done|]. cbn [split_byte]. destruct (Ascii.eqb c slash); [done|]. by destruct (split_byte slash a). Qed.

Lemma split_no_slash a x : forallb safe_byte (String.list_ascii_of_string x) = true ->
  split_byte slash (a +:+ String slash x) = split_byte slash a ++ [x].
Proof.
  intros Hx. assert (split_byte slash x = [x]) as Es.
  { induction x as [|c x IH]; [done|]. cbn [String.list_ascii_of_string forallb] in Hx. apply andb_prop in Hx as [Hc Hx].
    cbn [split_byte]. rewrite (IH Hx). destruct (Ascii.eqb_spec c slash) as [->|]; done. }
  induction a as [|c a IH]; cbn [String.append split_byte]; [by rewrite Ascii.eqb_refl, Es|].
  destruct (Ascii.eqb c slash); [by rewrite IH|]. rewrite IH. pose proof (split_not_nil a).
  by destruct (split_byte slash a).
Qed.

(** A plain name is pushed on the path. *)
Lemma clean_parts_snoc rooted l x : x <> "" -> x <> "." -> x <> ".." -> clean_parts rooted (l ++ [x]) = clean_parts rooted l ++ [x].
Proof.
  intros H1 H2 H3. unfold clean_parts. rewrite foldl_app. cbn [foldl]. unfold clean_step at 1.
  by rewrite (proj2 (String.eqb_neq _ _) H1), (proj2 (String.eqb_neq _ _) H2), (proj2 (String.eqb_neq _ _) H3).
Qed.

Lemma Join_snoc l x sep : l <> [] -> Join (l ++ [x]) sep = Join l sep +:+ sep +:+ x.
Proof.
  induction l as [|y [|z l] IH]; [done|done|]. intros _. cbn [app]. rewrite !Join_step. cbn [app] in IH. rewrite IH by done.
  by rewrite !str_app_assoc.
Qed.

Lemma safe_name x : forallb safe_byte (String.list_ascii_of_string x) = true -> x <> "." /\ x <> "..".
Proof. intros H. split; intros ->; vm_compute in H; discriminate. Qed.

Lemma Join_last_nonempty l x sep : x <> "" -> Join (l ++ [x]) sep <> "".
Proof.
  intros Hx. induction l as [|y [|z l] IH]; [done| |].
  - cbn. intros E. destruct y, sep; try done.
  - cbn [app] in *. rewrite Join_step. intros E. apply IH. destruct y; [|done]. by destruct sep.
Qed.

(** A path that ends in a plain name. *)
Lemma Clean_last a x : a <> "" -> x <> "" -> forallb safe_byte (String.list_ascii_of_string x) = true ->
  Clean (a +:+ String slash x) = (if HasPrefix a "/" then "/" else "") +:+ Join (clean_parts (HasPrefix a "/") (split_byte slash a) ++ [x]) "/".
Proof.
  intros Ha Hx Hs. destruct (safe_name x Hs) as [H1 H2]. unfold Clean.
  assert (HasPrefix (a +:+ String slash x) "/" = HasPrefix a "/") as -> by (destruct a; [done|]; cbn [String.append HasPrefix]; by rewrite !HasPrefix_nil).
  rewrite (proj2 (String.eqb_neq (a +:+ String slash x) "")) by (by destruct a).
  rewrite (split_no_slash a x Hs), clean_parts_snoc by done. destruct (HasPrefix a "/"); [done|].
  by rewrite (proj2 (String.eqb_neq _ _) (Join_last_nonempty _ x "/" Hx)).
Qed.

(** wherever the logs are kept and whatever the session is called, slashes
    and dots included, its files go to a directory directly under the sessions
    directory, named by as many letters, digits, dashes and underscores as the
    session's name has bytes. *)
Theorem session_dir_inside logDir sid : logDir <> "" -> sid <> "" ->
  session_dir logDir sid = JoinPath logDir "sessions" +:+ "/" +:+ sanitize sid
  /\ String.length (sanitize sid) = String.length sid
  /\ forallb safe_byte (String.list_ascii_of_string (sanitize sid)) = true.
Proof.
  intros Hd Hs. destruct (sanitize_safe sid) as [Hsafe Hlen]. split; [|done].
  assert (sanitize sid <> "") as Hne by (by destruct sid). unfold session_dir, JoinPath.
  rewrite (proj2 (String.eqb_neq _ _) Hne), !(proj2 (String.eqb_neq _ _) Hd).
  cbn [String.eqb String.append]. change (String "s" (String "e" (String "s" (String "s" (String "i" (String "o" (String "n" (String "s" (String "/" (sanitize sid))))))))))
    with ("sessions" +:+ String slash (sanitize sid)).
  change (String "/" ("sessions" +:+ String slash (sanitize sid))) with (String slash "sessions" +:+ String slash (sanitize sid)).
  change (String "/" (String "s" (String "e" (String "s" (String "s" (String "i" (String "o" (String "n" (String "s" ""))))))))) with (String slash "sessions").
  rewrite <- str_app_assoc, (Clean_last (logDir +:+ String slash "sessions") (sanitize sid)) by (done || by destruct logDir).
  rewrite (Clean_last logDir "sessions") by done.
  assert (HasPrefix (logDir +:+ String slash "sessions") "/" = HasPrefix logDir "/") as ->
    by (destruct logDir; [done|]; cbn [String.append HasPrefix]; by rewrite !HasPrefix_nil).
  rewrite split_no_slash, clean_parts_snoc by done. rewrite Join_snoc by (by destruct (clean_parts _ _)).
  by destruct (HasPrefix logDir "/"); rewrite ?str_app_assoc.
Qed.

Lemma session_dir_inside_witness : session_dir "logs" "../../etc" = "logs/sessions/______etc".
Proof.
  rewrite (proj1 (session_dir_inside "logs" "../../etc" ltac:(discriminate) ltac:(discriminate))). vm_compute. reflexivity.
Defined.

(** Two sessions can share a directory. *)
Example sanitize_collides : sanitize "a.b" = sanitize "a/b" /\ sanitize (bytes [228; 184; 173]) = sanitize "___".
Proof. vm_compute. split; reflexivity. Qed.

(** ** Rows *)

(** Every bar has a backslash before it. *)
Fixpoint bars_escaped (prev : ascii) (s : string) : bool :=
  match s with
  | EmptyString => true
  | String c s' => (if Ascii.eqb c bar then Ascii.eqb prev backslash else true) && bars_escaped c s'
  end.

Lemma escape_bytes_ok s prev : absent LF (escape_bytes s) = true /\ bars_escaped prev (escape_bytes s) = true.
Proof.
  revert prev. induction s as [|c s IH]; intros prev; [done|]. cbn [escape_bytes].
  destruct (Ascii.eqb_spec c bar) as [->|Hb]; [|destruct (Ascii.eqb_spec c LF) as [->|Hl]].
  - cbn [String.append absent bars_escaped]. split; [apply (IH prev)|apply IH].
  - cbn [String.append absent bars_escaped]. split; [apply (IH prev)|apply IH].
  - cbn [String.append absent bars_escaped]. rewrite (proj2 (Ascii.eqb_neq c bar) Hb).
    rewrite (proj2 (Ascii.eqb_neq LF c)) by congruence. cbn [orb andb]. split; [apply (IH prev)|apply IH].
Qed.

Lemma escape_bytes_length s : String.length (escape_bytes s) <= 5 * String.length s.
Proof.
  induction s as [|c s IH]; [done|]. cbn [escape_bytes String.length]. rewrite str_length_app.
  destruct (Ascii.eqb c bar); [cbn; lia|]. destruct (Ascii.eqb c LF); cbn [String.length]; lia.
Qed.

(** the content of a row of a session log stays in its cell: it has no line
    break, every bar in it is escaped, and it is at most 1015 bytes long
    whatever the message. *)
Theorem escapeMarkdown_cell s : absent LF (escapeMarkdown s) = true /\ bars_escaped " " (escapeMarkdown s) = true
  /\ String.length (escapeMarkdown s) <= 1015.
Proof.
  unfold escapeMarkdown. set (t := if _ <? _ then _ else s).
  split; [apply (escape_bytes_ok t " ")|]. split; [apply escape_bytes_ok|].
  pose proof (escape_bytes_length t). assert (String.length t <= 203); [|lia]. unfold t.
  destruct (Nat.ltb_spec 200 (String.length s)); [|lia]. rewrite str_length_app, str_take_length. cbn [String.length]. lia.
Qed.

(** The extra text of a tool call is not escaped: its line breaks leave the
    table. *)
Example tool_call_breaks_row : existsb (fun p => negb (absent LF p)) (map (fun p => str_take (String.length p - 1) p)
  (op_pieces 1 "t" (OpToolCall "ls" "{}" "a"))) = true.
Proof. vm_compute. reflexivity. Qed.

(** ** The table as a rendering of the operations *)

(** The rows of a list of operations, numbered from [n]. *)
Fixpoint render (n : nat) (ops : list (string * sop)) : list string :=
  match ops with [] => [] | (ts, o) :: ops' => op_pieces n ts o ++ render (S n) ops' end.

Fixpoint run_sops (dir : string) (ops : list (string * sop)) (l : SLogger) (fs : files) : SLogger * files :=
  match ops with
  | [] => (l, fs)
  | (ts, o) :: ops' => let '(l', fs') := run_sop dir ts o l fs in run_sops dir ops' l' fs'
  end.

Lemma contents_appends fs path pieces : file_contents (append_files fs path pieces) path = file_contents fs path ++ pieces.
Proof.
  revert fs. induction pieces as [|p pieces IH]; intros fs; cbn [append_files foldl]; [by rewrite app_nil_r|].
  change (file_contents (append_files (append_file fs path p) path pieces) path = file_contents fs path ++ p :: pieces).
  rewrite IH, contents_append. destruct (decide (path = path)); [|done]. by rewrite <- app_assoc.
Qed.

(** No detail file is the log itself. *)
Definition details_apart (dir path : string) (ops : list (string * sop)) (n : nat) : Prop :=
  forall k ts snippet full stats stamp, ops !! k = Some (ts, OpResponse snippet full stats stamp) ->
    JoinPath dir (detail_file stamp (n + k)) <> path.

Lemma run_sops_render dir ops l fs path : sl_file l = Some path -> details_apart dir path ops (S (sl_seq l)) ->
  let '(l', fs') := run_sops dir ops l fs in
  file_contents fs' path = file_contents fs path ++ render (S (sl_seq l)) ops
  /\ sl_seq l' = sl_seq l + length ops /\ sl_file l' = Some path.
Proof.
  revert l fs. induction ops as [|[ts o] ops IH]; intros l fs Hf Hd; cbn [run_sops render length].
  { rewrite app_nil_r. split; [done|]. split; [lia|done]. }
  unfold run_sop. rewrite Hf. cbv beta iota zeta.
  specialize (IH (mkSLogger (sl_session l) (Some path) (S (sl_seq l)))
    (append_files (op_detail dir (S (sl_seq l)) o fs) path (op_pieces (S (sl_seq l)) ts o)) eq_refl).
  cbn [sl_seq] in IH. destruct (run_sops dir ops _ _) as [l' fs'].
  destruct IH as (H1 & H2 & H3).
  { intros k ts' a b c d Hk. specialize (Hd (S k) ts' a b c d Hk). by rewrite Nat.add_succ_comm. }
  split; [|by split; [lia|]]. rewrite H1, contents_appends, <- app_assoc. f_equal. unfold op_detail.
  destruct o as [| | | | | |snippet full stats stamp]; try done. destruct (200 <? String.length full); [|done].
  unfold file_contents. rewrite lookup_insert_ne; [done|]. specialize (Hd 0 ts _ _ _ _ eq_refl). by rewrite Nat.add_0_r in Hd.
Qed.

(** the file of a session's logger is the rendering of what was logged: the
    header, then the rows of the operations in order, numbered one by one from
    1; detail files do not touch it, and after the logger is closed nothing
    more is written to it. *)
Theorem session_log_renders m mkdir_ok stamp sid logDir dir ops later fs l fs1 :
  let path := JoinPath (session_dir logDir sid) (stamp +:+ ".md") in
  sl_New m mkdir_ok stamp sid logDir fs = Some (l, fs1) -> details_apart dir path ops 1 ->
  let '(l2, fs2) := run_sops dir ops l fs1 in
  file_contents fs2 path = file_contents fs path ++ header_pieces m sid ++ render 1 ops
  /\ (let '(l3, fs3) := sl_Close m l2 fs2 in run_sops dir later l3 fs3 = (l3, fs3)).
Proof.
  intros path Hnew Hd. unfold sl_New in Hnew. destruct (mkdir_ok && open_ok m); [|done]. injection Hnew as <- <-. fold path.
  pose proof (run_sops_render dir ops (mkSLogger sid (Some path) 0) (append_files fs path (header_pieces m sid)) path eq_refl Hd) as H.
  destruct (run_sops dir ops _ _) as [l2 fs2]. destruct H as (H1 & _ & H3). split.
  - by rewrite H1, contents_appends, <- app_assoc.
  - unfold sl_Close. rewrite H3. generalize (append_file fs2 path (nl +:+ "---" +:+ nl +:+ "Ended: " +:+ now_ts m +:+ nl)). intros f.
    induction later as [|[ts o] later IH]; [done|]. cbn [run_sops run_sop sl_file]. exact IH.
Qed.

(** ** The registry *)

(** Every registered session has its own logger, which is open and is for that
    session. *)
Definition reg_inv (g : loggers) : Prop :=
  (forall sid p, rg_map g !! sid = Some p -> p < rg_next g /\ exists l, rg_heap g !! p = Some l /\ sl_session l = sid /\ sl_file l <> None)
  /\ (forall p, is_Some (rg_heap g !! p) -> p < rg_next g)
  /\ (forall p l, rg_heap g !! p = Some l -> sl_file l <> None -> exists sid, rg_map g !! sid = Some p).

Definition reg_empty (fs : files) : loggers := mkReg ∅ 0 ∅ fs.

(** The calls on the registry. *)
Inductive rop := ROpen (m : moment) (mkdir_ok : bool) (stamp logDir sid : string) | RClose (m : moment) (sid : string) | RCloseAll (m : moment).
Definition run_rop (g : loggers) (o : rop) : loggers :=
  match o with
  | ROpen m ok stamp logDir sid => (sl_Open m ok stamp logDir sid g).1
  | RClose m sid => sl_CloseSession m sid g
  | RCloseAll m => CloseAll m g
  end.

Lemma reg_inv_open m ok stamp logDir sid g : reg_inv g -> reg_inv (sl_Open m ok stamp logDir sid g).1.
Proof.
  intros Hg. unfold sl_Open. destruct (rg_map g !! sid) as [p0|] eqn:E; [done|].
  destruct (sl_New m ok stamp sid logDir (rg_files g)) as [[l fs]|] eqn:En; [|done].
  assert (sl_session l = sid /\ sl_file l <> None) as [Hs Hf] by (unfold sl_New in En; by case_match; simplify_eq).
  destruct Hg as (H1 & H2 & H3). assert (forall p, is_Some (rg_heap g !! p) -> p <> rg_next g) as Hne by (intros p Hp ->; apply H2 in Hp; lia).
  split; [|split]; cbn [fst rg_map rg_heap rg_next].
  - intros sid' p [[<- <-]|[Hn Hl]]%lookup_insert_Some.
    + split; [lia|]. exists l. by rewrite lookup_insert_eq.
    + apply H1 in Hl as (Hp & l' & Hl' & Hr). split; [lia|]. exists l'. rewrite lookup_insert_ne; [done|]. intros <-. lia.
  - intros p [l' [[<- _]|[_ Hl]]%lookup_insert_Some]; [lia|]. assert (p < rg_next g) by (by apply H2). lia.
  - intros p l' [[<- <-]|[Hn Hl]]%lookup_insert_Some Hl'; [exists sid; by rewrite lookup_insert_eq|].
    destruct (H3 p l' Hl Hl') as [sid' Hsid']. exists sid'. rewrite lookup_insert_ne; [done|]. intros <-. congruence.
Qed.

Lemma reg_inv_close m sid g : reg_inv g -> reg_inv (sl_CloseSession m sid g).
Proof.
  intros Hg. unfold sl_CloseSession. destruct (rg_map g !! sid) as [p0|] eqn:E; [|done].
  destruct Hg as (H1 & H2 & H3). destruct (H1 sid p0 E) as (Hp0 & l0 & Hl0 & Hs0 & Hf0).
  unfold close_at. rewrite Hl0. unfold sl_Close. destruct (sl_file l0) as [path|]; [|done].
  assert (forall sid' p, rg_map g !! sid' = Some p -> sid' <> sid -> p <> p0) as Hinj.
  { intros sid' p Hp Hn ->. destruct (H1 sid' p0 Hp) as (_ & l' & Hl' & Hs' & _). congruence. }
  split; [|split]; cbn [rg_map rg_heap rg_next].
  - intros sid' p [Hn Hl]%lookup_delete_Some. destruct (H1 sid' p Hl) as (Hp & l' & Hl' & Hr). split; [done|]. exists l'.
    rewrite lookup_insert_ne; [done|]. apply not_eq_sym. apply (Hinj sid' p Hl). congruence.
  - intros p [l' [[<- _]|[_ Hl]]%lookup_insert_Some]; [done|]. by apply H2.
  - intros p l' [[<- <-]|[Hn Hl]]%lookup_insert_Some Hl'; [done|]. destruct (H3 p l' Hl Hl') as [sid' Hsid'].
    exists sid'. rewrite lookup_delete_ne; [done|]. intros <-. congruence.
Qed.

Lemma reg_inv_closes m l g : reg_inv g -> reg_inv (foldl (fun g sid => sl_CloseSession m sid g) g l).
Proof. revert g. induction l as [|sid l IH]; intros g Hg; [done|]. cbn [foldl]. by apply IH, reg_inv_close. Qed.

Lemma run_rop_inv g o : reg_inv g -> reg_inv (run_rop g o).
Proof.
  destruct o as [m ok stamp logDir sid|m sid|m]; intros Hg; cbn [run_rop];
    [exact (reg_inv_open m ok stamp logDir sid g Hg)|exact (reg_inv_close m sid g Hg)|exact (reg_inv_closes m _ g Hg)].
Qed.

Lemma CloseSession_map m sid g : rg_map (sl_CloseSession m sid g) = delete sid (rg_map g).
Proof.
  unfold sl_CloseSession. destruct (rg_map g !! sid) as [p|] eqn:E; [|by rewrite delete_id].
  unfold close_at. destruct (rg_heap g !! p) as [l|]; [|done]. by destruct (sl_Close m l (rg_files g)).
Qed.

Lemma closes_map m l g : rg_map (foldl (fun g sid => sl_CloseSession m sid g) g l) = foldl (fun mp sid => delete sid mp) (rg_map g) l.
Proof. revert g. induction l as [|sid l IH]; intros g; [done|]. cbn [foldl]. by rewrite IH, CloseSession_map. Qed.

Lemma delete_all_keys (mp : gmap string nat) l : (forall k, is_Some (mp !! k) -> k ∈ l) -> foldl (fun mp k => delete k mp) mp l = ∅.
Proof.
  revert mp. induction l as [|k l IH]; intros mp H; cbn [foldl].
  - apply map_eq. intros k. rewrite lookup_empty. destruct (mp !! k) eqn:E; [|done]. exfalso. apply (not_elem_of_nil k), H. by exists n.
  - apply IH. intros k' [p [Hn Hk]%lookup_delete_Some]. specialize (H k' ltac:(by exists p)). by apply elem_of_cons in H as [->|].
Qed.

(** however sessions are opened and closed, the registry is exact: each
    registered session points to its own open logger, a logger that is open is
    registered, opening a registered session again returns the same logger, and
    closing all of them leaves none registered and none open. *)
Theorem session_registry fs ops m : let g := foldl run_rop (reg_empty fs) ops in
  reg_inv g
  /\ (forall ok stamp logDir sid p, sl_Get g sid = Some p -> sl_Open m ok stamp logDir sid g = (g, Some p))
  /\ (forall sid sid' p, sl_Get g sid = Some p -> sl_Get g sid' = Some p -> sid = sid')
  /\ rg_map (CloseAll m g) = ∅ /\ forall p l, rg_heap (CloseAll m g) !! p = Some l -> sl_file l = None.
Proof.
  intros g. assert (reg_inv g) as Hg.
  { unfold g. assert (reg_inv (reg_empty fs)) as H0
      by (split; [|split]; cbn; intros *; rewrite lookup_empty; by intros H || by intros [? H]).
    revert H0. generalize (reg_empty fs). induction ops as [|o ops IH]; intros g0 H0; [done|]. cbn [foldl]. apply IH.
    by apply run_rop_inv. }
  assert (rg_map (CloseAll m g) = ∅) as Hall.
  { unfold CloseAll. rewrite closes_map. apply delete_all_keys. intros k [p Hp].
    apply list_elem_of_fmap. exists (k, p). split; [done|]. by apply elem_of_map_to_list. }
  split; [done|]. split; [|split; [|split; [done|]]].
  - intros ok stamp logDir sid p Hp. unfold sl_Get in Hp. unfold sl_Open. by rewrite Hp.
  - unfold sl_Get. intros sid sid' p H1 H2. destruct Hg as (Hg & _ & _). destruct (Hg _ _ H1) as (_ & l & Hl & <- & _).
    destruct (Hg _ _ H2) as (_ & l' & Hl' & <- & _). congruence.
  - intros p l Hl. destruct (sl_file l) eqn:E; [|done]. exfalso.
    destruct (reg_inv_closes m (map_to_list (rg_map g)).*1 g Hg) as (_ & _ & H3).
    destruct (H3 p l Hl ltac:(by rewrite E)) as [sid Hsid]. unfold CloseAll in Hall. by rewrite Hall in Hsid.
Qed.

(** ** Concrete runs *)

Definition noon : moment := mkMoment "2025-01-02" "12:00:00" true true true.
Definition midnight : moment := mkMoment "2025-01-03" "00:00:00" true true true.
Definition raw_chunk (t : ChunkType) (s : string) : Chunk := mkChunk t s None None "" None.
Definition raw_events : list event :=
  [(noon, raw_chunk ChunkRawRequest "a"); (noon, raw_chunk ChunkText "b"); (midnight, raw_chunk ChunkRawError "c")].

Lemma raw_log_refines_witness :
  file_contents (run_raw raw_events (NewRawLogProcessor true "raw") ∅).1.2 "raw/2025-01-03.log" = [raw_line "00:00:00" "raw_error" "c"].
Proof.
  destruct (run_raw raw_events (NewRawLogProcessor true "raw") ∅) as [[p' fs'] acc] eqn:E.
  assert (raw_inv "raw" (NewRawLogProcessor true "raw")) as Hi by by split.
  pose proof (proj2 (proj2 (raw_log_refines "raw" raw_events _ ∅ p' fs' acc Hi E)) "raw/2025-01-03.log") as H.
  assert (acc = [(noon, raw_chunk ChunkRawRequest "a"); (midnight, raw_chunk ChunkRawError "c")]) as ->
    by (change acc with (p', fs', acc).2; rewrite <- E; vm_compute; reflexivity).
  cbn [fst snd]. rewrite H. vm_compute. reflexivity.
Defined.

Lemma raw_line_roundtrip_witness : exists line, raw_line "t" "raw_request" ("a" +:+ nl +:+ dq) = line +:+ nl /\ absent LF line = true
  /\ Unmarshal Some line = Some (AObj [("data", AStr ("a" +:+ nl +:+ dq)); ("kind", AStr "raw_request"); ("ts", AStr "t")]).
Proof. apply (raw_line_roundtrip Some "t" "raw_request" ("a" +:+ nl +:+ dq)); vm_compute; reflexivity. Defined.

Lemma session_log_renders_witness : exists l fs1, sl_New noon true "s1" "me" "logs" ∅ = Some (l, fs1) /\
  let '(l2, fs2) := run_sops "logs/sessions/me" [("t1", OpUser "hi"); ("t2", OpSystem "a|b")] l fs1 in
  file_contents fs2 "logs/sessions/me/s1.md" = header_pieces noon "me" ++ render 1 [("t1", OpUser "hi"); ("t2", OpSystem "a|b")].
Proof.
  eexists _, _. split; [reflexivity|].
  pose proof (session_log_renders noon true "s1" "me" "logs" "logs/sessions/me" [("t1", OpUser "hi"); ("t2", OpSystem "a|b")] []
    ∅ _ _ eq_refl) as H. cbv zeta in H.
  destruct (run_sops _ _ _ _) as [l2 fs2]. destruct H as [H _]; [|exact H].
  intros [|[|k]] ts a b c d Hk; [discriminate Hk|discriminate Hk|discriminate Hk].
Defined.
