(* ===== verification/HttpTools.v ===== *)
(** * Tools that call HTTP services

    [tools/compress.go], [tools/vision.go] and [tools/websearch.go]. A tool is
    a function of the environment and of what the network answers; it returns
    the requests it made with its result. [url.Parse], [net.ParseIP], the check
    [http.NewRequest] makes of a URL and the JSON decoding of replies are
    arguments. *)
From stdpp Require Import base tactics list strings pretty gmap.
From Stdlib Require Import ZArith Lia.
From S2P Require Import Prelude GoStrings GoRegex Types GoJSONText Vendor.

(** ** Base64 *)

Definition b64_alphabet : string := "ABCDEFGHIJKLMNOPQRSTUVWXYZabcdefghijklmnopqrstuvwxyz0123456789+/".
Definition b64_char (n : nat) : ascii := default "="%char (String.get n b64_alphabet).
Definition pad : ascii := "=".

(** [base64.StdEncoding.EncodeToString] *)
Fixpoint EncodeToString (s : string) : string :=
  match s with
  | EmptyString => ""
  | String x EmptyString =>
      let a := nat_of_ascii x in String (b64_char (a / 4)) (String (b64_char (a mod 4 * 16)) (String pad (String pad "")))
  | String x (String y EmptyString) =>
      let a := nat_of_ascii x in let b := nat_of_ascii y in
      String (b64_char (a / 4)) (String (b64_char (a mod 4 * 16 + b / 16)) (String (b64_char (b mod 16 * 4)) (String pad "")))
  | String x (String y (String z rest)) =>
      let a := nat_of_ascii x in let b := nat_of_ascii y in let c := nat_of_ascii z in
      String (b64_char (a / 4)) (String (b64_char (a mod 4 * 16 + b / 16))
        (String (b64_char (b mod 16 * 4 + c / 64)) (String (b64_char (c mod 64)) (EncodeToString rest))))
  end.

Definition b64_value (c : ascii) : option nat := Index b64_alphabet (String c "").

(** The decoder a receiver uses; [None] is malformed text. *)
Fixpoint DecodeString (s : string) : option string :=
  match s with
  | EmptyString => Some ""
  | String p (String q (String r (String t rest))) =>
      match b64_value p, b64_value q with
      | Some i, Some j =>
          let x := byte (i * 4 + j / 16) in
          if Ascii.eqb r pad then
            if Ascii.eqb t pad && (rest =s "") then Some (String x "") else None
          else match b64_value r with
               | None => None
               | Some k =>
                   let y := byte (j mod 16 * 16 + k / 4) in
                   if Ascii.eqb t pad then if rest =s "" then Some (String x (String y "")) else None
                   else match b64_value t, DecodeString rest with
                        | Some l, Some out => Some (String x (String y (String (byte (k mod 4 * 64 + l)) out)))
                        | _, _ => None
                        end
               end
      | _, _ => None
      end
  | _ => None
  end.

Example base64_ex : EncodeToString "Man" = "TWFu" /\ EncodeToString "Ma" = "TWE=" /\ EncodeToString "M" = "TQ=="
  /\ EncodeToString "light work." = "bGlnaHQgd29yay4=".
Proof. vm_compute. repeat split; reflexivity. Qed.

(** ** Requests *)

Record http_request := mkHReq { hr_Method : string; hr_URL : string; hr_Headers : list (string * string); hr_Body : string }.

(** What the transport gives for one request: an error, or a status with the
    Location header ([""] when there is none) and a body that may fail to be
    read. *)
Record http_response := mkHResp { rs_Status : Z; rs_Location : string; rs_Body : gerror + string }.
Definition http_reply : Type := gerror + http_response.

(** ** The client *)

(** How [http.Client] goes on after a status: the method of the next request
    and whether it carries the body again; the bodies sent here are readers of
    bytes or absent, so that they can be sent again. *)
Definition redirectBehavior (method : string) (status : Z) : option (string * bool) :=
  if bool_decide (status ∈ [301; 302; 303]%Z) then Some (if (method =s "GET") || (method =s "HEAD") then method else "GET", false)
  else if bool_decide (status ∈ [307; 308]%Z) then Some (method, true)
  else None.

Definition sensitive_headers : list string :=
  ["Authorization"; "Www-Authenticate"; "Cookie"; "Cookie2"; "Proxy-Authorization"; "Proxy-Authenticate"].
Definition body_headers : list string := ["Content-Encoding"; "Content-Language"; "Content-Location"; "Content-Type"].

Section Client.
(** The transport, which may answer the same request differently after other
    requests; a Location resolved against the URL of the request; whether a
    URL's host is that of the first URL or below it; the Referer to send. *)
Context (net : list http_request -> http_request -> http_reply).
Context (resolve : string -> string -> gerror + string) (same_site : string -> string -> bool)
  (referer : string -> string -> string).

(** The headers are those of the request before, without the sensitive ones
    when the redirect leaves the site of the first request. *)
Definition redirect_headers (first u : string) (keepBody : bool) (prev : http_request) : list (string * string) :=
  let copied := filter (fun h => ~ (h.1 = "Referer" \/ (h.1 ∈ sensitive_headers /\ same_site first u = false)
                                    \/ (h.1 ∈ body_headers /\ keepBody = false))) (hr_Headers prev) in
  if referer (hr_URL prev) u =s "" then copied else copied ++ [("Referer", referer (hr_URL prev) u)].

Definition redirect_request (first : string) (prev : http_request) (method : string) (keepBody : bool) (u : string) : http_request :=
  mkHReq method u (redirect_headers first u keepBody prev) (if keepBody then hr_Body prev else "").

(** [n] redirects may still be followed. *)
Fixpoint do_loop (n : nat) (first : string) (before : list http_request) (req : http_request) : list http_request * http_reply :=
  match net before req with
  | inl e => ([req], inl e)
  | inr resp =>
      match redirectBehavior (hr_Method req) (rs_Status resp) with
      | None => ([req], inr resp)
      | Some (method, keepBody) =>
          if rs_Location resp =s "" then ([req], inr resp)
          else match resolve (hr_URL req) (rs_Location resp) with
               | inl e => ([req], inl e)
               | inr u =>
                   match n with
                   | 0 => ([req], inl (EMsg "stopped after 10 redirects"))
                   | S n' =>
                       let '(hops, r) := do_loop n' first (before ++ [req]) (redirect_request first req method keepBody u) in
                       (req :: hops, r)
                   end
               end
      end
  end.

(** [client.Do] of a client without a [CheckRedirect] of its own: the default
    stops when ten requests have been made. The requests sent and the reply. *)
Definition client_Do (before : list http_request) (req : http_request) : list http_request * http_reply :=
  do_loop 9 (hr_URL req) before req.

(** [hops] are what the client sends on its own after [req]: each goes where
    the Location of the reply before it points. *)
Fixpoint redirects (first : string) (before : list http_request) (req : http_request) (hops : list http_request) : Prop :=
  match hops with
  | [] => True
  | h :: hops' => exists resp method keepBody u,
      net before req = inr resp /\ redirectBehavior (hr_Method req) (rs_Status resp) = Some (method, keepBody)
      /\ resolve (hr_URL req) (rs_Location resp) = inr u /\ h = redirect_request first req method keepBody u
      /\ redirects first (before ++ [req]) h hops'
  end.

Lemma do_loop_redirects n first before req : exists hops, (do_loop n first before req).1 = req :: hops
  /\ length hops <= n /\ redirects first before req hops.
Proof.
  revert before req. induction n as [|n IH]; intros before req; cbn [do_loop];
    (destruct (net before req) as [e|resp] eqn:En; [exists []; cbn; auto with lia|]);
    (destruct (redirectBehavior _ _) as [[method keep]|] eqn:Er; [|exists []; cbn; auto with lia]);
    (destruct (rs_Location resp =s ""); [exists []; cbn; auto with lia|]);
    (destruct (resolve _ _) as [e|u] eqn:Eu; [exists []; cbn; auto with lia|]); [exists []; cbn; auto|].
  destruct (IH (before ++ [req]) (redirect_request first req method keep u)) as (hops & E & Hl & Hr).
  destruct (do_loop _ _ _ _) as [hs r]. cbn [fst] in *. subst hs. eexists. split; [reflexivity|].
  cbn [length redirects]. split; [lia|]. exists resp, method, keep, u. auto.
Qed.

(** A hop never carries a body or a sensitive header that the request before
    it did not carry, and a sensitive one only within the site. *)
Lemma redirect_headers_sound first u keep prev k v : (k, v) ∈ redirect_headers first u keep prev ->
  k = "Referer" \/ (k, v) ∈ hr_Headers prev /\ (k ∈ sensitive_headers -> same_site first u = true).
Proof.
  unfold redirect_headers. intros H.
  assert ((k, v) ∈ filter (fun h : string * string => ~ (h.1 = "Referer" \/ (h.1 ∈ sensitive_headers /\ same_site first u = false)
      \/ (h.1 ∈ body_headers /\ keep = false))) (hr_Headers prev) \/ k = "Referer") as [[Hk Hin]%list_elem_of_filter| ->]; [| |by left].
  { destruct (referer _ _ =s ""); [by left|]. apply elem_of_app in H as [?|[= -> _]%list_elem_of_singleton]; auto. }
  right. split; [done|]. intros Hs. apply not_false_is_true. intros Hf. apply Hk. right. left. done.
Qed.
End Client.

(** A tool's errors by the place they arise. *)
Inductive tool_error :=
| NotConfigured | BadRequest (e : gerror) | RequestFailed (e : gerror) | ReadFailed (e : gerror)
| APIError (msg : string) | ParseFailed (e : gerror) | EmptyResult
| DownloadFailed (e : tool_error) | InvalidImageURL | PrivateImageURL | StatusNotOK (status : Z).

Record SearchResult := mkSearchResult { sr_URL : string; sr_Title : string; sr_Description : string }.

Section Tools.
Context (getenv : string -> string) (net : list http_request -> http_request -> http_reply).
Context (resolve : string -> string -> gerror + string) (same_site : string -> string -> bool)
  (referer : string -> string -> string).
(** [NewRequestWithContext]'s error for a URL. *)
Context (bad_url : string -> option gerror).
(** The three replies' decoders: the [error] object of a reply, if it can be
    decoded and has one; the contents of the choices; the search results. *)
Context (decode_error : string -> option string) (decode_choices : string -> gerror + list string)
  (decode_search : string -> gerror + bool * list SearchResult).
Context (url_Parse : string -> option URL) (ParseIP : string -> option IP).

(** The requests that went out and the outcome. *)
Definition run (A : Type) : Type := list http_request * (tool_error + A).

(** The requests of one [client.Do], and what the code makes of its reply. *)
Definition exchange {A} (before : list http_request) (req : http_request) (k : http_reply -> tool_error + A) : run A :=
  let '(sent, reply) := client_Do net resolve same_site referer before req in (sent, k reply).

(** The end [RunCompress] and [RunVision] share: one POST, and the first choice
    of the reply. *)
Definition post_chat (before : list http_request) (apiKey baseURL body : string) : run string :=
  let apiURL := TrimRight baseURL "/" +:+ "/chat/completions" in
  match bad_url apiURL with
  | Some e => ([], inl (BadRequest e))
  | None =>
      let req := mkHReq "POST" apiURL [("Content-Type", "application/json"); ("Authorization", "Bearer " +:+ apiKey)] body in
      exchange before req (fun reply =>
       match reply with
       | inl e => inl (RequestFailed e)
       | inr resp =>
           match rs_Body resp with
           | inl e => inl (ReadFailed e)
           | inr respBody =>
               match decode_error respBody with
               | Some msg => inl (APIError msg)
               | None =>
                   match decode_choices respBody with
                   | inl e => inl (ParseFailed e)
                   | inr [] => inl EmptyResult
                   | inr (c :: _) => inr c
                   end
               end
           end
       end)
  end.

Record CompressInput := mkCompressInput { ci_Content : string; ci_Instruction : string }.

Definition compress_prompt (input : CompressInput) : string :=
  (if ci_Instruction input =s "" then "请压缩以下内容，保留所有关键信息，去除冗余，语言保持不变" else ci_Instruction input)
  +:+ nl +:+ nl +:+ ci_Content input.

Definition compress_body (modelID prompt : string) : any :=
  AObj [("model", AStr modelID); ("messages", AArr [AObj [("role", AStr "user"); ("content", AStr prompt)]])].

Definition RunCompress (before : list http_request) (input : CompressInput) : run string :=
  let apiKey := getenv "COMPRESS_API_KEY" in
  let baseURL := getenv "COMPRESS_BASE_URL" in
  let modelID := getenv "COMPRESS_MODEL" in
  if (apiKey =s "") || (baseURL =s "") then ([], inl NotConfigured)
  else
    let modelID := if modelID =s "" then "gpt-4o-mini" else modelID in
    post_chat before apiKey baseURL (Marshal (compress_body modelID (compress_prompt input))).

(** [strings.EqualFold(v, "true")] *)
Definition allow_private_images : bool :=
  String.string_of_list_ascii (map lower_byte (String.list_ascii_of_string (getenv "ALLOW_PRIVATE_IMAGE_URLS"))) =s "true".

Definition fetchImage (before : list http_request) (rawURL : string) : run string :=
  match url_Parse rawURL with
  | None => ([], inl InvalidImageURL)
  | Some u =>
      let host := Hostname u in
      if (host <>s "") && isPrivateHost ParseIP host && negb allow_private_images then ([], inl PrivateImageURL)
      else match bad_url rawURL with
           | Some e => ([], inl (BadRequest e))
           | None =>
               let req := mkHReq "GET" rawURL [("User-Agent", "Mozilla/5.0 (Windows NT 10.0; Win64; x64)")] "" in
               exchange before req (fun reply =>
                match reply with
                | inl e => inl (RequestFailed e)
                | inr resp =>
                    if (rs_Status resp =? 200)%Z then match rs_Body resp with inl e => inl (ReadFailed e) | inr b => inr b end
                    else inl (StatusNotOK (rs_Status resp))
                end)
           end
  end.

Record VisionInput := mkVisionInput { vi_ImageURL : string; vi_Prompt : string }.

Definition vision_body (modelID prompt imgURL : string) : any :=
  AObj [("model", AStr modelID);
        ("messages", AArr [AObj [("role", AStr "user");
           ("content", AArr [AObj [("type", AStr "text"); ("text", AStr prompt)];
                             AObj [("type", AStr "image_url"); ("image_url", AObj [("url", AStr imgURL)])]])]])].

Definition RunVision (before : list http_request) (input : VisionInput) : run string :=
  let apiKey := getenv "VISION_API_KEY" in
  let baseURL := getenv "VISION_BASE_URL" in
  let modelID := getenv "VISION_MODEL" in
  if (apiKey =s "") || (baseURL =s "") then ([], inl NotConfigured)
  else
    let modelID := if modelID =s "" then "gpt-4o" else modelID in
    let prompt := if vi_Prompt input =s "" then "请详细描述这张图片的内容" else vi_Prompt input in
    let send sofar imgURL := post_chat sofar apiKey baseURL (Marshal (vision_body modelID prompt imgURL)) in
    if HasPrefix (vi_ImageURL input) "data:" then send before (vi_ImageURL input)
    else match fetchImage before (vi_ImageURL input) with
         | (reqs, inl e) => (reqs, inl (DownloadFailed e))
         | (reqs, inr data) =>
             let '(reqs', r) := send (before ++ reqs) ("data:image/png;base64," +:+ EncodeToString data) in (reqs ++ reqs', r)
         end.

Definition search_url : string := "https://api.firecrawl.dev/v2/search".

Definition num_str (n : nat) : string := pretty (N.of_nat n).

(** One numbered result. *)
Definition result_text (i : nat) (r : SearchResult) : string :=
  num_str (i + 1) +:+ ". " +:+ sr_Title r +:+ nl +:+ "   URL: " +:+ sr_URL r +:+ nl
  +:+ (if sr_Description r <>s "" then "   摘要: " +:+ sr_Description r +:+ nl else "") +:+ nl.

Fixpoint results_text (i : nat) (l : list SearchResult) : string :=
  match l with [] => "" | r :: l' => result_text i r +:+ results_text (S i) l' end.

Definition search_output (l : list SearchResult) : string :=
  "找到 " +:+ num_str (length l) +:+ " 条结果:" +:+ nl +:+ nl +:+ results_text 0 l.

Definition search_instruction : string := "压缩以下搜索结果，保留所有标题和 URL，对每个结果用一句话概括，保持语言不变：".

Definition WebSearch (before : list http_request) (query : string) : run string :=
  let apiKey := getenv "FIRECRAWL_API_KEY" in
  let body := Marshal (AObj [("query", AStr query); ("limit", ANum "5")]) in
  match bad_url search_url with
  | Some e => ([], inl (BadRequest e))
  | None =>
      let auth := if apiKey <>s "" then [("Authorization", "Bearer " +:+ apiKey)] else [] in
      let req := mkHReq "POST" search_url (("Content-Type", "application/json") :: auth) body in
      let '(sent, reply) := client_Do net resolve same_site referer before req in
      match reply with
      | inl e => (sent, inl (RequestFailed e))
      | inr resp =>
          match rs_Body resp with
          | inl e => (sent, inl (ReadFailed e))
          | inr respBody =>
              match decode_search respBody with
              | inl e => (sent, inl (ParseFailed e))
              | inr (success, web) =>
                  if negb success || (length web =? 0) then (sent, inr "未找到结果")
                  else
                    let output := search_output web in
                    if 2000 <? String.length output then
                      let '(reqs, r) := RunCompress (before ++ sent) (mkCompressInput output search_instruction) in
                      (sent ++ reqs, match r with inr compressed => inr compressed | inl _ => inr output end)
                    else (sent, inr output)
              end
          end
      end
  end.
End Tools.

(** ** Base64 round trip *)

Lemma b64_table n : n < 64 -> b64_value (b64_char n) = Some n /\ Ascii.eqb (b64_char n) pad = false
  /\ nat_of_ascii (b64_char n) < 128.
Proof.
  intros Hn. assert (forallb (fun n => match b64_value (b64_char n) with Some m => m =? n | None => false end
    && negb (Ascii.eqb (b64_char n) pad) && (nat_of_ascii (b64_char n) <? 128)) (seq 0 64) = true) as H by (vm_compute; reflexivity).
  rewrite forallb_forall in H. specialize (H n ltac:(apply in_seq; lia)).
  apply andb_prop in H as [[H1 H2]%andb_prop H3%Nat.ltb_lt]. apply negb_true_iff in H2. split; [|done].
  destruct (b64_value _); [|done]. by apply Nat.eqb_eq in H1 as ->.
Qed.

Lemma b64_value_char n : n < 64 -> b64_value (b64_char n) = Some n.
Proof. intros H. apply (b64_table n H). Qed.
Lemma b64_char_pad n : n < 64 -> Ascii.eqb (b64_char n) pad = false.
Proof. intros H. apply (b64_table n H). Qed.

Lemma byte_lt c : nat_of_ascii c < 256.
Proof. apply nat_ascii_bounded. Qed.

Lemma byte_join c n : n = nat_of_ascii c -> byte n = c.
Proof. intros ->. apply ascii_nat_embedding. Qed.

(** Strings three bytes at a time. *)
Lemma str_ind3 (P : string -> Prop) : P "" -> (forall x, P (String x "")) -> (forall x y, P (String x (String y ""))) ->
  (forall x y z s, P s -> P (String x (String y (String z s)))) -> forall s, P s.
Proof.
  intros H0 H1 H2 H3. fix IH 1. intros [|x [|y [|z s]]]; [exact H0|apply H1|apply H2|apply H3, IH].
Qed.

Lemma div_mod_bound a : a < 256 -> a / 4 < 64 /\ a mod 4 < 4 /\ a / 16 < 16 /\ a mod 16 < 16 /\ a / 64 < 4 /\ a mod 64 < 64.
Proof.
  intros H. repeat split; first [apply Nat.Div0.div_lt_upper_bound; lia | apply Nat.mod_upper_bound; lia].
Qed.

Lemma join_4 a : a = a / 4 * 4 + a mod 4.
Proof. rewrite Nat.mul_comm. apply Nat.Div0.div_mod. Qed.
Lemma join_16 a : a = a / 16 * 16 + a mod 16.
Proof. rewrite Nat.mul_comm. apply Nat.Div0.div_mod. Qed.
Lemma join_64 a : a = a / 64 * 64 + a mod 64.
Proof. rewrite Nat.mul_comm. apply Nat.Div0.div_mod. Qed.

Lemma div_plus a b d : b < d -> (a * d + b) / d = a.
Proof. intros H. rewrite Nat.div_add_l by lia. rewrite (Nat.div_small b d) by done. lia. Qed.
Lemma mod_plus a b d : b < d -> (a * d + b) mod d = b.
Proof. intros H. rewrite Nat.add_comm, Nat.Div0.mod_add. by apply Nat.mod_small. Qed.

Lemma base64_group x y : let a := nat_of_ascii x in let b := nat_of_ascii y in
  byte (a / 4 * 4 + (a mod 4 * 16 + b / 16) / 16) = x /\ (a mod 4 * 16 + b / 16) mod 16 = b / 16.
Proof.
  cbv zeta. pose proof (div_mod_bound _ (byte_lt x)) as Hx. pose proof (div_mod_bound _ (byte_lt y)) as Hy.
  rewrite div_plus, mod_plus by lia. split; [|done]. apply byte_join. symmetry. apply join_4.
Qed.

Lemma base64_group2 y z : let b := nat_of_ascii y in let c := nat_of_ascii z in
  byte (b / 16 * 16 + (b mod 16 * 4 + c / 64) / 4) = y /\ byte ((b mod 16 * 4 + c / 64) mod 4 * 64 + c mod 64) = z.
Proof.
  cbv zeta. pose proof (div_mod_bound _ (byte_lt y)) as Hx. pose proof (div_mod_bound _ (byte_lt z)) as Hy.
  rewrite div_plus, mod_plus by lia. split; apply byte_join; symmetry; [apply join_16|apply join_64].
Qed.

Lemma base64_roundtrip s : DecodeString (EncodeToString s) = Some s.
Proof.
  induction s as [|x|x y|x y z s IH] using str_ind3; [done|..]; cbn [EncodeToString DecodeString];
    pose proof (div_mod_bound _ (byte_lt x)); try pose proof (div_mod_bound _ (byte_lt y)); try pose proof (div_mod_bound _ (byte_lt z)).
  - rewrite !b64_value_char by lia. cbn [Ascii.eqb pad Bool.eqb]. destruct (base64_group x (byte 0)) as [E _].
    cbv zeta in E. change (nat_of_ascii (byte 0) / 16) with 0 in E. rewrite Nat.add_0_r in E. by rewrite E.
  - rewrite !b64_value_char, b64_char_pad by lia. cbn [Ascii.eqb pad Bool.eqb]. destruct (base64_group x y) as [-> E]. rewrite E.
    destruct (base64_group2 y (byte 0)) as [E2 _]. cbv zeta in E2. change (nat_of_ascii (byte 0) / 64) with 0 in E2. rewrite Nat.add_0_r in E2. by rewrite E2.
  - rewrite !b64_value_char, !b64_char_pad by lia. destruct (base64_group x y) as [-> E]. rewrite E.
    destruct (base64_group2 y z) as [-> ->]. by rewrite IH.
Qed.

Lemma base64_utf8 s k : utf8 k -> utf8 (EncodeToString s +:+ k).
Proof.
  intros Hk. assert (forall n t, n < 64 -> utf8 t -> utf8 (String (b64_char n) t)) as Hc.
  { intros n t Hn Ht. by apply (utf8_cons (String (b64_char n) "") _ t (form1 _ (proj2 (proj2 (b64_table n Hn))))). }
  assert (forall t, utf8 t -> utf8 (String pad t)) as Hp.
  { intros t Ht. by apply (utf8_cons (String pad "") _ t (form1 pad ltac:(vm_compute; lia))). }
  induction s as [|x|x y|x y z s IH] using str_ind3; [done|..]; cbn [EncodeToString String.append];
    pose proof (div_mod_bound _ (byte_lt x)); try pose proof (div_mod_bound _ (byte_lt y)); try pose proof (div_mod_bound _ (byte_lt z));
    repeat first [apply Hp | apply Hc; [lia|]]; done.
Qed.

(** ** What the tools send *)

Section Sent.
Context (getenv : string -> string) (net : list http_request -> http_request -> http_reply).
Context (resolve : string -> string -> gerror + string) (same_site : string -> string -> bool)
  (referer : string -> string -> string) (bad_url : string -> option gerror)
  (decode_error : string -> option string) (decode_choices : string -> gerror + list string)
  (url_Parse : string -> option URL) (ParseIP : string -> option IP).
Abbreviation post := (post_chat net resolve same_site referer bad_url decode_error decode_choices).
Abbreviation fetch := (fetchImage getenv net resolve same_site referer bad_url url_Parse ParseIP).
Abbreviation vision := (RunVision getenv net resolve same_site referer bad_url decode_error decode_choices url_Parse ParseIP).
Abbreviation compress := (RunCompress getenv net resolve same_site referer bad_url decode_error decode_choices).
Abbreviation hops_of := (redirects net resolve same_site referer).

(** A request that carries no credential and no body. *)
Definition bare (r : http_request) : Prop :=
  hr_Method r = "GET" /\ (forall k, k ∈ sensitive_headers -> k ∉ (hr_Headers r).*1) /\ hr_Body r = "".

(** A request for the image at the address the caller gave, which passed the test of its host. *)
Definition image_request (img : string) (r : http_request) : Prop :=
  hr_URL r = img /\ bare r
  /\ exists u, url_Parse img = Some u
     /\ (Hostname u = "" \/ isPrivateHost ParseIP (Hostname u) = false \/ allow_private_images getenv = true).

(** A request to the configured service, with its key. *)
Definition api_request (keyVar urlVar : string) (r : http_request) : Prop :=
  hr_Method r = "POST" /\ hr_URL r = TrimRight (getenv urlVar) "/" +:+ "/chat/completions"
  /\ ("Authorization", "Bearer " +:+ getenv keyVar) ∈ hr_Headers r /\ getenv keyVar <> "" /\ getenv urlVar <> "".

(** The key goes to another address than the first only within its site. *)
Definition key_kept (first : string) (r : http_request) : Prop :=
  "Authorization" ∈ (hr_Headers r).*1 -> same_site first (hr_URL r) = true.

(** One exchange with the service with the at most nine redirects it was sent
    on, or none, and then the tool fails. *)
Definition api_part (keyVar urlVar : string) (before reqs : list http_request) (r : tool_error + string) : Prop :=
  (reqs = [] /\ forall out, r <> inr out)
  \/ exists q hops, reqs = q :: hops /\ api_request keyVar urlVar q
       /\ hops_of (hr_URL q) before q hops /\ length hops <= 9 /\ Forall (key_kept (hr_URL q)) hops.

(** The same for the image: no hop carries a credential, whatever its target. *)
Definition image_part (img : string) (before reqs : list http_request) : Prop :=
  reqs = [] \/ exists q hops, reqs = q :: hops /\ image_request img q
    /\ hops_of img before q hops /\ length hops <= 9 /\ Forall bare hops.

Lemma hop_key_kept first prev method keep u : key_kept first (redirect_request same_site referer first prev method keep u).
Proof.
  intros ([k v] & Hk & Hin)%list_elem_of_fmap. cbn [fst] in Hk. subst k. cbn [redirect_request hr_Headers hr_URL] in *.
  apply redirect_headers_sound in Hin as [?|[_ Hs]]; [done|]. apply Hs. left.
Qed.

Lemma hops_key_kept first before q hops : hops_of first before q hops -> Forall (key_kept first) hops.
Proof.
  revert before q. induction hops as [|h hops IH]; intros before q; [constructor|].
  cbn [redirects]. intros (resp & m & keep & u & _ & _ & _ & -> & H). constructor; [apply hop_key_kept|by eapply IH].
Qed.

Lemma hop_bare first prev method keep u status : bare prev -> redirectBehavior (hr_Method prev) status = Some (method, keep) ->
  bare (redirect_request same_site referer first prev method keep u).
Proof.
  intros (Hm & Hh & Hb) Hr. unfold redirectBehavior in Hr. rewrite Hm in Hr.
  assert (method = "GET") as -> by (repeat case_match; by simplify_eq).
  split; [done|]. split; [|cbn; by destruct keep].
  intros k Hk ([k' v] & -> & Hin)%list_elem_of_fmap. cbn [fst redirect_request hr_Headers] in *.
  apply redirect_headers_sound in Hin as [->|[Hin _]].
  - unfold sensitive_headers in Hk. set_solver.
  - apply (Hh k' Hk). apply list_elem_of_fmap. by exists (k', v).
Qed.

Lemma hops_bare first before q hops : bare q -> hops_of first before q hops -> Forall bare hops.
Proof.
  revert before q. induction hops as [|h hops IH]; intros before q Hq; [constructor|].
  cbn [redirects]. intros (resp & m & keep & u & _ & Hr & _ & -> & H).
  assert (bare (redirect_request same_site referer first q m keep u)) as Hb by by eapply hop_bare.
  constructor; [done|by eapply IH].
Qed.

Lemma exchange_sent {A} before req (k : http_reply -> tool_error + A) : exists hops,
  (exchange net resolve same_site referer before req k).1 = req :: hops
  /\ length hops <= 9 /\ hops_of (hr_URL req) before req hops.
Proof.
  unfold exchange, client_Do. pose proof (do_loop_redirects net resolve same_site referer 9 (hr_URL req) before req) as H.
  by destruct (do_loop _ _ _ _ _ _ _ _) as [sent reply].
Qed.

Lemma post_api kv uv before body : getenv kv <> "" -> getenv uv <> "" ->
  let '(reqs, r) := post before (getenv kv) (getenv uv) body in api_part kv uv before reqs r.
Proof.
  intros Hk Hu. unfold post_chat. destruct (bad_url _); [left; by split|].
  match goal with |- context [exchange _ _ _ _ before ?q ?k] =>
    destruct (exchange_sent before q k) as (hops & E & Hl & Hr); destruct (exchange _ _ _ _ before q k) as [reqs r] end.
  cbn [fst] in E. subst reqs. right. eexists _, hops. split; [reflexivity|].
  split; [repeat split; [cbn; set_solver|done|done]|]. split; [done|]. split; [done|]. by eapply hops_key_kept.
Qed.

Lemma fetch_part before img : image_part img before (fetch before img).1.
Proof.
  unfold fetchImage. destruct (url_Parse img) as [u|] eqn:Eu; [|by left].
  destruct ((Hostname u <>s "") && isPrivateHost ParseIP (Hostname u) && negb (allow_private_images getenv)) eqn:E; [by left|].
  destruct (bad_url img); [by left|]. right.
  match goal with |- context [exchange _ _ _ _ before ?q ?k] =>
    destruct (exchange_sent before q k) as (hops & -> & Hl & Hr); assert (bare q) as Hb end.
  { split; [done|]. split; [|done]. cbn. unfold sensitive_headers. set_solver. }
  eexists _, hops. split; [reflexivity|]. split; [|split; [done|]; split; [done|]; by eapply hops_bare].
  split; [done|]. split; [done|].
  exists u. split; [done|]. apply andb_false_iff in E as [[E|E]%andb_false_iff|E]; bool_prop; auto.
Qed.


(** The model and the prompt the vision tool uses. *)
Definition vision_model : string := if getenv "VISION_MODEL" =s "" then "gpt-4o" else getenv "VISION_MODEL".
Definition vision_prompt (input : VisionInput) : string :=
  if vi_Prompt input =s "" then "请详细描述这张图片的内容" else vi_Prompt input.

Lemma vision_body_decodes num m p img : utf8b m = true -> utf8b p = true -> utf8b img = true ->
  Unmarshal num (Marshal (vision_body m p img)) = Some (canon (vision_body m p img)).
Proof.
  intros Hm Hp Hi. apply Unmarshal_Marshal.
  - cbn [vision_body wf_any forallb fst snd]. by rewrite Hm, Hp, Hi.
  - vm_compute. discriminate.
Qed.

(** A redirect that is still a POST carries the body again. *)
Lemma hops_post first before q hops h : hops_of first before q hops -> h ∈ hops -> hr_Method h = "POST" ->
  hr_Method q = "POST" /\ hr_Body h = hr_Body q.
Proof.
  revert before q. induction hops as [|h' hops IH]; intros before q; [by intros _ ?%elem_of_nil|].
  cbn [redirects]. intros (resp & m & keep & u & _ & Hr & _ & E & H) Hin Hm.
  assert (hr_Method h' = "POST" /\ hr_Body h = hr_Body h') as [Hm' ->].
  { apply elem_of_cons in Hin as [<-|Hin]; [done|by eapply IH]. }
  rewrite E in Hm' |- *. cbn [redirect_request hr_Method hr_Body] in *. subst m. unfold redirectBehavior in Hr.
  destruct (hr_Method q =s "GET") eqn:E1, (hr_Method q =s "HEAD") eqn:E2; bool_prop; repeat case_match; simplify_eq; by rewrite ?E1, ?E2 in *.
Qed.

(** when the image was downloaded, a request that follows with a body is JSON
    from which the receiver decodes the prompt and, under base64, exactly the
    bytes that were downloaded. *)
Theorem vision_image_sent num before input data reqs r q :
  vision before input = (reqs, r) -> HasPrefix (vi_ImageURL input) "data:" = false ->
  (fetch before (vi_ImageURL input)).2 = inr data -> utf8b vision_model = true -> utf8b (vision_prompt input) = true ->
  q ∈ reqs -> hr_Method q = "POST" ->
  exists e, DecodeString e = Some data
    /\ Unmarshal num (hr_Body q) = Some (canon (vision_body vision_model (vision_prompt input) ("data:image/png;base64," +:+ e))).
Proof.
  intros H Hd Hf Hm Hp Hq Hpost. exists (EncodeToString data). split; [apply base64_roundtrip|].
  unfold RunVision in H. destruct ((getenv "VISION_API_KEY" =s "") || _); [by simplify_eq; apply not_elem_of_nil in Hq|].
  rewrite Hd in H. pose proof (fetch_part before (vi_ImageURL input)) as Hfp.
  destruct (fetch before (vi_ImageURL input)) as [a o]. cbn [snd fst] in *. subst o.
  fold vision_model in H. fold (vision_prompt input) in H. unfold post_chat in H.
  assert (q ∉ a) as Hqa.
  { destruct Hfp as [->|(q0 & hops & -> & (_ & (Hm0 & _) & _) & _ & _ & Hb)]; [apply not_elem_of_nil|].
    intros [->|Hin]%elem_of_cons; [congruence|]. rewrite Forall_forall in Hb. destruct (Hb q Hin). congruence. }
  destruct (bad_url _); simplify_eq; [by rewrite app_nil_r in Hq|].
  match type of H with context [exchange _ _ _ _ ?o ?q0 ?k] =>
    destruct (exchange_sent o q0 k) as (hops & E & Hl & Hr); destruct (exchange _ _ _ _ o q0 k) as [sent r0];
    assert (hr_Body q = hr_Body q0) as -> end.
  { cbn [fst] in E. simplify_eq. apply elem_of_app in Hq as [Hq|[->|Hin]%elem_of_cons]; [done|done|].
    by apply (hops_post _ _ _ _ _ Hr Hin Hpost). }
  cbn [hr_Body]. apply vision_body_decodes; [done|done|]. apply utf8b_complete.
  apply (utf8_app "data:image/png;base64,"); [apply utf8b_sound; by vm_compute|].
  rewrite <- (str_app_nil_r (EncodeToString data)). apply base64_utf8. constructor.
Qed.

(** The search reply's decoder. *)
Context (decode_search : string -> gerror + bool * list SearchResult).
Abbreviation search := (WebSearch getenv net resolve same_site referer bad_url decode_error decode_choices decode_search).

(** a search that was answered gives the numbered list of results; only a
    list longer than 2000 bytes is sent to be compressed, and when that fails
    the list itself is the answer: compression never loses a search. *)
Theorem search_result before query sent resp respBody web :
  let auth := if getenv "FIRECRAWL_API_KEY" <>s "" then [("Authorization", "Bearer " +:+ getenv "FIRECRAWL_API_KEY")] else [] in
  let req := mkHReq "POST" search_url (("Content-Type", "application/json") :: auth)
    (Marshal (AObj [("query", AStr query); ("limit", ANum "5")])) in
  bad_url search_url = None -> client_Do net resolve same_site referer before req = (sent, inr resp) ->
  rs_Body resp = inr respBody -> decode_search respBody = inr (true, web) -> web <> [] ->
  let out := search_output web in let c := compress (before ++ sent) (mkCompressInput out search_instruction) in
  if 2000 <? String.length out
  then search before query = (sent ++ c.1, inr (match c.2 with inr c => c | inl _ => out end))
  else search before query = (sent, inr out).
Proof.
  cbv zeta. intros Hb Hn Hr Hd Hw. unfold WebSearch. rewrite Hb, Hn, Hr, Hd. destruct web as [|r web]; [done|].
  cbn [negb orb length Nat.eqb]. destruct (2000 <? _); [|done].
  destruct (compress _ _) as [reqs [e|c]]; done.
Qed.
End Sent.

(** ** Concrete runs *)

Definition tool_env (k : string) : string :=
  if HasSuffix k "_API_KEY" then "key" else if HasSuffix k "_BASE_URL" then "https://vision.example.com/v1/" else "".
Definition ok_reply (b : string) : http_reply := inr (mkHResp 200 "" (inr b)).
Definition tool_net (_ : list http_request) (r : http_request) : http_reply :=
  if hr_URL r =s "https://img.example.com/moved.png" then inr (mkHResp 302 "http://10.0.0.5/a.png" (inr ""))
  else if hr_Method r =s "GET" then ok_reply "PNG!" else ok_reply "ok".
Definition tool_resolve (_ loc : string) : gerror + string := inr loc.
Definition tool_parse (s : string) : option URL :=
  if HasPrefix s "https://img.example.com/" then Some (mkURL "https" "img.example.com")
  else if HasPrefix s "http://10.0.0.5/" then Some (mkURL "http" "10.0.0.5") else None.
Definition tool_ip (s : string) : option IP := if s =s "10.0.0.5" then Some (V4 10 0 0 5) else None.
Definition run_vision (img : string) : list http_request * (tool_error + string) :=
  RunVision tool_env tool_net tool_resolve String.eqb (fun _ _ => "") (fun _ => None) (fun _ => None) (fun b => inr [b])
    tool_parse tool_ip [] (mkVisionInput img "what?").

Example vision_private : run_vision "http://10.0.0.5/a.png" = ([], inl (DownloadFailed PrivateImageURL)).
Proof. vm_compute. reflexivity. Qed.

(** A public address that redirects to a private one is fetched. *)
Example vision_redirected :
  hr_URL <$> (run_vision "https://img.example.com/moved.png").1
  = ["https://img.example.com/moved.png"; "http://10.0.0.5/a.png"; "https://vision.example.com/v1/chat/completions"]
  /\ (run_vision "https://img.example.com/moved.png").2 = inr "ok".
Proof. vm_compute. split; reflexivity. Qed.

Lemma vision_image_sent_witness : exists q e, q ∈ (run_vision "https://img.example.com/a.png").1 /\ DecodeString e = Some "PNG!"
  /\ Unmarshal Some (hr_Body q) = Some (canon (vision_body "gpt-4o" "what?" ("data:image/png;base64," +:+ e))).
Proof.
  destruct (run_vision "https://img.example.com/a.png") as [reqs r] eqn:E.
  assert (exists q, q ∈ reqs /\ hr_Method q = "POST") as (q & Hq & Hm).
  { vm_compute in E. injection E as <- <-. eexists. split; [right; left|reflexivity]. }
  exists q. unfold run_vision in E.
  assert ((fetchImage tool_env tool_net tool_resolve String.eqb (fun _ _ => "") (fun _ => None) tool_parse tool_ip []
            "https://img.example.com/a.png").2 = inr "PNG!") as Hf by (vm_compute; reflexivity).
  assert (utf8b (vision_model tool_env) = true) as Hu by (vm_compute; reflexivity).
  assert (utf8b (vision_prompt (mkVisionInput "https://img.example.com/a.png" "what?")) = true) as Hp by (vm_compute; reflexivity).
  destruct (vision_image_sent tool_env tool_net tool_resolve String.eqb (fun _ _ => "") _ _ _ tool_parse tool_ip Some [] _ "PNG!"
    reqs r q E eq_refl Hf Hu Hp Hq Hm) as (e & H1 & H2). exists e. split; [exact Hq|]. split; [exact H1|exact H2].
Defined.

(** A search service that refuses the request (a wrong key, a spent quota)
    answers with success false: the tool reports that nothing was found. *)
Example search_refused : forall status body,
  WebSearch (fun _ => "key") (fun _ _ => inr (mkHResp status "" (inr body))) tool_resolve String.eqb (fun _ _ => "")
    (fun _ => None) (fun _ => None) (fun _ => inr []) (fun _ => inr (false, [])) [] "q"
  = ([mkHReq "POST" search_url [("Content-Type", "application/json"); ("Authorization", "Bearer key")]
        (Marshal (AObj [("query", AStr "q"); ("limit", ANum "5")]))], inr "未找到结果").
Proof.
  intros status body. unfold WebSearch, client_Do. cbn [do_loop rs_Status rs_Location].
  by destruct (redirectBehavior _ status) as [[]|].
Qed.

Definition one_result : SearchResult := mkSearchResult "https://go.dev" "Go" "a language".
Lemma search_result_witness :
  (WebSearch (fun _ => "") (fun _ _ => ok_reply "{}") tool_resolve String.eqb (fun _ _ => "") (fun _ => None) (fun _ => None)
    (fun _ => inr []) (fun _ => inr (true, [one_result])) [] "go").2 = inr (search_output [one_result]).
Proof.
  pose proof (search_result (fun _ => "") (fun _ _ => ok_reply "{}") tool_resolve String.eqb (fun _ _ => "") (fun _ => None)
    (fun _ => None) (fun _ => inr []) (fun _ => inr (true, [one_result])) [] "go" _ _ "{}" [one_result]
    eq_refl eq_refl eq_refl eq_refl ltac:(discriminate)) as H.
  cbv zeta in H. replace (2000 <? String.length (search_output [one_result])) with false in H by (vm_compute; reflexivity).
  exact (f_equal snd H).
Defined.
