(* ===== verification/Filter.v ===== *)
(** * Output filters

    [tools/filter]: what the terminal tool does to the output of a command
    before the model sees it: the registry of filters by command prefix, the
    general filter, and those for git and directory listings. The order in
    which Go ranges over a map and the formatting of a size in KiB or MiB are
    arguments. *)
From stdpp Require Import base tactics list gmap strings pretty sorting.
From Stdlib Require Import ZArith Lia.
From S2P Require Import Prelude GoStrings GoRegex.

(** [%d] of a count. *)
Definition showN (n : nat) : string := pretty n.

(** ** Strings *)

(** [strings.Fields]; [fuel] is the length of the text. *)
Fixpoint fields_from (fuel : nat) (cur s : string) : list string :=
  match fuel, s with
  | S f, String c s' =>
      match space_prefix s with
      | Some n => (if cur =s "" then [] else [cur]) ++ fields_from f "" (str_drop n s)
      | None => fields_from f (cur +:+ String c "") s'
      end
  | _, _ => if cur =s "" then [] else [cur]
  end.
Definition Fields (s : string) : list string := fields_from (String.length s) "" s.

(** [strings.Split] with a separator of several bytes. *)
Fixpoint split_from (fuel : nat) (s sep : string) : list string :=
  match fuel with
  | 0 => [s]
  | S f => match Index s sep with
           | Some i => str_take i s :: split_from f (str_drop (i + String.length sep) s) sep
           | None => [s]
           end
  end.
Definition Split (s sep : string) : list string := split_from (String.length s) s sep.

(** ** Helpers of [utils.go] *)

Definition ansiRE : re :=
  RSeqs [RByte (byte 27); RByte "["; RStar (RAlt RDigit (RByte ";"));
         RChr (fun c => let n := nat_of_ascii c in
                        (65 <=? n)%nat && (n <=? 90)%nat || (97 <=? n)%nat && (n <=? 122)%nat)].

Definition stripANSI (s : string) : string := DeleteAll ansiRE s.

Definition truncateLine (line : string) (width : nat) : string :=
  if length (runes line) <=? width then line
  else Join (encode_rune <$> take (width - 3) (runes line)) "" +:+ "...".

(** [humanSize]; [fl n d] is [n/d] printed with [%.1f]. *)
Definition humanSize (fl : Z -> Z -> string) (bytes : Z) : string :=
  if (2 ^ 20 <=? bytes)%Z then fl bytes (2 ^ 20)%Z +:+ "M"
  else if (1024 <=? bytes)%Z then fl bytes 1024%Z +:+ "K"
  else pretty bytes +:+ "B".

Definition repeated (n : nat) : string := "  (previous line repeated " +:+ showN n +:+ " times)".

(** What [dedupLines] appends for a run of [count] equal lines. *)
Definition flush_run (prev : string) (count : nat) : string := if 1 <? count then repeated count else prev.

Fixpoint dedup_loop (prev : string) (count : nat) (lines : list string) : list string :=
  match lines with
  | [] => [flush_run prev count]
  | line :: rest =>
      if line =s prev then dedup_loop prev (S count) rest
      else flush_run prev count :: dedup_loop line 1 rest
  end.

Definition dedupLines (lines : list string) : list string :=
  match lines with [] => [] | prev :: rest => dedup_loop prev 1 rest end.

Definition emptyLines (lines : list string) : list string :=
  base.filter (fun l => TrimSpace l <> "") lines.

(** [sortByValueDesc]: the inner loop holds [entries[i]] and swaps it with every
    later entry of a greater value. *)
Record kvEntry := mkKV { kvKey : string; kvValue : Z }.

Fixpoint swap_pass (x : kvEntry) (l : list kvEntry) : kvEntry * list kvEntry :=
  match l with
  | [] => (x, [])
  | y :: l' =>
      if (kvValue x <? kvValue y)%Z
      then let '(m, r) := swap_pass y l' in (m, x :: r)
      else let '(m, r) := swap_pass x l' in (m, y :: r)
  end.

Fixpoint sort_loop (fuel : nat) (l : list kvEntry) : list kvEntry :=
  match fuel, l with
  | S f, x :: l' => let '(m, r) := swap_pass x l' in m :: sort_loop f r
  | _, _ => l
  end.

(** [entries]: the map in the order in which Go ranges over it. *)
Definition sortByValueDesc (entries : list kvEntry) : list kvEntry := sort_loop (length entries) entries.

(** ** The general filter *)

Definition noopFilter (raw cmd : string) : string :=
  Join (dedupLines (emptyLines ((fun l => stripANSI (TrimRight l (String CR ""))) <$> SplitLines raw))) nl +:+ nl.

(** ** Git *)

Definition trimCR (l : string) : string := TrimRight l (String CR "").

(** Lines of advice in the output of [git status]. *)
Definition status_advice (trimmed : string) : bool :=
  HasPrefix trimmed ("(use " +:+ String (byte 34) "git") || HasPrefix trimmed "(create/copy files"
  || Contains trimmed ("(use " +:+ String (byte 34) "git add") || Contains trimmed ("(use " +:+ String (byte 34) "git restore").

Definition filterGitStatus (raw cmd : string) : string :=
  let out := base.filter (fun line => negb (TrimSpace line =s "") && negb (status_advice (TrimSpace line)) = true)
                         (trimCR <$> SplitLines raw) in
  match out with
  | [] => "ok" +:+ nl
  | [l] => if Contains l "nothing to commit" then "clean" +:+ nl else Join out nl +:+ nl
  | _ => Join out nl +:+ nl
  end.

Definition logLimit : nat := 10.

(** The loop of [filterGitLog]; [total] is [len(lines)], [n] is [len(out)]. *)
Fixpoint log_loop (total n : nat) (lines : list string) : list string :=
  match lines with
  | [] => []
  | line :: rest =>
      if logLimit <=? n then ["  ... (+" +:+ showN (total - logLimit) +:+ " more commits)"]
      else if TrimSpace (trimCR line) =s "" then log_loop total n rest
      else truncateLine (trimCR line) 100 :: log_loop total (S n) rest
  end.

Definition filterGitLog (raw cmd : string) : string :=
  let lines := SplitLines raw in Join (log_loop (length lines) 0 lines) nl +:+ nl.

Definition maxHunk : nat := 50.

Record dstate := mkD {
  dOut : list string; currentFile : string; hunkShown : nat; hunkSkipped : nat;
  totalAdded : nat; totalRemoved : nat }.

Definition truncated (n : nat) : list string :=
  if 0 <? n then ["  ... (" +:+ showN n +:+ " lines truncated)"] else [].
Definition stat_line (a r : nat) : string := "  +" +:+ showN a +:+ " -" +:+ showN r.

(** The file a [diff --git] line names. *)
Definition diff_file (line : string) : string :=
  let parts := Split line " b/" in
  if 1 <? length parts then default "" (last parts) else TrimPrefix line "diff --git ".

(** A changed line: shown until the hunk has 50 lines, counted after. *)
Definition diff_changed (st : dstate) (line : string) (a r : nat) : dstate :=
  if hunkShown st <? maxHunk
  then mkD (dOut st ++ ["  " +:+ line]) (currentFile st) (S (hunkShown st)) (hunkSkipped st) (totalAdded st + a) (totalRemoved st + r)
  else mkD (dOut st) (currentFile st) (hunkShown st) (S (hunkSkipped st)) (totalAdded st + a) (totalRemoved st + r).

Definition diff_line (st : dstate) (line0 : string) : dstate :=
  let line := trimCR line0 in
  if HasPrefix line "diff --git" then
    let out1 := dOut st ++ truncated (hunkSkipped st) in
    let closing := negb (currentFile st =s "") in
    let out2 := if closing then out1 ++ [stat_line (totalAdded st) (totalRemoved st)] else out1 in
    mkD (out2 ++ [""; diff_file line]) (diff_file line) 0 0
        (if closing then 0 else totalAdded st) (if closing then 0 else totalRemoved st)
  else if HasPrefix line "@@" then
    mkD (dOut st ++ truncated (hunkSkipped st) ++ ["  " +:+ line]) (currentFile st) 0 0 (totalAdded st) (totalRemoved st)
  else if HasPrefix line "+" && negb (HasPrefix line "+++") then diff_changed st line 1 0
  else if HasPrefix line "-" && negb (HasPrefix line "---") then diff_changed st line 0 1
  else if (0 <? hunkShown st) && (hunkShown st <? maxHunk) && negb (HasPrefix line "\") then
    mkD (dOut st ++ ["  " +:+ line]) (currentFile st) (S (hunkShown st)) (hunkSkipped st) (totalAdded st) (totalRemoved st)
  else st.

Definition diff_end (st : dstate) : list string :=
  dOut st ++ truncated (hunkSkipped st)
  ++ (if currentFile st =s "" then [] else [stat_line (totalAdded st) (totalRemoved st)]).

Definition filterGitDiff (raw cmd : string) : string :=
  match diff_end (foldl diff_line (mkD [] "" 0 0 0 0) (SplitLines raw)) with
  | [] => "no changes" +:+ nl
  | out => Join out nl +:+ nl
  end.

Definition filterGitShow (raw cmd : string) : string := filterGitDiff raw cmd.

(** One line of [git branch]. *)
Definition branch_line (line : string) : list string :=
  if line =s "" then []
  else if HasPrefix line "remotes/" then
    let rest := TrimPrefix line "remotes/" in
    match Index rest "/" with
    | Some idx => let branch := str_drop (S idx) rest in
                  if HasPrefix branch "HEAD " then [] else [branch]
    | None => []
    end
  else [line].

Definition filterGitBranch (raw cmd : string) : string :=
  Join (concat ((fun l => branch_line (TrimSpace l)) <$> SplitLines raw)) nl +:+ nl.

Definition filterGitAdd (raw cmd : string) : string := "ok" +:+ nl.

(** The first line that yields an answer. *)
Fixpoint first_line (f : string -> option string) (lines : list string) : option string :=
  match lines with [] => None | l :: rest => match f l with Some x => Some x | None => first_line f rest end end.

Definition ok : string := "ok" +:+ nl.

Definition commit_hash (line : string) : option string :=
  if HasPrefix line "[" then
    match Index line "]" with
    | Some (S e) =>
        let fields := Fields (str_take e (str_drop 1 line)) in
        if 2 <=? length fields then
          let hash := default "" (last fields) in
          if 7 <=? String.length hash then Some ("ok " +:+ str_take 7 hash +:+ nl) else None
        else None
    | _ => None
    end
  else None.

Definition filterGitCommit (raw cmd : string) : string := default ok (first_line commit_hash (SplitLines raw)).

(** The destination after the first arrow that has one. *)
Fixpoint push_dest (parts : list string) : option string :=
  match parts with
  | p :: ((q :: _) as rest) => if p =s "->" then Some ("ok " +:+ TrimRight q ":" +:+ nl) else push_dest rest
  | _ => None
  end.

Definition push_line (line : string) : option string :=
  match (if Contains line "->" then push_dest (Fields line) else None) with
  | Some x => Some x
  | None => if Contains line "Everything up-to-date" then Some ("ok (up-to-date)" +:+ nl) else None
  end.

Definition filterGitPush (raw cmd : string) : string := default ok (first_line push_line (SplitLines raw)).

Definition filterGitPull (raw cmd : string) : string :=
  if Contains raw "Already up to date" || Contains raw "Already up-to-date" then "ok (up-to-date)" +:+ nl
  else default ok (first_line (fun line => if Contains line "file" && Contains line "changed"
                                           then Some (TrimSpace line +:+ nl) else None) (SplitLines raw)).

(** The text between the last two quotes. *)
Definition quoted (line : string) : option string :=
  match LastIndex line "'" with
  | Some (S e) =>
      let start := match LastIndex (str_take (S e) line) "'" with Some i => S i | None => 0 end in
      Some (str_drop start (str_take (S e) line))
  | _ => None
  end.

Definition checkout_line (line0 : string) : option string :=
  let line := TrimSpace line0 in
  let named (prefix suffix : string) :=
    if HasPrefix line prefix then (fun b => "ok " +:+ b +:+ suffix) <$> quoted line else None in
  match named "Switched to a new branch" (" (new)" +:+ nl) with
  | Some x => Some x
  | None =>
  match named "Switched to branch" nl with
  | Some x => Some x
  | None =>
  match named "Already on" nl with
  | Some x => Some x
  | None =>
      if HasPrefix line "HEAD is now at" then
        let parts := Fields line in
        if 5 <=? length parts then Some ("ok HEAD " +:+ default "" (parts !! 3) +:+ nl) else None
      else None
  end end end.

Definition filterGitCheckout (raw cmd : string) : string := default ok (first_line checkout_line (SplitLines raw)).

Definition filterGitGeneric (raw cmd : string) : string := if TrimSpace raw =s "" then ok else raw.

(** ** Directory listings *)

Definition noiseDirs : list string :=
  ["node_modules"; ".git"; "target"; "__pycache__"; ".next"; "dist"; "build"; ".cache"; ".turbo"; ".vercel";
   ".pytest_cache"; ".venv"; "venv"; "env"; "coverage"; ".nyc_output"; ".DS_Store"; "Thumbs.db"; ".idea";
   ".vscode"; ".vs"].

Definition lsDateRE : re :=
  RSeqs [RPlus RSpace;
         RAlts (RLit <$> ["Jan"; "Feb"; "Mar"; "Apr"; "May"; "Jun"; "Jul"; "Aug"; "Sep"; "Oct"; "Nov"; "Dec"]);
         RPlus RSpace; RDigit; ROpt RDigit; RPlus RSpace;
         RAlt (RTimes 4 RDigit) (RSeqs [RTimes 2 RDigit; RByte ":"; RTimes 2 RDigit]);
         RPlus RSpace].

(** [FindStringIndex]: where the leftmost match starts, and the text after it. *)
Fixpoint FindString (r : re) (s : string) : option (nat * string) :=
  match re_prefix r s with
  | Some rest => Some (0, rest)
  | None => match s with
            | EmptyString => None
            | String _ s' => (fun x => (S x.1, x.2)) <$> FindString r s'
            end
  end.

Fixpoint take_digits (s : string) : string :=
  match s with
  | String c s' => match digit_val c with Some _ => String c (take_digits s') | None => "" end
  | EmptyString => ""
  end.

(** [fmt.Sscanf(s, "%d", &x)] with an unsigned 64-bit [x]: the leading digits. *)
Definition scan_uint64 (s : string) : option Z :=
  match take_digits s with
  | EmptyString => None
  | d => match parse_digits 0 d with
         | Some n => if (n <? 2 ^ 64)%Z then Some n else None
         | None => None
         end
  end.

(** The last field that begins with a number. *)
Definition raw_size (before : list string) : Z := default 0%Z (head (omap scan_uint64 (rev before))).

Record lsEntry := mkLS { lsName : string; lsSize : string }.

Definition isDotDir (line : string) : bool :=
  let t := TrimSpace line in (t =s ".") || (t =s "..") || HasSuffix t " ." || HasSuffix t " ..".

Section Listing.
Context (fl : Z -> Z -> string).
(** The order in which Go ranges over the map of extensions. *)
Context (range : gmap string Z -> list kvEntry).

(** File type, name and size of a line. *)
Definition parseLSLine (line : string) : option (ascii * string * string) :=
  match FindString lsDateRE line with
  | None => None
  | Some (i, rest) =>
      let before := Fields (str_take i line) in
      if length before <? 4 then None
      else match before with
           | String ft _ :: _ => Some (ft, TrimSpace rest, humanSize fl (raw_size before))
           | _ => None
           end
  end.

Record lsstate := mkLSt { lsDirs : list string; lsFiles : list lsEntry; extCount : gmap string Z; parsedCount : nat }.

(** The key under which a file is counted. *)
Definition ext_key (name : string) : string :=
  match LastIndex name "." with Some idx => str_drop idx name | None => "(no ext)" end.

Definition ls_line (showAll : bool) (st : lsstate) (line0 : string) : lsstate :=
  let line := trimCR line0 in
  if (line =s "") || HasPrefix line "total " || HasPrefix line "  " || isDotDir line then st
  else match parseLSLine line with
       | None => st
       | Some (ft, name, size) =>
           if negb showAll && bool_decide (name ∈ noiseDirs)
           then mkLSt (lsDirs st) (lsFiles st) (extCount st) (S (parsedCount st))
           else if Ascii.eqb ft "d"
           then mkLSt (lsDirs st ++ [name]) (lsFiles st) (extCount st) (S (parsedCount st))
           else mkLSt (lsDirs st) (lsFiles st ++ [mkLS name size])
                      (<[ext_key name := (default 0 (extCount st !! ext_key name) + 1)%Z]> (extCount st))
                      (S (parsedCount st))
       end.

(** The five most frequent extensions. *)
Definition ext_summary (ext : gmap string Z) : string :=
  if bool_decide (ext = ∅) then ""
  else
    let entries := sortByValueDesc (range ext) in
    let n := Nat.min 5 (length entries) in
    " (" +:+ Join ((fun e => pretty (kvValue e) +:+ " " +:+ kvKey e) <$> take n entries) ", " +:+ ")"
    +:+ (if n <? length entries then ", +" +:+ showN (length entries - n) +:+ " more" else "") +:+ ")".

Definition compactLS (raw : string) (showAll : bool) : string * string :=
  let st := foldl (ls_line showAll) (mkLSt [] [] ∅ 0) (SplitLines raw) in
  match lsDirs st, lsFiles st with
  | [], [] => if parsedCount st =? 0 then ("", "") else ("(empty)" +:+ nl, "")
  | ds, fs =>
      (Join ((fun d => d +:+ "/" +:+ nl) <$> ds) "" +:+ Join ((fun f => lsName f +:+ "  " +:+ lsSize f +:+ nl) <$> fs) "",
       nl +:+ "Summary: " +:+ showN (length fs) +:+ " files, " +:+ showN (length ds) +:+ " dirs"
       +:+ ext_summary (extCount st) +:+ nl)
  end.

Definition filterLS (raw cmd : string) : string :=
  let showAll := Contains cmd " -a" || Contains cmd " --all" || Contains cmd "/a" in
  let '(entries, summary) := compactLS raw showAll in
  if entries =s "" then raw else entries +:+ summary.

(** ** The registry *)

(** The filters in the order in which the [init] functions register them. *)
Definition filters : list (string * (string -> string -> string)) :=
  [("git status", filterGitStatus); ("git log", filterGitLog); ("git diff", filterGitDiff);
   ("git show", filterGitShow); ("git branch", filterGitBranch); ("git add", filterGitAdd);
   ("git commit", filterGitCommit); ("git push", filterGitPush); ("git pull", filterGitPull);
   ("git checkout", filterGitCheckout); ("git stash", filterGitGeneric); ("git fetch", filterGitGeneric);
   ("git merge", filterGitGeneric); ("git rebase", filterGitGeneric); ("ls", filterLS); ("dir", filterLS)].

Definition trimExe (cmd : string) : string :=
  if (4 <? String.length cmd)%nat && HasSuffix cmd ".exe" then str_take (String.length cmd - 4) cmd else cmd.

Definition hasPrefix (cmd prefix : string) : bool := HasPrefix (trimExe cmd) prefix.

(** [filter.Run] *)
Definition filter_Run (raw command : string) : string :=
  match List.find (fun f => hasPrefix command f.1) filters with
  | Some f => f.2 raw command
  | None => noopFilter raw command
  end.

End Listing.

Example filterGitDiff_ex :
  filterGitDiff ("diff --git a/x b/x" +:+ nl +:+ "--- a/x" +:+ nl +:+ "+++ b/x" +:+ nl +:+ "@@ -1 +1 @@" +:+ nl +:+ "-a" +:+ nl +:+ "+b") ""
  = nl +:+ "x" +:+ nl +:+ "  @@ -1 +1 @@" +:+ nl +:+ "  -a" +:+ nl +:+ "  +b" +:+ nl +:+ "  +1 -1" +:+ nl.
Proof. vm_compute. reflexivity. Qed.

Example filterLS_ex :
  filterLS (fun _ _ => "") (fun m => (fun x => mkKV x.1 x.2) <$> map_to_list m)
    ("total 8" +:+ nl +:+ "drwxr-xr-x 2 u g 4096 Jan  2 10:00 src" +:+ nl +:+ "-rw-r--r-- 1 u g 12 Jan 12 2024 a.go") "ls -l"
  = "src/" +:+ nl +:+ "a.go  12B" +:+ nl +:+ nl +:+ "Summary: 1 files, 1 dirs (1 .go))" +:+ nl.
Proof. vm_compute. reflexivity. Qed.

(** Exactly ten commits are reported as more than ten. *)
Example git_log_ten :
  HasSuffix (filterGitLog (Join (replicate 10 "abc message") nl +:+ nl) "git log")
            ("  ... (+1 more commits)" +:+ nl) = true.
Proof. vm_compute. reflexivity. Qed.

(** * Properties *)

Lemma swap_pass_spec x l m r : swap_pass x l = (m, r) ->
  m :: r ≡ₚ x :: l /\ Forall (fun y => kvValue y <= kvValue m)%Z (x :: l).
Proof.
  revert x m r. induction l as [|y l IH]; intros x m r; cbn [swap_pass].
  - intros [= <- <-]. split; [done|]. constructor; [lia|constructor].
  - destruct (Z.ltb_spec (kvValue x) (kvValue y)) as [Hlt|Hge].
    + destruct (swap_pass y l) as [m' r'] eqn:E. intros [= <- <-]. destruct (IH y m' r' E) as [Hp Hf]. split.
      * by rewrite Permutation_swap, Hp.
      * constructor; [|done]. apply Forall_cons in Hf as [Hy _]. lia.
    + destruct (swap_pass x l) as [m' r'] eqn:E. intros [= <- <-]. destruct (IH x m' r' E) as [Hp Hf]. split.
      * rewrite Permutation_swap, Hp. apply Permutation_swap.
      * apply Forall_cons in Hf as [Hx Hl]. constructor; [done|]. constructor; [lia|done].
Qed.

Definition kv_ge (a b : kvEntry) : Prop := (kvValue b <= kvValue a)%Z.

(** [sortByValueDesc] returns the entries of the map, whatever the order in
    which Go ranges over it, sorted by descending value. *)
Theorem sortByValueDesc_sorted entries :
  sortByValueDesc entries ≡ₚ entries /\ StronglySorted kv_ge (sortByValueDesc entries).
Proof.
  unfold sortByValueDesc.
  assert (forall f l, length l <= f -> sort_loop f l ≡ₚ l /\ StronglySorted kv_ge (sort_loop f l)) as H; [|by apply H].
  clear entries. induction f as [|f IH]; intros [|x l] Hf; cbn [sort_loop]; [repeat constructor|simpl in Hf; lia|repeat constructor|].
  destruct (swap_pass x l) as [m r] eqn:E. destruct (swap_pass_spec x l m r E) as [Hp Hm].
  destruct (IH r) as [Hp' Hs]; [apply Permutation_length in Hp; simpl in *; lia|].
  split; [by rewrite Hp'|]. constructor; [done|]. rewrite Hp'. rewrite <- Hp in Hm. by apply Forall_cons in Hm as [_ Hm].
Qed.

(** The lines of a sequence of runs. *)
Definition unrun (runs : list (string * nat)) : list string := concat ((fun r => replicate r.2 r.1) <$> runs).

(** Maximal runs: none is empty, and neighbours differ. *)
Inductive maximal : list (string * nat) -> Prop :=
| max_nil : maximal []
| max_one x n : maximal [(x, S n)]
| max_cons x n y k runs : x <> y -> maximal ((y, k) :: runs) -> maximal ((x, S n) :: (y, k) :: runs).

Lemma dedup_loop_replicate prev count k rest :
  dedup_loop prev count (replicate k prev ++ rest) = dedup_loop prev (k + count) rest.
Proof.
  revert count. induction k as [|k IH]; intros count; [done|]. cbn [replicate app dedup_loop].
  rewrite str_eqb_refl, IH. f_equal. lia.
Qed.

Lemma runs_exist l : exists runs, maximal runs /\ unrun runs = l.
Proof.
  induction l as [|x l (runs & Hm & Hl)]; [exists []; split; [constructor|done]|].
  destruct runs as [|[y k] runs]; [exists [(x, 1)]; split; [constructor|by subst]|].
  destruct (decide (x = y)) as [->|Hne].
  - exists ((y, S k) :: runs). split; [inversion Hm; subst; by constructor|]. by subst.
  - exists ((x, 1) :: (y, k) :: runs). split; [by constructor|]. by subst.
Qed.

(** [dedupLines] prints one line per maximal run of equal lines: the line
    itself for a run of one, and for a longer run only the note with its
    length; the repeated line itself is not printed. *)
Theorem dedupLines_runs lines :
  exists runs, maximal runs /\ unrun runs = lines /\ dedupLines lines = (fun r => flush_run r.1 r.2) <$> runs.
Proof.
  destruct (runs_exist lines) as (runs & Hm & <-). exists runs. split; [done|]. split; [done|].
  induction Hm as [|x n|x n y k runs Hne Hm IH]; [done| |].
  - unfold unrun. cbn [fmap list_fmap concat fst snd]. rewrite app_nil_r. cbn [replicate dedupLines].
    rewrite <- (app_nil_r (replicate n x)), dedup_loop_replicate. cbn [dedup_loop]. by rewrite Nat.add_1_r.
  - unfold unrun in *. cbn [fmap list_fmap concat fst snd replicate app dedupLines] in *.
    rewrite dedup_loop_replicate, Nat.add_1_r.
    assert (exists k', k = S k') as [k' ->] by (inversion Hm; eauto).
    cbn [replicate app dedup_loop dedupLines] in *. rewrite (proj2 (String.eqb_neq y x)) by done. by rewrite IH.
Qed.

Example dedup_loses_line : dedupLines ["error: x"; "error: x"] = ["  (previous line repeated 2 times)"].
Proof. vm_compute. reflexivity. Qed.

(** Headers, added and removed lines of a diff. *)
Definition is_header (line0 : string) : bool := HasPrefix (trimCR line0) "diff --git".
Definition is_added (line0 : string) : bool :=
  let l := trimCR line0 in negb (is_header line0) && negb (HasPrefix l "@@") && (HasPrefix l "+" && negb (HasPrefix l "+++")).
Definition is_removed (line0 : string) : bool :=
  let l := trimCR line0 in negb (is_header line0) && negb (HasPrefix l "@@")
    && negb (HasPrefix l "+" && negb (HasPrefix l "+++")) && (HasPrefix l "-" && negb (HasPrefix l "---")).
Definition count_if (p : string -> bool) (l : list string) : nat := length (List.filter p l).

Lemma diff_line_counts st line : is_header line = false ->
  totalAdded (diff_line st line) = totalAdded st + (if is_added line then 1 else 0)
  /\ totalRemoved (diff_line st line) = totalRemoved st + (if is_removed line then 1 else 0)
  /\ currentFile (diff_line st line) = currentFile st.
Proof.
  unfold is_added, is_removed, diff_line, diff_changed. intros Hh. rewrite Hh. unfold is_header in Hh. rewrite Hh.
  destruct (HasPrefix (trimCR line) "@@"), (HasPrefix (trimCR line) "+"), (HasPrefix (trimCR line) "+++"),
    (HasPrefix (trimCR line) "-"), (HasPrefix (trimCR line) "---"); cbn [negb andb];
    repeat case_match; cbn [totalAdded totalRemoved currentFile]; repeat split; lia.
Qed.

Lemma diff_lines_counts st l : Forall (fun x => is_header x = false) l ->
  let st' := foldl diff_line st l in
  totalAdded st' = totalAdded st + count_if is_added l /\ totalRemoved st' = totalRemoved st + count_if is_removed l
  /\ currentFile st' = currentFile st.
Proof.
  intros Hl. revert st. induction Hl as [|x l Hx _ IH]; intros st; cbn [foldl]; [by rewrite !Nat.add_0_r|].
  destruct (IH (diff_line st x)) as (-> & -> & ->). destruct (diff_line_counts st x Hx) as (-> & -> & ->).
  unfold count_if. cbn [List.filter]. destruct (is_added x), (is_removed x); cbn [length]; repeat split; lia.
Qed.

(** The last line printed for a diff gives the numbers of added and removed
    lines of its last file, also when most of them were cut. *)
Theorem filterGitDiff_stat l1 header l2 :
  let st1 := foldl diff_line (mkD [] "" 0 0 0 0) l1 in
  currentFile st1 <> "" \/ l1 = [] ->
  is_header header = true -> diff_file (trimCR header) <> "" -> Forall (fun x => is_header x = false) l2 ->
  last (diff_end (foldl diff_line (mkD [] "" 0 0 0 0) (l1 ++ header :: l2)))
  = Some (stat_line (count_if is_added l2) (count_if is_removed l2)).
Proof.
  intros st1 Hst Hh Hf Hl. rewrite foldl_app. cbn [foldl]. fold st1.
  destruct (diff_lines_counts (diff_line st1 header) l2 Hl) as (Ha & Hr & Hc).
  assert (totalAdded (diff_line st1 header) = 0 /\ totalRemoved (diff_line st1 header) = 0
          /\ currentFile (diff_line st1 header) = diff_file (trimCR header)) as (E1 & E2 & E3).
  { unfold diff_line. unfold is_header in Hh. rewrite Hh. cbn [totalAdded totalRemoved currentFile].
    destruct Hst as [Hst | ->]; [by rewrite (proj2 (String.eqb_neq _ _) Hst)|done]. }
  unfold diff_end. rewrite Ha, Hr, Hc, E1, E2, E3, (proj2 (String.eqb_neq _ _) Hf). rewrite app_assoc. apply last_snoc.
Qed.

(** ** Witness *)

Lemma filterGitDiff_stat_witness :
  last (diff_end (foldl diff_line (mkD [] "" 0 0 0 0) ["diff --git a/x b/x"; "@@ -1 +1,2 @@"; "-a"; "+b"; "+c"]))
  = Some (stat_line 2 1).
Proof.
  apply (filterGitDiff_stat [] "diff --git a/x b/x" ["@@ -1 +1,2 @@"; "-a"; "+b"; "+c"]).
  - right. reflexivity.
  - reflexivity.
  - vm_compute. discriminate.
  - repeat constructor.
Defined.
