(* ===== verification/Terminal.v ===== *)
(** * The terminal tool

    [tools/terminal.go], [tools/cache.go] and [tools/interceptor.go]: running a
    command through the interceptors, filtering its output, and caching the
    output of commands that only read. The processes, the clock and the
    interceptors' own effects on a world [W] are arguments. *)
From stdpp Require Import base tactics list gmap strings.
From Stdlib Require Import ZArith Lia.
From S2P Require Import Prelude GoStrings Types Filter.

(** ** The cache *)

Record cacheEntry := mkEntry { result : string; timestamp : Z }.
Abbreviation cmd_cache := (gmap string cacheEntry).

Definition cacheTTL : Z := (30 * Second)%Z.

Definition cacheablePrefixes : list string :=
  ["ls"; "dir"; "git status"; "git log"; "git diff"; "git branch"; "git stash list"; "git tag"; "where"; "which";
   "type"; "echo"; "more"; "help"; "ver"; "systeminfo"; "tasklist"].

Definition writePrefixes : list string :=
  ["git add"; "git commit"; "git push"; "git pull"; "git checkout"; "git merge"; "git rebase"; "git reset"; "git rm";
   "git clean"; "git stash push"; "git stash drop"; "git tag -d"; "git branch -d"; "git branch -D"; "mkdir"; "rmdir";
   "del"; "copy"; "move"; "ren"; "attrib"; "icacls"; "takeown"].

Definition isCacheable (cmd : string) : bool :=
  let lower := ToLower (TrimSpace cmd) in
  if existsb (HasPrefix lower) writePrefixes then false else existsb (HasPrefix lower) cacheablePrefixes.

(** [lookupCache] at time [now]; [ttl] is [cacheTTL] or the [CACHE_TTL] of the
    environment. *)
Definition lookupCache (ttl now : Z) (cmd : string) (c : cmd_cache) : cmd_cache * option string :=
  match c !! cmd with
  | None => (c, None)
  | Some e => if (ttl <? now - timestamp e)%Z then (delete cmd c, None) else (c, Some (result e))
  end.

(** [storeCache]; [pick] is the key a range over the map yields first. *)
Definition storeCache (pick : cmd_cache -> string) (now : Z) (cmd res : string) (c : cmd_cache) : cmd_cache :=
  <[cmd := mkEntry res now]> (if 200 <? size c then delete (pick c) c else c).

(** ** Interceptors *)

Record CommandContext := mkCC { Command : string; ccSessionID : string }.
Record CommandResult := mkCR { Output : string; Err : option gerror }.

Section Terminal.
Context {W : Type}.

(** An interceptor's two methods; an error is the second component. *)
Record Interceptor := mkInt {
  Before : CommandContext -> W -> W * (CommandContext * option gerror);
  After : CommandContext -> CommandResult -> W -> W * (CommandResult * option gerror) }.

(** [globalRegistry.items]; a nil interceptor is not registered. *)
Definition RegisterInterceptor (i : option Interceptor) (items : list Interceptor) : list Interceptor :=
  match i with None => items | Some i => items ++ [i] end.
Definition ClearInterceptors (items : list Interceptor) : list Interceptor := [].

Fixpoint RunBeforeInterceptors (items : list Interceptor) (cmd : CommandContext) (w : W)
  : W * (CommandContext * option gerror) :=
  match items with
  | [] => (w, (cmd, None))
  | i :: rest =>
      match Before i cmd w with
      | (w', (cmd', Some e)) => (w', (cmd', Some e))
      | (w', (cmd', None)) => RunBeforeInterceptors rest cmd' w'
      end
  end.

Fixpoint RunAfterInterceptors (items : list Interceptor) (cmd : CommandContext) (res : CommandResult) (w : W)
  : W * CommandResult :=
  match items with
  | [] => (w, res)
  | i :: rest =>
      match After i cmd res w with
      | (w', (res', Some e)) => (w', mkCR (Output res') (Some e))
      | (w', (res', None)) => RunAfterInterceptors rest cmd res' w'
      end
  end.

(** ** Running a command *)

Definition isAccessDenied (err : option gerror) : bool :=
  match err with
  | None => false
  | Some e => let msg := ToLower (Error e) in
      Contains msg "access is denied" || Contains msg "拒绝访问" || Contains msg "permission denied"
  end.

Definition quote : string := String (byte 39) "".
Definition dquote : string := String (byte 34) "".

(** The command line [runElevated] hands to PowerShell. *)
Definition elevated_command (command tmp : string) : string :=
  "Start-Process cmd -Verb RunAs -ArgumentList " +:+ quote +:+ "/c," +:+ ReplaceAll command quote (quote +:+ quote)
  +:+ " > " +:+ dquote +:+ tmp +:+ dquote +:+ " 2>&1" +:+ quote +:+ " -Wait -WindowStyle Hidden".

(** What one call finds outside: the two clock readings, the process run with
    [cmd /c], whether the process is an administrator's, the temporary file,
    PowerShell's result and the file read back. *)
Record tenv := mkTE {
  teLookup : Z; teStore : Z;
  teRun : string -> W -> W * (string * option gerror);
  teAdmin : bool;
  teTemp : gerror + string;
  tePowershell : string -> W -> W * option gerror;
  teRead : string -> gerror + string }.

Definition runElevated (env : tenv) (command : string) (w : W) : W * (string * option gerror) :=
  match teTemp env with
  | inl e => (w, ("", Some (EWrap "创建临时文件失败" e)))
  | inr tmp =>
      let '(w1, err) := tePowershell env (elevated_command command tmp) w in
      match err with
      | Some e => (w1, ("", Some e))
      | None => match teRead env tmp with
                | inl e => (w1, ("", Some (EWrap "提权成功但读取输出失败" e)))
                | inr out => (w1, (out, None))
                end
      end
  end.

Context (fl : Z -> Z -> string) (range : gmap string Z -> list kvEntry).
Context (pick : cmd_cache -> string) (ttl : Z).

(** [RunTerminal]: the world, the cache, the answer, and for a run whose output
    is stored the time, the command and the stored text. *)
Definition RunTerminal (items : list Interceptor) (env : tenv) (command : string) (w : W) (c : cmd_cache)
  : W * cmd_cache * (gerror + string) * option (Z * string * string) :=
  let '(c1, hit) := if isCacheable command then lookupCache ttl (teLookup env) command c else (c, None) in
  match hit with
  | Some cached => (w, c1, inr cached, None)
  | None =>
      match RunBeforeInterceptors items (mkCC command "") w with
      | (w1, (_, Some e)) => (w1, c1, inl (EWrap "拦截器阻止" e), None)
      | (w1, (cmdCtx, None)) =>
          let '(w2, (out, runErr)) := teRun env (Command cmdCtx) w1 in
          let '(w3, res) := RunAfterInterceptors items cmdCtx (mkCR out runErr) w2 in
          match Err res with
          | None =>
              let filtered := filter_Run fl range (Output res) (Command cmdCtx) in
              if isCacheable (Command cmdCtx)
              then (w3, storeCache pick (teStore env) (Command cmdCtx) filtered c1, inr filtered,
                    Some (teStore env, Command cmdCtx, filtered))
              else (w3, c1, inr filtered, None)
          | Some err =>
              if isAccessDenied (Some err) then
                if negb (teAdmin env)
                then (w3, c1, inl (EMsg "命令需要管理员权限，请以管理员身份运行本程序后重试。当前无管理员权限。"), None)
                else
                  match runElevated env (Command cmdCtx) w3 with
                  | (w4, (eout, None)) => (w4, c1, inr (filter_Run fl range eout (Command cmdCtx)), None)
                  | (w4, (eout, Some e)) =>
                      (w4, c1, inr ("提权执行失败: " +:+ Error e +:+ nl +:+ "输出: " +:+ eout), None)
                  end
              else (w3, c1, inr ("执行失败: " +:+ Error err +:+ nl +:+ "输出: " +:+ Output res), None)
          end
      end
  end.

(** A history of calls: the cache and the stored runs so far, latest last. *)
Inductive reaches : cmd_cache -> list (Z * string * string) -> Prop :=
| reaches_init : reaches ∅ []
| reaches_call c hist items env command w w' c' ans st :
    reaches c hist ->
    RunTerminal items env command w c = (w', c', ans, st) ->
    reaches c' (hist ++ option_list st).

(** ** Invariant *)

(** Every entry is a stored run of a command that may be cached. *)
Definition cache_inv (c : cmd_cache) (hist : list (Z * string * string)) : Prop :=
  forall cmd e, c !! cmd = Some e -> (timestamp e, cmd, result e) ∈ hist /\ isCacheable cmd = true.

Lemma cache_inv_sub c c' hist hist' : c' ⊆ c -> (forall x, x ∈ hist -> x ∈ hist') -> cache_inv c hist -> cache_inv c' hist'.
Proof. intros Hc Hh H cmd e He. destruct (H cmd e) as [H1 H2]; [by eapply lookup_weaken|]. auto. Qed.

Lemma lookupCache_sub now cmd c : (lookupCache ttl now cmd c).1 ⊆ c.
Proof. unfold lookupCache. repeat case_match; simpl; [apply delete_subseteq|done|done]. Qed.

(** What one call does to the cache: entries may go, and a stored run may come. *)
Lemma RunTerminal_cache items env command w c w' c' ans st :
  RunTerminal items env command w c = (w', c', ans, st) ->
  exists c1, c1 ⊆ c /\
    match st with
    | None => c' = c1
    | Some (t, cmd, out) => isCacheable cmd = true /\ c' = storeCache pick t cmd out c1
    end.
Proof.
  unfold RunTerminal.
  destruct (if isCacheable command then lookupCache ttl (teLookup env) command c else (c, None)) as [c1 hit] eqn:E.
  assert (c1 ⊆ c) as Hsub.
  { destruct (isCacheable command); [|by simplify_eq]. pose proof (lookupCache_sub (teLookup env) command c) as H. by rewrite E in H. }
  repeat case_match; intros; simplify_eq; (eexists; split; [exact Hsub|auto]).
Qed.

Lemma reaches_inv c hist : reaches c hist -> cache_inv c hist.
Proof.
  induction 1 as [|c hist items env command w w' c' ans st _ IH Hrun]; [intros cmd e He; simplify_map_eq|].
  destruct (RunTerminal_cache _ _ _ _ _ _ _ _ _ Hrun) as (c1 & Hsub & Hst). destruct st as [[[t cmd] out]|].
  - destruct Hst as [Hc ->]. unfold storeCache. cbn [option_list]. intros k e He. apply lookup_insert_Some in He as [[<- <-]|[Hne He]].
    + split; [|done]. set_solver.
    + assert (c !! k = Some e) as Hk.
      { eapply lookup_weaken; [exact He|]. case_match; [etransitivity; [apply delete_subseteq|done]|done]. }
      destruct (IH k e Hk). set_solver.
  - subst. cbn [option_list]. rewrite app_nil_r. by eapply cache_inv_sub; [exact Hsub| |exact IH].
Qed.

Lemma reaches_size c hist : (forall m, m <> ∅ -> pick m ∈ dom m) -> reaches c hist -> size c <= 201.
Proof.
  intros Hpick. induction 1 as [|c hist items env command w w' c' ans st _ IH Hrun]; [rewrite map_size_empty; lia|].
  destruct (RunTerminal_cache _ _ _ _ _ _ _ _ _ Hrun) as (c1 & Hsub & Hst).
  assert (size c1 <= 201) as H1 by (apply map_subseteq_size in Hsub; lia).
  destruct st as [[[t cmd] out]|]; [|by subst]. destruct Hst as [_ ->]. unfold storeCache.
  assert (size (if 200 <? size c1 then delete (pick c1) c1 else c1) <= 200) as H2.
  { destruct (Nat.ltb_spec 200 (size c1)); [|lia]. rewrite map_size_delete_Some; [lia|].
    apply elem_of_dom, Hpick. intros ->. rewrite map_size_empty in *. lia. }
  rewrite map_size_insert. destruct (_ !! cmd); unfold id; lia.
Qed.

End Terminal.

(** * Properties *)

(** C40: After any sequence of calls the cache has at most 201 entries, and an
    answer from it is the filtered output of an earlier successful run of
    exactly this command, not older than the limit. The answer is given without
    running anything: neither the command nor the interceptors. *)
Theorem cached_answer_sound {W} fl range pick ttl (items : list (@Interceptor W)) env command w c hist r :
  (forall m, m <> ∅ -> pick m ∈ dom m) ->
  @reaches W fl range pick ttl c hist ->
  isCacheable command = true -> (lookupCache ttl (teLookup env) command c).2 = Some r ->
  size c <= 201
  /\ RunTerminal fl range pick ttl items env command w c = (w, c, inr r, None)
  /\ exists t, (t, command, r) ∈ hist /\ (teLookup env - t <= ttl)%Z.
Proof.
  intros Hpick Hre Hc Hl. split; [by eapply reaches_size|]. pose proof (reaches_inv fl range pick ttl c hist Hre) as Hinv.
  unfold RunTerminal. rewrite Hc. unfold lookupCache in *. destruct (c !! command) as [e|] eqn:E; [|done].
  destruct (Z.ltb_spec ttl (teLookup env - timestamp e)); [done|]. injection Hl as <-. split; [done|].
  exists (timestamp e). split; [|done]. by apply Hinv.
Qed.

(** When the answer is not in the cache and an interceptor refuses the
    command, the command is not run: the call returns the refusal, whatever
    running would have done, and nothing is stored. *)
Theorem RunTerminal_refused {W} fl range pick ttl (items : list (@Interceptor W)) env command w c w1 cc e :
  isCacheable command = false \/ (lookupCache ttl (teLookup env) command c).2 = None ->
  RunBeforeInterceptors items (mkCC command "") w = (w1, (cc, Some e)) ->
  exists c1, c1 ⊆ c /\ RunTerminal fl range pick ttl items env command w c = (w1, c1, inl (EWrap "拦截器阻止" e), None).
Proof.
  intros Hmiss Hb. unfold RunTerminal.
  pose proof (lookupCache_sub ttl (teLookup env) command c) as Hsub.
  destruct (isCacheable command).
  - destruct Hmiss as [Hm|Hm]; [done|]. destruct (lookupCache ttl (teLookup env) command c) as [c1 hit]. simpl in *. subst.
    exists c1. by rewrite Hb.
  - exists c. by rewrite Hb.
Qed.

(** Redirections and the creation of branches count as reads. *)
Example writes_cacheable : isCacheable "echo x > important.txt" = true /\ isCacheable "git branch feature" = true.
Proof. split; vm_compute; reflexivity. Qed.

(** ** Witnesses *)

(** A clock at 5 s, a process that prints [a] and no interceptor. *)
Definition sample_env : @tenv unit :=
  mkTE (5 * Second) (5 * Second) (fun _ w => (w, ("a", None))) false (inl EEOF) (fun _ w => (w, None)) (fun _ => inl EEOF).
Definition first_key (m : cmd_cache) : string := default "" (fst <$> head (map_to_list m)).
Definition sample_cache : cmd_cache := {[ "echo a" := mkEntry ("a" +:+ nl) (5 * Second) ]}.

Lemma first_key_in m : m <> ∅ -> first_key m ∈ dom m.
Proof.
  intros Hm. unfold first_key. destruct (map_to_list m) as [|[k x] l] eqn:E.
  - by apply map_to_list_empty_iff in E.
  - simpl. apply elem_of_dom. exists x. apply elem_of_map_to_list. rewrite E. left.
Qed.

Lemma cached_answer_sound_witness :
  exists t, (t, "echo a", "a" +:+ nl) ∈ [(5 * Second, "echo a", "a" +:+ nl)%Z] /\ (teLookup sample_env - t <= cacheTTL)%Z.
Proof.
  refine (proj2 (proj2 (cached_answer_sound (fun _ _ => "") (fun _ => []) first_key cacheTTL [] sample_env "echo a" tt
    sample_cache [(5 * Second, "echo a", "a" +:+ nl)%Z] ("a" +:+ nl) first_key_in _ _ _))).
  - refine (reaches_call (fun _ _ => "") (fun _ => []) first_key cacheTTL ∅ [] [] sample_env "echo a" tt tt sample_cache
      (inr ("a" +:+ nl)) (Some (5 * Second, "echo a", "a" +:+ nl)%Z) (reaches_init _ _ _ _) _). vm_compute. reflexivity.
  - vm_compute. reflexivity.
  - vm_compute. reflexivity.
Defined.

Lemma RunTerminal_refused_witness :
  exists c1, c1 ⊆ (∅ : cmd_cache) /\
    RunTerminal (fun _ _ => "") (fun _ => []) first_key cacheTTL
      [mkInt (fun cc w => (w, (cc, Some (EMsg "no")))) (fun _ r w => (w, (r, None)))] sample_env "echo a" tt ∅
    = (tt, c1, inl (EWrap "拦截器阻止" (EMsg "no")), None).
Proof.
  refine (RunTerminal_refused (fun _ _ => "") (fun _ => []) first_key cacheTTL _ sample_env "echo a" tt ∅ tt _ (EMsg "no") _ _).
  - right. reflexivity.
  - reflexivity.
Defined.
