(* ===== verification/Server.v ===== *)
(** * The HTTP server

    [internal/server/server.go] and the adapter of [main.go] between the server
    and the agent's runner: what each handler answers and what it records in the
    session. The agent, the image tools, the clock and the request's own data
    are arguments; logging is left out. *)
From stdpp Require Import base tactics list gmap strings.
From Stdlib Require Import ZArith Lia.
From S2P Require Import Prelude GoStrings Types Bridge Session Agent FileOps.

(** ** The adapter of [main.go] *)

(** [agentAdapter.Generate]: the last message of the runner's answer; [None] is
    a panic. *)
Definition adapter_Generate (r : option (gerror + agent_response)) : option (gerror + option eino_message) :=
  match r with
  | None => None
  | Some (inl e) => Some (inl e)
  | Some (inr resp) =>
      match last (ap_Messages resp) with
      | None => Some (inr (Some (mkEino Assistant "" "" [] "" "" [])))
      | Some m => Some (inr (ToEino m))
      end
  end.

(** The goroutine of [agentAdapter.Stream] over the runner's events: it ends at
    the first error event, without passing it on, and when the context ends or
    the reader of the pipe is gone ([fs]). *)
Fixpoint adapter_Stream (fs : list bool) (events : list agent_event) : list eino_message :=
  let '(go, fs1) := ask fs in
  if negb go then []
  else match events with
       | [] => []
       | e :: rest =>
           let send m := let '(open, fs2) := ask fs1 in if open then m :: adapter_Stream fs2 rest else [] in
           match ae_Type e with
           | EventText => send (mkEino Assistant (ae_Content e) "" [] "" "" [])
           | EventReasoning => send (mkEino Assistant "" (ae_Content e) [] "" "" [])
           | EventError => []
           | _ => adapter_Stream fs1 rest
           end
       end.

(** ** Requests and answers *)

Inductive sse_event :=
| SseError (e : string) | SseChunk (content : string) (ids : list string) | SseContent (content : string)
| SseStats (json : string) | SseRawStats (json : string) | SseDone.

Inductive http_out :=
| HError (code : Z) (msg : string) | HReply (reply : string) (stats : string)
| HEvents (l : list sse_event) | HPanic.

(** The method, the decoded body or [None], the two places a session id may be
    in, and whether the connection can be flushed. *)
Record request (B : Type) := mkReqst {
  rq_method : string; rq_body : option B; rq_query : string; rq_cookie : option string; rq_flush : bool }.
Arguments mkReqst {B}. Arguments rq_method {B}. Arguments rq_body {B}.
Arguments rq_query {B}. Arguments rq_cookie {B}. Arguments rq_flush {B}.

Record visionReq := mkVision { vImage : string; vPrompt : string }.

(** [sessionID]: the query, then a non-empty cookie, then the default. *)
Definition sessionID {B} (m : Manager) (r : request B) : string :=
  if rq_query r <>s "" then rq_query r
  else match rq_cookie r with
       | Some c => if c <>s "" then c else defaultSession m
       | None => defaultSession m
       end.

Definition UserMessage (content : string) : option eino_message := Some (mkEino "user" content "" [] "" "" []).
Definition AssistantMessage (content : string) : option eino_message := Some (mkEino Assistant content "" [] "" "" []).

Definition visionModels : list string :=
  ["gpt-4o"; "gpt-4o-mini"; "gpt-4-turbo"; "claude-3"; "claude-3-5"; "claude-sonnet-4"; "claude-opus-4";
   "deepseek-vl"; "deepseek-vl2"; "qwen-vl"; "qwen2-vl"; "qwq"; "step-2"; "gemini"].
Definition supportsVision (model : string) : bool := existsb (Contains (ToLower model)) visionModels.

(** [filepath.Ext]: from the last dot of the last element. *)
Definition Ext (path : string) : string :=
  let name := default "" (last (split_byte slash path)) in
  match LastIndex name "." with Some i => str_drop i name | None => "" end.

Definition imgExts : list string := [".png"; ".jpg"; ".jpeg"; ".gif"; ".webp"; ".bmp"; ".svg"].

(** The text after the last space, tab, line feed or carriage return
    ([strings.LastIndexAny]); [None] when there is none. *)
Fixpoint after_last_blank (s : string) : option string :=
  match s with
  | EmptyString => None
  | String c s' =>
      match after_last_blank s' with
      | Some r => Some r
      | None => if byte_in (bytes [32; 9; 10; 13]) c then Some s' else None
      end
  end.

Definition mime_of (ext : string) : string :=
  if (ext =s ".jpg") || (ext =s ".jpeg") then "image/jpeg" else if ext =s ".gif" then "image/gif"
  else if ext =s ".webp" then "image/webp" else if ext =s ".bmp" then "image/bmp"
  else if ext =s ".svg" then "image/svg+xml" else "image/png".

Section Server.
Context {W : Type}.
(** The agent: one answer ([None] is a panic), or a stream of messages that ends with an error or
    the end of the stream; the flag says that the client is gone before the
    message is read. *)
Inductive recv := RecvMsg (m : eino_message) | RecvErr (e : gerror).
Context (Generate : W -> list (option eino_message) -> W * option (gerror + option eino_message)).
Context (Stream : W -> list (option eino_message) -> W * (gerror + list (bool * recv))).
Context (model : string) (StatsJSON : W -> string).
(** The file system, the HTTP download of an image, base64 and the vision tool. *)
Context {F : Type} `{FileSystem F} (wd : gerror + string) (workspaceRoot : string) (exists_ : F -> string -> bool).
Context (fetchImageDataURL : string -> gerror + string) (base64 : string -> string).
Context (RunVision : string -> string -> gerror + string).

Record server := mkSrv { sv_W : W; sv_sessions : Manager; sv_fs : F }.
Definition set_W (w : W) (s : server) : server := mkSrv w (sv_sessions s) (sv_fs s).
Definition set_sessions (m : Manager) (s : server) : server := mkSrv (sv_W s) m (sv_fs s).

Definition sv_append (now : Z) (sid : string) (msgs : list (option eino_message)) (s : server) : server :=
  set_sessions (Append (sv_sessions s) now sid msgs) s.
Definition sv_snapshot (now : Z) (sid : string) (msg : option eino_message) (s : server)
  : server * list (option eino_message) :=
  let '(m, msgs) := SnapshotWith (sv_sessions s) now sid [msg] in (set_sessions m s, msgs).

Definition extractLocalImagePath (fs : F) (input : string) : string :=
  let trimmed := TrimSpace input in
  let trimmed := match after_last_blank trimmed with Some r => TrimSpace r | None => trimmed end in
  if trimmed =s "" then ""
  else match ValidatePath wd workspaceRoot trimmed with
       | inl _ => ""
       | inr path =>
           if existsb (String.eqb (ToLower (Ext path))) imgExts && exists_ fs path then path else ""
       end.

Definition imageToDataURL (fs : F) (img : string) : gerror + string :=
  if HasPrefix img "data:" then inr img
  else if HasPrefix img "http://" || HasPrefix img "https://" then
    match fetchImageDataURL img with inl e => inl (EWrap "download image" e) | inr d => inr d end
  else
    let localPath := extractLocalImagePath fs img in
    if localPath =s "" then inl (EMsg ("invalid image path: " +:+ img))
    else match fs_read fs localPath with
         | inl e => inl (EWrap "read image" e)
         | inr data => inr ("data:" +:+ mime_of (ToLower (Ext localPath)) +:+ ";base64," +:+ base64 data)
         end.

(** [prepareVisionMessage]: the native message, or the tool's text with a nil
    message. *)
Definition prepareVisionMessage (fs : F) (imageURL prompt : string)
  : gerror + (option eino_message * string * bool) :=
  if supportsVision model then
    match imageToDataURL fs imageURL with
    | inl e => inl e
    | inr dataURL =>
        inr (Some (mkEino "user" ("[图片] " +:+ prompt) "" [] "" ""
                     [mkPart "text" prompt None; mkPart "image_url" "" (Some (mkImage (Some dataURL) None ""))]), "", true)
    end
  else match RunVision imageURL prompt with
       | inl e => inl e
       | inr res => inr (None, res, false)
       end.

(** ** Handlers; [t1] and [t2] are the times of the two accesses to the session. *)

(** The loop over the stream: the events sent, the whole text, and whether the
    client stayed. *)
Fixpoint chat_stream_loop (out : list sse_event) (full : string) (items : list (bool * recv)) : list sse_event * string * bool :=
  match items with
  | [] => (out, full, true)
  | (true, _) :: _ => (out, full, false)
  | (false, RecvErr _) :: _ => (out, full, true)
  | (false, RecvMsg c) :: rest =>
      chat_stream_loop (out ++ [SseChunk (e_Content c) (ID <$> e_ToolCalls c)]) (full +:+ e_Content c) rest
  end.

Definition stats_event (w : W) : list sse_event := if StatsJSON w <>s "" then [SseStats (StatsJSON w)] else [].

Definition HandleChatStream (t1 t2 : Z) (s : server) (r : request string) : server * http_out :=
  if rq_method r <>s "POST" then (s, HError 405 "method not allowed")
  else match rq_body r with
  | None => (s, HError 400 "invalid json")
  | Some message =>
      let sid := sessionID (sv_sessions s) r in
      let userMsg := UserMessage message in
      let '(s1, msgs) := sv_snapshot t1 sid userMsg s in
      if negb (rq_flush r) then (s1, HError 500 "streaming not supported")
      else
        let '(w, st) := Stream (sv_W s1) msgs in
        let s2 := set_W w s1 in
        match st with
        | inl e => (s2, HEvents [SseError (Error e)])
        | inr items =>
            match chat_stream_loop [] "" items with
            | (out, _, false) => (s2, HEvents out)
            | (out, full, true) =>
                (sv_append t2 sid [userMsg; AssistantMessage full] s2, HEvents (out ++ stats_event w ++ [SseDone]))
            end
        end
  end.

(** [processVisionNonStream] *)
Definition processVisionNonStream (t1 t2 : Z) (s : server) (sid imageURL prompt : string) : server * http_out :=
  match prepareVisionMessage (sv_fs s) imageURL prompt with
  | inl e => (s, HReply ("图片处理失败: " +:+ Error e) "")
  | inr (userMsg, visionResult, isNative) =>
      let asked := if isNative then userMsg
        else UserMessage ("用户上传了一张图片，提问：" +:+ prompt +:+ nl +:+ nl +:+ "图片分析结果：" +:+ nl +:+ visionResult) in
      let '(s1, msgs) := sv_snapshot t1 sid asked s in
      let '(w, res) := Generate (sv_W s1) msgs in
      let s2 := set_W w s1 in
      match res with
      | None => (s2, HPanic)
      | Some (inl e) => (s2, HReply ("错误: " +:+ Error e) "")
      | Some (inr result) =>
          let s3 := sv_append t2 sid [userMsg; result] s2 in
          match result with
          | None => (s3, HPanic)
          | Some m => (s3, HReply (e_Content m) (StatsJSON w))
          end
      end
  end.

(** The text of a chat request: the image itself when it names a local one. *)
Definition chat_message (fs : F) (message : string) : string :=
  let fp := extractLocalImagePath fs message in
  if fp =s "" then message
  else match fs_read fs fp with
       | inl _ => message
       | inr data => "data:image/jpeg;base64," +:+ base64 data
       end.

Definition HandleChat (t1 t2 : Z) (s : server) (r : request string) : server * http_out :=
  if rq_method r <>s "POST" then (s, HError 405 "method not allowed")
  else match rq_body r with
  | None => (s, HError 400 "invalid json")
  | Some message0 =>
      let sid := sessionID (sv_sessions s) r in
      let message := chat_message (sv_fs s) message0 in
      if HasPrefix message "data:image/" then processVisionNonStream t1 t2 s sid message "描述这张图片"
      else
        let userMsg := UserMessage message in
        let '(s1, msgs) := sv_snapshot t1 sid userMsg s in
        let '(w, res) := Generate (sv_W s1) msgs in
        let s2 := set_W w s1 in
        match res with
        | None => (s2, HPanic)
        | Some (inl e) => (s2, HReply ("错误: " +:+ Error e) "")
        | Some (inr result) =>
            let s3 := sv_append t2 sid [userMsg; result] s2 in
            match result with
            | None => (s3, HPanic)
            | Some m => (s3, HReply (e_Content m) (StatsJSON w))
            end
        end
  end.

Definition HandleVision (t1 t2 : Z) (s : server) (r : request visionReq) : server * http_out :=
  if rq_method r <>s "POST" then (s, HError 405 "method not allowed")
  else match rq_body r with
  | None => (s, HError 400 "invalid json")
  | Some v => processVisionNonStream t1 t2 s (sessionID (sv_sessions s) r) (vImage v) (vPrompt v)
  end.

(** The loop of [processVisionStream], which does not look at the context. *)
Fixpoint vision_loop (out : list sse_event) (full : string) (items : list (bool * recv)) : list sse_event * string :=
  match items with
  | [] => (out, full)
  | (_, RecvErr _) :: _ => (out, full)
  | (_, RecvMsg c) :: rest => vision_loop (out ++ [SseContent (e_Content c)]) (full +:+ e_Content c) rest
  end.

Definition processVisionStream (t1 t2 : Z) (s : server) (sid imageURL prompt : string) : server * http_out :=
  match prepareVisionMessage (sv_fs s) imageURL prompt with
  | inl e => (s, HEvents [SseError (Error e)])
  | inr (userMsg, visionResult, isNative) =>
      let asked := if isNative then userMsg
        else UserMessage ("[图片] " +:+ prompt +:+ nl +:+ nl +:+ "图片分析结果：" +:+ nl +:+ visionResult) in
      let '(s1, msgs) := sv_snapshot t1 sid asked s in
      let '(w, st) := Stream (sv_W s1) msgs in
      let s2 := set_W w s1 in
      match st with
      | inl e => (s2, HEvents [SseError (Error e)])
      | inr items =>
          let '(out, full) := vision_loop [] "" items in
          (sv_append t2 sid [userMsg; AssistantMessage full] s2, HEvents (out ++ (if StatsJSON w <>s "" then [SseRawStats (StatsJSON w)] else [])))
      end
  end.

Definition HandleVisionNativeStream (t1 t2 : Z) (s : server) (r : request visionReq) : server * http_out :=
  if rq_method r <>s "POST" then (s, HError 405 "method not allowed")
  else match rq_body r with
  | None => (s, HError 400 "invalid json")
  | Some v =>
      if negb (rq_flush r) then (s, HError 500 "streaming not supported")
      else processVisionStream t1 t2 s (sessionID (sv_sessions s) r) (vImage v) (vPrompt v)
  end.

(** ** Effects on the sessions *)

(** The text a client gets out of the events, whichever kind carries it. *)
Fixpoint event_text (l : list sse_event) : string :=
  match l with
  | [] => ""
  | SseChunk c _ :: l' | SseContent c :: l' => c +:+ event_text l'
  | _ :: l' => event_text l'
  end.

(** The answer [a] is what the client got: the text of the reply, the text of
    the events, or a panic when it is nil. *)
Definition answered (out : http_out) (a : option eino_message) : Prop :=
  match out with
  | HReply reply _ => exists m, a = Some m /\ reply = e_Content m
  | HEvents l => a = AssistantMessage (event_text l)
  | HPanic => a = None
  | HError _ _ => False
  end.

(** The client got no answer: a status, an error as a reply, events without the
    final one, or a panic. *)
Definition not_answered (out : http_out) : Prop :=
  match out with
  | HError _ _ | HPanic => True
  | HReply reply _ => exists e, reply = "错误: " +:+ Error e \/ reply = "图片处理失败: " +:+ Error e
  | HEvents l => SseDone ∉ l
  end.

(** Either the client got an answer, and session [sid] gained the question [q]
    and that answer; or it got none and no session changed. *)
Definition turn_recorded (s : server) (sid : string) (q : option eino_message) (res : server * http_out) : Prop :=
  (not_answered res.2 /\ sessions (sv_sessions res.1) = sessions (sv_sessions s))
  \/ exists a, answered res.2 a
       /\ sessions (sv_sessions res.1) = <[sid := msgs_of (sv_sessions s) sid ++ [q; a]]> (sessions (sv_sessions s)).

(** The question recorded for an image: the message with the image for a model
    that sees images, and nil for one that does not. *)
Definition image_question (fs : F) (img prompt : string) : option eino_message :=
  if supportsVision model then
    match imageToDataURL fs img with
    | inr dataURL =>
        Some (mkEino "user" ("[图片] " +:+ prompt) "" [] "" ""
                [mkPart "text" prompt None; mkPart "image_url" "" (Some (mkImage (Some dataURL) None ""))])
    | inl _ => None
    end
  else None.

Definition chat_question (fs : F) (message0 : string) : option eino_message :=
  let message := chat_message fs message0 in
  if HasPrefix message "data:image/" then image_question fs message "描述这张图片" else UserMessage message.

Lemma prepareVision_question fs img prompt u v n : prepareVisionMessage fs img prompt = inr (u, v, n) -> u = image_question fs img prompt.
Proof.
  unfold prepareVisionMessage, image_question. destruct (supportsVision model).
  - destruct (imageToDataURL fs img); by intros [=].
  - destruct (RunVision img prompt); by intros [=].
Qed.

Lemma not_recorded s s' sid q out : not_answered out -> sessions (sv_sessions s') = sessions (sv_sessions s) ->
  turn_recorded s sid q (s', out).
Proof. intros. by left. Qed.

Lemma recorded_append s s2 sid t q a out : answered out a -> sessions (sv_sessions s2) = sessions (sv_sessions s) ->
  turn_recorded s sid q (sv_append t sid [q; a] s2, out).
Proof.
  intros Ha E. right. exists a. split; [done|]. unfold sv_append, Append, msgs_of. cbn [fst sv_sessions set_sessions sessions]. by rewrite E.
Qed.

Lemma processVisionNonStream_turn t1 t2 s sid img prompt :
  turn_recorded s sid (image_question (sv_fs s) img prompt) (processVisionNonStream t1 t2 s sid img prompt).
Proof.
  unfold processVisionNonStream, sv_snapshot, SnapshotWith.
  destruct (prepareVisionMessage _ _ _) as [e|[[u v] n]] eqn:Ep; [apply not_recorded; cbn; eauto|].
  apply prepareVision_question in Ep as <-. destruct (Generate _ _) as [w [[e|[m|]]|]].
  - apply not_recorded; cbn; eauto.
  - apply recorded_append; cbn; eauto.
  - by apply recorded_append.
  - by apply not_recorded.
Qed.

Lemma event_text_app a b : event_text (a ++ b) = event_text a +:+ event_text b.
Proof. induction a as [|[] a IH]; simpl; rewrite ?IH, ?str_app_assoc; done. Qed.

Lemma vision_loop_text out full items out' full' :
  vision_loop out full items = (out', full') -> full = event_text out -> full' = event_text out'.
Proof.
  revert out full. induction items as [|[g [m|e]] items IH]; intros out full; cbn [vision_loop].
  - by intros [= <- <-].
  - intros H0 E. apply (IH _ _ H0). rewrite event_text_app, E. cbn [event_text]. by rewrite str_app_nil_r.
  - by intros [= <- <-].
Qed.

Lemma processVisionStream_turn t1 t2 s sid img prompt :
  turn_recorded s sid (image_question (sv_fs s) img prompt) (processVisionStream t1 t2 s sid img prompt).
Proof.
  unfold processVisionStream, sv_snapshot, SnapshotWith.
  destruct (prepareVisionMessage _ _ _) as [e|[[u v] n]] eqn:Ep; [by apply not_recorded; [intros ?%list_elem_of_singleton|]|].
  apply prepareVision_question in Ep as <-.
  destruct (Stream _ _) as [w [e|items]]; [by apply not_recorded; [intros ?%list_elem_of_singleton|]|].
  destruct (vision_loop _ _ _) as [out full] eqn:El. apply recorded_append; [|done]. cbn. f_equal.
  rewrite (vision_loop_text _ _ _ _ _ El eq_refl), event_text_app. destruct (StatsJSON w <>s ""); cbn; by rewrite str_app_nil_r.
Qed.

Lemma HandleChat_turn t1 t2 s r :
  turn_recorded s (sessionID (sv_sessions s) r) (chat_question (sv_fs s) (default "" (rq_body r))) (HandleChat t1 t2 s r).
Proof.
  unfold HandleChat, chat_question. destruct (rq_method r <>s "POST"); [by apply not_recorded|].
  destruct (rq_body r) as [msg|]; [|by apply not_recorded]. change (default "" (Some msg)) with msg. cbv zeta.
  destruct (HasPrefix (chat_message (sv_fs s) msg) "data:image/"); [apply processVisionNonStream_turn|].
  unfold sv_snapshot, SnapshotWith. destruct (Generate _ _) as [w [[e|[m|]]|]].
  - apply not_recorded; cbn; eauto.
  - apply recorded_append; cbn; eauto.
  - by apply recorded_append.
  - by apply not_recorded.
Qed.

(** The text of the chunk events. *)
Fixpoint sent_text (l : list sse_event) : string :=
  match l with [] => "" | SseChunk c _ :: l' => c +:+ sent_text l' | _ :: l' => sent_text l' end.

Lemma sent_text_app a b : sent_text (a ++ b) = sent_text a +:+ sent_text b.
Proof. induction a as [|[] a IH]; simpl; rewrite ?IH, ?str_app_assoc; done. Qed.

Lemma chat_stream_loop_text out full items out' full' ok :
  chat_stream_loop out full items = (out', full', ok) -> full = sent_text out -> full' = sent_text out'.
Proof.
  revert out full. induction items as [|[g [m|e]] items IH]; intros out full; cbn [chat_stream_loop].
  - by intros [= <- <- _].
  - destruct g; [by intros [= <- <- _]|]. intros H0 E. apply (IH _ _ H0). rewrite sent_text_app, E. cbn [sent_text].
    by rewrite str_app_nil_r.
  - destruct g; by intros [= <- <- _].
Qed.

Lemma chat_stream_loop_events out full items out' full' ok :
  chat_stream_loop out full items = (out', full', ok) -> full = event_text out -> SseDone ∉ out ->
  full' = event_text out' /\ SseDone ∉ out'.
Proof.
  revert out full. induction items as [|[g [m|e]] items IH]; intros out full; cbn [chat_stream_loop].
  - by intros [= <- <- _].
  - destruct g; [by intros [= <- <- _]|]. intros H0 E Hn. apply (IH _ _ H0); [|by rewrite elem_of_app, list_elem_of_singleton; intros [?|?]]. rewrite event_text_app, E. cbn [event_text].
    by rewrite str_app_nil_r.
  - destruct g; by intros [= <- <- _].
Qed.

Lemma HandleChatStream_turn t1 t2 s r :
  turn_recorded s (sessionID (sv_sessions s) r) (UserMessage (default "" (rq_body r))) (HandleChatStream t1 t2 s r).
Proof.
  unfold HandleChatStream. destruct (rq_method r <>s "POST"); [by apply not_recorded|].
  destruct (rq_body r) as [msg|]; [|by apply not_recorded]. unfold sv_snapshot, SnapshotWith.
  destruct (rq_flush r); [|by apply not_recorded]. cbn [negb]. change (default "" (Some msg)) with msg.
  destruct (Stream _ _) as [w [e|items]]; [by apply not_recorded; [intros ?%list_elem_of_singleton|]|].
  destruct (chat_stream_loop _ _ _) as [[out full] b] eqn:El.
  apply chat_stream_loop_events in El as [-> Hd]; [|done|apply not_elem_of_nil]. destruct b; [|by apply not_recorded].
  apply recorded_append; [|done]. cbn. f_equal. rewrite !event_text_app. unfold stats_event.
  destruct (StatsJSON w <>s ""); cbn; by rewrite !str_app_nil_r.
Qed.

(** The two requests with an image and a prompt. *)
Definition vision_question (fs : F) (r : request visionReq) : option eino_message :=
  match rq_body r with Some v => image_question fs (vImage v) (vPrompt v) | None => None end.

Lemma HandleVision_turn t1 t2 s r :
  turn_recorded s (sessionID (sv_sessions s) r) (vision_question (sv_fs s) r) (HandleVision t1 t2 s r).
Proof.
  unfold HandleVision, vision_question. destruct (rq_method r <>s "POST"); [by apply not_recorded|].
  destruct (rq_body r); [apply processVisionNonStream_turn|by apply not_recorded].
Qed.

Lemma HandleVisionNativeStream_turn t1 t2 s r :
  turn_recorded s (sessionID (sv_sessions s) r) (vision_question (sv_fs s) r) (HandleVisionNativeStream t1 t2 s r).
Proof.
  unfold HandleVisionNativeStream, vision_question. destruct (rq_method r <>s "POST"); [by apply not_recorded|].
  destruct (rq_body r); [|by apply not_recorded]. destruct (rq_flush r); [apply processVisionStream_turn|by apply not_recorded].
Qed.

End Server.

(** * Properties *)


Lemma chat_stream_loop_chunks out full items out' full' b :
  chat_stream_loop out full items = (out', full', b) -> SseDone ∉ out -> SseDone ∉ out'.
Proof.
  revert out full. induction items as [|[g [m|e]] items IH]; intros out full; cbn [chat_stream_loop].
  - by intros [= <- _ _].
  - destruct g; [by intros [= <- _ _]|]. intros H0 E. apply (IH _ _ H0). rewrite elem_of_app, list_elem_of_singleton. by intros [?|?].
  - destruct g; by intros [= <- _ _].
Qed.

(** C30: What a streamed answer leaves in the session: when the client gets the
    final event, exactly the text it was sent, as a complete answer, also when
    the agent's stream broke off with an error; otherwise nothing. *)
Theorem HandleChatStream_records_sent {W F} Stream StatsJSON t1 t2 (s s' : @server W F) r msg l :
  rq_body r = Some msg -> HandleChatStream Stream StatsJSON t1 t2 s r = (s', HEvents l) ->
  let sid := sessionID (sv_sessions s) r in
  (SseDone ∈ l /\ msgs_of (sv_sessions s') sid
                 = msgs_of (sv_sessions s) sid ++ [UserMessage msg; AssistantMessage (sent_text l)])
  \/ (SseDone ∉ l /\ sessions (sv_sessions s') = sessions (sv_sessions s)).
Proof.
  intros Hb. unfold HandleChatStream. rewrite Hb. destruct (rq_method r <>s "POST"); [done|].
  unfold sv_snapshot, SnapshotWith. destruct (rq_flush r); [|done]. cbn [negb].
  destruct (Stream _ _) as [w [e|items]].
  { intros [= <- <-]. right. split; [|done]. by intros ?%list_elem_of_singleton. }
  destruct (chat_stream_loop [] "" items) as [[out full] b] eqn:El.
  pose proof (chat_stream_loop_text _ _ _ _ _ _ El eq_refl) as ->.
  assert (SseDone ∉ out) as Hout by (eapply chat_stream_loop_chunks; [exact El|set_solver]).
  destruct b; intros [= <- <-]; [left|by right]. split; [set_solver|].
  unfold sv_append, Append, msgs_of. cbn [sv_sessions set_sessions set_W sessions]. rewrite lookup_insert_eq. simpl.
  rewrite !sent_text_app. unfold stats_event. destruct (StatsJSON w <>s ""); simpl; by rewrite !str_app_nil_r.
Qed.

(** With a model that cannot see images, a successful image request leaves
    a nil message in the session, and from then on saving the history panics as
    long as the session is there. *)
Theorem vision_fallback_breaks_Save {W F} Generate model StatsJSON `{FileSystem F} wd root ex fetch b64 vision t1 t2
  (s : @server W F) sid img prompt text m w enc :
  supportsVision model = false -> vision img prompt = inr text ->
  (forall w0 msgs, Generate w0 msgs = (w, Some (inr (Some m)))) ->
  let s' := (processVisionNonStream Generate model StatsJSON wd root ex fetch b64 vision t1 t2 s sid img prompt).1 in
  None ∈ msgs_of (sv_sessions s') sid
  /\ (forall mgr, sessions mgr !! sid = sessions (sv_sessions s') !! sid -> @Save string enc mgr = SavePanic).
Proof.
  intros Hv Ht Hg s'.
  assert (sessions (sv_sessions s') !! sid = Some (msgs_of (sv_sessions s) sid ++ [None; Some m])) as E.
  { subst s'. unfold processVisionNonStream, prepareVisionMessage. rewrite Hv, Ht. unfold sv_snapshot, SnapshotWith. rewrite Hg.
    cbn [fst sv_append set_sessions sv_sessions Append sessions]. rewrite lookup_insert_eq. done. }
  split; [unfold msgs_of; rewrite E; set_solver|]. intros mgr Hm. rewrite E in Hm. unfold Save.
  rewrite (proj2 (Nat.eqb_neq _ _)) by (apply map_size_ne_0_lookup; eauto).
  unfold Marshal. rewrite bool_decide_eq_false_2; [done|]. intros Hf.
  specialize (Hf sid (mapM toHistoryMsg (msgs_of (sv_sessions s) sid ++ [None; Some m]))).
  unfold to_dto in Hf. rewrite lookup_fmap, Hm in Hf. specialize (Hf eq_refl).
  apply mapM_is_Some in Hf. rewrite Forall_app in Hf. destruct Hf as [_ Hf]. apply Forall_cons in Hf as [[? [=]] _].
Qed.

(** The adapter swallows an error event: the stream just ends. *)
Example adapter_hides_error :
  adapter_Stream [] [mkEv EventText "partial"; mkEv EventError ""; mkEv EventText "never"]
  = [mkEino Assistant "partial" "" [] "" "" []].
Proof. reflexivity. Qed.

(** ** Witnesses *)

Definition srv0 : @server unit (gmap string string) := mkSrv tt (NewManager "") ∅.

Lemma HandleChatStream_records_sent_witness :
  let r := mkReqst "POST" (Some "hi") "s" None true in
  let st := fun w (_ : list (option eino_message)) => (w, inr [(false, RecvMsg (mkEino Assistant "yo" "" [] "" "" []))]) in
  msgs_of (sv_sessions (HandleChatStream st (fun _ => "") 0 0 srv0 r).1) "s"
  = [UserMessage "hi"; AssistantMessage "yo"].
Proof.
  intros r st.
  destruct (HandleChatStream_records_sent st (fun _ => "") 0 0 srv0
    (HandleChatStream st (fun _ => "") 0 0 srv0 r).1 r "hi" [SseChunk "yo" []; SseDone] eq_refl eq_refl) as [[_ E]|[Hn _]].
  - exact E.
  - destruct Hn. right. left.
Defined.

Lemma vision_fallback_breaks_Save_witness :
  None ∈ msgs_of (sv_sessions (processVisionNonStream (F := gmap string string)
     (fun w _ => (w, Some (inr (AssistantMessage "ok")))) "deepseek-chat" (fun _ => "") (inr "/") "" (fun _ _ => true)
     (fun u => inr u) (fun x => x) (fun _ _ => inr "a cat") 0 0 srv0 "s" "data:x" "what").1) "s".
Proof.
  refine (proj1 (vision_fallback_breaks_Save (fun w _ => (w, Some (inr (AssistantMessage "ok")))) "deepseek-chat" (fun _ => "") (inr "/") ""
    (fun _ _ => true) (fun u => inr u) (fun x => x) (fun _ _ => inr "a cat") 0 0 srv0 "s" "data:x" "what" "a cat" _ tt (fun _ => "") _ _ _)).
  - vm_compute. reflexivity.
  - reflexivity.
  - intros [] msgs. reflexivity.
Defined.
