(* ===== verification/System.v ===== *)
(** * The program put together

    [main.go]: the agent, its runner and the adapter that the HTTP server
    talks to, composed as [main] composes them, and what a streamed answer
    becomes on its way through the three goroutines to the client and into the
    session. *)
From stdpp Require Import base tactics list gmap strings.
From Stdlib Require Import ZArith Lia.
From S2P Require Import Prelude GoStrings Types Think Breaker Retry Vendor RateLimit Hooks OpenAI Stream Client Bridge Wire Tools Session Agent React FileOps Server.

(** ** The adapter in use *)

(** The choices of the scheduler and of the request's context in the goroutines
    of the agent, the runner and the adapter, and in the handler's loop. *)
Record choices := mkChoices { ch_react : list bool; ch_runner : list bool; ch_adapter : list bool; ch_client : list bool }.

(** Nobody goes away. *)
Definition undisturbed : choices := mkChoices [] [] [] [].

Section Main.
Context {X : Type} (a : fw_agent X).

(** [main]'s runner: no store, no guardrails, no middlewares. *)
Definition main_world : Type := @rworld X ManagerAdapter.
Definition main_init (x : X) : main_world := mkRW x None [].

(** [&adktypes.Request{Messages: adkMsgs}] *)
Definition adapter_request (msgs : list (option eino_message)) : option agent_request :=
  Some (mkAReq (FromEinoSlice msgs) "" []).

Definition main_Generate (stats : X -> string) (w : main_world) (msgs : list (option eino_message))
  : main_world * option (gerror + option eino_message) :=
  let '(w1, r) := Run None None (react_Run stats a) w (adapter_request msgs) in (w1, adapter_Generate r).

(** The handler's loop looks at the context before each message and before the
    end of the stream. *)
Fixpoint with_client (fs : list bool) (ms : list eino_message) : list (bool * recv) :=
  let '(stays, fs') := ask fs in
  match ms with
  | [] => if stays then [] else [(true, RecvErr EEOF)]
  | m :: ms' => (negb stays, RecvMsg m) :: with_client fs' ms'
  end.

Definition main_Stream (ch : choices) (w : main_world) (msgs : list (option eino_message))
  : main_world * (gerror + list (bool * recv)) :=
  let '(w1, r) := runner_Stream None None (react_Stream (ch_react ch) a) (ch_runner ch) w (adapter_request msgs) in
  (w1, match r with
       | inl e => inl e
       | inr evs => inr (with_client (ch_client ch) (adapter_Stream (ch_adapter ch) evs))
       end).
End Main.

(** ** The bridge in use *)

(** A call has a channel of its own. *)
Definition fresh_channel {W} (c : @cworld W) : @cworld W :=
  mkCW (cw_o c) (cw_hw c) [] 0 (cw_bus c) (cw_trace c) (cw_W c).

(** [Bridge.Stream] over the protocol client; [chat] answers the recovery call. *)
Definition bridge_model {W} (hooks : list (LifecycleHook W)) url_Parse (env : stream_env) (chat : Request -> gerror + Response)
    (tools : list tool_info) (op : options) : chat_model (@cworld W) := fun c ms =>
  let req := buildRequest ms tools op in
  let '(c1, r) := StreamCall hooks url_Parse env req (fresh_channel c) in
  (c1, match r with inl e => inl e | inr _ => inr (bridge_stream (chat req) (BChunk <$> cw_out c1)) end).

(** * Properties *)

(** ** Prefixes of texts *)

Definition begins (a b : string) : Prop := exists r, b = a +:+ r.

#[export] Instance begins_preorder : PreOrder begins.
Proof.
  split; [intros a; exists ""; by rewrite str_app_nil_r|].
  intros a b c [r ->] [r' ->]. exists (r +:+ r'). by rewrite str_app_assoc.
Qed.

Lemma begins_nil s : begins "" s.
Proof. by exists s. Qed.
Lemma begins_app s a b : begins a b -> begins (s +:+ a) (s +:+ b).
Proof. intros [r ->]. exists r. by rewrite str_app_assoc. Qed.
#[export] Hint Resolve begins_nil begins_app : go.

Lemma ev_text_prefix l k : l `prefix_of` k -> begins (ev_text l) (ev_text k).
Proof.
  intros [r ->]. induction l as [|e l IH]; [apply begins_nil|]. cbn [app ev_text].
  destruct (ae_Type e); auto with go.
Qed.

(** ** The runner's goroutine *)

Lemma stream_turn_prefix c r fs raw : (stream_turn c r (runner_feed fs raw)).1 `prefix_of` raw.
Proof.
  revert c r fs. induction raw as [|e raw IH]; intros c r fs; cbn [runner_feed]; destruct (ask fs) as [[] fs1]; cbn [negb];
    try apply prefix_nil. destruct (ask fs1) as [fwd fs2]. cbn [stream_turn].
  destruct fwd; [|destruct (ae_Type e); apply prefix_nil].
  destruct (ae_Type e); first [by apply prefix_cons, prefix_nil
    | match goal with |- context [stream_turn ?c ?r (runner_feed fs2 raw)] =>
        specialize (IH c r fs2); destruct (stream_turn c r (runner_feed fs2 raw)); by apply prefix_cons end].
Qed.

Lemma stream_turn_open c r raw : ev_text (stream_turn c r (runner_feed [] raw)).1 = ev_text raw.
Proof.
  revert c r. induction raw as [|e raw IH]; intros c r; [done|]. cbn [runner_feed ask negb stream_turn].
  destruct (ae_Type e) eqn:E; cbn [fst ev_text]; rewrite ?E; try done;
    match goal with |- context [stream_turn ?c ?r (runner_feed [] raw)] =>
      rewrite <- (IH c r); destruct (stream_turn c r (runner_feed [] raw)) end; cbn [fst ev_text]; by rewrite ?E.
Qed.

(** ** The adapter and the handler *)

Definition contents_of (ms : list eino_message) : string := str_concat (e_Content <$> ms).

Lemma contents_cons m ms : contents_of (m :: ms) = e_Content m +:+ contents_of ms.
Proof. done. Qed.

Lemma adapter_prefix fs evs : begins (contents_of (adapter_Stream fs evs)) (ev_text evs).
Proof.
  revert fs. induction evs as [|e evs IH]; intros fs; cbn [adapter_Stream]; destruct (ask fs) as [[] fs1]; cbn [negb];
    try apply begins_nil. cbv zeta. cbn [ev_text].
  destruct (ask fs1) as [[] fs2]; destruct (ae_Type e); rewrite ?contents_cons; cbn [e_Content];
    first [apply begins_nil | apply IH | apply begins_app, IH].
Qed.

Lemma adapter_open evs : contents_of (adapter_Stream [] evs) = ev_text evs.
Proof.
  induction evs as [|e evs IH]; [done|]. cbn [adapter_Stream ask negb ev_text]. cbv zeta.
  destruct (ae_Type e); rewrite ?contents_cons, ?IH; done.
Qed.

Lemma client_prefix fs ms out full out' full' ok :
  chat_stream_loop out full (with_client fs ms) = (out', full', ok) -> begins full' (full +:+ contents_of ms).
Proof.
  revert fs out full. induction ms as [|m ms IH]; intros fs out full; cbn [with_client]; destruct (ask fs) as [[] fs1]; cbn [negb chat_stream_loop].
  - intros [= _ <- _]. by exists "".
  - intros [= _ <- _]. by exists "".
  - intros H%IH. by rewrite contents_cons, <- str_app_assoc.
  - intros [= _ <- _]. by exists (contents_of (m :: ms)).
Qed.

Lemma client_open ms out full :
  exists out', chat_stream_loop out full (with_client [] ms) = (out', full +:+ contents_of ms, true).
Proof.
  revert out full. induction ms as [|m ms IH]; intros out full; cbn [with_client ask negb chat_stream_loop].
  - exists out. by rewrite str_app_nil_r.
  - rewrite contents_cons, <- str_app_assoc. apply IH.
Qed.

(** ** What the events are made of *)

Section Contents.
Context (P : string -> Prop) (P_nil : P "").

Definition item_of (x : item) : Prop := match x with inr m => P (e_Content m) | inl _ => True end.
Definition text_of (e : agent_event) : Prop := ae_Type e = EventText -> P (ae_Content e).
Definition message_of (m : eino_message) : Prop := P (e_Content m) /\ e_ToolCalls m = [].
Definition chunk_of (e : sse_event) : Prop := exists c, e = SseChunk c [] /\ P c.

Lemma text_event_of ty s : P s -> Forall text_of (text_event ty s).
Proof. intros H. unfold text_event. destruct (s =s ""); [constructor|]. constructor; [by intros _|constructor]. Qed.

Lemma reasoning_event_of s : Forall text_of (text_event EventReasoning s).
Proof. unfold text_event. destruct (s =s ""); [constructor|]. constructor; [done|constructor]. Qed.

Lemma react_events_of items : Forall item_of items -> Forall text_of (react_events [] items).
Proof.
  induction items as [|[e|m] items IH]; intros H; [constructor|constructor; [done|constructor]|].
  apply Forall_cons in H as [Hm Hi]. rewrite react_events_open. unfold message_events.
  rewrite !Forall_app. auto using text_event_of, reasoning_event_of.
Qed.

Lemma adapter_of fs evs : Forall text_of evs -> Forall message_of (adapter_Stream fs evs).
Proof.
  revert fs. induction evs as [|e evs IH]; intros fs H; cbn [adapter_Stream]; destruct (ask fs) as [[] fs1]; cbn [negb];
    try constructor. apply Forall_cons in H as [He H]. cbv zeta. unfold text_of in He.
  destruct (ask fs1) as [[] fs2]; destruct (ae_Type e); repeat constructor; cbn [e_Content]; auto.
Qed.

Lemma chunks_of fs ms out full out' full' ok : Forall message_of ms -> Forall chunk_of out ->
  chat_stream_loop out full (with_client fs ms) = (out', full', ok) -> Forall chunk_of out'.
Proof.
  revert fs out full. induction ms as [|m ms IH]; intros fs out full Hms Ho; cbn [with_client]; destruct (ask fs) as [[] fs1];
    cbn [negb chat_stream_loop]; try by intros [= <- _ _].
  apply Forall_cons in Hms as [[Hm Ht] Hms]. apply IH; [done|]. apply Forall_app. split; [done|].
  rewrite Ht. repeat constructor. by exists (e_Content m).
Qed.

Lemma pipe_of f1 f2 f3 items : Forall item_of items ->
  Forall message_of (adapter_Stream f3 (stream_turn "" "" (runner_feed f2 (react_events f1 items))).1).
Proof.
  intros H. apply adapter_of. destruct (stream_turn_prefix "" "" f2 (react_events f1 items)) as [k1 E1].
  destruct (react_events_prefix f1 items) as [k2 E2]. pose proof (react_events_of items H) as Hr. rewrite E2, E1 in Hr.
  by apply Forall_app in Hr as [[Hr _]%Forall_app _].
Qed.
End Contents.

(** ** Messages on their way to the agent *)

(** A message whose images, if any, are given by an address: what the handlers
    build and what a stored conversation contains. *)
Definition carried (m : option eino_message) : Prop :=
  match m with
  | Some m => Forall (fun p => exists u, part_Image p = Some (mkImage (Some u) None "") \/ part_Image p = None) (e_Multi m)
  | None => True
  end.

Lemma carried_roundtrip m : carried m -> ToEino (FromEino m) = m.
Proof.
  destruct m as [[r c rc tcs id nm mc]|]; [|done]. simpl. intros Hm. do 2 f_equal.
  destruct mc as [|p mc]; [done|]. cbn [length Nat.ltb Nat.leb]. unfold toEinoMultiContent, fromEinoMultiContent.
  rewrite !fmap_cons. cbn [length Nat.ltb Nat.leb]. rewrite <- !fmap_cons, <- list_fmap_compose.
  apply map_id_Forall. eapply Forall_impl; [exact Hm|]. intros x Hx. by apply toEinoPart_plain.
Qed.

Lemma slice_roundtrip msgs : Forall carried msgs -> ToEinoSlice (FromEinoSlice msgs) = msgs.
Proof.
  unfold ToEinoSlice, FromEinoSlice. intros H. rewrite <- list_fmap_compose. apply map_id_Forall.
  eapply Forall_impl; [exact H|]. apply carried_roundtrip.
Qed.

Section Answer.
Context {X : Type} (a : fw_agent X).

Lemma main_Stream_items ch (w : main_world) msgs x items :
  rw_store w = None -> Forall carried msgs -> a (rw_W w) msgs = (x, inr items) ->
  exists w', rw_W w' = x /\ rw_store w' = None /\ main_Stream a ch w msgs =
    (w', inr (with_client (ch_client ch) (adapter_Stream (ch_adapter ch)
      (stream_turn "" "" (runner_feed (ch_runner ch) (react_events (ch_react ch) items))).1))).
Proof.
  intros Hst Hc Ha. unfold main_Stream, runner_Stream, adapter_request, prepareRequest. cbn [blocked_call ar_Messages set_rw_W rw_store].
  rewrite Hst. cbn [before_model ar_SessionID]. unfold react_Stream. cbn [ar_Messages].
  rewrite slice_roundtrip by done. cbn [emit rw_W set_rw_W]. rewrite Ha. unfold stream_run.
  destruct (stream_turn "" "" _) as [out m]. cbn [fst].
  destruct m as [m|]; [|eexists; split; [|split; [|reflexivity]]; done].
  unfold appendConversation, set_rw_W, emit. cbn [rw_store]. rewrite Hst. eexists. split; [|split; [|reflexivity]]; done.
Qed.

(** Cut short or not, the text on the pipe begins the agent's answer. *)
Lemma pipe_begins f1 f2 f3 items :
  begins (contents_of (adapter_Stream f3 (stream_turn "" "" (runner_feed f2 (react_events f1 items))).1)) (answer_text items).
Proof.
  rewrite <- react_events_text. etransitivity; [apply adapter_prefix|]. apply ev_text_prefix.
  etransitivity; [apply stream_turn_prefix|apply react_events_prefix].
Qed.

Lemma pipe_whole items :
  contents_of (adapter_Stream [] (stream_turn "" "" (runner_feed [] (react_events [] items))).1) = answer_text items.
Proof. by rewrite adapter_open, stream_turn_open, react_events_text. Qed.
End Answer.

(** ** Answers through the server *)

Definition stream_post (r : request string) (msg : string) : Prop :=
  rq_method r = "POST" /\ rq_body r = Some msg /\ rq_flush r = true.

Lemma HandleChatStream_items {W F} Stream StatsJSON t1 t2 (s : @server W F) r msg w items :
  stream_post r msg ->
  Stream (sv_W s) (msgs_of (sv_sessions s) (sessionID (sv_sessions s) r) ++ [UserMessage msg]) = (w, inr items) ->
  exists s' l out full ok, HandleChatStream Stream StatsJSON t1 t2 s r = (s', HEvents l)
    /\ chat_stream_loop [] "" items = (out, full, ok) /\ sent_text l = full /\ sv_W s' = w
    /\ (l = out \/ l = out ++ stats_event StatsJSON w ++ [SseDone])
    /\ (ok = true -> SseDone ∈ l /\ msgs_of (sv_sessions s') (sessionID (sv_sessions s) r)
         = msgs_of (sv_sessions s) (sessionID (sv_sessions s) r) ++ [UserMessage msg; AssistantMessage full]).
Proof.
  intros (Hm & Hb & Hf) HS. unfold HandleChatStream, sv_snapshot, SnapshotWith. rewrite Hm, Hb, Hf. cbn [String.eqb negb].
  change ("POST" <>s "POST") with false. cbv iota. cbn [set_sessions sv_W sv_sessions]. rewrite HS.
  destruct (chat_stream_loop [] "" items) as [[out full] ok] eqn:El.
  pose proof (chat_stream_loop_text _ _ _ _ _ _ El eq_refl) as Hfull.
  destruct ok; do 2 eexists; exists out, full; eexists; (split; [reflexivity|]); split_and!; try done; [| | |by left].
  - rewrite !sent_text_app, Hfull. unfold stats_event. destruct (StatsJSON w <>s ""); simpl; by rewrite !str_app_nil_r.
  - by right.
  - intros _. split; [set_solver|]. unfold sv_append, Append, msgs_of. cbn [sv_sessions set_sessions set_W sessions].
    by rewrite lookup_insert_eq.
Qed.

Section Claims.
Context {X : Type} (a : fw_agent X) {F : Type}.

Definition conversation (s : @server (@main_world X) F) (r : request string) : list (option eino_message) :=
  msgs_of (sv_sessions s) (sessionID (sv_sessions s) r).

(** How an answer of the agent is delivered. *)
Lemma answer_delivered ch StatsJSON t1 t2 (s : @server (@main_world X) F) r msg x items :
  rw_store (sv_W s) = None -> stream_post r msg -> Forall carried (conversation s r) ->
  a (rw_W (sv_W s)) (conversation s r ++ [UserMessage msg]) = (x, inr items) ->
  exists s' l, HandleChatStream (main_Stream a ch) StatsJSON t1 t2 s r = (s', HEvents l)
    /\ begins (sent_text l) (answer_text items) /\ rw_W (sv_W s') = x
    /\ (ch = undisturbed -> sent_text l = answer_text items /\ SseDone ∈ l
         /\ msgs_of (sv_sessions s') (sessionID (sv_sessions s) r)
            = conversation s r ++ [UserMessage msg; AssistantMessage (answer_text items)])
    /\ exists out, (forall P : string -> Prop, P "" -> Forall (item_of P) items -> Forall (chunk_of P) out)
         /\ (l = out \/ l = out ++ stats_event StatsJSON (sv_W s') ++ [SseDone]).
Proof.
  intros Hst Hp Hc Ha.
  destruct (main_Stream_items a ch (sv_W s) (conversation s r ++ [UserMessage msg]) x items) as (w' & Hw & _ & E); [done| |done|].
  { apply Forall_app. split; [done|]. repeat constructor. }
  destruct (HandleChatStream_items (main_Stream a ch) StatsJSON t1 t2 s r msg _ _ Hp E) as (s' & l & out & full & ok & EH & El & Hl & Hs & Hlo & Hok).
  exists s', l. split; [done|]. pose proof (client_prefix _ _ _ _ _ _ _ El) as Hpre. rewrite Hl, Hs. split_and!; [|done| |].
  - etransitivity; [exact Hpre|]. apply pipe_begins.
  - intros ->. destruct (client_open (adapter_Stream [] (stream_turn "" "" (runner_feed [] (react_events [] items))).1) [] "") as [out' E'].
    cbn [ch_client ch_adapter ch_runner ch_react undisturbed] in El. rewrite E' in El. injection El as -> <- <-.
    rewrite pipe_whole in *. split; [done|]. by apply Hok.
  - exists out. split; [|done]. intros P HP Hi. eapply chunks_of; [by apply pipe_of|constructor|exact El].
Qed.

(** C5: A streamed answer on its way from the agent through the goroutines of the
    agent, the runner and the adapter to the client: whoever is interrupted and
    whenever, the client has received a beginning of the answer; when nobody
    is, it has received the answer and the final event, and the session has
    gained the question and the answer. *)
Theorem stream_answer ch StatsJSON t1 t2 (s : @server (@main_world X) F) r msg x items :
  rw_store (sv_W s) = None -> stream_post r msg -> Forall carried (conversation s r) ->
  a (rw_W (sv_W s)) (conversation s r ++ [UserMessage msg]) = (x, inr items) ->
  exists s' l, HandleChatStream (main_Stream a ch) StatsJSON t1 t2 s r = (s', HEvents l)
    /\ begins (sent_text l) (answer_text items) /\ rw_W (sv_W s') = x
    /\ (ch = undisturbed -> sent_text l = answer_text items /\ SseDone ∈ l
         /\ msgs_of (sv_sessions s') (sessionID (sv_sessions s) r)
            = conversation s r ++ [UserMessage msg; AssistantMessage (answer_text items)]).
Proof. intros Hst Hp Hc Ha. destruct (answer_delivered ch StatsJSON t1 t2 s r msg x items Hst Hp Hc Ha) as (s' & l & ?). exists s', l. naive_solver. Qed.
End Claims.

(** ** From the vendor to the client *)

(** What the documentation of the framework says of an agent: the model is
    called with the rewritten and modified messages, and an answer of messages
    without tool calls is the agent's answer. *)
Definition no_calls (x : item) : Prop := match x with inr m => e_ToolCalls m = [] | inl _ => False end.
Definition answers_directly {X} (rc : react_config X) (a : fw_agent X) : Prop :=
  forall x x' input ms items,
    rc_Modifier rc (rc_Rewriter rc input) = Some <$> ms -> rc_Model rc x ms = (x', inr items) -> Forall no_calls items ->
    a x input = (x', inr items).

Section EndToEnd.
Context {W F : Type} (hooks : list (LifecycleHook W)) (url_Parse : string -> option URL) (env : stream_env)
        (chat : Request -> gerror + Response) (tools : list tool_info) (op : options).

(** A client and a network that answer with a completion without tool calls:
    no rate limit, a consumer that takes the chunks, a vendor without inline
    think tags, hooks that let the requests pass, and a first request that is
    answered with the bytes of the events. *)
Record completion_reply (c : @cworld W) (es : list sse) (fin : sse) (rest : list sse) : Prop := mkReplyTo {
  cr_limit : unlimited (cw_o c);
  cr_reconnect : (0 <= maxReconnect (cw_o c))%Z;
  cr_taken : forall n, accepts (sv_chan env) n = true;
  cr_vendor : vendor (cw_o c) <> VendorMiniMax;
  cr_decode : sv_decode env = decode_event;
  cr_hooks : forall req, exists w req', RunBeforeProcessHooks hooks (cw_W c) req = (w, inr req');
  cr_sent : exists hw ev resp,
    SendWithRetry (sv_notify env) (cw_hw c) (vendor (cw_o c)) (sv_send env 0) = (hw, ev, inr resp)
    /\ Body resp = stream_body (es ++ fin :: rest);
  cr_sendable : Forall (fun e => sendable e = true /\ short_line e) (es ++ fin :: rest);
  cr_goes_on : Forall (fun e => goes_on e = true) es;
  cr_finishes : finishes fin = true;
  cr_no_calls : fragments (es ++ [fin]) = [] }.

Lemma bridge_model_completes (c : @cworld W) ms es fin rest : completion_reply c es fin rest ->
  exists c', bridge_model hooks url_Parse env chat tools op c ms
    = (c', inr [inr (mkEino Assistant (contents (es ++ [fin])) (reasonings (es ++ [fin])) [] "" "" [])]).
Proof.
  intros [Hu Hmr Hacc Hv Hd Hh (hw & ev & resp & Hsend & Hb) Hs Hg Hf Hfr]. unfold bridge_model, StreamCall.
  cbn [fresh_channel cw_W]. destruct (Hh (buildRequest ms tools op)) as (w & req' & ->).
  eexists. f_equal. f_equal. rewrite (bridge_complete _ (es ++ [fin])).
  - unfold completion_message. by rewrite Hfr.
  - by apply (stream_call_completes hooks url_Parse env req' (Client.set_W w (fresh_channel c)) hw ev resp es fin rest).
  - by rewrite Hfr.
  - rewrite Hfr. constructor.
Qed.

Lemma MessageRewriter_fmap {A B} (f : A -> B) l : MessageRewriter (f <$> l) = f <$> MessageRewriter l.
Proof. unfold MessageRewriter. rewrite length_fmap. destruct (length l <=? 6)%nat; [done|]. by rewrite fmap_drop. Qed.

(** The model's input: the prompt and the last messages. *)
Lemma agent_input (cfg : AgentConfig (@cworld W)) br l :
  rc_Modifier (agent_config cfg br) (rc_Rewriter (agent_config cfg br) (Some <$> l))
  = Some <$> SystemMessage (ac_Prompt cfg) :: MessageRewriter l.
Proof. cbn [agent_config rc_Modifier rc_Rewriter]. by rewrite MessageRewriter_fmap. Qed.

(** From the bytes of the vendor to the client: with an agent framework that
    passes on an answer without tool calls, the text of the events is the joined
    text of the vendor's deltas, the final event is sent, and the session has
    gained the question and that answer. *)
Lemma vendor_to_client react_NewAgent (cfg : AgentConfig (@cworld W)) a StatsJSON t1 t2
    (s : @server (@main_world (@cworld W)) F) r msg hist es fin rest :
  (forall rc a, react_NewAgent rc = inr a -> answers_directly rc a) ->
  ac_Bridge cfg = Some (bridge_model hooks url_Parse env chat tools op) ->
  NewReactAgent react_NewAgent (Some cfg) = inr a ->
  rw_store (sv_W s) = None -> stream_post r msg ->
  conversation s r = Some <$> hist -> Forall carried (Some <$> hist) ->
  completion_reply (rw_W (sv_W s)) es fin rest ->
  exists s' l, HandleChatStream (main_Stream a undisturbed) StatsJSON t1 t2 s r = (s', HEvents l)
    /\ sent_text l = contents (es ++ [fin]) /\ SseDone ∈ l
    /\ msgs_of (sv_sessions s') (sessionID (sv_sessions s) r)
       = (Some <$> hist) ++ [UserMessage msg; AssistantMessage (contents (es ++ [fin]))]
    /\ exists out, (forall P : string -> Prop, P "" -> P (contents (es ++ [fin])) -> Forall (chunk_of P) out)
         /\ (l = out \/ l = out ++ stats_event StatsJSON (sv_W s') ++ [SseDone]).
Proof.
  intros Hdoc Hbr Hnew Hst Hp Hh Hc Hr. unfold NewReactAgent in Hnew. rewrite Hbr in Hnew.
  destruct (react_NewAgent _) as [e|a'] eqn:En; [done|]. injection Hnew as ->. apply Hdoc in En.
  set (u := mkEino "user" msg "" [] "" "" []).
  destruct (bridge_model_completes _ (SystemMessage (ac_Prompt cfg) :: MessageRewriter (hist ++ [u])) _ _ _ Hr) as (c' & Hm).
  assert (a (rw_W (sv_W s)) (conversation s r ++ [UserMessage msg])
    = (c', inr [inr (mkEino Assistant (contents (es ++ [fin])) (reasonings (es ++ [fin])) [] "" "" [])])) as Ha.
  { rewrite Hh. change [UserMessage msg] with (Some <$> [u]). rewrite <- fmap_app. eapply En.
    - apply agent_input.
    - exact Hm.
    - by repeat constructor. }
  destruct (answer_delivered a undisturbed StatsJSON t1 t2 s r msg _ _ Hst Hp ltac:(by rewrite Hh) Ha) as (s' & l & EH & _ & _ & Hu & out & Ho & Hl).
  exists s', l. split; [done|]. destruct (Hu eq_refl) as (Ht & Hd & Hs). cbn [answer_text e_Content] in Ht, Hs.
  rewrite str_app_nil_r in Ht, Hs. rewrite Hh in Hs. split_and!; [done..|].
  exists out. split; [|done]. intros P H0 Hc'. apply Ho; [done|]. constructor; [exact Hc'|constructor].
Qed.
End EndToEnd.

(** ** Witnesses *)

Definition question : request string := mkReqst "POST" (Some "hi") "s" None true.

(** An agent that answers in two messages, the second with reasoning. *)
Definition two_messages : fw_agent unit := fun x _ =>
  (x, inr (messages [mkEino Assistant "Hel" "" [] "" "" []; mkEino Assistant "lo" "why" [] "" "" []])).
Definition server0 : @server (@main_world unit) unit := mkSrv (main_init tt) (NewManager "") tt.

(** The runner's goroutine loses the context after the first event. *)
Definition runner_interrupted : choices := mkChoices [] [true; true; false] [] [].

Lemma stream_answer_witness :
  (exists s' l, HandleChatStream (main_Stream two_messages runner_interrupted) (fun _ => "") 0 0 server0 question = (s', HEvents l)
     /\ begins (sent_text l) "Hello")
  /\ (exists s' l, HandleChatStream (main_Stream two_messages undisturbed) (fun _ => "") 0 0 server0 question = (s', HEvents l)
     /\ sent_text l = "Hello" /\ msgs_of (sv_sessions s') "s" = [UserMessage "hi"; AssistantMessage "Hello"]).
Proof.
  split.
  - destruct (stream_answer two_messages runner_interrupted (fun _ => "") 0 0 server0 question "hi" tt
      (messages [mkEino Assistant "Hel" "" [] "" "" []; mkEino Assistant "lo" "why" [] "" "" []]))
      as (s' & l & E & H & _); [reflexivity|repeat split|constructor|reflexivity|]. exists s', l. split; [exact E|exact H].
  - destruct (stream_answer two_messages undisturbed (fun _ => "") 0 0 server0 question "hi" tt
      (messages [mkEino Assistant "Hel" "" [] "" "" []; mkEino Assistant "lo" "why" [] "" "" []]))
      as (s' & l & E & _ & _ & H); [reflexivity|repeat split|constructor|reflexivity|].
    destruct (H eq_refl) as (H1 & _ & H2). exists s', l. split; [exact E|]. split; [exact H1|exact H2].
Defined.

(** The handler waits for the next message while the context ends; the other
    goroutines close the pipe, the handler takes that for the end of the answer
    and records what it has. *)
Example interrupted_answer_recorded :
  let '(s', out) := HandleChatStream (main_Stream two_messages runner_interrupted) (fun _ => "") 0 0 server0 question in
  out = HEvents [SseChunk "Hel" []; SseDone] /\ msgs_of (sv_sessions s') "s" = [UserMessage "hi"; AssistantMessage "Hel"].
Proof. split; reflexivity. Qed.

(** A framework that calls the model once. *)
Definition one_call {X} (rc : react_config X) : gerror + fw_agent X := inr (fun x input =>
  match mapM (fun m => m) (rc_Modifier rc (rc_Rewriter rc input)) with
  | Some ms => rc_Model rc x ms
  | None => (x, inl (EMsg "nil message"))
  end).

Lemma one_call_answers {X} (rc : react_config X) a : one_call rc = inr a -> answers_directly rc a.
Proof.
  intros [= <-] x x' input ms items Hi Hm _. rewrite Hi.
  assert (mapM (fun m => m) (Some <$> ms) = Some ms) as ->; [|done].
  apply mapM_Some. clear. induction ms; constructor; done.
Qed.

Definition text_event_sse (s : string) (fin : option string) : sse := mkSSE [mkChoice (mkDelta s "" "" []) fin] None None.
Definition hello_events : list sse := [text_event_sse "Hel" None; text_event_sse "lo" None].
Definition hello_end : sse := text_event_sse "!" (Some "stop").
Definition hello_env : stream_env :=
  mkSEnv 0 0 None all_accepted (reply 200 (stream_body (hello_events ++ hello_end :: []))) (fun _ => no_faults)
    (fun _ => None) decode_event false "" 0.
Definition no_options : options := mkOptions None [] None None.
Definition hello_model : chat_model (@cworld nat) :=
  bridge_model [counting_hook] (fun _ => None) hello_env (fun _ => inl EEOF) [] no_options.
Definition hello_agent : AgentConfig (@cworld nat) := mkAC (Some hello_model) (fun _ => None) [] "be kind" 10 None None.
Definition hello_fw : fw_agent (@cworld nat) := fun x input =>
  match mapM (fun m => m) (MessageModifier "be kind" (MessageRewriter input)) with
  | Some ms => hello_model x ms
  | None => (x, inl (EMsg "nil message"))
  end.
Definition hello_server : @server (@main_world (@cworld nat)) unit := mkSrv (main_init demo_world) (NewManager "") tt.

Lemma hello_reply : completion_reply [counting_hook] hello_env demo_world hello_events hello_end [].
Proof.
  split; [split; discriminate|discriminate|done|discriminate|done| | | | |done|done].
  - intros req. by eexists _, _.
  - eexists _, _, _. split; [vm_compute; reflexivity|reflexivity].
  - repeat (constructor; [split; vm_compute; reflexivity|]). constructor.
  - repeat (constructor; [reflexivity|]). constructor.
Qed.
