(* ===== verification/ToolLoop.v ===== *)
(** * Turns with tools

    What happens around the agent framework while it calls tools: what the
    model is shown (the two functions that [internal/adk/react.go] gives to the
    framework), which tools run (the wrappers with the guardrails), and what the
    client gets at the end. The framework's loop is not in the repository: it is
    an agent of which only the documented behaviour is assumed, that its answer
    comes out of a run of the loop: any number of rounds, each with any number
    of calls, run in any order. *)
From stdpp Require Import base tactics list gmap strings.
From Stdlib Require Import ZArith Lia.
From S2P Require Import Prelude GoStrings Types Normalize Think Breaker Retry Vendor RateLimit Hooks OpenAI Stream Client Bridge Wire Tools Session Agent React FileOps Server System.

(** ** The documented loop *)

Section Loop.
Context {X : Type} (rc : react_config X).
(** [schema.ToolMessage] on the call and the output. *)
Context (ToolMessage : ToolCall -> string -> eino_message).

(** A turn: the model's message, its call, the output of the tool. *)
Record turn := mkTurn { tn_message : eino_message; tn_call : ToolCall; tn_output : string }.
Definition turn_messages (t : turn) : list (option eino_message) :=
  [Some (tn_message t); Some (ToolMessage (tn_call t) (tn_output t))].

(** The tool of a name. *)
Definition tool_of (name : string) (t : base_tool X) : Prop :=
  t ∈ rc_Tools rc /\ ti_Name (bt_Info t) = name /\ forall t', t' ∈ rc_Tools rc -> ti_Name (bt_Info t') = name -> t' = t.

(** From one state of the messages to a later one: the state is rewritten, the
    model is called with the modified messages, and its message and the tool's
    output are added. *)
Inductive turns : X -> list (option eino_message) -> list turn -> X -> list (option eino_message) -> Prop :=
| turns_none x st : turns x st [] x st
| turns_one x st ms x1 m tc t x2 out ts x' st' :
    rc_Modifier rc (rc_Rewriter rc st) = Some <$> ms -> rc_Model rc x ms = (x1, inr [inr m]) -> e_ToolCalls m = [tc] ->
    tool_of (Name tc) t -> bt_run t x1 (Arguments tc) = (x2, (out, None)) ->
    turns x2 (rc_Rewriter rc st ++ turn_messages (mkTurn m tc out)) ts x' st' ->
    turns x st (mkTurn m tc out :: ts) x' st'.

(** [schema.ConcatMessages] on the messages of a stream. *)
Context (ConcatMessages : list eino_message -> option eino_message).

(** A round: the model's message, the results of its calls in their order, and
    the runs of the tools in the order they happened, each with the world it
    found. *)
Record round := mkRound { rd_message : eino_message; rd_results : list (ToolCall * string); rd_ran : list (X * (ToolCall * string)) }.
Definition round_messages (rd : round) : list (option eino_message) :=
  Some (rd_message rd) :: ((fun p => Some (ToolMessage p.1 p.2)) <$> rd_results rd).

(** Runs of tools, one after the other, all of them successful: the framework
    fails when a tool fails. *)
Inductive ran : X -> list (X * (ToolCall * string)) -> X -> Prop :=
| ran_none x : ran x [] x
| ran_one x tc t out x1 l x2 :
    t ∈ rc_Tools rc -> ti_Name (bt_Info t) = Name tc -> bt_run t x (Arguments tc) = (x1, (out, None)) -> ran x1 l x2 ->
    ran x ((x, (tc, out)) :: l) x2.

(** The rounds of an agent: the state is rewritten, the model is called with
    the modified messages, all the calls of its message are run, in some order,
    and the message and the results in the order of the calls are added. *)
Inductive rounds : X -> list (option eino_message) -> list round -> X -> list (option eino_message) -> Prop :=
| rounds_none x st : rounds x st [] x st
| rounds_one x st ms x1 msgs rd x2 rds x' st' :
    rc_Modifier rc (rc_Rewriter rc st) = Some <$> ms -> rc_Model rc x ms = (x1, inr (inr <$> msgs)) ->
    ConcatMessages msgs = Some (rd_message rd) -> e_ToolCalls (rd_message rd) <> [] ->
    (rd_results rd).*1 = e_ToolCalls (rd_message rd) -> (rd_ran rd).*2 ≡ₚ rd_results rd -> ran x1 (rd_ran rd) x2 ->
    rounds x2 (rc_Rewriter rc st ++ round_messages rd) rds x' st' ->
    rounds x st (rd :: rds) x' st'.

(** The documented behaviour of an agent, as far as it is assumed: an answer it
    streams is what the model streamed after some rounds. Nothing is assumed of
    an agent that fails. *)
Definition runs_loop (a : fw_agent X) : Prop :=
  forall x st x2 items, a x st = (x2, inr items) ->
    exists rds x1 st1 ms, rounds x st rds x1 st1 /\ rc_Modifier rc (rc_Rewriter rc st1) = Some <$> ms
      /\ rc_Model rc x1 ms = (x2, inr items).

(** Turns with one call are rounds. *)
Lemma turns_rounds x st ts x' st' : (forall m, ConcatMessages [m] = Some m) -> turns x st ts x' st' ->
  exists rds, rounds x st rds x' st' /\ length rds = length ts.
Proof.
  intros Hcm. induction 1 as [x st|x st ms x1 m tc t x2 out ts x' st' H1 H2 H3 (Ht & Hn & _) H5 _ (rds & IH & Hl)].
  { exists []. split; [constructor|done]. }
  exists (mkRound m [(tc, out)] [(x1, (tc, out))] :: rds). split; [|cbn; lia].
  eapply (rounds_one x st ms x1 [m] (mkRound m [(tc, out)] [(x1, (tc, out))])); cbn [rd_message rd_results rd_ran]; try done; [by rewrite H3|].
  eapply ran_one; [exact Ht|done|exact H5|constructor].
Qed.
End Loop.
Arguments turn_messages ToolMessage t : clear implicits.
Arguments round : clear implicits.

(** * Properties *)

(** ** The window *)

(** Cutting a conversation to its last messages twice, with more in between, is
    cutting it once. *)
Lemma MessageRewriter_drop {A} (l : list A) : MessageRewriter l = drop (length l - 6) l.
Proof. unfold MessageRewriter. destruct (Nat.leb_spec (length l) 6); [|done]. by replace (length l - 6) with 0 by lia. Qed.

Lemma MessageRewriter_app {A} (s d : list A) : MessageRewriter (MessageRewriter s ++ d) = MessageRewriter (s ++ d).
Proof.
  rewrite !MessageRewriter_drop, !length_app, length_drop. set (k := length s - 6).
  transitivity (drop (length s + length d - 6) ((take k s ++ drop k s) ++ d)); [|by rewrite take_drop].
  rewrite <- app_assoc, (drop_app_ge (take k s)) by (rewrite length_take; lia). f_equal. rewrite length_take. lia.
Qed.

Lemma MessageRewriter_short {A} (s d : list A) : length d = 6 -> MessageRewriter (s ++ d) = d.
Proof. intros H. rewrite MessageRewriter_drop, length_app, H, drop_app_length' by lia. done. Qed.

Section Window.
Context {X : Type} (cfg : AgentConfig X) (br : chat_model X) (ToolMessage : ToolCall -> string -> eino_message).

Definition transcript (ts : list turn) : list (option eino_message) := concat (turn_messages ToolMessage <$> ts).

Lemma transcript_length ts : length (transcript ts) = 2 * length ts.
Proof. unfold transcript. induction ts as [|t ts IH]; [done|]. cbn [fmap list_fmap concat]. rewrite length_app, IH. cbn. lia. Qed.

Lemma transcript_app a b : transcript (a ++ b) = transcript a ++ transcript b.
Proof. unfold transcript. by rewrite fmap_app, concat_app. Qed.

(** The last messages of the state are the last messages of the transcript. *)
Lemma turns_window x st ts x' st' : turns (agent_config cfg br) ToolMessage x st ts x' st' ->
  MessageRewriter st' = MessageRewriter (st ++ transcript ts).
Proof.
  induction 1 as [x st|x st ms x1 m tc t x2 out ts x' st' _ _ _ _ _ _ IH]; [by rewrite app_nil_r|].
  rewrite IH. cbn [agent_config rc_Rewriter]. rewrite <- app_assoc. rewrite MessageRewriter_app. done.
Qed.

(** What the model is shown after [ts]: the prompt and the last six messages of
    the conversation and the turns. *)
Lemma model_input x st ts x' st' : turns (agent_config cfg br) ToolMessage x st ts x' st' ->
  rc_Modifier (agent_config cfg br) (rc_Rewriter (agent_config cfg br) st')
  = Some (SystemMessage (ac_Prompt cfg)) :: MessageRewriter (st ++ transcript ts).
Proof. intros H. cbn [agent_config rc_Modifier rc_Rewriter]. unfold MessageModifier. by rewrite (turns_window _ _ _ _ _ H). Qed.

(** C16: After three turns with tools the model no longer sees the question: it is
    shown the prompt and the messages of the last three turns, and nothing of
    the conversation before them. *)
Theorem question_forgotten x st ts x' st' :
  turns (agent_config cfg br) ToolMessage x st ts x' st' -> 3 <= length ts ->
  rc_Modifier (agent_config cfg br) (rc_Rewriter (agent_config cfg br) st')
  = Some (SystemMessage (ac_Prompt cfg)) :: transcript (drop (length ts - 3) ts).
Proof.
  intros H Hn. rewrite (model_input _ _ _ _ _ H). f_equal.
  rewrite <- (take_drop (length ts - 3) ts) at 1. rewrite transcript_app, app_assoc. apply MessageRewriter_short.
  rewrite transcript_length, length_drop. lia.
Qed.
End Window.

(** ** The tools that run *)

Section Allowed.
Context {X : Type} (cfg : AgentConfig X) (br : chat_model X) (ToolMessage : ToolCall -> string -> eino_message).

(** A run of a tool: the call went to a tool of the configuration, and the
    guardrails, asked in the world the run found, let its arguments pass. *)
Definition allowed (g : guard_fn X) (run : X * (ToolCall * string)) : Prop :=
  exists name inner x1, name ∈ ac_ToolNames cfg /\ ac_Tools cfg name = Some inner
    /\ ti_Name (bt_Info inner) = Name run.2.1 /\ g run.1 name (Arguments run.2.1) = (x1, None).

Lemma guarded_tools g t : ac_Guardrails cfg = Some g -> t ∈ agent_tools cfg ->
  exists name inner, name ∈ ac_ToolNames cfg /\ ac_Tools cfg name = Some inner
    /\ t = middlewareWrappedTool name inner (ac_Middleware cfg) (Some g).
Proof.
  intros Hg Ht. apply einoToolsWrapped_elem. unfold agent_tools in Ht. rewrite Hg in Ht. by destruct (ac_Middleware cfg).
Qed.

Lemma ran_allowed g x l x' : ac_Guardrails cfg = Some g -> ran (agent_config cfg br) x l x' -> Forall (allowed g) l.
Proof.
  intros Hg. induction 1 as [|x tc t out x1 l x2 Ht Hn Hr _ IH]; constructor; [|done].
  cbn [agent_config rc_Tools] in Ht. destruct (guarded_tools g t Hg Ht) as (name & inner & H1 & H2 & ->). cbn [bt_Info middlewareWrappedTool] in Hn.
  destruct (g x name (Arguments tc)) as [y [reason|]] eqn:E; [|by exists name, inner, y].
  rewrite (wrapped_refuses name inner (ac_Middleware cfg) g x (Arguments tc) y reason E) in Hr. by destruct (bt_invoke inner).
Qed.

Lemma rounds_allowed g cm x st rds x' st' : ac_Guardrails cfg = Some g ->
  rounds (agent_config cfg br) ToolMessage cm x st rds x' st' -> Forall (fun rd => Forall (allowed g) (rd_ran rd)) rds.
Proof.
  intros Hg. induction 1 as [|x st ms x1 msgs rd x2 rds x' st' _ _ _ _ _ _ Hr _ IH]; constructor; [by eapply ran_allowed|done].
Qed.
End Allowed.

Section Delivered.
Context {X F : Type} (ToolMessage : ToolCall -> string -> eino_message) (ConcatMessages : list eino_message -> option eino_message).
Context (react_NewAgent : react_config X -> gerror + fw_agent X).

(** C3: an answer the agent streams, after any number of rounds with any number
    of calls each: it is what the model streamed after those rounds, in which
    every call was run; every run went to a tool of the agent with arguments
    that the guardrails let pass at that moment; the client is sent the text of
    that last stream alone, with the final event; and the session gains the
    question and that text, but neither the calls nor their results. *)
Theorem tool_answer_delivered cfg br g a StatsJSON t1 t2 (s : @server (@main_world X) F) r msg x2 items :
  (forall rc a, react_NewAgent rc = inr a -> runs_loop rc ToolMessage ConcatMessages a) ->
  ac_Bridge cfg = Some br -> ac_Guardrails cfg = Some g -> NewReactAgent react_NewAgent (Some cfg) = inr a ->
  rw_store (sv_W s) = None -> stream_post r msg -> Forall carried (conversation s r) ->
  a (rw_W (sv_W s)) (conversation s r ++ [UserMessage msg]) = (x2, inr items) ->
  (exists rds x1 st1 ms,
     rounds (agent_config cfg br) ToolMessage ConcatMessages (rw_W (sv_W s)) (conversation s r ++ [UserMessage msg]) rds x1 st1
     /\ rc_Modifier (agent_config cfg br) (rc_Rewriter (agent_config cfg br) st1) = Some <$> ms /\ br x1 ms = (x2, inr items)
     /\ Forall (fun rd => Forall (allowed cfg g) (rd_ran rd)) rds)
  /\ exists s' l, HandleChatStream (main_Stream a undisturbed) StatsJSON t1 t2 s r = (s', HEvents l)
       /\ sent_text l = answer_text items /\ SseDone ∈ l /\ rw_W (sv_W s') = x2
       /\ msgs_of (sv_sessions s') (sessionID (sv_sessions s) r)
          = conversation s r ++ [UserMessage msg; AssistantMessage (answer_text items)].
Proof.
  intros Hdoc Hbr Hg Hnew Hst Hp Hc Ha. split.
  - unfold NewReactAgent in Hnew. rewrite Hbr in Hnew. destruct (react_NewAgent _) as [e|a'] eqn:En; [done|].
    injection Hnew as ->. apply Hdoc in En. destruct (En _ _ _ _ Ha) as (rds & x1 & st1 & ms & Hr & Hm & Hmod).
    exists rds, x1, st1, ms. split_and!; [done..|]. by eapply rounds_allowed.
  - destruct (answer_delivered a undisturbed StatsJSON t1 t2 s r msg _ _ Hst Hp Hc Ha) as (s' & l & EH & _ & Hx & Hu & _).
    exists s', l. destruct (Hu eq_refl) as (Ht' & Hd & Hs). auto.
Qed.
End Delivered.

(** ** A framework that runs the loop *)

Section Framework.
Context {X : Type} (ToolMessage : ToolCall -> string -> eino_message) (ConcatMessages : list eino_message -> option eino_message).
Context (rc : react_config X).

Fixpoint run_calls (x : X) (tcs : list ToolCall) : X * (gerror + list (X * (ToolCall * string))) :=
  match tcs with
  | [] => (x, inr [])
  | tc :: rest =>
      match List.find (fun t => ti_Name (bt_Info t) =s Name tc) (rc_Tools rc) with
      | None => (x, inl (EMsg "no such tool"))
      | Some t =>
          match bt_run t x (Arguments tc) with
          | (x1, (_, Some e)) => (x1, inl e)
          | (x1, (out, None)) =>
              let '(x2, r) := run_calls x1 rest in (x2, match r with inl e => inl e | inr l => inr ((x, (tc, out)) :: l) end)
          end
      end
  end.

Fixpoint messages_of (items : list item) : option (list eino_message) :=
  match items with
  | [] => Some []
  | inl _ :: _ => None
  | inr m :: rest => cons m <$> messages_of rest
  end.

Fixpoint run_loop (steps : nat) (x : X) (st : list (option eino_message)) : X * (gerror + list item) :=
  match steps, mapM (fun m => m) (rc_Modifier rc (rc_Rewriter rc st)) with
  | S steps', Some ms =>
      match rc_Model rc x ms with
      | (x1, inl e) => (x1, inl e)
      | (x1, inr items) =>
          match messages_of items ≫= ConcatMessages with
          | None => (x1, inr items)
          | Some m =>
              if decide (e_ToolCalls m = []) then (x1, inr items)
              else match run_calls x1 (e_ToolCalls m) with
                   | (x2, inl e) => (x2, inl e)
                   | (x2, inr l) => run_loop steps' x2 (rc_Rewriter rc st ++ round_messages ToolMessage (mkRound m l.*2 l))
                   end
          end
      end
  | _, _ => (x, inl (EMsg "exceeds max steps"))
  end.

Lemma run_calls_ran x tcs x2 l : run_calls x tcs = (x2, inr l) -> ran rc x l x2 /\ (l.*2).*1 = tcs.
Proof.
  revert x x2 l. induction tcs as [|tc tcs IH]; intros x x2 l; cbn [run_calls]; [intros [= <- <-]; split; [constructor|done]|].
  destruct (List.find _ _) as [t|] eqn:Ef; [|done]. apply List.find_some in Ef as [Ht Hn].
  destruct (bt_run t x (Arguments tc)) as [x1 [out [e|]]] eqn:Eb; [done|].
  destruct (run_calls x1 tcs) as [x3 [e|l']] eqn:Er; [done|]. intros [= <- <-]. apply IH in Er as [Hr Hl]. split.
  - eapply ran_one; [by apply list_elem_of_In|by apply String.eqb_eq|exact Eb|exact Hr].
  - rewrite !fmap_cons. by f_equal.
Qed.

Lemma messages_of_inr items msgs : messages_of items = Some msgs -> items = inr <$> msgs.
Proof.
  revert msgs. induction items as [|[e|m] items IH]; intros msgs; cbn [messages_of]; [by intros [= <-]|done|].
  destruct (messages_of items) as [ms|]; [|done]. intros [= <-]. rewrite fmap_cons. by rewrite <- (IH ms).
Qed.

Lemma mapM_some_inv {A} (l : list (option A)) ms : mapM (fun m => m) l = Some ms -> l = Some <$> ms.
Proof. intros H%mapM_Some. induction H as [|x y l ms -> _ IH]; [done|]. by rewrite IH. Qed.

Lemma run_loop_runs n : runs_loop rc ToolMessage ConcatMessages (run_loop n).
Proof.
  induction n as [|n IH]; intros x st x2 items; cbn [run_loop]; [done|].
  destruct (mapM _ _) as [ms|] eqn:Em; [|done]. apply mapM_some_inv in Em.
  destruct (rc_Model rc x ms) as [x1 [e|its]] eqn:Emod; [done|].
  assert (forall i, (x1, inr its : gerror + list item) = (x2, inr i) -> exists rds y st1 ms0, rounds rc ToolMessage ConcatMessages x st rds y st1
    /\ rc_Modifier rc (rc_Rewriter rc st1) = Some <$> ms0 /\ rc_Model rc y ms0 = (x2, inr i)) as Hdone.
  { intros i [= <- <-]. exists [], x, st, ms. split; [constructor|done]. }
  destruct (messages_of its) as [msgs|] eqn:Eits; [|apply Hdone]. change (Some msgs ≫= ConcatMessages) with (ConcatMessages msgs).
  destruct (ConcatMessages msgs) as [m|] eqn:Ec; [|apply Hdone]. case_decide as Hm; [apply Hdone|].
  destruct (run_calls x1 (e_ToolCalls m)) as [x3 [e|l]] eqn:Er; [done|]. intros Hl.
  apply run_calls_ran in Er as [Hr Hcalls]. apply messages_of_inr in Eits as ->.
  destruct (IH _ _ _ _ Hl) as (rds & y & st1 & ms0 & H1 & H2 & H3). exists (mkRound m l.*2 l :: rds), y, st1, ms0.
  split; [|done]. eapply rounds_one; [exact Em|exact Emod|exact Ec|done|done|done|exact Hr|exact H1].
Qed.
End Framework.

(** ** Many calls at once *)

Definition is_result (m : eino_message) : Prop := e_Role m = RoleTool.

Lemma result_tool m : is_result m -> isTool (toProtoMsg m) = true /\ opensTurn (toProtoMsg m) = false.
Proof. unfold is_result, isTool, opensTurn. intros H. cbn [toProtoMsg mRole]. by rewrite H. Qed.

Lemma slow_results n ms : Forall is_result ms -> slow_loop n (toProtoMsgs ms) = [].
Proof.
  revert n. induction ms as [|m ms IH]; intros [|n] H; [done..|]. apply Forall_cons in H as [Hm H].
  destruct (result_tool m Hm) as [Ht Ho]. unfold toProtoMsgs. rewrite fmap_cons. cbn [slow_loop]. rewrite Ho, Ht. by apply IH.
Qed.

Lemma normalize_results prompt ms : Forall is_result ms ->
  NormalizeMessages (toProtoMsgs (SystemMessage prompt :: ms)) = [toProtoMsg (SystemMessage prompt)].
Proof.
  intros H. unfold NormalizeMessages, tryFastPath, toProtoMsgs. rewrite fmap_cons. cbn [length fast_ok slow_loop].
  change (opensTurn (toProtoMsg (SystemMessage prompt))) with false. change (isTool (toProtoMsg (SystemMessage prompt))) with false.
  cbv iota. pose proof (slow_results (length (toProtoMsg <$> ms)) ms H) as Hs. unfold toProtoMsgs in Hs. rewrite Hs.
  destruct ms as [|m ms]; [done|]. apply Forall_cons in H as [Hm H]. rewrite fmap_cons. cbn [length fast_ok].
  destruct (result_tool m Hm) as [-> ->]. done.
Qed.

(** A turn with six calls or more leaves nothing to answer: the window keeps
    only results, without the message that called for them, and the repair of
    the conversation removes those; the request holds the prompt alone. *)
Theorem results_lost {X} (cfg : AgentConfig X) br st m results ms tools op :
  6 <= length results -> Forall is_result results ->
  rc_Modifier (agent_config cfg br) (rc_Rewriter (agent_config cfg br) (st ++ Some m :: (Some <$> results))) = Some <$> ms ->
  NormalizeMessages (reqMessages (buildRequest ms tools op)) = [toProtoMsg (SystemMessage (ac_Prompt cfg))].
Proof.
  intros Hn Hr. cbn [agent_config rc_Modifier rc_Rewriter].
  replace (st ++ Some m :: (Some <$> results))
    with ((st ++ Some m :: (Some <$> take (length results - 6) results)) ++ (Some <$> drop (length results - 6) results))
    by (rewrite <- app_assoc; cbn [app]; by rewrite <- fmap_app, take_drop).
  rewrite MessageRewriter_short by (rewrite length_fmap, length_drop; lia). unfold MessageModifier.
  change (Some (SystemMessage (ac_Prompt cfg)) :: (Some <$> drop (length results - 6) results))
    with (Some <$> SystemMessage (ac_Prompt cfg) :: drop (length results - 6) results).
  intros E%(inj (fmap Some)). subst ms. unfold buildRequest. cbn [reqMessages]. apply normalize_results. by apply Forall_drop.
Qed.

(** ** Witnesses *)

(** A model that calls the tool [count] three times and then answers. *)
Definition tool_message (tc : ToolCall) (out : string) : eino_message := mkEino RoleTool out "" [] (ID tc) (Name tc) [].
Definition count_call : ToolCall := mkToolCall "c" "function" "count" "{}".
Definition calling : eino_message := mkEino Assistant "" "" [count_call] "" "" [].
Definition answering : eino_message := mkEino Assistant "done" "" [] "" "" [].
Definition three_calls : chat_model nat := fun x _ => (x, inr [inr (if (x <? 3)%nat then calling else answering)]).
Definition loop_cfg : AgentConfig nat := mkAC (Some three_calls) count_registry ["count"] "p" 10 None (Some no_rm).
Definition loop_server : @server (@main_world nat) unit := mkSrv (main_init 0) (NewManager "") tt.
Definition count_turn : turn := mkTurn calling count_call "{}".
Definition after_turns (n : nat) (st : list (option eino_message)) : list (option eino_message) :=
  Nat.iter n (fun st => MessageRewriter st ++ turn_messages tool_message count_turn) st.

Lemma count_tool_of : tool_of (agent_config loop_cfg three_calls) "count" (middlewareWrappedTool "count" count_tool None (Some no_rm)).
Proof.
  split; [apply list_elem_of_singleton; reflexivity|]. split; [reflexivity|].
  intros t' Ht _. apply list_elem_of_singleton in Ht. exact Ht.
Qed.

Lemma next_turn x st ms ts x' st' : (x <? 3)%nat = true -> MessageRewriter st = Some <$> ms ->
  turns (agent_config loop_cfg three_calls) tool_message (S x) (MessageRewriter st ++ turn_messages tool_message count_turn) ts x' st' ->
  turns (agent_config loop_cfg three_calls) tool_message x st (count_turn :: ts) x' st'.
Proof.
  intros Hx Hst H. apply (turns_one _ _ x st (SystemMessage "p" :: ms) x calling count_call
    (middlewareWrappedTool "count" count_tool None (Some no_rm)) (S x)
    "{}" ts x' st'); [|cbn [agent_config rc_Model]; unfold three_calls; by rewrite Hx|reflexivity|exact count_tool_of|reflexivity|exact H].
  cbn [agent_config rc_Modifier rc_Rewriter]. unfold MessageModifier. by rewrite Hst.
Qed.

Lemma three_turns q : turns (agent_config loop_cfg three_calls) tool_message 0 [Some q] [count_turn; count_turn; count_turn] 3
  (after_turns 3 [Some q]).
Proof.
  apply (next_turn 0 _ [q]); [reflexivity|reflexivity|].
  apply (next_turn 1 _ [q; calling; tool_message count_call "{}"]); [reflexivity|reflexivity|].
  apply (next_turn 2 _ [q; calling; tool_message count_call "{}"; calling; tool_message count_call "{}"]); [reflexivity|reflexivity|].
  apply turns_none.
Qed.

Definition hi : eino_message := mkEino "user" "hi" "" [] "" "" [].

Lemma question_forgotten_witness :
  rc_Modifier (agent_config loop_cfg three_calls) (rc_Rewriter (agent_config loop_cfg three_calls) (after_turns 3 [Some hi]))
  = Some (SystemMessage "p") :: transcript tool_message [count_turn; count_turn; count_turn].
Proof. exact (question_forgotten loop_cfg three_calls tool_message 0 [Some hi] _ 3 _ (three_turns hi) (le_n 3)). Defined.

(** [ConcatMessages] for streams of one message. *)
Definition only_message (l : list eino_message) : option eino_message := match l with [m] => Some m | _ => None end.
Definition loop_agent : fw_agent nat := run_loop tool_message only_message (agent_config loop_cfg three_calls) 10.

Lemma tool_answer_delivered_witness :
  (exists rds x1 st1 ms,
     rounds (agent_config loop_cfg three_calls) tool_message only_message 0 [UserMessage "hi"] rds x1 st1
     /\ rc_Modifier (agent_config loop_cfg three_calls) (rc_Rewriter (agent_config loop_cfg three_calls) st1) = Some <$> ms
     /\ three_calls x1 ms = (3, inr [inr answering])
     /\ Forall (fun rd => Forall (allowed loop_cfg no_rm) (rd_ran rd)) rds)
  /\ exists s' l, HandleChatStream (main_Stream loop_agent undisturbed) (fun _ => "") 0 0 loop_server question = (s', HEvents l)
       /\ sent_text l = "done" /\ SseDone ∈ l /\ rw_W (sv_W s') = 3
       /\ msgs_of (sv_sessions s') "s" = [UserMessage "hi"; AssistantMessage "done"].
Proof.
  apply (tool_answer_delivered tool_message only_message
    (fun rc => inr (run_loop tool_message only_message rc (Z.to_nat (rc_MaxStep rc)))) loop_cfg three_calls
    no_rm loop_agent (fun _ => "") 0 0 loop_server question "hi" 3 [inr answering]).
  - intros rc a [= <-]. apply run_loop_runs.
  - reflexivity.
  - reflexivity.
  - reflexivity.
  - reflexivity.
  - repeat split.
  - constructor.
  - vm_compute. reflexivity.
Defined.

Lemma results_lost_witness :
  NormalizeMessages (reqMessages (buildRequest (SystemMessage "p" :: replicate 6 (tool_message count_call "1")) [] no_options))
  = [toProtoMsg (SystemMessage "p")].
Proof.
  apply (results_lost loop_cfg three_calls [UserMessage "q"] (mkEino Assistant "" "" (replicate 6 count_call) "" "" [])
    (replicate 6 (tool_message count_call "1"))).
  - cbn. lia.
  - repeat constructor.
  - reflexivity.
Defined.
