(* ===== verification/Endpoints.v ===== *)
(** * The two chat endpoints

    [/api/chat] answers with one reply, [/api/chat/stream] with a stream of
    events: what the two handlers of [internal/server/server.go], over the
    adapter, the runner and the agent, make of the same answer of the
    framework. *)
From stdpp Require Import base tactics list gmap strings.
From Stdlib Require Import ZArith Lia.
From S2P Require Import Prelude GoStrings Types Think Bridge Tools Session Agent React FileOps Server System.

(** A message to which the plain handler gives no special treatment: it is
    neither the path of an image nor an image itself. *)
Definition plain_post {F} `{FileSystem F} wd root ex (fs : F) (msg : string) : Prop :=
  extractLocalImagePath wd root ex fs msg = "" /\ HasPrefix msg "data:image/" = false.

Section Plain.
Context {X : Type} (a : fw_agent X).

Lemma recv_all_messages ms : recv_all (messages ms) = inr ms.
Proof. unfold messages. induction ms as [|m ms IH]; [done|]. rewrite fmap_cons. cbn [recv_all]. by rewrite IH. Qed.

Lemma last_slice ms m : last ms = Some m -> last (FromEinoSlice (Some <$> ms)) = Some (FromEino (Some m)).
Proof. intros H. unfold FromEinoSlice. by rewrite !fmap_last, H. Qed.

(** The adapter's [Generate] gives the last message of the agent's stream. *)
Lemma main_Generate_messages stats (w : main_world) msgs x ms m :
  rw_store w = None -> Forall carried msgs -> a (rw_W w) msgs = (x, inr (messages ms)) -> last ms = Some m -> carried (Some m) ->
  exists w', rw_W w' = x /\ main_Generate a stats w msgs = (w', Some (inr (Some m))).
Proof.
  intros Hst Hc Ha Hl Hm. unfold main_Generate, Run, adapter_request, prepareRequest. cbn [blocked_call ar_Messages set_rw_W rw_store].
  rewrite Hst. unfold run_agent. cbn [emit rw_W set_rw_W]. unfold react_Run. cbn [ar_Messages]. rewrite slice_roundtrip by done. rewrite Ha.
  rewrite recv_all_messages. destruct ms as [|m0 ms0] eqn:Ems; [done|]. rewrite <- Ems in *. cbn [default from_option id].
  unfold appendConversation, set_rw_W, emit. cbn [rw_store]. rewrite Hst. unfold adapter_Generate. cbn [ap_Messages].
  rewrite (last_slice ms m Hl), carried_roundtrip by done. eexists. split; [|reflexivity]. reflexivity.
Qed.
End Plain.

Section Agree.
Context {X : Type} (a : fw_agent X) {F : Type} `{FileSystem F}.
Context (model : string) (wd : gerror + string) (root : string) (ex : F -> string -> bool)
        (fetch : string -> gerror + string) (b64 : string -> string) (vision : string -> string -> gerror + string).

(** C25: The same question through both endpoints: when the framework streams its
    answer in messages, the stream carries the text of all of them and the
    plain reply only the text of the last; so the two agree on an answer of one
    message, which is what the bridge makes of a completion. The plain endpoint
    records the last message as it is, the other one its text alone. *)
Theorem endpoints_agree stats StatsJSON t1 t2 (s : @server (@main_world X) F) r msg x ms m :
  rw_store (sv_W s) = None -> stream_post r msg -> plain_post wd root ex (sv_fs s) msg -> Forall carried (conversation s r) ->
  a (rw_W (sv_W s)) (conversation s r ++ [UserMessage msg]) = (x, inr (messages ms)) -> last ms = Some m -> carried (Some m) ->
  exists s1 s2 l,
    HandleChat (main_Generate a stats) model StatsJSON wd root ex fetch b64 vision t1 t2 s r
      = (s1, HReply (e_Content m) (StatsJSON (sv_W s1)))
    /\ HandleChatStream (main_Stream a undisturbed) StatsJSON t1 t2 s r = (s2, HEvents l)
    /\ sent_text l = contents_of ms /\ (ms = [m] -> sent_text l = e_Content m)
    /\ rw_W (sv_W s1) = x /\ rw_W (sv_W s2) = x
    /\ msgs_of (sv_sessions s1) (sessionID (sv_sessions s) r) = conversation s r ++ [UserMessage msg; Some m]
    /\ msgs_of (sv_sessions s2) (sessionID (sv_sessions s) r)
       = conversation s r ++ [UserMessage msg; AssistantMessage (contents_of ms)].
Proof.
  intros Hst Hp [Hi Hd] Hc Ha Hl Hm.
  destruct (answer_delivered a undisturbed StatsJSON t1 t2 s r msg _ _ Hst Hp Hc Ha) as (s2 & l & EH & _ & Hx & Hu & _).
  destruct (Hu eq_refl) as (Ht & _ & Hs2). rewrite answer_text_messages in Ht, Hs2.
  destruct (main_Generate_messages a stats (sv_W s) (conversation s r ++ [UserMessage msg]) x ms m) as (w & Hw & EG); try done.
  { apply Forall_app. split; [done|]. repeat constructor. }
  unfold HandleChat, chat_message. destruct Hp as (Hpm & Hpb & _). rewrite Hpm, Hpb, Hi.
  change ("" =s "") with true. change ("POST" <>s "POST") with false. cbv iota. rewrite Hd. unfold sv_snapshot, SnapshotWith. cbn [set_sessions sv_W sv_sessions].
  unfold conversation in EG. rewrite EG.
  match goal with |- context [(?s1, HReply _ (StatsJSON w))] => exists s1, s2, l end. split; [reflexivity|]. split_and!; try done.
  - intros ->. rewrite Ht. unfold contents_of. cbn. apply str_app_nil_r.
  - unfold sv_append, Append, msgs_of. cbn [sv_sessions set_sessions set_W sessions]. by rewrite lookup_insert_eq.
Qed.
End Agree.

(** ** Witness *)

Definition hello_messages : list eino_message := [mkEino Assistant "Hel" "" [] "" "" []; mkEino Assistant "lo" "why" [] "" "" []].

Definition hello_site : @server (@main_world unit) (gmap string string) := mkSrv (main_init tt) (NewManager "") ∅.
Definition no_image : gmap string string -> string -> bool := fun _ _ => false.

Lemma endpoints_agree_witness : exists s1 s2 l,
  HandleChat (main_Generate two_messages (fun _ => "")) "m" (fun _ => "") (inr "/w") "" no_image (fun u => inr u) (fun d => d)
    (fun _ _ => inr "") 0 0 hello_site question = (s1, HReply "lo" "")
  /\ HandleChatStream (main_Stream two_messages undisturbed) (fun _ => "") 0 0 hello_site question = (s2, HEvents l)
  /\ sent_text l = "Hello".
Proof.
  destruct (endpoints_agree two_messages "m" (inr "/w") "" no_image (fun u => inr u) (fun d => d) (fun _ _ => inr "") (fun _ => "")
    (fun _ => "") 0 0 hello_site question "hi" tt hello_messages (mkEino Assistant "lo" "why" [] "" "" []))
    as (s1 & s2 & l & H1 & H2 & H3 & _); [reflexivity|repeat split|split; vm_compute; reflexivity|constructor|reflexivity|reflexivity|constructor|].
  exists s1, s2, l. split; [exact H1|]. split; [exact H2|exact H3].
Defined.
