(* ===== verification/Lifecycle.v ===== *)
(** * The life of the process

    The last part of [main] in [main.go] and [StartCleanup] of
    [internal/session/manager.go]: handlers in flight, the clean-up goroutine,
    and the goroutine that waits for the signal, saves the history and shuts
    the HTTP server down. A run is a list of steps that the scheduler, the
    clients and the clock choose. *)
From stdpp Require Import base tactics list gmap fin_maps strings.
From Stdlib Require Import ZArith Lia.
From S2P Require Import Prelude GoStrings GoRegex Types GoJSONText GoJSONStruct Bridge Session History.

(** ** The process *)

(** Where the goroutine that waits for the signal is. After [Shutdown] was
    called, [ListenAndServe] has returned and [main] may return at any time. *)
Inductive shutdown_pc := Serving | Signalled | HistorySaved | ShutdownCalled | Exited.
#[export] Instance shutdown_pc_eq : EqDecision shutdown_pc.
Proof. solve_decision. Defined.

(** [p_flying]: the requests whose handler has read the conversation and waits
    for the agent, with their session and question. *)
Record proc := mkProc {
  p_mgr : Manager; p_clock : Z; p_flying : gmap nat (string * option eino_message);
  p_file : option string; p_pc : shutdown_pc }.

(** [sessionMgr.StartCleanup(ctx, 5*time.Minute, 30*time.Minute)] *)
Definition maxAge : Z := (30 * Minute)%Z.

Inductive label :=
| LTick (d : Z)                                             (* time passes *)
| LAccept (i : nat) (sid : string) (q : option eino_message) (* a request: snapshot of the session *)
| LFinish (i : nat) (a : option eino_message)               (* the answer is complete: the turn is appended *)
| LFail (i : nat)                                           (* the handler ends without recording *)
| LClean                                                    (* the ticker fires *)
| LSignal
| LSave (write_ok : bool) (broken : option string)
| LShutdown
| LExit.

Definition set_mgr (m : Manager) (p : proc) : proc := mkProc m (p_clock p) (p_flying p) (p_file p) (p_pc p).
Definition set_flying (f : gmap nat (string * option eino_message)) (p : proc) : proc :=
  mkProc (p_mgr p) (p_clock p) f (p_file p) (p_pc p).
Definition set_pc (c : shutdown_pc) (p : proc) : proc := mkProc (p_mgr p) (p_clock p) (p_flying p) (p_file p) c.

(** One step, [None] when it cannot happen. The clean-up goroutine got the
    context of the whole process and is never told to stop. A panic while the
    history is saved ends the process. *)
Definition proc_step (p : proc) (l : label) : option proc :=
  if bool_decide (p_pc p = Exited) then None
  else match l with
  | LTick d => if (0 <=? d)%Z then Some (mkProc (p_mgr p) (p_clock p + d) (p_flying p) (p_file p) (p_pc p)) else None
  | LAccept i sid q =>
      if bool_decide (p_pc p = ShutdownCalled) || bool_decide (is_Some (p_flying p !! i)) then None
      else Some (set_flying (<[i := (sid, q)]> (p_flying p)) (set_mgr (SnapshotWith (p_mgr p) (p_clock p) sid [q]).1 p))
  | LFinish i a =>
      '(sid, q) ← p_flying p !! i;
      Some (set_flying (delete i (p_flying p)) (set_mgr (Append (p_mgr p) (p_clock p) sid [q; a]) p))
  | LFail i => _ ← p_flying p !! i; Some (set_flying (delete i (p_flying p)) p)
  | LClean => Some (set_mgr (Cleanup (p_mgr p) (p_clock p) maxAge).1 p)
  | LSignal => if bool_decide (p_pc p = Serving) then Some (set_pc Signalled p) else None
  | LSave ok broken =>
      if bool_decide (p_pc p = Signalled) then
        match SaveHistory ok broken (p_mgr p) (p_file p) with
        | Some file => Some (mkProc (p_mgr p) (p_clock p) (p_flying p) file HistorySaved)
        | None => Some (set_pc Exited p)
        end
      else None
  | LShutdown => if bool_decide (p_pc p = HistorySaved) then Some (set_pc ShutdownCalled p) else None
  | LExit => if bool_decide (p_pc p = ShutdownCalled) then Some (set_pc Exited p) else None
  end.

Fixpoint proc_run (p : proc) (ls : list label) : option proc :=
  match ls with [] => Some p | l :: ls' => p' ← proc_step p l; proc_run p' ls' end.

(** The start of the process on a history file; [num] is the number parser of
    the JSON decoder. *)
Definition boot (num : string -> option string) (file : option string) (now : Z) : proc :=
  mkProc (LoadHistory num (NewManager "default") file) now ∅ file Serving.

(** * Properties *)

Lemma run_app p a b : proc_run p (a ++ b) = p' ← proc_run p a; proc_run p' b.
Proof. revert p. induction a as [|l a IH]; intros p; [done|]. cbn [app proc_run]. destruct (proc_step p l); [apply IH|done]. Qed.

Ltac step_cases H :=
  unfold proc_step in H; repeat (case_bool_decide || case_match || simplify_option_eq); simplify_eq/=.

(** Time does not run backwards. *)
Lemma step_clock p l p' : proc_step p l = Some p' -> (p_clock p <= p_clock p')%Z.
Proof. intros H. destruct l; step_cases H; bool_prop; lia. Qed.

Lemma run_clock p ls p' : proc_run p ls = Some p' -> (p_clock p <= p_clock p')%Z.
Proof.
  revert p. induction ls as [|l ls IH]; intros p; cbn [proc_run]; [intros [= ->]; lia|].
  destruct (proc_step p l) as [p1|] eqn:E; [|done]. intros H%IH. apply step_clock in E. lia.
Qed.

(** ** The history file *)

(** The signal's goroutine is past the save. *)
Definition past_save (c : shutdown_pc) : bool := match c with HistorySaved | ShutdownCalled | Exited => true | _ => false end.

Lemma step_past_save p l p' : proc_step p l = Some p' -> past_save (p_pc p) = true -> p_file p' = p_file p /\ past_save (p_pc p') = true.
Proof. intros H Hp. destruct l; step_cases H; try done;
  match goal with E : p_pc p = _ |- _ => by rewrite E in Hp end. Qed.

Lemma run_past_save p ls p' : proc_run p ls = Some p' -> past_save (p_pc p) = true -> p_file p' = p_file p.
Proof.
  revert p. induction ls as [|l ls IH]; intros p; cbn [proc_run]; [by intros [= ->]|].
  destruct (proc_step p l) as [p1|] eqn:E; [|done]. intros H Hp. destruct (step_past_save _ _ _ E Hp) as [<- Hp1]. by apply IH.
Qed.

(** ** Turns *)

(** The session has the turn and was used at time [t] or later. *)
Record kept (sid : string) (q a : option eino_message) (t : Z) (p : proc) : Prop := mkKept {
  kp_turn : exists l1 l2, sessions (p_mgr p) !! sid = Some (l1 ++ [q; a] ++ l2);
  kp_used : exists u, lastAccess (p_mgr p) !! sid = Some u /\ (t <= u)%Z }.

Lemma kept_mgr p p' sid q a t : kept sid q a t p -> p_mgr p' = p_mgr p -> kept sid q a t p'.
Proof. intros [H1 H2] E. split; by rewrite E. Qed.

Lemma kept_snapshot sid q a t p sid' q' : kept sid q a t p -> (t <= p_clock p)%Z ->
  kept sid q a t (set_mgr (SnapshotWith (p_mgr p) (p_clock p) sid' [q']).1 p).
Proof.
  intros [Ht (u & Hu & Htu)] Hc. split; [done|]. cbn. destruct (decide (sid' = sid)) as [->|Hn].
  - exists (p_clock p). by rewrite lookup_insert_eq.
  - exists u. by rewrite lookup_insert_ne.
Qed.

Lemma kept_append sid q a t p sid' msgs : kept sid q a t p -> (t <= p_clock p)%Z ->
  kept sid q a t (set_mgr (Append (p_mgr p) (p_clock p) sid' msgs) p).
Proof.
  intros [(l1 & l2 & Ht) (u & Hu & Htu)] Hc. destruct (decide (sid' = sid)) as [->|Hn]; split; cbn.
  - exists l1, (l2 ++ msgs). unfold msgs_of. rewrite lookup_insert_eq, Ht. cbn. by rewrite <- !app_assoc.
  - exists (p_clock p). by rewrite lookup_insert_eq.
  - exists l1, l2. by rewrite lookup_insert_ne.
  - exists u. by rewrite lookup_insert_ne.
Qed.

Lemma kept_clean sid q a t p : kept sid q a t p -> (p_clock p <= t + maxAge)%Z ->
  kept sid q a t (set_mgr (Cleanup (p_mgr p) (p_clock p) maxAge).1 p).
Proof.
  intros [(l1 & l2 & Ht) (u & Hu & Htu)] Hc.
  assert (filter (expired (p_clock p) maxAge) (lastAccess (p_mgr p)) !! sid = None) as Hf.
  { apply map_lookup_filter_None. right. intros u' Hu' He. unfold expired in He. simplify_eq/=. lia. }
  split; cbn.
  - exists l1, l2. by rewrite lookup_difference, lookup_fmap, Hf.
  - exists u. by rewrite lookup_difference, Hf.
Qed.

Lemma step_kept p l p' sid q a t : proc_step p l = Some p' -> (t <= p_clock p <= t + maxAge)%Z -> kept sid q a t p -> kept sid q a t p'.
Proof.
  intros H Hc Hk. destruct l; step_cases H; try exact Hk.
  all: try by apply (kept_mgr p).
  - eapply kept_mgr; [apply (kept_snapshot _ _ _ _ _ sid0 q0 Hk); lia|done].
  - eapply kept_mgr; [eapply (kept_append _ _ _ _ _ _ _ Hk); lia|done].
  - apply (kept_clean _ _ _ _ _ Hk). lia.
Qed.

Lemma run_kept p ls p' sid q a t : proc_run p ls = Some p' -> (t <= p_clock p)%Z -> (p_clock p' <= t + maxAge)%Z ->
  kept sid q a t p -> kept sid q a t p'.
Proof.
  revert p. induction ls as [|l ls IH]; intros p; cbn [proc_run]; [by intros [= ->]|].
  destruct (proc_step p l) as [p1|] eqn:E; [|done]. intros H Ht Hc Hk.
  pose proof (step_clock _ _ _ E). pose proof (run_clock _ _ _ H). apply (IH p1); [done|lia|done|].
  eapply step_kept; [exact E|lia|done].
Qed.

Lemma finish_kept p i a p' sid q : proc_step p (LFinish i a) = Some p' -> p_flying p !! i = Some (sid, q) -> kept sid q a (p_clock p) p'.
Proof.
  intros H Hi. step_cases H. split; cbn.
  - exists (msgs_of (p_mgr p) sid), []. rewrite lookup_insert_eq. done.
  - exists (p_clock p). rewrite lookup_insert_eq. split; [done|lia].
Qed.

(** What a restart finds of a process that saved its history. *)
Lemma restart_sessions num p1 p2 p' broken ls now : proc_step p1 (LSave true broken) = Some p2 -> proc_run p2 ls = Some p' ->
  sessions (p_mgr p1) <> ∅ ->
  map_Forall (fun sid msgs => utf8b sid = true /\ forallb eino_ok msgs = true) (sessions (p_mgr p1)) ->
  sessions (p_mgr (boot num (p_file p') now)) = sessions (p_mgr p1).
Proof.
  intros Hs Hr Hne Hok.
  destruct (history_saved num (p_mgr p1) (NewManager "default") (p_file p1) broken Hne Hok) as (b & Hb & Hload).
  assert (p_file p2 = Some b /\ past_save (p_pc p2) = true) as [Hf Hp].
  { unfold proc_step in Hs. case_bool_decide; [done|]. case_bool_decide; [|done]. rewrite Hb in Hs. by injection Hs as <-. }
  apply run_past_save in Hr; [|done]. unfold boot. cbn [p_mgr]. rewrite Hr, Hf. apply map_eq. intros sid.
  rewrite Hload. cbn. rewrite lookup_empty. by destruct (sessions (p_mgr p1) !! sid).
Qed.

(** ** Conversations *)

Abbreviation turn := (option eino_message * option eino_message)%type.
Definition flat (ts : list turn) : list (option eino_message) := concat ((fun t => [t.1; t.2]) <$> ts).

Lemma flat_app a b : flat (a ++ b) = flat a ++ flat b.
Proof. unfold flat. by rewrite fmap_app, concat_app. Qed.

(** The turn that a step completes, and the turns of a session that a run
    completes, in their order. *)
Definition completes (sid : string) (p : proc) (l : label) : list turn :=
  match l with
  | LFinish i a => match p_flying p !! i with Some (sid', q) => if decide (sid' = sid) then [(q, a)] else [] | None => [] end
  | _ => []
  end.
Fixpoint completed (sid : string) (p : proc) (ls : list label) : list turn :=
  match ls with
  | [] => []
  | l :: ls' => completes sid p l ++ match proc_step p l with Some p' => completed sid p' ls' | None => [] end
  end.

(** One session seen alone: its conversation, the time of its last use, the
    questions of its requests in flight, and the clock. *)
Record session_state := mkSession {
  ss_msgs : option (list (option eino_message)); ss_used : option Z; ss_asked : gmap nat (option eino_message); ss_clock : Z }.

(** The session has been idle for too long when the ticker fires. *)
Definition expires (c : session_state) : bool :=
  match ss_used c with Some t => bool_decide (maxAge < ss_clock c - t)%Z | None => false end.

(** What each step of the process means to the session. *)
Definition session_step (sid : string) (c : session_state) (l : label) : session_state :=
  match l with
  | LTick d => mkSession (ss_msgs c) (ss_used c) (ss_asked c) (ss_clock c + d)
  | LAccept i sid' q =>
      if decide (sid' = sid) then mkSession (ss_msgs c) (Some (ss_clock c)) (<[i := q]> (ss_asked c)) (ss_clock c) else c
  | LFinish i a =>
      match ss_asked c !! i with
      | Some q => mkSession (Some (default [] (ss_msgs c) ++ [q; a])) (Some (ss_clock c)) (delete i (ss_asked c)) (ss_clock c)
      | None => c
      end
  | LFail i => mkSession (ss_msgs c) (ss_used c) (delete i (ss_asked c)) (ss_clock c)
  | LClean => if expires c then mkSession None None (ss_asked c) (ss_clock c) else c
  | _ => c
  end.

Definition session_start (msgs : option (list (option eino_message))) (now : Z) : session_state := mkSession msgs None ∅ now.

(** The process as the session sees it. *)
Record sees (sid : string) (p : proc) (c : session_state) : Prop := mkSees {
  se_msgs : sessions (p_mgr p) !! sid = ss_msgs c;
  se_used : lastAccess (p_mgr p) !! sid = ss_used c;
  se_asked : forall i q, ss_asked c !! i = Some q <-> p_flying p !! i = Some (sid, q);
  se_clock : p_clock p = ss_clock c }.

Lemma sees_accept sid p c i sid' q : sees sid p c -> p_flying p !! i = None ->
  sees sid (set_flying (<[i := (sid', q)]> (p_flying p)) (set_mgr (SnapshotWith (p_mgr p) (p_clock p) sid' [q]).1 p))
    (session_step sid c (LAccept i sid' q)).
Proof.
  intros [H1 H2 H3 H4] Hi. cbn [session_step]. destruct (decide (sid' = sid)) as [->|Hn]; split; cbn; try done.
  - by rewrite lookup_insert_eq, H4.
  - intros j q'. destruct (decide (i = j)) as [<-|Hj]; [rewrite !lookup_insert_eq; naive_solver|]. by rewrite !lookup_insert_ne.
  - by rewrite lookup_insert_ne.
  - intros j q'. destruct (decide (i = j)) as [<-|Hj]; [|by rewrite lookup_insert_ne].
    rewrite lookup_insert_eq, H3, Hi. naive_solver.
Qed.

(** The requests in flight after one of them is gone. *)
Lemma asked_delete sid p c i : (forall j q, ss_asked c !! j = Some q <-> p_flying p !! j = Some (sid, q)) ->
  forall j q, delete i (ss_asked c) !! j = Some q <-> delete i (p_flying p) !! j = Some (sid, q).
Proof. intros H j q. rewrite !lookup_delete_Some. by rewrite H. Qed.

Lemma sees_finish sid p c i a sid' q : sees sid p c -> p_flying p !! i = Some (sid', q) ->
  sees sid (set_flying (delete i (p_flying p)) (set_mgr (Append (p_mgr p) (p_clock p) sid' [q; a]) p)) (session_step sid c (LFinish i a)).
Proof.
  intros [H1 H2 H3 H4] Hi. cbn [session_step]. destruct (decide (sid' = sid)) as [->|Hn].
  - rewrite (proj2 (H3 i q) Hi). split; cbn.
    + unfold msgs_of. by rewrite lookup_insert_eq, H1.
    + by rewrite lookup_insert_eq, H4.
    + by apply asked_delete.
    + done.
  - assert (ss_asked c !! i = None) as Ha by (apply eq_None_not_Some; intros [q' Hq%H3]; congruence). rewrite Ha. split; cbn.
    + by rewrite lookup_insert_ne.
    + by rewrite lookup_insert_ne.
    + intros j q'. rewrite <- (delete_id (ss_asked c) i Ha). by apply asked_delete.
    + done.
Qed.

Lemma sees_clean sid p c : sees sid p c -> sees sid (set_mgr (Cleanup (p_mgr p) (p_clock p) maxAge).1 p) (session_step sid c LClean).
Proof.
  intros [H1 H2 H3 H4]. cbn [session_step]. unfold expires. rewrite <- H2, <- H4.
  assert (filter (expired (p_clock p) maxAge) (lastAccess (p_mgr p)) !! sid
    = if expires c then lastAccess (p_mgr p) !! sid else None) as Hf.
  { rewrite map_lookup_filter. unfold expires. rewrite <- H2, <- H4. destruct (lastAccess (p_mgr p) !! sid) as [t|]; [|done]. cbn.
    unfold expired. case_bool_decide; case_guard; try done; cbn in *; lia. }
  unfold expires in Hf. rewrite <- H2, <- H4 in Hf.
  destruct (lastAccess (p_mgr p) !! sid) as [t|] eqn:Et; [case_bool_decide|]; split; cbn;
    rewrite ?lookup_difference, ?lookup_fmap, ?Hf; cbn; try done; by rewrite Et.
Qed.

Lemma step_sees sid p l p' c : proc_step p l = Some p' -> sees sid p c -> sees sid p' (session_step sid c l).
Proof.
  intros Hs Hc. destruct l as [d|i sid' q|i a|i| | |ok broken| |].
  - step_cases Hs. destruct Hc as [H1 H2 H3 H4]. split; cbn; [done..|]. by rewrite H4.
  - unfold proc_step in Hs. case_bool_decide; [done|]. destruct (_ || _) eqn:Eb; [done|]. injection Hs as <-.
    apply sees_accept; [done|]. apply orb_false_elim in Eb as [_ Eb]. apply eq_None_not_Some. by apply bool_decide_eq_false in Eb.
  - unfold proc_step in Hs. case_bool_decide; [done|]. destruct (p_flying p !! i) as [[sid' q]|] eqn:Ef; [|done].
    injection Hs as <-. by apply sees_finish.
  - step_cases Hs. destruct Hc as [H1 H2 H3 H4]. split; cbn; [done..| |done]. by apply asked_delete.
  - unfold proc_step in Hs. case_bool_decide; [done|]. injection Hs as <-. by apply sees_clean.
  - step_cases Hs. by destruct Hc.
  - cbn [session_step]. destruct Hc. step_cases Hs; done.
  - step_cases Hs. by destruct Hc.
  - step_cases Hs. by destruct Hc.
Qed.

Lemma run_sees sid ls p p' c : proc_run p ls = Some p' -> sees sid p c -> sees sid p' (foldl (session_step sid) c ls).
Proof.
  revert p c. induction ls as [|l ls IH]; intros p c; cbn [proc_run foldl]; [by intros [= ->]|].
  destruct (proc_step p l) as [p1|] eqn:E; [|done]. intros Hr Hc. by eapply IH, step_sees.
Qed.

Lemma loaded_unused num m file : lastAccess (LoadHistory num m file) = lastAccess m.
Proof. destruct file as [b|]; [|done]. cbn. unfold Load. by destruct (Session.Unmarshal _ _). Qed.

Lemma boot_sees num file t0 sid : sees sid (boot num file t0) (session_start (sessions (p_mgr (boot num file t0)) !! sid) t0).
Proof. split; cbn [boot p_mgr session_start ss_msgs ss_used ss_asked ss_clock p_flying p_clock]; [done|by rewrite loaded_unused|done|done]. Qed.

(** No clean-up of the run finds the session expired. *)
Fixpoint stays (sid : string) (c : session_state) (ls : list label) : Prop :=
  match ls with [] => True | l :: ls' => (l = LClean -> expires c = false) /\ stays sid (session_step sid c l) ls' end.

Lemma stays_turns sid ls p p' c : proc_run p ls = Some p' -> sees sid p c -> stays sid c ls ->
  default [] (ss_msgs (foldl (session_step sid) c ls)) = default [] (ss_msgs c) ++ flat (completed sid p ls).
Proof.
  revert p c. induction ls as [|l ls IH]; intros p c; cbn [proc_run foldl completed stays].
  - intros _ _ _. unfold flat. cbn. by rewrite app_nil_r.
  - destruct (proc_step p l) as [p1|] eqn:E; [|done]. intros Hr Hc [Hl Hst]. rewrite flat_app.
    rewrite (IH p1 _ Hr (step_sees _ _ _ _ _ E Hc) Hst), app_assoc. f_equal.
    destruct l as [d|i sid' q|i a|i| | |ok broken| |]; cbn [session_step completes]; try by rewrite app_nil_r.
    + destruct (decide (sid' = sid)); by rewrite app_nil_r.
    + destruct Hc as [_ _ H3 _]. destruct (ss_asked c !! i) as [q|] eqn:Ea.
      * apply H3 in Ea. rewrite Ea. by rewrite decide_True.
      * destruct (p_flying p !! i) as [[sid' q]|] eqn:Ef; [|by rewrite app_nil_r].
        rewrite decide_False; [by rewrite app_nil_r|]. intros ->. apply H3 in Ef. congruence.
    + rewrite Hl by done. by rewrite app_nil_r.
Qed.

(** C9: Concurrent requests do not mix: whatever the interleaving of handlers,
    clean-up and shutdown, each session's conversation and the time of its last
    use are exactly those of that session alone. Its machine starts with the
    conversation that was loaded, appends the question and the answer of each
    of its own requests that completes, in the order of completion, notes its
    own uses, and is emptied by a clean-up that finds it unused for more than
    thirty minutes; steps of other sessions do not touch it. So as long as no
    clean-up finds it expired, it is the loaded conversation followed by all
    its completed turns. *)
Theorem conversations_of_turns num file t0 ls p : proc_run (boot num file t0) ls = Some p ->
  forall sid, let start := session_start (sessions (p_mgr (boot num file t0)) !! sid) t0 in
    sessions (p_mgr p) !! sid = ss_msgs (foldl (session_step sid) start ls)
    /\ lastAccess (p_mgr p) !! sid = ss_used (foldl (session_step sid) start ls)
    /\ (stays sid start ls ->
         msgs_of (p_mgr p) sid = msgs_of (p_mgr (boot num file t0)) sid ++ flat (completed sid (boot num file t0) ls)).
Proof.
  intros Hr sid start. pose proof (run_sees sid ls _ _ start Hr (boot_sees num file t0 sid)) as [H1 H2 _ _].
  split_and!; [done..|]. intros Hst. unfold msgs_of. rewrite H1. by apply (stays_turns sid ls _ p start Hr (boot_sees num file t0 sid)).
Qed.

(** The file is what it was until the save. *)
Lemma step_before_save p l p' : proc_step p l = Some p' -> past_save (p_pc p') = false -> p_file p' = p_file p /\ past_save (p_pc p) = false.
Proof. intros H Hp. destruct l; step_cases H; try done; match goal with E : p_pc p = _ |- _ => by rewrite E end. Qed.

Lemma run_before_save p ls p' : proc_run p ls = Some p' -> past_save (p_pc p') = false -> p_file p' = p_file p /\ past_save (p_pc p) = false.
Proof.
  revert p. induction ls as [|l ls IH]; intros p; cbn [proc_run]; [by intros [= ->]|].
  destruct (proc_step p l) as [p1|] eqn:E; [|done]. intros H Hp. destruct (IH _ H Hp) as [-> Hp1]. by apply (step_before_save _ _ _ E).
Qed.

Lemma nil_message_panics (m : Manager) sid msgs : sessions m !! sid = Some msgs -> None ∈ msgs -> Save history_enc m = SavePanic.
Proof.
  intros Hm Hnil. unfold Save. rewrite (proj2 (Nat.eqb_neq _ _)) by (apply map_size_ne_0_lookup; by exists sid, msgs).
  unfold Session.Marshal. rewrite bool_decide_eq_false_2; [done|]. intros Hf.
  specialize (Hf sid (mapM toHistoryMsg msgs)). unfold to_dto in Hf. rewrite lookup_fmap, Hm in Hf. specialize (Hf eq_refl).
  apply mapM_is_Some in Hf. rewrite Forall_forall in Hf. by destruct (Hf None Hnil) as [? [=]].
Qed.

(** C8: What a restart finds, whatever the interleaving of handlers, clean-up
    and shutdown before. If at the save there are sessions,
    their texts are valid UTF-8, no message is nil and the file can be written,
    the next process starts with exactly the conversations at the save, among
    them every turn recorded no more than thirty minutes earlier. If there is
    no session nothing is written, and the next process starts with those of
    the old file. If a message is nil the save panics: the process ends there
    and the old file stays. *)
Theorem recorded_turn_survives num file0 t0 ls1 p1 ok broken p2 ls2 p' now :
  proc_run (boot num file0 t0) ls1 = Some p1 -> proc_step p1 (LSave ok broken) = Some p2 -> proc_run p2 ls2 = Some p' ->
  (ok = true -> sessions (p_mgr p1) <> ∅ ->
   map_Forall (fun sid msgs => utf8b sid = true /\ forallb eino_ok msgs = true) (sessions (p_mgr p1)) ->
     sessions (p_mgr (boot num (p_file p') now)) = sessions (p_mgr p1)
     /\ forall before i a after p sid q, ls1 = before ++ LFinish i a :: after ->
          proc_run (boot num file0 t0) before = Some p -> p_flying p !! i = Some (sid, q) -> (p_clock p1 <= p_clock p + maxAge)%Z ->
          exists l1 l2, sessions (p_mgr (boot num (p_file p') now)) !! sid = Some (l1 ++ [q; a] ++ l2))
  /\ (sessions (p_mgr p1) = ∅ -> p_file p' = file0)
  /\ ((exists sid msgs, sessions (p_mgr p1) !! sid = Some msgs /\ None ∈ msgs) -> p_pc p2 = Exited /\ p_file p' = file0).
Proof.
  intros Hr1 Hs Hr2.
  assert (p_pc p1 = Signalled /\ past_save (p_pc p2) = true
    /\ (Save history_enc (p_mgr p1) = SaveNothing -> p_file p2 = p_file p1)
    /\ (Save history_enc (p_mgr p1) = SavePanic -> p_pc p2 = Exited /\ p_file p2 = p_file p1)) as (Hpc & Hp2 & Hempty & Hpanic).
  { unfold proc_step in Hs. case_bool_decide; [done|]. case_bool_decide; [|done]. unfold SaveHistory in Hs.
    destruct (Save history_enc (p_mgr p1)); injection Hs as <-; done. }
  destruct (run_before_save _ _ _ Hr1) as [Hf1 _]; [by rewrite Hpc|]. cbn [boot p_file] in Hf1.
  pose proof (run_past_save _ _ _ Hr2 Hp2) as Hf2. split_and!.
  - intros -> Hne Hok. pose proof (restart_sessions num p1 p2 p' broken ls2 now Hs Hr2 Hne Hok) as Hres. split; [done|].
    intros before i a after p sid q -> Hb Hi Hc. rewrite run_app, Hb in Hr1. cbn [proc_run mbind option_bind] in Hr1.
    destruct (proc_step p (LFinish i a)) as [pf|] eqn:Ef; [|done]. cbn [mbind option_bind] in Hr1.
    pose proof (finish_kept _ _ _ _ _ _ Ef Hi) as Hk. pose proof (step_clock _ _ _ Ef).
    destruct (run_kept _ _ _ _ _ _ _ Hr1 H Hc Hk) as [(l1 & l2 & Ht) _]. exists l1, l2. by rewrite Hres.
  - intros He. rewrite Hf2, <- Hf1. apply Hempty. unfold Save. by rewrite He, map_size_empty.
  - intros (sid & msgs & Hm & Hnil). rewrite Hf2, <- Hf1. apply Hpanic. by eapply nil_message_panics.
Qed.

(** ** Witness *)

Definition user (s : string) : option eino_message := Some (mkEino "user" s "" [] "" "" []).
Definition assistant (s : string) : option eino_message := Some (mkEino Assistant s "" [] "" "" []).
Definition one_turn : list label := [LAccept 0 "s" (user "hi"); LTick Second; LFinish 0 (assistant "yo")].
Definition after_turn : proc := default (boot Some None 0) (proc_run (boot Some None 0) (one_turn ++ [LTick Minute; LClean; LSignal])).
Definition after_save : proc := default after_turn (proc_step after_turn (LSave true None)).
Definition after_exit : proc := default after_save (proc_run after_save [LShutdown; LExit]).

Lemma recorded_turn_survives_witness :
  exists l1 l2, sessions (p_mgr (boot Some (p_file after_exit) 0)) !! "s" = Some (l1 ++ [user "hi"; assistant "yo"] ++ l2).
Proof.
  refine (proj2 (proj1 (recorded_turn_survives Some None 0 (one_turn ++ [LTick Minute; LClean; LSignal]) after_turn true None after_save
    [LShutdown; LExit] after_exit 0 _ _ _) eq_refl _ _) [LAccept 0 "s" (user "hi"); LTick Second] 0 (assistant "yo")
    [LTick Minute; LClean; LSignal]
    (default (boot Some None 0) (proc_run (boot Some None 0) [LAccept 0 "s" (user "hi"); LTick Second])) "s" (user "hi") _ _ _ _).
  - vm_compute. reflexivity.
  - vm_compute. reflexivity.
  - vm_compute. reflexivity.
  - intros E. apply (f_equal (fun m => m !! "s")) in E. vm_compute in E. discriminate E.
  - apply (bool_decide_unpack _). vm_compute. exact I.
  - reflexivity.
  - vm_compute. reflexivity.
  - vm_compute. reflexivity.
  - vm_compute. discriminate.
Defined.

(** The history is saved before the server stops taking requests: a turn that
    completes in between is answered to the client and not in the file. *)
Example turn_after_save_lost :
  match proc_run (boot Some None 0)
      (one_turn ++ [LSignal; LSave true None; LAccept 1 "s" (user "more"); LFinish 1 (assistant "sure"); LShutdown; LExit]) with
  | Some p => p_pc p = Exited
      /\ sessions (p_mgr p) !! "s" = Some [user "hi"; assistant "yo"; user "more"; assistant "sure"]
      /\ sessions (p_mgr (boot Some (p_file p) 0)) !! "s" = Some [user "hi"; assistant "yo"]
  | None => False
  end.
Proof. vm_compute. auto. Qed.

(** When clean-up has removed every session, nothing is written: the file of
    the process before stays, and the next process has the old sessions again. *)
Example expired_session_returns :
  match proc_run (boot Some (p_file after_exit) 0)
      [LAccept 0 "s" (user "again"); LFail 0; LTick (31 * Minute); LClean; LSignal; LSave true None; LShutdown; LExit] with
  | Some p => sessions (p_mgr p) = ∅
      /\ sessions (p_mgr (boot Some (p_file p) 0)) !! "s" = Some [user "hi"; assistant "yo"]
  | None => False
  end.
Proof. vm_compute. auto. Qed.

(** Two requests of one session, the second answered first. *)
Definition two_requests : list label :=
  [LAccept 0 "s" (user "one"); LAccept 1 "s" (user "two"); LFinish 1 (assistant "b"); LFinish 0 (assistant "a")].
Definition after_two : proc := default (boot Some None 0) (proc_run (boot Some None 0) two_requests).

Lemma conversations_of_turns_witness :
  sessions (p_mgr after_two) !! "s" = Some [user "two"; assistant "b"; user "one"; assistant "a"]
  /\ lastAccess (p_mgr after_two) !! "t" = None.
Proof.
  assert (proc_run (boot Some None 0) two_requests = Some after_two) as Hr by (vm_compute; reflexivity). split.
  - rewrite (proj1 (conversations_of_turns Some None 0 two_requests after_two Hr "s")). vm_compute. reflexivity.
  - rewrite (proj1 (proj2 (conversations_of_turns Some None 0 two_requests after_two Hr "t"))). vm_compute. reflexivity.
Defined.
