(* ===== verification/Markup.v ===== *)
(** * Text as HTML

    The function [marked] of [frontend/index.html], which turns the text of an
    answer into the HTML that the page inserts: three characters are escaped,
    then code blocks, code, bold text and line breaks become tags. Whatever the
    answer says, no other markup reaches the page. *)
From stdpp Require Import base tactics list sets strings.
From Stdlib Require Import Lia.
From S2P Require Import Prelude GoStrings GoRegex.

(** ** [String.prototype.replace] with a global pattern *)

(** [f] is the pattern at the head of a text: the replacement of the match and
    the text after it. The text after a match is shorter, so that the length of
    the text is enough fuel. *)
Fixpoint replace_from (f : string -> option (string * string)) (fuel : nat) (s : string) : string :=
  match fuel, s with
  | S fuel', String c s' =>
      match f s with
      | Some (out, rest) => out +:+ replace_from f fuel' rest
      | None => String c (replace_from f fuel' s')
      end
  | _, _ => ""
  end.
Definition replace (f : string -> option (string * string)) (s : string) : string := replace_from f (String.length s) s.

(** ** The patterns *)

Definition backquote : ascii := "`".
Definition star : ascii := "*".
Definition fence_mark : string := "```".

(** [/&/g], [/</g], [/>/g] *)
Definition char_pattern (c : ascii) (out : string) (s : string) : option (string * string) :=
  match s with String d r => if Ascii.eqb d c then Some (out, r) else None | EmptyString => None end.

Fixpoint skip_word (s : string) : string :=
  match s with String c r => if is_word c then skip_word r else s | EmptyString => "" end.

(** Three backquotes, [\w*], a line break, the shortest text before the next
    three backquotes. *)
Definition fence_pattern (s : string) : option (string * string) :=
  if HasPrefix s fence_mark then
    match skip_word (str_drop 3 s) with
    | String c body =>
        if Ascii.eqb c LF then
          let '(code, rest, ok) := Cut body fence_mark in
          if ok then Some ("<pre><code>" +:+ code +:+ "</code></pre>", rest) else None
        else None
    | EmptyString => None
    end
  else None.

(** A backquote, other characters, a backquote. *)
Definition code_pattern (s : string) : option (string * string) :=
  match s with
  | String c r =>
      if Ascii.eqb c backquote then
        let '(code, rest, ok) := Cut r (String backquote "") in
        if ok && (code <>s "") then Some ("<code>" +:+ code +:+ "</code>", rest) else None
      else None
  | EmptyString => None
  end.

(** The dot does not match the line terminators: line feed, carriage return and
    the separators U+2028 and U+2029. *)
Definition line_end (s : string) : bool :=
  HasPrefix s nl || HasPrefix s (String CR "")
  || HasPrefix s (String (byte 226) (String (byte 128) (String (byte 168) "")))
  || HasPrefix s (String (byte 226) (String (byte 128) (String (byte 169) ""))).

(** [.+?] up to the next two stars. *)
Fixpoint bold_body (s : string) : option (string * string) :=
  match s with
  | EmptyString => None
  | String c r =>
      if line_end s then None
      else if HasPrefix r "**" then Some (String c "", str_drop 2 r)
      else match bold_body r with Some (t, rest) => Some (String c t, rest) | None => None end
  end.

Definition bold_pattern (s : string) : option (string * string) :=
  if HasPrefix s "**" then
    match bold_body (str_drop 2 s) with Some (t, rest) => Some ("<b>" +:+ t +:+ "</b>", rest) | None => None end
  else None.

Definition marked (text : string) : string :=
  let text := replace (char_pattern "&" "&amp;") text in
  let text := replace (char_pattern "<" "&lt;") text in
  let text := replace (char_pattern ">" "&gt;") text in
  let text := replace fence_pattern text in
  let text := replace code_pattern text in
  let text := replace bold_pattern text in
  replace (char_pattern LF "<br>") text.

Example marked_ex : marked ("a < b" +:+ nl +:+ "```go" +:+ nl +:+ "x := `1`" +:+ nl +:+ "``` **y** `z`")
  = "a &lt; b<br><pre><code>x := <code>1</code><br></code></pre> <b>y</b> <code>z</code>".
Proof. vm_compute. reflexivity. Qed.

(** * Properties *)

(** ** Safe HTML *)

Definition tags : list string := ["<pre><code>"; "</code></pre>"; "<code>"; "</code>"; "<b>"; "</b>"; "<br>"].

(** Characters other than the angle brackets, and the seven tags. *)
Inductive html : string -> Prop :=
| html_nil : html ""
| html_char c s : c <> "<"%char -> c <> ">"%char -> html s -> html (String c s)
| html_tag t s : t ∈ tags -> html s -> html (t +:+ s).
#[local] Hint Constructors html : core.

Lemma html_app a b : html a -> html b -> html (a +:+ b).
Proof. induction 1 as [|c s H1 H2 _ IH|t s Ht _ IH]; intros Hb; [done|cbn [String.append]; auto|rewrite str_app_assoc; auto]. Qed.

Lemma html_wrap a b s : a ∈ tags -> b ∈ tags -> html s -> html (a +:+ s +:+ b).
Proof. intros Ha Hb Hs. apply html_tag; [done|]. apply html_app; [done|]. rewrite <- (str_app_nil_r b). auto. Qed.

(** A character of which no tag contains a copy. *)
Definition outside (d : ascii) : Prop := d <> "<"%char /\ d <> ">"%char /\ Forall (fun t => absent d t = true) tags.

Lemma absent_at d a b t : t = a +:+ String d b -> absent d t = false.
Proof.
  intros ->. induction a as [|c a IH]; cbn [String.append absent]; [by rewrite Ascii.eqb_refl|]. rewrite IH. apply andb_false_r.
Qed.

(** Where two concatenations are equal, one begins the other. *)
Lemma app_eq_cases t s a b : t +:+ s = a +:+ b -> (exists k, a = t +:+ k /\ s = k +:+ b) \/ (exists c k, t = a +:+ String c k /\ b = String c k +:+ s).
Proof.
  revert a. induction t as [|c t IH]; intros a E; [left; by exists a|]. destruct a as [|d a].
  - right. exists c, t. done.
  - cbn [String.append] in E. injection E as -> E. destruct (IH a E) as [(k & -> & ->)|(e & k & -> & ->)]; [left|right]; eauto.
Qed.

(** Safe HTML can be cut at such a character. *)
Lemma html_cut d a b : outside d -> html (a +:+ String d b) -> html a /\ html b.
Proof.
  intros (H1 & H2 & Ho) H. remember (a +:+ String d b) as s eqn:E. revert a E.
  induction H as [|c s Hc1 Hc2 Hs IH|t s Ht Hs IH]; intros a E.
  - by destruct a.
  - destruct a as [|e a]; cbn [String.append] in E; injection E as -> E; [subst; auto|]. destruct (IH a E); auto.
  - destruct (app_eq_cases t s a _ E) as [(k & -> & ->)|(e & k & -> & [= <- _])].
    + destruct (IH k eq_refl). auto.
    + exfalso. rewrite Forall_forall in Ho. specialize (Ho _ Ht). by rewrite (absent_at d a k _ eq_refl) in Ho.
Qed.

Ltac solve_outside := split; [discriminate|]; split; [discriminate|]; repeat constructor; reflexivity.
Lemma backquote_outside : outside backquote. Proof. solve_outside. Qed.
Lemma star_outside : outside star. Proof. solve_outside. Qed.
Lemma LF_outside : outside LF. Proof. solve_outside. Qed.

(** ** Replacements that keep HTML safe *)

(** A pattern that starts with [d] and turns safe HTML into safe HTML. *)
Record safe_pattern (d : ascii) (f : string -> option (string * string)) : Prop := mkSafe {
  sp_outside : outside d;
  sp_start : forall c s, c <> d -> f (String c s) = None;
  sp_match : forall s out rest, html s -> f s = Some (out, rest) -> html out /\ html rest /\ String.length rest < String.length s }.

Lemma replace_skip d f t n s : (forall c s, c <> d -> f (String c s) = None) -> absent d t = true ->
  replace_from f (String.length t + n) (t +:+ s) = t +:+ replace_from f n s.
Proof.
  intros Hf. induction t as [|c t IH]; [done|]. cbn [absent String.length Nat.add String.append replace_from].
  intros [Hc%negb_true_iff Ht]%andb_prop. rewrite Hf by (intros ->; by rewrite Ascii.eqb_refl in Hc). by rewrite IH.
Qed.

Lemma tags_nonempty t : t ∈ tags -> 0 < String.length t.
Proof. intros Ht. assert (Forall (fun t => 0 < String.length t) tags) as H by (repeat constructor). by rewrite Forall_forall in H; apply H. Qed.

Lemma replace_from_html d f : safe_pattern d f -> forall n s, String.length s <= n -> html s -> html (replace_from f n s).
Proof.
  intros [Ho Hs Hm]. intros n. induction (lt_wf n) as [n _ IH]. intros s Hn Hh. inversion Hh as [|c s' H1 H2 H|t s' Ht H]; subst.
  - destruct n; constructor.
  - destruct n as [|n]; cbn [String.length] in Hn; [lia|]. cbn [replace_from].
    destruct (f (String c s')) as [[out rest]|] eqn:E.
    + destruct (Hm _ _ _ Hh E) as (Hout & Hrest & Hl). cbn [String.length] in Hl. apply html_app; [done|]. apply IH; [lia|lia|done].
    + constructor; [done|done|]. apply IH; [lia|lia|done].
  - pose proof (tags_nonempty t Ht) as Hl. rewrite str_length_app in Hn.
    replace n with (String.length t + (n - String.length t)) by lia.
    destruct Ho as (_ & _ & Ha). rewrite Forall_forall in Ha. rewrite (replace_skip d) by auto.
    constructor; [done|]. apply IH; [lia|lia|done].
Qed.

Lemma replace_html d f s : safe_pattern d f -> html s -> html (replace f s).
Proof. intros Hf Hs. by apply (replace_from_html d f Hf). Qed.

(** Three equal marks in a row. *)
Lemma html_cut_marks d n a b : outside d -> html (a +:+ Nat.iter (S n) (String d) b) -> html a /\ html b.
Proof.
  intros Ho. revert a. induction n as [|n IH]; intros a H; [by apply (html_cut d)|].
  change (Nat.iter (S (S n)) (String d) b) with (String d (Nat.iter (S n) (String d) b)) in H.
  destruct (html_cut d a _ Ho H) as [Ha Hb]. split; [done|]. by destruct (IH "" Hb).
Qed.

Lemma skip_word_spec s : exists w, s = w +:+ skip_word s.
Proof.
  induction s as [|c s [w IH]]; [by exists ""|]. cbn [skip_word]. destruct (is_word c); [|by exists ""].
  exists (String c w). cbn [String.append]. by rewrite <- IH.
Qed.

Lemma prefix_shape s p : HasPrefix s p = true -> exists r, s = p +:+ r /\ str_drop (String.length p) s = r.
Proof. intros H. exists (str_drop (String.length p) s). split; [by apply HasPrefix_spec|done]. Qed.

Lemma prefix_start d p c s : c <> d -> HasPrefix (String c s) (String d p) = false.
Proof. intros H. cbn [HasPrefix]. by rewrite (proj2 (Ascii.eqb_neq d c)) by congruence. Qed.

Lemma fence_safe : safe_pattern backquote fence_pattern.
Proof.
  split; [exact backquote_outside| |].
  - intros c s Hc. unfold fence_pattern, fence_mark. by rewrite (prefix_start backquote) by done.
  - intros s out rest Hs. unfold fence_pattern. destruct (HasPrefix s fence_mark) eqn:Ep; [|done].
    destruct (prefix_shape s fence_mark Ep) as (r & -> & Hr). change (String.length fence_mark) with 3 in Hr. rewrite Hr.
    destruct (html_cut_marks backquote 2 "" r backquote_outside Hs) as [_ Hhr].
    destruct (skip_word_spec r) as [w Hw]. destruct (skip_word r) as [|c body]; [done|].
    destruct (Ascii.eqb_spec c LF) as [->|]; [|done]. rewrite Hw in Hhr. destruct (html_cut LF w body LF_outside Hhr) as [_ Hb].
    destruct (Cut body fence_mark) as [[code tl] []] eqn:Ec; [|done]. intros [= <- <-]. apply Cut_spec in Ec. rewrite Ec in Hb.
    destruct (html_cut_marks backquote 2 code tl backquote_outside Hb) as [Hc Ht].
    split; [apply (html_wrap "<pre><code>" "</code></pre>" code); [set_solver|set_solver|done]|]. split; [done|].
    rewrite str_length_app, Hw, str_length_app, Ec. cbn [String.length]. rewrite !str_length_app. lia.
Qed.

Lemma code_safe : safe_pattern backquote code_pattern.
Proof.
  split; [exact backquote_outside| |].
  - intros c s Hc. unfold code_pattern. by rewrite (proj2 (Ascii.eqb_neq c backquote)).
  - intros s out rest Hs. unfold code_pattern. destruct s as [|c r]; [done|]. destruct (Ascii.eqb_spec c backquote) as [->|]; [|done].
    destruct (html_cut backquote "" r backquote_outside Hs) as [_ Hr].
    destruct (Cut r _) as [[code tl] []] eqn:Ec; [|done]. cbn [andb]. destruct (code <>s ""); [|done]. intros [= <- <-].
    apply Cut_spec in Ec. rewrite Ec in Hr. destruct (html_cut backquote code tl backquote_outside Hr) as [Hc Ht].
    split; [apply (html_wrap "<code>" "</code>" code); [set_solver|set_solver|done]|]. split; [done|].
    rewrite Ec. cbn [String.length]. rewrite !str_length_app. cbn. lia.
Qed.

Lemma bold_body_spec s t rest : bold_body s = Some (t, rest) -> s = t +:+ "**" +:+ rest.
Proof.
  revert t. induction s as [|c s IH]; intros t; [done|]. cbn [bold_body]. destruct (line_end _); [done|].
  destruct (HasPrefix s "**") eqn:Ep.
  - destruct (prefix_shape s "**" Ep) as (r & -> & Hr). intros [= <- <-]. change (str_drop 2 ("**" +:+ r)) with r. done.
  - destruct (bold_body s) as [[t' r']|]; [|done]. intros [= <- <-]. by rewrite (IH t' eq_refl).
Qed.

Lemma bold_safe : safe_pattern star bold_pattern.
Proof.
  split; [exact star_outside| |].
  - intros c s Hc. unfold bold_pattern. by rewrite (prefix_start star) by done.
  - intros s out rest Hs. unfold bold_pattern. destruct (HasPrefix s "**") eqn:Ep; [|done].
    destruct (prefix_shape s "**" Ep) as (r & -> & Hr). change (String.length "**") with 2 in Hr. rewrite Hr.
    destruct (html_cut_marks star 1 "" r star_outside Hs) as [_ Hhr].
    destruct (bold_body r) as [[t tl]|] eqn:Eb; [|done]. intros [= <- <-]. apply bold_body_spec in Eb. rewrite Eb in Hhr.
    destruct (html_cut_marks star 1 t tl star_outside Hhr) as [Ht Htl].
    split; [apply (html_wrap "<b>" "</b>" t); [set_solver|set_solver|done]|]. split; [done|].
    rewrite Eb. rewrite !str_length_app. cbn. lia.
Qed.

Lemma break_safe : safe_pattern LF (char_pattern LF "<br>").
Proof.
  split; [exact LF_outside| |].
  - intros c s Hc. cbn [char_pattern]. by rewrite (proj2 (Ascii.eqb_neq c LF)).
  - intros [|c s] out rest Hs; [done|]. cbn [char_pattern]. destruct (Ascii.eqb_spec c LF) as [->|]; [|done]. intros [= <- <-].
    destruct (html_cut LF "" s LF_outside Hs) as [_ Ht]. split; [apply (html_tag "<br>" ""); [set_solver|constructor]|].
    split; [done|]. cbn. lia.
Qed.

(** ** Escaping *)

(** Replacing single characters is a map over the text. *)
Fixpoint str_map (g : ascii -> string) (s : string) : string :=
  match s with String c r => g c +:+ str_map g r | EmptyString => "" end.

Definition swap_char (c : ascii) (out : string) (d : ascii) : string := if Ascii.eqb d c then out else String d "".

Lemma replace_char c out s : replace (char_pattern c out) s = str_map (swap_char c out) s.
Proof.
  unfold replace. induction s as [|d s IH]; [done|]. cbn [String.length replace_from char_pattern str_map]. unfold swap_char at 1.
  destruct (Ascii.eqb d c); by rewrite IH.
Qed.

Lemma str_map_app g a b : str_map g (a +:+ b) = str_map g a +:+ str_map g b.
Proof. induction a as [|c a IH]; [done|]. cbn [String.append str_map]. by rewrite IH, str_app_assoc. Qed.

Lemma str_map_map f g s : str_map f (str_map g s) = str_map (fun c => str_map f (g c)) s.
Proof. induction s as [|c s IH]; [done|]. cbn [str_map]. by rewrite str_map_app, IH. Qed.

Definition escape_char (c : ascii) : string :=
  if Ascii.eqb c "&" then "&amp;" else if Ascii.eqb c "<" then "&lt;" else if Ascii.eqb c ">" then "&gt;" else String c "".
Definition escape (s : string) : string := str_map escape_char s.

Lemma str_map_ext f g s : (forall c, f c = g c) -> str_map f s = str_map g s.
Proof. intros H. induction s as [|c s IH]; [done|]. cbn [str_map]. by rewrite H, IH. Qed.

Lemma escape_passes s :
  replace (char_pattern ">" "&gt;") (replace (char_pattern "<" "&lt;") (replace (char_pattern "&" "&amp;") s)) = escape s.
Proof.
  rewrite !replace_char, !str_map_map. apply str_map_ext. intros c. unfold escape_char, swap_char.
  destruct (Ascii.eqb_spec c "&") as [->|H1]; [reflexivity|]. cbn [str_map].
  destruct (Ascii.eqb_spec c "<") as [->|H2]; [reflexivity|]. cbn [str_map String.append].
  destruct (Ascii.eqb c ">"); reflexivity.
Qed.

Lemma escape_html s : html (escape s).
Proof.
  induction s as [|c s IH]; [constructor|]. unfold escape in *. cbn [str_map]. apply html_app; [|done]. unfold escape_char.
  destruct (Ascii.eqb_spec c "&"); [by repeat constructor|]. destruct (Ascii.eqb_spec c "<"); [by repeat constructor|].
  destruct (Ascii.eqb_spec c ">"); [by repeat constructor|]. by repeat constructor.
Qed.

(** ** Text without marks *)

(** What a reader sees of characters, entities and line breaks. *)
Fixpoint shown_go (fuel : nat) (s : string) : string :=
  match fuel, s with
  | S fuel', String c r =>
      if HasPrefix s "<br>" then String LF (shown_go fuel' (str_drop 4 s))
      else if HasPrefix s "&amp;" then String "&" (shown_go fuel' (str_drop 5 s))
      else if HasPrefix s "&lt;" then String "<" (shown_go fuel' (str_drop 4 s))
      else if HasPrefix s "&gt;" then String ">" (shown_go fuel' (str_drop 4 s))
      else String c (shown_go fuel' r)
  | _, _ => ""
  end.
Definition shown (s : string) : string := shown_go (String.length s) s.

Lemma replace_from_id d f n s : (forall c s, c <> d -> f (String c s) = None) -> absent d s = true -> String.length s <= n ->
  replace_from f n s = s.
Proof.
  intros Hf Ha Hn. pose proof (replace_skip d f s (n - String.length s) "" Hf Ha) as H.
  rewrite str_app_nil_r in H. replace (String.length s + (n - String.length s)) with n in H by lia. rewrite H.
  destruct (n - String.length s); apply str_app_nil_r.
Qed.

Lemma replace_id d f s : safe_pattern d f -> absent d s = true -> replace f s = s.
Proof. intros [_ Hf _] Ha. by apply (replace_from_id d). Qed.

Lemma escape_absent d s : d = backquote \/ d = star -> absent d s = true -> absent d (escape s) = true.
Proof.
  intros Hd. unfold escape. induction s as [|c s IH]; [done|]. cbn [absent str_map]. intros [Hc Hs]%andb_prop.
  rewrite absent_app, (IH Hs), andb_true_r. unfold escape_char.
  destruct (Ascii.eqb c "&"); [by destruct Hd as [-> | ->]|]. destruct (Ascii.eqb c "<"); [by destruct Hd as [-> | ->]|].
  destruct (Ascii.eqb c ">"); [by destruct Hd as [-> | ->]|]. cbn [absent]. by rewrite Hc.
Qed.

Definition plain_char (c : ascii) : string := str_map (swap_char LF "<br>") (escape_char c).

Lemma plain_char_cases c : (c = "&"%char /\ plain_char c = "&amp;") \/ (c = "<"%char /\ plain_char c = "&lt;")
  \/ (c = ">"%char /\ plain_char c = "&gt;") \/ (c = LF /\ plain_char c = "<br>")
  \/ (c <> "&"%char /\ c <> "<"%char /\ plain_char c = String c "").
Proof.
  unfold plain_char, escape_char. destruct (Ascii.eqb_spec c "&"); [by auto|]. destruct (Ascii.eqb_spec c "<"); [by auto|].
  destruct (Ascii.eqb_spec c ">"); [by auto 6|]. cbn [str_map]. unfold swap_char. destruct (Ascii.eqb_spec c LF); [by auto 6|].
  do 4 right. split_and!; [done..|apply str_app_nil_r].
Qed.

Lemma shown_plain_go s n : String.length (str_map plain_char s) <= n -> shown_go n (str_map plain_char s) = s.
Proof.
  revert n. induction s as [|c s IH]; intros n Hn; [by destruct n|]. cbn [str_map] in *. rewrite str_length_app in Hn.
  destruct (plain_char_cases c) as [[-> E]|[[-> E]|[[-> E]|[[-> E]|(H1 & H2 & E)]]]]; rewrite E in *; cbn [String.length] in Hn;
    (destruct n as [|n]; [lia|]); set (r := str_map plain_char s) in *;
    [match goal with |- _ = String ?c s =>
       transitivity (String c (shown_go n r)); [destruct r; reflexivity|f_equal; apply IH; lia] end..|].
  cbn [shown_go String.append].
  rewrite !(prefix_start "&"), (prefix_start "<") by done. f_equal. apply IH. lia.
Qed.

(** C17: Whatever an answer says, the HTML that the page inserts is made of
    characters and the seven tags of [marked]; and an answer without backquotes
    and stars is shown character by character, line breaks and the escaped
    characters included. *)
Theorem marked_safe s :
  html (marked s) /\ (absent backquote s = true -> absent star s = true -> shown (marked s) = s).
Proof.
  unfold marked. cbv zeta. rewrite escape_passes. split.
  - apply (replace_html LF); [exact break_safe|]. apply (replace_html star); [exact bold_safe|].
    apply (replace_html backquote); [exact code_safe|]. apply (replace_html backquote); [exact fence_safe|]. apply escape_html.
  - intros Hb Hs. assert (absent backquote (escape s) = true) as Hb' by (apply escape_absent; auto).
    assert (absent star (escape s) = true) as Hs' by (apply escape_absent; auto).
    rewrite (replace_id backquote fence_pattern), (replace_id backquote code_pattern), (replace_id star bold_pattern)
      by auto using fence_safe, code_safe, bold_safe.
    rewrite replace_char. unfold escape. rewrite str_map_map. by apply shown_plain_go.
Qed.

Lemma marked_safe_witness : html (marked "<script>x</script>") /\ shown (marked ("a<b & c>d" +:+ nl +:+ "e")) = "a<b & c>d" +:+ nl +:+ "e".
Proof.
  split; [exact (proj1 (marked_safe "<script>x</script>"))|].
  exact (proj2 (marked_safe ("a<b & c>d" +:+ nl +:+ "e")) eq_refl eq_refl).
Defined.
