(* ===== verification/Frontend.v ===== *)
(** * What the browser shows

    The bytes that the streaming handler of [internal/server/server.go] writes,
    and the reader of [frontend/index.html]: reads of any size are appended to a
    buffer, complete events are cut off at blank lines, and the contents of the
    events are joined. With the rest of the development, the text in the
    browser is traced back to the bytes of the vendor. *)
From stdpp Require Import base tactics list gmap strings pretty.
From Stdlib Require Import ZArith NArith Lia.
From S2P Require Import Prelude GoStrings GoRegex Types Think Breaker Retry Vendor RateLimit Telemetry Stats Hooks OpenAI Stream Client Bridge Wire Tools Session Agent React FileOps Server System.
From S2P Require Import GoJSONText GoJSONStruct.

(** ** The handler's bytes *)

(** [json.Marshal(map[string]any{"content": ..., "tool_calls": toolCallIDs})];
    without calls the slice is nil. *)
Definition chunk_tree (content : string) (ids : list string) : any :=
  AObj [("content", AStr content); ("tool_calls", match ids with [] => ANull | _ => AArr (map AStr ids) end)].

Definition named (key json : string) : string := "{" +:+ dq +:+ key +:+ dq +:+ ":" +:+ json +:+ "}".

(** The data of an event; [quote] is the verb [%q]. *)
Definition sse_payload (quote : string -> string) (e : sse_event) : string :=
  match e with
  | SseError err => named "error" (quote err)
  | SseChunk c ids => Marshal (chunk_tree c ids)
  | SseContent c => Marshal (AObj [("content", AStr c)])
  | SseStats json => named "stats" json
  | SseRawStats json => json
  | SseDone => "[DONE]"
  end.

Definition sse_bytes (quote : string -> string) (e : sse_event) : string := "data: " +:+ sse_payload quote e +:+ nl +:+ nl.

(** ** The page's reader *)

(** [buffer.split('\n\n')] *)
Definition push (c : ascii) (l : list string) : list string :=
  match l with [] => [String c ""] | x :: l' => String c x :: l' end.
Fixpoint split_blank (s : string) : list string :=
  match s with
  | EmptyString => [""]
  | String c s' =>
      match s' with
      | String d r => if Ascii.eqb c LF && Ascii.eqb d LF then "" :: split_blank r else push c (split_blank s')
      | EmptyString => [String c ""]
      end
  end.

(** What the bubble of the answer shows: nothing, the rendered text, an error or
    the notice for an empty answer; statistics are appended to it. *)
Inductive bubble := BBlank | BAnswer (full : string) | BError (e : string) | BNoReply.

Definition nonempty (v : option any) : option string :=
  match as_string v with Some s => if s <>s "" then Some s else None | None => None end.

(** The body of the [try]; data that does not parse is skipped. The server only
    sends strings as contents and errors and objects as statistics. *)
Definition page_data (st : string * bubble) (data : string) : string * bubble :=
  match Unmarshal Some data with
  | Some (AObj m) =>
      match nonempty (map_get "content" m), map_get "stats" m, nonempty (map_get "error" m) with
      | Some c, _, _ => (st.1 +:+ c, BAnswer (st.1 +:+ c))
      | None, Some (AObj _), _ => st
      | None, _, Some e => (st.1, BError e)
      | None, _, None => st
      end
  | _ => st
  end.

(** The loop over the lines of a part, left at [[DONE]]. *)
Fixpoint page_lines (st : string * bubble) (lines : list string) : string * bubble :=
  match lines with
  | [] => st
  | line :: rest =>
      if HasPrefix line "data: " then
        let data := str_drop 6 line in
        if data =s "[DONE]" then st else page_lines (page_data st data) rest
      else page_lines st rest
  end.

(** The state is the buffer, the text so far and the bubble; a read brings more
    bytes. *)
Definition page_part (st : string * bubble) (part : string) : string * bubble := page_lines st (split_byte LF part).
Definition page_read (b : string * (string * bubble)) (value : string) : string * (string * bubble) :=
  let parts := split_blank (b.1 +:+ value) in (List.last parts "", foldl page_part b.2 (removelast parts)).

Definition page (reads : list string) : bubble :=
  let '(_, (full, shown)) := foldl page_read ("", ("", BBlank)) reads in if full =s "" then BNoReply else shown.

(** ** The page's reader for an image *)

(** A line of the answer to an image; [false] leaves the loop over the lines. The
    text grows before the exception that [bubble] throws is caught. *)
Definition image_data (st : string * string) (data : string) : (string * string) * bool :=
  match Unmarshal Some data with
  | Some (AObj m) =>
      match nonempty (map_get "error" m), nonempty (map_get "content" m) with
      | Some e, _ => ((st.1, "错误: " +:+ e), false)
      | None, Some c => ((st.1 +:+ c, st.2), true)
      | None, None => (st, true)
      end
  | _ => (st, true)
  end.

Fixpoint image_lines (st : string * string) (lines : list string) : string * string :=
  match lines with
  | [] => st
  | line :: rest =>
      if HasPrefix line "data: " then let '(st', go) := image_data st (str_drop 6 line) in if go then image_lines st' rest else st'
      else image_lines st rest
  end.

Definition image_read (b : string * (string * string)) (value : string) : string * (string * string) :=
  let parts := split_blank (b.1 +:+ value) in
  (List.last parts "", foldl (fun st part => image_lines st (split_byte LF part)) b.2 (removelast parts)).

(** The name [bubble] is declared in the other branch only: using it throws. *)
Definition bubble_name : string + unit := inl "bubble is not defined".

(** The text received, and the message that is left on the page; [None] when
    nothing was thrown. *)
Definition image_page (status : Z) (reads : list string) : string * option string :=
  if negb ((200 <=? status) && (status <=? 299))%Z then ("", Some ("请求失败: HTTP " +:+ pretty status))
  else
    let '(_, (full, _)) := foldl image_read ("", ("", "分析图片中...")) reads in
    (full, match (if full =s "" then bubble_name else bubble_name) with inl e => Some ("请求失败: " +:+ e) | inr _ => None end).

(** * Properties *)

(** ** Reads of any size *)

Lemma split_blank_nonempty s : split_blank s <> [].
Proof.
  destruct s as [|c [|d r]]; [done|done|]. cbn [split_blank]. destruct (Ascii.eqb c LF && Ascii.eqb d LF); [done|].
  by destruct (match r with EmptyString => _ | _ => _ end).
Qed.

Lemma split_blank_single s x : split_blank s = [x] -> x = s.
Proof.
  revert x. induction s as [|c s IH]; intros x; [by intros [= <-]|]. destruct s as [|d r]; [by intros [= <-]|].
  change (split_blank (String c (String d r))) with
    (if Ascii.eqb c LF && Ascii.eqb d LF then "" :: split_blank r else push c (split_blank (String d r))).
  destruct (Ascii.eqb c LF && Ascii.eqb d LF).
  - intros [= _ E]. by apply split_blank_nonempty in E.
  - destruct (split_blank (String d r)) as [|y [|z l]] eqn:E; cbn [push]; intros [= <-]; [by apply split_blank_nonempty in E|].
    by rewrite (IH y).
Qed.

Lemma split_blank_two c d r : split_blank (String c (String d r))
  = if Ascii.eqb c LF && Ascii.eqb d LF then "" :: split_blank r else push c (split_blank (String d r)).
Proof. done. Qed.

Lemma split_blank_app a b : exists ps x, split_blank a = ps ++ [x] /\ split_blank (a +:+ b) = ps ++ split_blank (x +:+ b).
Proof.
  remember (String.length a) as n eqn:Hn. revert a Hn. induction (lt_wf n) as [n _ IH]. intros a ->.
  destruct a as [|c [|d r]]; [by exists [], ""|by exists [], (String c "")|].
  cbn [String.append]. rewrite !split_blank_two. destruct (Ascii.eqb c LF && Ascii.eqb d LF) eqn:Ecd.
  - destruct (IH (String.length r) ltac:(cbn; lia) r eq_refl) as (ps & x & -> & ->). by exists ("" :: ps), x.
  - destruct (IH (String.length (String d r)) ltac:(cbn; lia) (String d r) eq_refl) as (ps & x & E1 & E2).
    change (String d (r +:+ b)) with (String d r +:+ b). rewrite E1, E2. destruct ps as [|p ps]; [|by exists (String c p :: ps), x].
    apply split_blank_single in E1 as ->. exists [], (String c (String d r)). split; [done|].
    cbn [app String.append]. by rewrite split_blank_two, Ecd.
Qed.

Lemma split_blank_last a ps x : split_blank a = ps ++ [x] -> split_blank x = [x].
Proof.
  destruct (split_blank_app a "") as (ps' & x' & E1 & E2). rewrite !str_app_nil_r in E2. rewrite E1. intros [<- <-]%app_inj_tail.
  rewrite E1 in E2. by apply app_inv_head in E2.
Qed.

(** The reads so far do what one read of all their bytes does. *)
Lemma page_reads reads buf full : split_blank buf = [buf] ->
  exists ps x, split_blank (buf +:+ str_concat reads) = ps ++ [x] /\ foldl page_read (buf, full) reads = (x, foldl page_part full ps).
Proof.
  revert buf full. induction reads as [|v reads IH]; intros buf full Hb.
  - exists [], buf. by rewrite str_app_nil_r.
  - cbn [foldl]. change (str_concat (v :: reads)) with (v +:+ str_concat reads). rewrite <- str_app_assoc.
    destruct (split_blank_app (buf +:+ v) (str_concat reads)) as (ps & x & E1 & ->).
    unfold page_read at 2. cbn [fst snd]. rewrite E1, List.last_last, removelast_last.
    destruct (IH x (foldl page_part full ps) (split_blank_last _ _ _ E1)) as (ps' & x' & -> & E').
    exists (ps ++ ps'), x'. by rewrite app_assoc, foldl_app.
Qed.

(** ** One event *)

Lemma split_blank_event p r : absent LF p = true -> split_blank (p +:+ nl +:+ nl +:+ r) = p :: split_blank r.
Proof.
  induction p as [|c p IH]; [done|]. cbn [absent]. intros [Hc Hp]%andb_prop. cbn [String.append].
  assert (exists d k, p +:+ nl +:+ nl +:+ r = String d k) as (d & k & E) by (destruct p; by eexists _, _).
  specialize (IH Hp). rewrite E in *. rewrite split_blank_two. apply negb_true_iff in Hc. rewrite Ascii.eqb_sym in Hc.
  rewrite Hc. cbn [andb]. by rewrite IH.
Qed.

(** Events that the chat handler sends when the agent answers: texts in UTF-8,
    statistics that are the text of a value, the end. *)
Definition sound_event (e : sse_event) : Prop :=
  match e with
  | SseChunk c ids => utf8b c = true /\ forallb utf8b ids = true
  | SseStats json => exists v, json = text v /\ wf_any Some v = true /\ (N.of_nat (depth v) < maxNestingDepth)%N
  | SseDone => True
  | _ => False
  end.

Definition stats_tree (v : any) : any := AObj [("stats", v)].

Lemma named_stats v : named "stats" (text v) = text (stats_tree v).
Proof. done. Qed.

Lemma ids_wf ids : forallb (wf_any Some) (map AStr ids) = forallb utf8b ids.
Proof. induction ids as [|i ids IH]; [done|]. cbn [map forallb wf_any]. by rewrite IH. Qed.

Lemma chunk_tree_wf c ids : utf8b c = true -> forallb utf8b ids = true -> wf_any Some (chunk_tree c ids) = true.
Proof.
  intros Hc Hi. unfold chunk_tree. cbn [wf_any forallb fst snd]. rewrite Hc. destruct ids as [|i ids]; [done|].
  cbn [wf_any]. by rewrite ids_wf, Hi.
Qed.

Lemma chunk_tree_canon c ids : canon (chunk_tree c ids) = chunk_tree c ids.
Proof.
  assert (canon (match ids with [] => ANull | _ => AArr (map AStr ids) end) = match ids with [] => ANull | _ => AArr (map AStr ids) end) as E.
  { destruct ids; [done|]. cbn [canon]. by rewrite map_map. }
  unfold chunk_tree. cbn [canon map fst snd]. by rewrite E.
Qed.

Lemma chunk_tree_depth c ids : (N.of_nat (depth (chunk_tree c ids)) <= maxNestingDepth)%N.
Proof.
  assert (depth (match ids with [] => ANull | _ => AArr (map AStr ids) end) <= 1) as E.
  { destruct ids; [cbn; lia|]. cbn [depth]. apply le_n_S, list_max_le. rewrite map_map. apply List.Forall_map, Forall_forall. intros x _. cbn. lia. }
  unfold chunk_tree. cbn [depth map fst snd list_max foldr]. unfold maxNestingDepth. lia.
Qed.

(** The payload of a sound event that is not the end is the text of an object. *)
Definition event_tree (e : sse_event) (fields : list (string * any)) : Prop :=
  match e with
  | SseChunk c ids => AObj fields = chunk_tree c ids
  | SseStats json => exists v, json = text v /\ fields = [("stats", v)]
  | _ => False
  end.

Lemma sound_tree quote e : sound_event e -> e = SseDone \/ exists fields, event_tree e fields
  /\ sse_payload quote e = text (AObj fields) /\ wf_any Some (AObj fields) = true /\ (N.of_nat (depth (AObj fields)) <= maxNestingDepth)%N.
Proof.
  destruct e as [|c ids| |json| |]; intros H; try done; [right|right|by left].
  - destruct H as [Hc Hi]. pose proof (chunk_tree_wf _ _ Hc Hi) as Hw. eexists. split; [reflexivity|].
    split; [|split; [exact Hw|apply chunk_tree_depth]]. cbn [sse_payload].
    rewrite (Marshal_text _ (wf_distinct Some _ Hw)). by rewrite chunk_tree_canon.
  - destruct H as (v & -> & Hw & Hd). exists [("stats", v)]. split; [by exists v|]. split; [done|]. split.
    + cbn [wf_any forallb fst snd]. by rewrite Hw.
    + cbn [depth map fst snd list_max foldr]. lia.
Qed.

Lemma payload_line quote e : sound_event e -> absent LF ("data: " +:+ sse_payload quote e) = true.
Proof.
  intros H. destruct (sound_tree quote e H) as [->|(fields & _ & -> & Hw & _)]; [done|].
  apply no_control_absent; [vm_compute; lia|]. rewrite no_control_app, (text_control _ _ Hw). done.
Qed.

Definition event_text (e : sse_event) : string := match e with SseChunk c _ => c | _ => "" end.

(** Without errors the bubble shows the text so far; the page adds the text of
    an event to it. *)
Definition showing (full : string) : string * bubble := (full, if full =s "" then BBlank else BAnswer full).

Lemma page_event quote e full : sound_event e ->
  page_part (showing full) ("data: " +:+ sse_payload quote e) = showing (full +:+ event_text e).
Proof.
  intros H. unfold page_part. rewrite split_absent by by apply payload_line. cbn [page_lines].
  change (HasPrefix ("data: " +:+ sse_payload quote e) "data: ") with (HasPrefix (sse_payload quote e) "").
  change (str_drop 6 ("data: " +:+ sse_payload quote e)) with (sse_payload quote e).
  destruct (sound_tree quote e H) as [->|(fields & Ht & -> & Hw & Hd)].
  { change (event_text SseDone) with "". by rewrite str_app_nil_r. }
  assert (HasPrefix (text (AObj fields)) "" = true) as -> by done.
  assert (text (AObj fields) =s "[DONE]" = false) as -> by done.
  unfold page_data. rewrite Unmarshal_text by done.
  destruct e as [|c ids| |json| |]; try done; cbn [event_tree] in Ht; cbn [event_text].
  - injection Ht as ->. destruct c as [|c0 c]; [by rewrite str_app_nil_r|]. by destruct full.
  - destruct Ht as (v & _ & ->). rewrite str_app_nil_r. by destruct v.
Qed.

(** ** A whole answer *)

Lemma split_events quote l : Forall sound_event l ->
  split_blank (str_concat (sse_bytes quote <$> l)) = ((fun e => "data: " +:+ sse_payload quote e) <$> l) ++ [""].
Proof.
  induction l as [|e l IH]; intros H; [done|]. apply Forall_cons in H as [He Hl]. rewrite !fmap_cons.
  change (str_concat (sse_bytes quote e :: (sse_bytes quote <$> l))) with (sse_bytes quote e +:+ str_concat (sse_bytes quote <$> l)).
  unfold sse_bytes at 1. cbn [app]. rewrite <- IH by done. rewrite <- (split_blank_event _ _ (payload_line quote e He)).
  by rewrite !str_app_assoc.
Qed.

Lemma page_events quote l full : Forall sound_event l ->
  foldl page_part (showing full) ((fun e => "data: " +:+ sse_payload quote e) <$> l) = showing (full +:+ sent_text l).
Proof.
  revert full. induction l as [|e l IH]; intros full H; [by rewrite str_app_nil_r|]. apply Forall_cons in H as [He Hl].
  rewrite fmap_cons. cbn [foldl]. rewrite page_event, IH by done. rewrite str_app_assoc. by destruct e.
Qed.

(** However the bytes of the answer are cut into reads, the page shows the text
    that the handler sent. *)
Definition answer_shown (t : string) : bubble := if t =s "" then BNoReply else BAnswer t.

Lemma page_shows quote l reads : Forall sound_event l -> str_concat reads = str_concat (sse_bytes quote <$> l) ->
  page reads = answer_shown (sent_text l).
Proof.
  intros Hl E. unfold page. destruct (page_reads reads "" ("", BBlank) eq_refl) as (ps & x & Hs & ->).
  cbn [String.append] in Hs. rewrite E, split_events in Hs by done. apply app_inj_tail in Hs as [<- _].
  change ("", BBlank) with (showing ""). rewrite page_events by done. unfold showing, answer_shown. cbn [String.append].
  by destruct (sent_text l =s "").
Qed.

(** ** From the vendor to the browser *)

Lemma str_concat_utf8 l : Forall (fun s => utf8b s = true) l -> utf8b (str_concat l) = true.
Proof.
  intros H. apply utf8b_complete. induction H as [|s l Hs _ IH]; [constructor|]. change (str_concat (s :: l)) with (s +:+ str_concat l).
  apply utf8_app; [by apply utf8b_sound|done].
Qed.

Lemma contents_utf8 es : Forall (fun e => sendable e = true) es -> utf8b (contents es) = true.
Proof.
  intros H. apply str_concat_utf8, Forall_fmap, Forall_forall. intros d Hd. unfold event_deltas in Hd.
  apply list_elem_of_omap in Hd as (e & He & Hd). rewrite Forall_forall in H. specialize (H e He).
  unfold sendable in H. destruct (s_Choices e) as [|c cs]; [done|]. injection Hd as <-. cbn [forallb] in H.
  unfold choice_sendable, delta_sendable in H. by bool_prop.
Qed.

(** The statistics that the model gives, if any. *)
Definition stats_sound (json : string) : Prop := json = "" \/ sound_event (SseStats json).

Lemma statistics_sound tel :
  (forall t, tel = Some t -> utf8b (crModel (last t)) = true /\ in_int64 (crPrompt (last t)) = true /\ in_int64 (crCompletion (last t)) = true) ->
  stats_sound (Stats.StatsJSON tel).
Proof.
  destruct tel as [t|]; intros H; [right|by left]. destruct (H t eq_refl) as (H1 & H2 & H3).
  assert (wf_any Some (AObj (FormatMap t)) = true) as Hw by (apply FormatMap_wf; try done; by repeat constructor).
  exists (canon (AObj (FormatMap t))). split; [apply Marshal_text, (wf_distinct Some), Hw|]. split; [by apply canon_wf|].
  rewrite canon_depth. pose proof (window_range (crModel (last t))). unfold FormatMap. rewrite (proj2 (Z.ltb_lt 0 _)) by lia.
  vm_compute. reflexivity.
Qed.

Lemma events_sound l out json : Forall (chunk_of (fun c => utf8b c = true)) out -> stats_sound json ->
  l = out \/ l = out ++ (if json <>s "" then [SseStats json] else []) ++ [SseDone] -> Forall sound_event l.
Proof.
  intros Ho Hs Hl. assert (Forall sound_event out) as Ho'.
  { eapply Forall_impl; [exact Ho|]. intros e (c & -> & Hc). done. }
  destruct Hl as [->| ->]; [done|]. apply Forall_app. split; [done|]. apply Forall_app. split; [|by repeat constructor].
  destruct Hs as [->|Hs]; [constructor|]. destruct (json <>s ""); repeat constructor. done.
Qed.

Section Browser.
Context {W F : Type} (hooks : list (LifecycleHook W)) (url_Parse : string -> option URL) (env : stream_env)
        (chat : Request -> gerror + Response) (tools : list tool_info) (op : options).

(** C1: From the bytes of the vendor to the browser: with an agent framework that
    passes on an answer without tool calls, as its documentation says, and a
    vendor that streams such an answer, the text that the page shows, however
    the network cuts the bytes of the events of [HandleChatStream] into reads,
    is the joined text of the vendor's deltas; and the session has gained the
    question and that answer. *)
Theorem vendor_to_browser quote react_NewAgent (cfg : AgentConfig (@cworld W)) a StatsJSON t1 t2
    (s : @server (@main_world (@cworld W)) F) r msg hist es fin rest :
  (forall rc a, react_NewAgent rc = inr a -> answers_directly rc a) ->
  ac_Bridge cfg = Some (bridge_model hooks url_Parse env chat tools op) ->
  NewReactAgent react_NewAgent (Some cfg) = inr a ->
  rw_store (sv_W s) = None -> stream_post r msg ->
  conversation s r = Some <$> hist -> Forall carried (Some <$> hist) ->
  completion_reply hooks env (rw_W (sv_W s)) es fin rest ->
  (forall w, stats_sound (StatsJSON w)) ->
  exists s' l, HandleChatStream (main_Stream a undisturbed) StatsJSON t1 t2 s r = (s', HEvents l)
    /\ (forall reads, str_concat reads = str_concat (sse_bytes quote <$> l) -> page reads = answer_shown (contents (es ++ [fin])))
    /\ msgs_of (sv_sessions s') (sessionID (sv_sessions s) r)
       = (Some <$> hist) ++ [UserMessage msg; AssistantMessage (contents (es ++ [fin]))].
Proof.
  intros Hdoc Hbr Hnew Hst Hp Hh Hc Hr Hss.
  destruct (vendor_to_client hooks url_Parse env chat tools op react_NewAgent cfg a StatsJSON t1 t2 s r msg hist es fin rest
    Hdoc Hbr Hnew Hst Hp Hh Hc Hr) as (s' & l & EH & Ht & _ & Hm & out & Ho & Hl).
  exists s', l. split; [done|]. split; [|done]. intros reads E. rewrite <- Ht. apply (page_shows quote l reads); [|done].
  apply (events_sound l out (StatsJSON (sv_W s'))); [|done|done]. apply Ho; [done|].
  apply contents_utf8. pose proof (cr_sendable _ _ _ _ _ _ Hr) as H. apply Forall_app in H as [H1 [H2 _]%Forall_cons].
  apply Forall_app. split; [eapply Forall_impl; [exact H1|]; by intros ? []|constructor; [by destruct H2|constructor]].
Qed.
End Browser.

(** ** Witness *)

(** The handler's bytes arrive in three reads, cut inside a line and between the
    two newlines of a blank line. *)
Definition hello_reads : list string :=
  ["data: {" +:+ dq +:+ "content" +:+ dq +:+ ":" +:+ dq +:+ "Hel";
   "lo!" +:+ dq +:+ "," +:+ dq +:+ "tool_calls" +:+ dq +:+ ":null}" +:+ nl;
   nl +:+ "data: [DONE]" +:+ nl +:+ nl].

Lemma vendor_to_browser_witness :
  exists s' l, HandleChatStream (main_Stream hello_fw undisturbed) (fun _ => "") 0 0 hello_server question = (s', HEvents l)
    /\ str_concat hello_reads = str_concat (sse_bytes (fun s => s) <$> l) /\ page hello_reads = BAnswer "Hello!"
    /\ msgs_of (sv_sessions s') "s" = [UserMessage "hi"; AssistantMessage "Hello!"].
Proof.
  destruct (vendor_to_browser [counting_hook] (fun _ => None) hello_env (fun _ => inl EEOF) [] no_options (fun s => s) one_call
    hello_agent hello_fw (fun _ => "") 0 0 hello_server question "hi" [] hello_events hello_end []) as (s' & l & E & Hp & Hm).
  - apply one_call_answers.
  - reflexivity.
  - reflexivity.
  - reflexivity.
  - repeat split.
  - reflexivity.
  - constructor.
  - apply hello_reply.
  - by left.
  - exists s', l. split; [exact E|]. assert (str_concat hello_reads = str_concat (sse_bytes (fun s => s) <$> l)) as Hb.
    { assert (HEvents l = HEvents [SseChunk "Hello!" []; SseDone]) as [= ->]; [|vm_compute; reflexivity].
      etransitivity; [symmetry; exact (f_equal snd E)|vm_compute; reflexivity]. }
    split; [exact Hb|]. split; [exact (Hp _ Hb)|exact Hm].
Defined.

(** The handler sends an error instead of an answer, so that no text has come
    when the stream ends: the notice for an empty answer replaces the error. *)
Definition json_quote (s : string) : string := dq +:+ s +:+ dq.

Example error_is_not_shown : page [sse_bytes json_quote (SseError "agent stream: no key")] = BNoReply
  /\ (foldl page_read ("", ("", BBlank)) [sse_bytes json_quote (SseError "agent stream: no key")]).2.2 = BError "agent stream: no key".
Proof. split; vm_compute; reflexivity. Qed.

(** The answer to an image arrives, and the page shows that the request failed. *)
Example image_answer_not_shown :
  image_page 200 [sse_bytes json_quote (SseContent "a cat"); sse_bytes json_quote SseDone]
  = ("a cat", Some "请求失败: bubble is not defined").
Proof. vm_compute. reflexivity. Qed.
