(* ===== verification/Site.v ===== *)
(** * The site

    The rest of [main.go] and of [internal/server/server.go]: the tools that
    [main] registers and hands to the agent, the observers it switches on, the
    routes, the page, the download of an image, and what the handlers write to
    the log of a session. *)
From stdpp Require Import base tactics list gmap fin_maps strings pretty.
From Stdlib Require Import ZArith Lia.
From S2P Require Import Prelude GoStrings Types Redact Bridge EnvConfig Tools Session Agent Logs HttpTools React.

(** ** Tools *)

(** The arguments of the calls of [registerTool], in their order. *)
Definition main_tools : list (string * string) :=
  [("terminal", "在 Windows 终端执行 shell 命令"); ("web_search", "在互联网上搜索信息");
   ("compress", "压缩长文本内容，保留关键信息"); ("read_file", "读取文件内容，可指定行范围");
   ("write_file", "创建或覆写文件"); ("edit_file", "在文件中查找替换文本"); ("glob", "按 glob 模式搜索文件");
   ("grep", "在文件中搜索文本"); ("vision", "分析图片内容，支持URL和base64 data URI")].
Definition toolNames : list string :=
  ["terminal"; "web_search"; "compress"; "read_file"; "write_file"; "edit_file"; "glob"; "grep"; "vision"].
Definition systemPrompt : string :=
  "你是密米尔，一个沉稳睿智的 AI 助手。思考步骤和调用工具时使用中文，但在输出最终回答时，请结合用户提问所使用的语言（中文或英文），使用对应的语言输出。不要同时输出中英文混合的内容。".

Section Assembly.
Context {W : Type}.
(** [utils.InferTool] on the function that is registered under a name. *)
Context (InferTool : string -> string -> gerror + base_tool W).

(** [None] is [log.Fatal]. *)
Definition registerTool (reg : option (registry W)) (d : string * string) : option (registry W) :=
  match reg, InferTool d.1 d.2 with
  | Some reg, inr t => Some (fun name => if name =s d.1 then Some t else reg name)
  | _, _ => None
  end.

Definition main_registry : option (registry W) := foldl registerTool (Some (fun _ => None)) main_tools.

Definition main_agent (cfg : AppConfig) (br : chat_model W) (reg : registry W) : React.AgentConfig W :=
  mkAC (Some br) reg toolNames systemPrompt (ac_MaxStep (c_Agent cfg)) None None.
End Assembly.

(** ** Observers *)

(** What [main] attaches to the client: the processors subscribed to the chunk
    bus, the tracker of the telemetry, and whether there is an MCP server.
    [tracker] is what [NewUsageTracker] answers; [has_bus] and [has_tel] are
    the two type assertions. *)
Record observers (T : Type) := mkObs { ob_raw : option RawLogProcessor; ob_tracker : option T; ob_mcp : option T }.
Arguments mkObs {T}. Arguments ob_raw {T}. Arguments ob_tracker {T}. Arguments ob_mcp {T}.

Definition main_observers {T} (has_bus has_tel mkdir_ok : bool) (tracker : string -> gerror + T) (raw : RawConfig) : observers T :=
  let r := if rc_RawLog raw && has_bus then Some (NewRawLogProcessor mkdir_ok (rc_RawLogDir raw)) else None in
  if rc_UsageDB raw then
    match tracker (rc_UsageDBPath raw) with
    | inl _ => mkObs r None None
    | inr t => mkObs r (if has_tel then Some t else None) (Some t)
    end
  else mkObs r None None.

(** ** Routes *)

Inductive route := RPage (data : string) | RNotFound | RChat | RChatStream | RVision | RVisionNative | RMCP.

Definition ServeFrontend (frontend path : string) : route := if path <>s "/" then RNotFound else RPage frontend.

(** The patterns without a trailing slash match themselves; ["/"] matches the
    rest. *)
Definition main_route (frontend : string) (mcp : bool) (path : string) : route :=
  if path =s "/api/chat" then RChat
  else if path =s "/api/chat/stream" then RChatStream
  else if path =s "/api/vision" then RVision
  else if path =s "/api/vision/native" then RVisionNative
  else if (path =s "/mcp") && mcp then RMCP
  else ServeFrontend frontend path.

(** ** The download of an image *)

Section Download.
Context (bad_url : string -> option gerror).
(** The status, the content type and the body, which may fail to be read, of
    the answer that is left when the client has followed the redirects. *)
Context (client_Do : http_request -> gerror + Z * string * (gerror + string)) (DetectContentType : string -> string).

Definition image_get (url : string) : http_request :=
  mkHReq "GET" url [("User-Agent", "Mozilla/5.0 (Windows NT 10.0; Win64; x64)")] "".

Definition fetchImageDataURL (url : string) : gerror + string :=
  match bad_url url with
  | Some e => inl e
  | None =>
      match client_Do (image_get url) with
      | inl e => inl e
      | inr (status, contentType, body) =>
          if negb (status =? 200)%Z then inl (EMsg ("HTTP " +:+ pretty status))
          else match body with
               | inl e => inl e
               | inr data =>
                   let ct := if contentType =s "" then DetectContentType data else contentType in
                   inr ("data:" +:+ ct +:+ ";base64," +:+ EncodeToString data)
               end
      end
  end.
End Download.

(** ** The log of a session *)

(** [dir] is the directory of the session's file. *)
Definition log_at (dir ts : string) (o : sop) (p : nat) (g : loggers) : loggers :=
  match rg_heap g !! p with
  | None => g
  | Some l => let '(l', fs) := run_sop dir ts o l (rg_files g) in Logs.mkReg (<[p := l']> (rg_heap g)) (rg_next g) (rg_map g) fs
  end.

Definition logUserMessage (m : moment) (mkdir_ok : bool) (stamp logDir dir ts sid text : string) (g : loggers) : loggers :=
  match sl_Open m mkdir_ok stamp logDir sid g with
  | (g1, Some p) => log_at dir ts (OpUser text) p g1
  | (g1, None) => g1
  end.

(** [stats] is [s.model.StatsLine()]. *)
Definition logAssistantResponse (stamp stats dir ts sid content : string) (g : loggers) : loggers :=
  match sl_Get g sid with
  | None => g
  | Some p => log_at dir ts (OpResponse (str_take 200 content) content stats stamp) p g
  end.

(** The function that [injectLogCtx] puts into the context, on the formatted
    message [text]: [Sprintf] is [fmt.Sprintf] without arguments, which
    [LogRaw] applies to the message. *)
Definition ctx_logf (Sprintf : string -> string) (m : moment) (caller : option (string * string)) (dir ts sid text : string)
    (log : Logger) (g : loggers) : Logger * loggers :=
  let msg := RedactString text in
  let '(log', fs) := output m INFO caller msg log (rg_files g) in
  let g1 := Logs.mkReg (rg_heap g) (rg_next g) (rg_map g) fs in
  (log', match sl_Get g1 sid with None => g1 | Some p => log_at dir ts (OpRaw (Sprintf msg)) p g1 end).

(** * Properties *)

(** ** Assembly *)

Section Registered.
Context {W : Type} (InferTool : string -> string -> gerror + base_tool W).

Lemma registerTool_some reg d reg' : registerTool InferTool reg d = Some reg' ->
  exists reg0 t, reg = Some reg0 /\ InferTool d.1 d.2 = inr t /\ reg' = fun name => if name =s d.1 then Some t else reg0 name.
Proof. unfold registerTool. destruct reg as [reg0|]; [|done]. destruct (InferTool _ _) as [|t]; [done|]. intros [= <-]. by exists reg0, t. Qed.

(** With distinct names, every tool of a list of registrations is found. *)
Lemma registered l : NoDup l.*1 -> forall reg0 reg, foldl (registerTool InferTool) (Some reg0) l = Some reg ->
  Forall (fun d => exists t, InferTool d.1 d.2 = inr t /\ reg d.1 = Some t) l.
Proof.
  induction l as [|d l IH] using rev_ind; [constructor|]. rewrite fmap_app, NoDup_app. intros (Hl & Hd & _) reg0 reg H.
  rewrite foldl_app in H. apply registerTool_some in H as (reg1 & t & H1 & Ht & ->).
  apply Forall_app. split; [|constructor; [|constructor]].
  - pose proof (IH Hl reg0 reg1 H1) as Hall. rewrite Forall_forall in *. intros x Hx. destruct (Hall x Hx) as (u & Hu & Hr).
    exists u. split; [done|]. destruct (String.eqb_spec x.1 d.1) as [E|]; [|done].
    exfalso. apply (Hd x.1); [apply list_elem_of_fmap; eauto|]. rewrite E. apply list_elem_of_singleton. done.
  - exists t. split; [done|]. by rewrite String.eqb_refl.
Qed.

(** The agent that [main] builds is configured with the nine tools, each made
    from the function registered under its name, in the order of the names. *)
Lemma main_agent_tools cfg br reg : main_registry InferTool = Some reg ->
  Forall2 (fun d t => InferTool d.1 d.2 = inr t) main_tools (rc_Tools (agent_config (main_agent cfg br reg) br)).
Proof.
  intros H. assert (NoDup main_tools.*1) as Hn by (apply (bool_decide_eq_true_1 _); vm_compute; reflexivity).
  pose proof (registered main_tools Hn _ _ H) as Hall.
  unfold agent_config, main_agent, agent_tools, einoTools. cbn [rc_Tools ac_Middleware ac_Guardrails ac_Tools ac_ToolNames].
  assert (toolNames = main_tools.*1) as -> by reflexivity. clear H Hn.
  induction Hall as [|d l (t & Ht & Hr) _ IH]; [constructor|]. rewrite fmap_cons. cbn [omap list_omap]. rewrite Hr. by constructor.
Qed.
End Registered.

(** Every path outside the table is answered with the page or with 404. *)
Lemma main_route_other frontend mcp path :
  path ∉ ["/api/chat"; "/api/chat/stream"; "/api/vision"; "/api/vision/native"; "/mcp"] ->
  main_route frontend mcp path = if path =s "/" then RPage frontend else RNotFound.
Proof.
  rewrite !not_elem_of_cons. intros (H1 & H2 & H3 & H4 & H5 & _). unfold main_route, ServeFrontend.
  rewrite !(proj2 (String.eqb_neq path _)) by done. cbn [andb]. by destruct (path =s "/").
Qed.

(** ** Images *)

(** A downloaded image is what the server answered with status 200; its bytes
    can be read back from the data URL. *)
Lemma fetchImageDataURL_ok bad_url client_Do detect url d : fetchImageDataURL bad_url client_Do detect url = inr d ->
  exists ct ct' data, client_Do (image_get url) = inr (200%Z, ct, inr data) /\ d = "data:" +:+ ct' +:+ ";base64," +:+ EncodeToString data
    /\ DecodeString (EncodeToString data) = Some data /\ ct' = (if ct =s "" then detect data else ct).
Proof.
  unfold fetchImageDataURL. destruct (bad_url url); [done|]. destruct (client_Do _) as [|[[status ct] [e|data]]]; [done|by destruct (negb _)|].
  destruct (Z.eqb_spec status 200) as [->|]; [|done]. intros [= <-]. exists ct. eexists _, data. eauto using base64_roundtrip.
Qed.

(** The vision tool refuses a private address; the server downloads from it. *)
Example private_image_downloaded :
  fetchImageDataURL (fun _ => None) (fun _ => inr (200%Z, "image/png", inr "PNG!")) (fun _ => "") "http://10.0.0.5/a.png"
  = inr ("data:image/png;base64," +:+ EncodeToString "PNG!")
  /\ (fetchImage tool_env tool_net tool_resolve String.eqb (fun _ _ => "") (fun _ => None) tool_parse tool_ip [] "http://10.0.0.5/a.png") = ([], inl PrivateImageURL).
Proof. split; vm_compute; reflexivity. Qed.

(** ** Logs of sessions *)

(** The loggers of the other sessions, through whatever pointer. *)
Definition others_kept (sid : string) (g g' : loggers) : Prop :=
  forall sid' p, rg_map g !! sid' = Some p -> sid' <> sid -> rg_map g' !! sid' = Some p /\ rg_heap g' !! p = rg_heap g !! p.

Lemma log_at_inv dir ts o sid p g : reg_inv g -> rg_map g !! sid = Some p ->
  reg_inv (log_at dir ts o p g) /\ others_kept sid g (log_at dir ts o p g).
Proof.
  intros (H1 & H2 & H3) Hp. destruct (H1 sid p Hp) as (Hlt & l & Hl & Hs & Hf). unfold log_at. rewrite Hl. unfold run_sop.
  destruct (sl_file l) as [path|]; [|done].
  assert (forall sid' p', rg_map g !! sid' = Some p' -> sid' <> sid -> p <> p') as Hinj.
  { intros sid' p' Hp' Hn ->. destruct (H1 sid' p' Hp') as (_ & l' & Hl' & Hs' & _). congruence. }
  split; [split; [|split]|]; cbn [rg_map rg_heap rg_next].
  - intros sid' p' Hp'. destruct (H1 sid' p' Hp') as (Hlt' & l' & Hl' & Hs' & Hf'). split; [done|].
    destruct (decide (p = p')) as [<-|Hne]; [rewrite lookup_insert_eq|rewrite lookup_insert_ne by done; eauto].
    eexists. split; [reflexivity|]. split; [|done]. simpl. congruence.
  - intros p' [l' [[<- _]|[_ Hl']]%lookup_insert_Some]; [done|]. by apply H2.
  - intros p' l' [[<- _]|[_ Hl']]%lookup_insert_Some Hf'; [by exists sid|]. by eapply H3.
  - intros sid' p' Hp' Hn. cbn [rg_map rg_heap]. split; [done|]. by rewrite lookup_insert_ne by (by eapply Hinj).
Qed.

Lemma logUserMessage_inv m ok stamp logDir dir ts sid text g : reg_inv g ->
  reg_inv (logUserMessage m ok stamp logDir dir ts sid text g)
  /\ others_kept sid g (logUserMessage m ok stamp logDir dir ts sid text g).
Proof.
  intros Hg. unfold logUserMessage. pose proof (reg_inv_open m ok stamp logDir sid g Hg) as Ho.
  destruct (sl_Open m ok stamp logDir sid g) as [g1 [p|]] eqn:E; cbn [fst] in Ho; unfold sl_Open in E.
  - assert (rg_map g1 !! sid = Some p) as Hp.
    { destruct (rg_map g !! sid) eqn:Em; [by injection E as <- <-|]. destruct (sl_New _ _ _ _ _ _) as [[l fs]|]; [|done].
      injection E as <- <-. cbn [rg_map]. by rewrite lookup_insert_eq. }
    destruct (log_at_inv dir ts (OpUser text) sid p g1 Ho Hp) as [Hi Hk]. split; [done|]. intros sid' p' Hp' Hn.
    assert (rg_map g1 !! sid' = Some p' /\ rg_heap g1 !! p' = rg_heap g !! p') as [Hm <-]; [|by apply Hk].
    destruct (rg_map g !! sid) eqn:Em; [by injection E as <- _|]. destruct (sl_New _ _ _ _ _ _) as [[l fs]|]; [|done].
    injection E as <- _. cbn [rg_map rg_heap]. destruct Hg as (H1 & _). destruct (H1 sid' p' Hp') as (Hlt & _).
    by rewrite !lookup_insert_ne by (done || lia).
  - split; [done|]. assert (g1 = g) as -> by (destruct (rg_map g !! sid); [done|]; destruct (sl_New _ _ _ _ _ _) as [[]|]; by injection E as <-).
    by intros sid' p' ? _.
Qed.

Lemma logAssistantResponse_inv stamp stats dir ts sid content g : reg_inv g ->
  reg_inv (logAssistantResponse stamp stats dir ts sid content g)
  /\ others_kept sid g (logAssistantResponse stamp stats dir ts sid content g).
Proof.
  intros Hg. unfold logAssistantResponse, sl_Get. destruct (rg_map g !! sid) as [p|] eqn:E; [by apply log_at_inv|]. split; [done|].
  by intros sid' p' ? _.
Qed.

Lemma ctx_logf_inv Sprintf m caller dir ts sid text log g : reg_inv g ->
  reg_inv (ctx_logf Sprintf m caller dir ts sid text log g).2 /\ others_kept sid g (ctx_logf Sprintf m caller dir ts sid text log g).2.
Proof.
  intros Hg. unfold ctx_logf. destruct (output _ _ _ _ _ _) as [log' fs]. cbn [snd].
  unfold sl_Get. cbn [rg_map]. destruct (rg_map g !! sid) as [p|] eqn:E; [|split; [exact Hg|by intros sid' p' ? _]].
  exact (log_at_inv dir ts (OpRaw (Sprintf (RedactString text))) sid p (Logs.mkReg (rg_heap g) (rg_next g) (rg_map g) fs) Hg E).
Qed.
